(* ===== verification/_CoqProject ===== *)
-Q . S2P
Prelude.v
Float64.v
GoStrings.v
FloatText.v
GoErrors.v
Gobreaker.v
Spans.v
RateLimit.v
Partitioned.v
PartitionedConc.v
RedisLimiter.v
RedisConc.v
Health.v
HealthExec.v
Runner.v
GoHTTP.v
Writers.v
Metrics.v
Exposition.v
MetricsConc.v
MetricsHTTP.v
HTTPMiddleware.v
CircuitBreaker.v
JSONText.v
Patterns.v
Mux.v
HTTPRuntime.v
Serving.v
Chassis.v
Probes.v
GRPCRuntime.v
GRPCProgress.v
Tracing.v
HTTPPreset.v
SystemRoutes.v
GRPCMiddleware.v
GRPCServing.v
GoNet.v
OTel.v
Logger.v
Examples.v
