(* ===== verification/Prelude.v ===== *)
(** * DenseCloud: verification of the Go serving chassis

    DenseCloud ([src/go]) is a library for HTTP and gRPC services: rate
    limiters, middleware and interceptors, health probes, metrics, tracing,
    and runtimes that start and stop in order.  This library models the code
    of [go/middleware], [go/server] and [go/telemetry], the programs of
    [go/examples] on top of it, and proves what makes it correct.

    ** Conventions

    A Go call that reads or writes shared state, reads the clock or panics is
    a computation of the monad [M S] below: a function from the state [S] and
    the readings of the clock to an outcome, [Ret] or [Panic], and the state
    after it.  [defer] and [recover] are [deferring] and [recovering]; a
    panic keeps the state it left.  Where goroutines interleave
    (HealthExec, GRPCRuntime, PartitionedConc, RedisConc, MetricsConc) the
    code is a step relation whose steps are the critical sections, and the
    theorems quantify over every run; PartitionedConc and RedisConc take the
    sequential code apart, and a call alone takes their steps in its order.  A Go error
    is an [option error] (GoErrors), a nil pointer or interface an [option]
    or an [iface].  [int64] and [uint64] wrap around ([wrap64], [wrapu64]), a
    [time.Duration] is a number of nanoseconds, [float64] is binary64
    (Float64), strings are bytes.  Definitions have the names of the source,
    methods with the type's name where two would clash.  All definitions
    compute.

    ** Files

    The language and its standard library:
    - Prelude: the monad, machine integers, clocks, tactics and hints;
    - Float64: binary64 arithmetic with its exactness lemmas; FloatText:
      [strconv.FormatFloat] and [ParseFloat];
    - GoStrings, GoNet: [strings], [net.SplitHostPort], [net.ParseIP];
    - GoErrors: errors, [errors.Is], gRPC statuses; Gobreaker: the breaker of
      gobreaker, as both middlewares use it;
    - GoHTTP: headers, requests, the response and its wrappers; Writers: what
      writes do to them; Patterns: the patterns of [http.ServeMux], parsed and
      compared; Mux: the mux, registration and dispatch;
    - Spans: the contexts and spans of OpenTelemetry;
    - JSONText: the text [encoding/json] writes for a report, read back.

    [go/middleware]:
    - RateLimit ([ratelimit.go]): the token bucket on float64 refines a bucket
      on integers over whole seconds, and on any clock admits what a real
      bucket does, up to a bounded rounding; default keys;
    - Partitioned ([ratelimit_partitioned.go]): the map of pointers refines a
      finite map of buckets, stays within its bound, keeps keys apart;
      PartitionedConc: the same, and what is admitted, of calls that
      interleave;
    - RedisLimiter ([ratelimit_redis.go]): the Lua script, and the circuit
      that falls back to the in-memory limiter; RedisConc: the commands of
      overlapping calls in an outage;
    - HTTPMiddleware ([http.go], the handlers of [ratelimit.go]): each
      middleware around any handler; CircuitBreaker ([circuitbreaker.go]);
    - Tracing ([tracing.go], [otelhttp.go]);
    - GRPCMiddleware ([grpc.go], [grpc_preset.go]): the interceptors, their
      chain, and a call through the whole preset.

    [go/server]:
    - Health, HealthExec ([health.go]): the registry and its answers; the
      concurrent checks, run once at a time, sound and terminating; Probes:
      the handlers, from the request to the line of JSON;
    - Runner ([runner.go]): the order and result of a run on every path;
    - HTTPRuntime ([runtime.go], [extensions.go], [http_preset.go]): assembly
      of the root handler, its errors and panics, routes, also those added
      later, startup and shutdown; HTTPPreset: a request through the preset
      and the metrics, its panic included, before or after its status went
      out; SystemRoutes: scrapes and probes of an assembled runtime, behind
      any preset and the system middleware that lets them through; Chassis:
      the runner around a runtime, from the first startup hook to the error
      of the run;
    - GRPCRuntime ([grpc_runtime.go]): hooks and health in any interleaving of
      [Start], [Stop] and [GracefulStop]; GRPCProgress: those calls finish;
      GRPCServing: the server, its options and metrics, and the calls it
      handles.

    [go/telemetry]:
    - Metrics ([metrics.go], [grpc_metrics.go]): counters and histograms
      refine the log of observations, rendering is deterministic; Exposition:
      the rendered text read back; MetricsConc: scrapes among requests, with
      the pointers of the histograms and their copies, and the collectors
      they ask; MetricsHTTP: the metrics middleware and the scrape handler;
      Serving: the runtime that serves its own metrics;
    - OTel ([otel.go]): set-up and shutdown of tracing;
    - Logger ([logger.go]).

    [go/examples]:
    - Examples: the programs, a request and a scrape of them answered.

    ** Interfaces

    What the repository calls but does not contain is a type class with the
    operations used, and a second one with the documented laws where a
    theorem needs them, each with a concrete instance that a witness uses:
    [RedisServer] and [RedisHashes] (Redis), [HealthServer] (gRPC health),
    [Breaker] (gobreaker), [Tracer] and [TracingSDK] (OpenTelemetry),
    [Metadata] and [ServerLib] (gRPC).  Inside the repository, the clients
    of a limiter use [RateLimiterInterface] and [KeyedRateLimiter], which the
    three limiters implement; the metrics use [PrometheusCollector], which
    the gRPC metrics implement, and handlers find them through
    [MetricsState].  Random bytes are a computation that is given.

    ** Fuel and bounds

    [trim_left] has a round for each byte, and each round that goes on removes
    one.  The search of [FormatFloat] goes up to the exact expansion, which
    reads back ([format_float_reads]).  [ipv6_groups] has the eight rounds of
    the source's loop over sixteen bytes.  [lower_fuel] consumes a byte a
    round.  Exposition reads a line with its length as fuel, and the theorem
    is that the reading succeeds.

    ** Not modelled

    The options given to [sdktrace.NewTracerProvider] are values passed on,
    and so are the addresses and timeouts of [http.Server].  [Health] and
    [Address] of the gRPC runtime return a field.  Lines written with [slog]
    are modelled where they are the point of the code: the access log, the
    log of the interceptors, and the errors the examples end with.  Health
    checks and hooks that call back into the runtime they belong to are
    outside GRPCProgress and HealthExec.  [http.ServeMux] refuses the patterns
    Go refuses, but matches requests against literal paths only: methods,
    hosts, wildcards and escapes in a pattern are not matched, queries and
    CONNECT are left out, and names of wildcards are ASCII.  The chart, the
    scripts and the workflows are not Go.

    ** Next

    The JSON of the access log; scrapes of the gRPC metrics among calls;
    outages of Redis longer than the reset timeout, with their trials;
    requests matched against patterns with wildcards. *)

From stdpp Require Export prelude gmap strings list fin_maps fin_sets.
From Stdlib Require Export ZArith Lia.

#[global] Set Default Goal Selector "!".
#[global] Open Scope Z_scope.

(** ** Machine integers of the source *)

Definition int64_min : Z := - 2 ^ 63.
Definition int64_max : Z := 2 ^ 63 - 1.

(** Two's-complement wrap-around of Go's [int64] (and of [int] on 64-bit
    targets), and of [uint64]. *)
Definition wrap64 (z : Z) : Z := (z + 2 ^ 63) mod 2 ^ 64 - 2 ^ 63.
Definition wrapu64 (z : Z) : Z := z mod 2 ^ 64.

Definition is_int64 (z : Z) : Prop := int64_min <= z <= int64_max.

(** ** Durations and instants

    A [time.Duration] is a count of nanoseconds.  [time.Time.Sub] saturates
    at the ends of the [int64] range. *)
Definition Nanosecond : Z := 1.
Definition Millisecond : Z := 1000000.
Definition Second : Z := 1000000000.
Definition Minute : Z := 60 * Second.
Definition Hour : Z := 60 * Minute.

Definition time_sub (t u : Z) : Z := Z.max int64_min (Z.min int64_max (t - u)).

(** ** A state monad with a clock and panics

    [M S A] is a Go call that reads and writes a state [S], may read the
    clock, and returns an [A] or panics.  Every [time.Now()] consumes one
    reading of [clk] (monotonic nanoseconds) and of [wall] (Unix
    nanoseconds), so two calls in a row see two readings. *)
Definition panic_value := string.

Inductive outcome (A : Type) : Type :=
| Ret (a : A)
| Panic (v : panic_value).
Arguments Ret {A} a.
Arguments Panic {A} v.

Record Clocked (S : Type) : Type := mkClocked {
  clk : nat -> Z;
  wall : nat -> Z;
  tick : nat;
  st : S
}.
Arguments mkClocked {S} _ _ _ _.
Arguments clk {S} _ _.
Arguments wall {S} _ _.
Arguments tick {S} _.
Arguments st {S} _.

Definition with_st {S T : Type} (c : Clocked S) (t : T) : Clocked T :=
  mkClocked (clk c) (wall c) (tick c) t.

Definition next_tick {S : Type} (c : Clocked S) : Clocked S :=
  mkClocked (clk c) (wall c) (Datatypes.S (tick c)) (st c).

Definition M (S A : Type) : Type := Clocked S -> outcome A * Clocked S.

#[global] Instance M_ret S : MRet (M S) := fun A a c => (Ret a, c).
#[global] Instance M_bind S : MBind (M S) := fun A B f m c =>
  match m c with
  | (Ret a, c') => f a c'
  | (Panic v, c') => (Panic v, c')
  end.

Definition get {S} : M S S := fun c => (Ret (st c), c).
Definition put {S} (s : S) : M S unit := fun c => (Ret tt, with_st c s).
Definition modify {S} (f : S -> S) : M S unit := fun c => (Ret tt, with_st c (f (st c))).
Definition gets {S A} (f : S -> A) : M S A := fun c => (Ret (f (st c)), c).
Definition state {S A} (f : S -> A * S) : M S A := fun c =>
  let '(a, s') := f (st c) in (Ret a, with_st c s').
Definition panic {S A} (v : panic_value) : M S A := fun c => (Panic v, c).

(** [time.Now()], and [time.Now().Unix()]. *)
Definition now {S} : M S Z := fun c => (Ret (clk c (tick c)), next_tick c).
Definition now_unix {S} : M S Z := fun c => (Ret (wall c (tick c) / Second), next_tick c).

(** [defer func() { if rec := recover(); rec != nil { ... } }()]. *)
Definition recovering {S A} (body : M S A) (h : panic_value -> M S A) : M S A := fun c =>
  match body c with
  | (Ret a, c') => (Ret a, c')
  | (Panic v, c') => h v c'
  end.

Definition outcome_map {X Y} (f : X -> Y) (o : outcome X) : outcome Y :=
  match o with Ret a => Ret (f a) | Panic v => Panic v end.

(** [defer cleanup()]: the cleanup sees whether the body panicked, runs in
    both cases, and the panic goes on. *)
Definition deferring {S A} (body : M S A) (cleanup : outcome A -> M S unit) : M S A := fun c =>
  match body c with
  | (o, c') =>
      match cleanup o c' with
      | (Ret _, c'') => (o, c'')
      | (Panic v, c'') => (Panic v, c'')
      end
  end.

(** A component's operation run on the part of a larger state it owns. *)
Definition zoom {W S A} (view : W -> S) (upd : S -> W -> W) (m : M S A) : M W A := fun c =>
  match m (with_st c (view (st c))) with
  | (o, c') => (o, with_st c' (upd (st c') (st c)))
  end.

(** A Go interface value: nil, an interface holding a nil pointer (or map,
    slice, channel, function), or a usable value. *)
Inductive iface (A : Type) : Type :=
| NilInterface
| NilPointer
| Value (a : A).
Arguments NilInterface {A}.
Arguments NilPointer {A}.
Arguments Value {A} a.

(** [n] calls in a row, with their results. *)
Fixpoint repeat_call {S A} (n : nat) (m : M S A) : M S (list A) :=
  match n with
  | O => mret []
  | Datatypes.S n' => a ← m; l ← repeat_call n' m; mret (a :: l)
  end.

(** A clock that never runs backwards, as the monotonic clock of Go. *)
Definition monotone (f : nat -> Z) : Prop := forall i j, (i <= j)%nat -> f i <= f j.

(** Instants in order, the first not before [t]. *)
Fixpoint ascending (t : Z) (ts : list Z) : Prop :=
  match ts with
  | [] => True
  | u :: ts' => t <= u /\ ascending u ts'
  end.

(** The next [n] readings of the clock. *)
Definition readings {S} (c : Clocked S) (n : nat) : list Z := clk c <$> seq (tick c) n.

(** ** Tactics and shared lemmas *)

Create HintDb dense discriminated.
Create Rewrite HintDb dense.

(** Unfold the monad and run the call symbolically. *)
Ltac mrun :=
  repeat (progress (cbn [mbind M_bind mret M_ret get put modify gets state panic now now_unix
    recovering deferring zoom clk wall tick st with_st next_tick fst snd] in *)).

Ltac mstep := unfold mbind, M_bind, mret, M_ret, get, put, modify, gets, state, panic, now,
  now_unix, recovering, deferring, zoom in *; cbn in *.

(** Case analysis on every test of the goal. *)
Ltac case_tests :=
  repeat match goal with
  | |- context [match ?b with true => _ | false => _ end] => destruct b eqn:?
  end.

(** Boolean comparisons of [Z] in the context, as propositions. *)
Ltac bool_to_prop :=
  repeat match goal with
  | H : (_ <=? _) = true |- _ => apply Z.leb_le in H
  | H : (_ <=? _) = false |- _ => apply Z.leb_gt in H
  | H : (_ <? _) = true |- _ => apply Z.ltb_lt in H
  | H : (_ <? _) = false |- _ => apply Z.ltb_ge in H
  | H : (_ =? _) = true |- _ => apply Z.eqb_eq in H
  | H : (_ =? _) = false |- _ => apply Z.eqb_neq in H
  | H : andb _ _ = true |- _ => apply andb_true_iff in H; destruct H
  | H : orb _ _ = false |- _ => apply orb_false_iff in H; destruct H
  | H : negb _ = true |- _ => apply negb_true_iff in H
  | H : negb _ = false |- _ => apply negb_false_iff in H
  end.

Lemma bind_run {S A B} (m : M S A) (f : A -> M S B) c :
  (m ≫= f) c = match m c with (Ret a, c') => f a c' | (Panic v, c') => (Panic v, c') end.
Proof. reflexivity. Qed.

Lemma bind_ret_l {S A B} (a : A) (f : A -> M S B) : (mret a ≫= f) = f a.
Proof. reflexivity. Qed.

Lemma bind_assoc {S A B C} (m : M S A) (f : A -> M S B) (g : B -> M S C) c :
  ((m ≫= f) ≫= g) c = (m ≫= (fun a => f a ≫= g)) c.
Proof. unfold mbind, M_bind. destruct (m c) as [[a | v] c']; reflexivity. Qed.

Lemma wrap64_small z : is_int64 z -> wrap64 z = z.
Proof.
  unfold is_int64, wrap64, int64_min, int64_max. intros H.
  rewrite Z.mod_small; lia.
Qed.

Lemma wrap64_range z : is_int64 (wrap64 z).
Proof.
  unfold is_int64, wrap64, int64_min, int64_max.
  pose proof (Z.mod_pos_bound (z + 2 ^ 63) (2 ^ 64)). lia.
Qed.

Lemma wrap64_unique z k : is_int64 (z + k * 2 ^ 64) -> wrap64 z = z + k * 2 ^ 64.
Proof.
  unfold is_int64, wrap64, int64_min, int64_max. intros H.
  assert ((z + 2 ^ 63) mod 2 ^ 64 = z + 2 ^ 63 + k * 2 ^ 64) as ->; [| lia].
  rewrite <- (Z.mod_add _ k) by lia. apply Z.mod_small. lia.
Qed.

Lemma wrap64_add z n : wrap64 (wrap64 z + n) = wrap64 (z + n).
Proof.
  assert (forall x k, wrap64 (x + k * 2 ^ 64) = wrap64 x) as Hshift.
  { intros x k. unfold wrap64. replace (x + k * 2 ^ 64 + 2 ^ 63) with (x + 2 ^ 63 + k * 2 ^ 64) by lia.
    now rewrite Z.mod_add by lia. }
  assert (wrap64 z = z + - ((z + 2 ^ 63) / 2 ^ 64) * 2 ^ 64) as ->.
  { unfold wrap64. pose proof (Z.div_mod (z + 2 ^ 63) (2 ^ 64)). lia. }
  rewrite <- (Hshift (z + n) (- ((z + 2 ^ 63) / 2 ^ 64))). f_equal. lia.
Qed.

Lemma wrapu64_add z n : wrapu64 (wrapu64 z + n) = wrapu64 (z + n).
Proof. unfold wrapu64. apply Zplus_mod_idemp_l. Qed.

Lemma wrapu64_small z : 0 <= z < 2 ^ 64 -> wrapu64 z = z.
Proof. intros. apply Z.mod_small; lia. Qed.

Lemma time_sub_small t u : is_int64 (t - u) -> time_sub t u = t - u.
Proof. unfold is_int64, time_sub. lia. Qed.

Lemma time_sub_nonneg t u : u <= t -> 0 <= time_sub t u.
Proof. unfold time_sub, int64_min, int64_max. lia. Qed.

Lemma time_sub_range t u : is_int64 (time_sub t u).
Proof. unfold is_int64, time_sub, int64_min, int64_max. lia. Qed.

Lemma readings_ascending {S} (c : Clocked S) n t :
  monotone (clk c) -> t <= clk c (tick c) -> ascending t (readings c n).
Proof.
  unfold readings. intros Hm. generalize (tick c) as k. intros k. revert k t.
  induction n as [| n IH]; intros k t Ht; [exact I |].
  cbn. split; [exact Ht |]. apply IH, Hm. lia.
Qed.

#[export] Hint Resolve wrap64_range time_sub_range : dense.
#[export] Hint Rewrite @wrap64_small @wrapu64_small @time_sub_small using (assumption || lia) : dense.

(** The weights of a list one of whose elements moves. *)
Lemma sum_moved {A} (w : A -> nat) (l : list A) t p q : l !! t = Some p ->
  (sum_list (w <$> <[t := q]> l) + w p = sum_list (w <$> l) + w q)%nat.
Proof.
  revert t. induction l as [| x l IH]; intros [| t] E; try discriminate.
  - injection E as ->. cbn. lia.
  - specialize (IH t E). change (<[S t := q]> (x :: l)) with (x :: <[t := q]> l). rewrite !fmap_cons. cbn [sum_list_with].
    unfold id at 1 3. lia.
Qed.

Lemma sum_added {A} (w : A -> nat) (l : list A) p : (sum_list (w <$> l ++ [p]) = sum_list (w <$> l) + w p)%nat.
Proof. rewrite fmap_app. induction l as [| x l IH]; cbn; [unfold id; lia |]. cbn in IH. unfold id in *. lia. Qed.
