(* ===== verification/Float64.v ===== *)
(** * Go's float64

    The [float64] of the source is IEEE 754 binary64 with rounding to
    nearest even, every operation rounded once (no fused multiply-add, as
    on amd64).  The operations are those of the specification of
    floating-point arithmetic that comes with Rocq, at precision 53 and
    maximal exponent 1024; they compute on [spec_float] values.

    A finite float is a multiple of [2 ^ -1074]; [fnum] gives that multiple
    as an integer, so exact results and comparisons are statements on [Z]:
    operations whose exact result is representable return it
    ([f64_add_exact], [f64_sub_exact], [holds_mul]), every result is canonical
    ([binary_round_aux_valid]), comparisons of canonical floats compare the
    numbers ([f64_compare_fnum]), and a result that is rounded is at most one
    part in [2 ^ 52] above the exact one ([f64_add_above], [f64_mul_above],
    [duration_seconds_above]). *)

From S2P Require Import Prelude.
From Stdlib Require Export SpecFloat.

Definition float64 : Type := spec_float.

Definition f64_add (x y : float64) : float64 := SFadd 53 1024 x y.
Definition f64_sub (x y : float64) : float64 := SFsub 53 1024 x y.
Definition f64_mul (x y : float64) : float64 := SFmul 53 1024 x y.
Definition f64_div (x y : float64) : float64 := SFdiv 53 1024 x y.
Definition f64_leb (x y : float64) : bool := SFleb x y.
Definition f64_ltb (x y : float64) : bool := SFltb x y.
Definition f64_eqb (x y : float64) : bool := SFeqb x y.

(** The conversion [float64(n)] of an integer. *)
Definition f64_of_Z (n : Z) : float64 := binary_normalize 53 1024 n 0 false.

(** A decimal literal [n * 10^-d] of the source, correctly rounded. *)
Definition f64_lit (n d : Z) : float64 := f64_div (f64_of_Z n) (f64_of_Z (10 ^ d)).

Definition f64_zero : float64 := f64_of_Z 0.
Definition f64_one : float64 := f64_of_Z 1.

(** [time.Duration.Seconds]: whole seconds, then the nanoseconds left
    divided by 1e9, both by Go's truncated division. *)
Definition duration_seconds (d : Z) : float64 :=
  f64_add (f64_of_Z (Z.quot d Second)) (f64_div (f64_of_Z (Z.rem d Second)) (f64_of_Z Second)).

Definition f64_valid (x : float64) : bool := valid_binary 53 1024 x.

Definition f64_finite (x : float64) : bool :=
  match x with
  | S754_zero _ | S754_finite _ _ _ => true
  | _ => false
  end.

(** The value of a finite float in units of [2 ^ -1074]. *)
Definition fnum (x : float64) : Z :=
  match x with
  | S754_finite s m e => cond_Zopp s (Z.pos m * 2 ^ (e + 1074))
  | _ => 0
  end.

(** [x] is a canonical finite float. *)
Definition f64_ok (x : float64) : Prop := f64_valid x = true /\ f64_finite x = true.

#[global] Instance float64_eq_dec : EqDecision float64.
Proof. intros x y. unfold Decision. repeat decide equality. Defined.

(** ** Digits and canonical mantissas *)

Lemma pow2_pos k : 0 <= k -> 0 < 2 ^ k.
Proof. intros. apply Z.pow_pos_nonneg; lia. Qed.

Lemma digits2_log2 p : Z.pos (digits2_pos p) = Z.log2 (Z.pos p) + 1.
Proof.
  induction p as [p IH | p IH |]; cbn [digits2_pos]; [| | reflexivity].
  - rewrite Pos2Z.inj_succ, IH, Pos2Z.inj_xI, Z.log2_succ_double; lia.
  - rewrite Pos2Z.inj_succ, IH, Pos2Z.inj_xO, Z.log2_double; lia.
Qed.

Lemma Zdigits2_log2 m : 0 < m -> Zdigits2 m = Z.log2 m + 1.
Proof. destruct m as [| p | p]; [lia | intros _; apply digits2_log2 | lia]. Qed.

Lemma log2_bounds m : 0 < m -> 2 ^ Z.log2 m <= m < 2 ^ (Z.log2 m + 1).
Proof. intros H. pose proof (Z.log2_spec m H). lia. Qed.

Lemma log2_lt m k : 0 < m -> m < 2 ^ k -> 0 <= k -> Z.log2 m < k.
Proof. intros. apply Z.log2_lt_pow2; lia. Qed.

Lemma log2_ge m k : 0 <= k -> 2 ^ k <= m -> k <= Z.log2 m.
Proof. intros Hk Hm. apply Z.log2_le_pow2; [| exact Hm]. assert (0 < 2 ^ k) by (apply pow2_pos; lia). lia. Qed.

(** Canonical: a normal number with 53 digits, or a subnormal one. *)
Definition canonical (m e : Z) : Prop :=
  (2 ^ 52 <= m < 2 ^ 53 /\ -1074 <= e) \/ (0 < m < 2 ^ 53 /\ e = -1074).

Lemma canonical_spec m e :
  canonical_mantissa 53 1024 m e = true <-> canonical (Z.pos m) e.
Proof.
  unfold canonical_mantissa, fexp, emin. rewrite digits2_log2, Z.eqb_eq.
  pose proof (log2_bounds (Z.pos m) eq_refl) as Hb.
  pose proof (Z.log2_nonneg (Z.pos m)) as Hn. split.
  - intros He. destruct (Z.eq_dec e (-1074)) as [-> | Hne].
    + right. split; [split; [lia |] | reflexivity].
      eapply Z.lt_le_trans; [apply Hb |]. apply Z.pow_le_mono_r; lia.
    + left. assert (Z.log2 (Z.pos m) = 52) as Hl by lia. rewrite Hl in Hb. lia.
  - intros [[Hm He] | [Hm ->]].
    + pose proof (log2_ge (Z.pos m) 52). pose proof (log2_lt (Z.pos m) 53). lia.
    + pose proof (log2_lt (Z.pos m) 53). lia.
Qed.

(** ** Shifting mantissas to the right *)

Lemma iter_pos_nat {A} (f : A -> A) n x : SpecFloat.iter_pos f n x = Nat.iter (Pos.to_nat n) f x.
Proof.
  revert x. induction n as [n IH | n IH |]; intros x; cbn [SpecFloat.iter_pos].
  - rewrite !IH, Pos2Nat.inj_xI, <- Nat.iter_add, Nat.iter_swap.
    replace (S (2 * Pos.to_nat n)) with (S (Pos.to_nat n + Pos.to_nat n))%nat by lia.
    reflexivity.
  - rewrite !IH, Pos2Nat.inj_xO, <- Nat.iter_add. f_equal. lia.
  - reflexivity.
Qed.

Lemma shr_1_m r : 0 <= shr_m r -> shr_m (shr_1 r) = shr_m r / 2.
Proof.
  destruct r as [[| [p | p |] | p] b s]; cbn; try lia; intros _; try reflexivity.
  - rewrite Pos2Z.inj_xI. apply Z.div_unique with 1; lia.
  - rewrite Pos2Z.inj_xO. apply Z.div_unique with 0; lia.
Qed.

Lemma shr_iter_m n r : 0 <= shr_m r ->
  shr_m (Nat.iter n shr_1 r) = shr_m r / 2 ^ Z.of_nat n.
Proof.
  intros H. induction n as [| n IH]; [| rewrite Nat.iter_succ].
  - cbn. now rewrite Z.div_1_r.
  - rewrite shr_1_m; rewrite IH.
    + rewrite Z.div_div, Nat2Z.inj_succ, Z.pow_succ_r by lia. f_equal. lia.
    + apply Z.div_pos; lia.
Qed.

Lemma shr_iter_exact n m : 0 <= m ->
  Nat.iter n shr_1 (Build_shr_record (m * 2 ^ Z.of_nat n) false false) = Build_shr_record m false false.
Proof.
  intros Hm. induction n as [| n IH].
  - cbn. f_equal. lia.
  - rewrite Nat.iter_succ_r.
    replace (shr_1 _) with (Build_shr_record (m * 2 ^ Z.of_nat n) false false); [exact IH |].
    rewrite Nat2Z.inj_succ, Z.pow_succ_r by lia.
    replace (m * (2 * 2 ^ Z.of_nat n)) with (2 * (m * 2 ^ Z.of_nat n)) by lia.
    assert (0 <= m * 2 ^ Z.of_nat n) as Hp by lia.
    revert Hp. generalize (m * 2 ^ Z.of_nat n) as q. intros [| q | q]; cbn; lia || reflexivity.
Qed.

Lemma shr_nonpos r e n : n <= 0 -> shr r e n = (r, e).
Proof. destruct n; [reflexivity | lia | reflexivity]. Qed.

Lemma shr_pos r e n : 0 <= n -> shr r e n = (Nat.iter (Z.to_nat n) shr_1 r, e + n).
Proof.
  destruct n as [| p | p]; intros; [cbn; f_equal; lia | | lia].
  cbn [shr]. now rewrite iter_pos_nat.
Qed.

(** ** Rounding: the result is canonical *)

Lemma shr_fexp_loc_m m l : shr_m (shr_record_of_loc m l) = m.
Proof. now destruct l as [| [| |]]. Qed.

Lemma round_nearest_even_cases m l :
  round_nearest_even m l = m \/ round_nearest_even m l = m + 1.
Proof. destruct l as [| [| |]]; cbn; try destruct (Z.even m); auto. Qed.

(** The exponent a positive mantissa is shifted to. *)
Definition target (m e : Z) : Z := Z.max (Z.log2 m + 1 + e - 53) (-1074).

Lemma shr_fexp_spec m e l : 0 < m -> e <= target m e ->
  shr_fexp 53 1024 m e l =
    (Nat.iter (Z.to_nat (target m e - e)) shr_1 (shr_record_of_loc m l), target m e).
Proof.
  intros Hm He. unfold shr_fexp. rewrite Zdigits2_log2 by assumption.
  change (fexp 53 1024 (Z.log2 m + 1 + e)) with (target m e).
  rewrite shr_pos by lia. f_equal. lia.
Qed.

Lemma first_shift m e : 0 < m -> e <= target m e ->
  let n := target m e - e in
  (2 ^ 52 <= m / 2 ^ n < 2 ^ 53 /\ -1074 <= target m e) \/
  (0 <= m / 2 ^ n < 2 ^ 53 /\ target m e = -1074).
Proof.
  intros Hm He n. pose proof (log2_bounds m Hm) as Hb.
  pose proof (Z.log2_nonneg m) as Hl.
  assert (0 < 2 ^ n) as Hn by (apply Z.pow_pos_nonneg; unfold n; lia).
  subst n. unfold target in *.
  destruct (Z.max_spec (Z.log2 m + 1 + e - 53) (-1074)) as [[Hlt E] | [Hge E]];
    rewrite E in *.
  - right. split; [| reflexivity]. split; [apply Z.div_pos; lia |].
    apply Z.div_lt_upper_bound; [lia |]. rewrite <- Z.pow_add_r by lia.
    eapply Z.lt_le_trans; [apply Hb |]. apply Z.pow_le_mono_r; lia.
  - left. split; [| lia].
    replace (Z.log2 m + 1 + e - 53 - e) with (Z.log2 m - 52) in * by lia. split.
    + apply Z.div_le_lower_bound; [lia |]. rewrite <- Z.pow_add_r by lia.
      replace (Z.log2 m - 52 + 52) with (Z.log2 m) by lia. lia.
    + apply Z.div_lt_upper_bound; [lia |]. rewrite <- Z.pow_add_r by lia.
      replace (Z.log2 m - 52 + 53) with (Z.log2 m + 1) by lia. lia.
Qed.

(** The second normalisation, after rounding up: it shifts only when the
    mantissa reached [2 ^ 53]. *)
Lemma target_canonical m e : canonical m e -> target m e = e.
Proof.
  unfold target. intros [[Hm He] | [Hm ->]].
  - pose proof (log2_ge m 52). pose proof (log2_lt m 53). lia.
  - pose proof (log2_lt m 53). lia.
Qed.

Lemma second_shift m e : canonical m e -> shr_fexp 53 1024 m e loc_Exact = (Build_shr_record m false false, e).
Proof.
  intros Hc. assert (0 < m) as Hm by (destruct Hc; lia).
  rewrite shr_fexp_spec by (rewrite ?target_canonical; auto; lia).
  rewrite target_canonical by assumption. now rewrite Z.sub_diag.
Qed.

Lemma second_shift_carry e : -1074 <= e ->
  shr_fexp 53 1024 (2 ^ 53) e loc_Exact = (Build_shr_record (2 ^ 52) false false, e + 1).
Proof.
  intros He. assert (target (2 ^ 53) e = e + 1) as Ht.
  { unfold target. rewrite Z.log2_pow2 by lia. lia. }
  rewrite shr_fexp_spec by lia. rewrite Ht.
  replace (e + 1 - e) with 1 by lia. reflexivity.
Qed.

Definition sign_ok (s : bool) (x : float64) : Prop :=
  match x with
  | S754_zero s' | S754_infinity s' | S754_finite s' _ _ => s' = s
  | S754_nan => False
  end.

(** The float with mantissa [m] and exponent [e], or an infinity. *)
Definition finish (s : bool) (m e : Z) : float64 :=
  match m with
  | Z0 => S754_zero s
  | Z.pos p => if Z.leb e (1024 - 53) then S754_finite s p e else S754_infinity s
  | Z.neg _ => S754_nan
  end.

Lemma finish_valid s m e : canonical m e ->
  f64_valid (finish s m e) = true /\ sign_ok s (finish s m e).
Proof.
  intros Hc. assert (0 < m) as Hm by (destruct Hc; lia).
  destruct m as [| p | p]; [lia | | lia]. unfold finish.
  destruct (Z.leb_spec e (1024 - 53)); [| now split]. split; [| reflexivity].
  unfold f64_valid, valid_binary, bounded. rewrite (proj2 (canonical_spec p e) Hc).
  apply Z.leb_le. assumption.
Qed.

(** Rounding yields one of the two floats around the exact value. *)
Lemma binary_round_aux_cases s m e l : 0 < m -> e <= target m e ->
  exists m2, m / 2 ^ (target m e - e) <= m2 <= m / 2 ^ (target m e - e) + 1 /\
  ((m2 = 0 /\ binary_round_aux 53 1024 s m e l = S754_zero s) \/
   (canonical m2 (target m e) /\ binary_round_aux 53 1024 s m e l = finish s m2 (target m e)) \/
   (m2 = 2 ^ 53 /\ -1074 <= target m e /\
    binary_round_aux 53 1024 s m e l = finish s (2 ^ 52) (target m e + 1))).
Proof.
  intros Hm He. unfold binary_round_aux. rewrite shr_fexp_spec by assumption.
  set (r1 := Nat.iter _ _ _).
  assert (shr_m r1 = m / 2 ^ (target m e - e)) as Hr1.
  { unfold r1. rewrite shr_iter_m; rewrite shr_fexp_loc_m; [| lia]. now rewrite Z2Nat.id by lia. }
  pose proof (first_shift m e Hm He) as Hs. cbn zeta in Hs. rewrite <- Hr1 in *.
  set (t := target m e) in *. clearbody r1 t. clear Hr1.
  set (m2 := round_nearest_even (shr_m r1) (loc_of_shr_record r1)).
  assert (shr_m r1 <= m2 <= shr_m r1 + 1) as Hm2.
  { unfold m2. destruct (round_nearest_even_cases (shr_m r1) (loc_of_shr_record r1)) as [-> | ->]; lia. }
  exists m2. split; [exact Hm2 |]. clearbody m2.
  assert (m2 = 0 /\ t = -1074 \/ canonical m2 t \/ m2 = 2 ^ 53 /\ -1074 <= t) as [[-> ->] | [Hc | [-> Ht]]].
  { unfold canonical. lia. }
  - left. auto.
  - right. left. rewrite second_shift by assumption. auto.
  - right. right. rewrite second_shift_carry by assumption. auto.
Qed.

Lemma binary_round_aux_valid s m e l : 0 < m -> e <= target m e ->
  f64_valid (binary_round_aux 53 1024 s m e l) = true /\ sign_ok s (binary_round_aux 53 1024 s m e l).
Proof.
  intros Hm He.
  destruct (binary_round_aux_cases s m e l Hm He) as (m2 & _ & [[_ ->] | [[Hc ->] | (_ & Ht & ->)]]).
  - now split.
  - now apply finish_valid.
  - apply finish_valid. left. lia.
Qed.

(** A value below [2 ^ k] rounds to a finite float of at most [2 ^ k]. *)
Lemma finish_below m e k : canonical m e -> e <= 971 -> m * 2 ^ (e + 1074) <= 2 ^ (k + 1074) ->
  f64_finite (finish false m e) = true /\ fnum (finish false m e) <= 2 ^ (k + 1074).
Proof.
  intros Hc He Hk. destruct m as [| p | p]; [destruct Hc; lia | | destruct Hc; lia].
  unfold finish. destruct (Z.leb_spec e (1024 - 53)); [| lia]. cbn [f64_finite fnum cond_Zopp]. auto.
Qed.

Lemma binary_round_aux_below m e l k : 0 < m -> e <= target m e ->
  Z.log2 m + 1 + e <= k -> -1074 <= k <= 1023 ->
  f64_finite (binary_round_aux 53 1024 false m e l) = true /\
  fnum (binary_round_aux 53 1024 false m e l) <= 2 ^ (k + 1074).
Proof.
  intros Hm He Hl Hk. set (t := target m e).
  assert (-1074 <= t <= 970) as Ht by (unfold t, target; lia).
  destruct (binary_round_aux_cases false m e l Hm He) as (m2 & Hm2 & Hcase). fold t in Hm2, Hcase, He.
  assert (m2 * 2 ^ (t + 1074) <= 2 ^ (k + 1074)) as Hle.
  { assert (m2 <= 2 ^ (k - t) /\ 0 <= k - t) as [Hle Hkt].
    { assert (0 <= k - t) by (unfold t, target in *; pose proof (Z.log2_nonneg m); lia).
      split; [| assumption].
      assert (m / 2 ^ (t - e) < 2 ^ (k - t)); [| lia].
      apply Z.div_lt_upper_bound; [apply pow2_pos; lia |].
      rewrite <- Z.pow_add_r by lia. pose proof (log2_bounds m Hm) as [_ Hb].
      eapply Z.lt_le_trans; [exact Hb |]. apply Z.pow_le_mono_r; lia. }
    replace (k + 1074) with ((k - t) + (t + 1074)) by lia. rewrite (Z.pow_add_r 2 (k - t)) by lia.
    apply Z.mul_le_mono_nonneg_r; [apply Z.pow_nonneg; lia | assumption]. }
  destruct Hcase as [[_ ->] | [[Hc ->] | (-> & _ & ->)]].
  - split; [reflexivity | apply Z.pow_nonneg; lia].
  - apply finish_below; [assumption | lia | assumption].
  - apply finish_below; [left; lia | lia |].
    replace (2 ^ 52 * 2 ^ (t + 1 + 1074)) with (2 ^ 53 * 2 ^ (t + 1074)); [assumption |].
    rewrite <- !Z.pow_add_r by lia. f_equal. lia.
Qed.

(** ** Rounding: a representable value is returned unchanged *)

Lemma log2_scale m e m' e' : 0 < m -> 0 < m' -> -1074 <= e -> -1074 <= e' ->
  m * 2 ^ (e + 1074) = m' * 2 ^ (e' + 1074) -> Z.log2 m + e = Z.log2 m' + e'.
Proof.
  intros Hm Hm' He He' H. apply (f_equal Z.log2) in H.
  rewrite !Z.log2_mul_pow2 in H by lia. lia.
Qed.

Lemma scale_cancel m e m' e' : -1074 <= e <= e' ->
  m * 2 ^ (e + 1074) = m' * 2 ^ (e' + 1074) -> m = m' * 2 ^ (e' - e).
Proof.
  intros He H. replace (e' + 1074) with ((e' - e) + (e + 1074)) in H by lia.
  rewrite (Z.pow_add_r 2 (e' - e) (e + 1074)), Z.mul_assoc in H by lia.
  apply Z.mul_cancel_r in H; [exact H |].
  assert (0 < 2 ^ (e + 1074)) by (apply pow2_pos; lia). lia.
Qed.

Lemma binary_round_aux_exact s m e M E :
  0 < m -> -1074 <= e -> e <= target m e -> canonical M E -> E <= 971 ->
  m * 2 ^ (e + 1074) = M * 2 ^ (E + 1074) ->
  binary_round_aux 53 1024 s m e loc_Exact = S754_finite s (Z.to_pos M) E.
Proof.
  intros Hm He Ht Hc HE Hv. assert (0 < M /\ -1074 <= E) as [HM HE'] by (destruct Hc; lia).
  assert (target m e = E) as HtE.
  { pose proof (log2_scale m e M E Hm HM He HE' Hv) as Hl.
    rewrite <- (target_canonical M E Hc). unfold target. lia. }
  assert (m = M * 2 ^ (E - e)) as Hm' by (apply scale_cancel; [lia | assumption]).
  unfold binary_round_aux. rewrite shr_fexp_spec by assumption. rewrite HtE. cbn [shr_record_of_loc].
  rewrite Hm'. replace (2 ^ (E - e)) with (2 ^ Z.of_nat (Z.to_nat (E - e))) by (f_equal; lia).
  rewrite shr_iter_exact by lia. cbn [shr_m loc_of_shr_record round_nearest_even].
  rewrite second_shift by assumption. cbn [shr_m].
  destruct M as [| p | p]; try lia. cbn [Z.to_pos].
  destruct (Z.leb_spec E (1024 - 53)); [reflexivity | lia].
Qed.

Lemma pos_iter_xO p d : Z.pos (Pos.iter xO p d) = Z.pos p * 2 ^ Z.pos d.
Proof.
  induction d as [| d IH] using Pos.peano_ind.
  - cbn. lia.
  - rewrite Pos.iter_succ, Pos2Z.inj_succ, Z.pow_succ_r, Pos2Z.inj_xO, IH by lia. lia.
Qed.

(** [binary_round] first lengthens a short mantissa, then rounds. *)
Lemma binary_round_unfold s p e : exists k, 0 <= k /\
  binary_round 53 1024 s p e = binary_round_aux 53 1024 s (Z.pos p * 2 ^ k) (e - k) loc_Exact /\
  e - k <= target (Z.pos p * 2 ^ k) (e - k) /\ (-1074 <= e -> -1074 <= e - k).
Proof.
  unfold binary_round, shl_align. rewrite digits2_log2.
  change (fexp 53 1024 (Z.log2 (Z.pos p) + 1 + e)) with (target (Z.pos p) e).
  destruct (target (Z.pos p) e - e) as [| d | d] eqn:Hd.
  - exists 0. rewrite Z.mul_1_r, Z.sub_0_r. repeat split; lia.
  - exists 0. rewrite Z.mul_1_r, Z.sub_0_r. repeat split; lia.
  - exists (Z.pos d). rewrite pos_iter_xO. repeat split; [lia | | |].
    + f_equal. lia.
    + unfold target in *. rewrite Z.log2_mul_pow2 by lia. lia.
    + unfold target in *. lia.
Qed.

Lemma binary_round_valid s p e :
  f64_valid (binary_round 53 1024 s p e) = true /\ sign_ok s (binary_round 53 1024 s p e).
Proof.
  destruct (binary_round_unfold s p e) as (k & Hk & -> & Ht & _).
  apply binary_round_aux_valid; [| assumption].
  assert (0 < 2 ^ k) by (apply pow2_pos; lia). lia.
Qed.

Lemma binary_round_exact s p e M E :
  -1074 <= e -> canonical M E -> E <= 971 ->
  Z.pos p * 2 ^ (e + 1074) = M * 2 ^ (E + 1074) ->
  binary_round 53 1024 s p e = S754_finite s (Z.to_pos M) E.
Proof.
  intros He Hc HE Hv. destruct (binary_round_unfold s p e) as (k & Hk & -> & Ht & Hke).
  apply binary_round_aux_exact; auto.
  - assert (0 < 2 ^ k) by (apply pow2_pos; lia). lia.
  - rewrite <- Hv, <- Z.mul_assoc, <- Z.pow_add_r by lia. do 2 f_equal. lia.
Qed.

Lemma binary_normalize_valid m e z : f64_valid (binary_normalize 53 1024 m e z) = true.
Proof. destruct m; [reflexivity | apply binary_round_valid | apply binary_round_valid]. Qed.

(** ** Values *)

Lemma fnum_canonical x : f64_valid x = true -> forall s m e, x = S754_finite s m e ->
  canonical (Z.pos m) e /\ e <= 971.
Proof.
  intros H s m e ->. unfold f64_valid, valid_binary, bounded in H.
  apply andb_true_iff in H as [H1 H2]. apply canonical_spec in H1. apply Z.leb_le in H2. auto.
Qed.

Lemma fnum_of_Z_normalize n e z y : -1074 <= e -> f64_ok y -> fnum y = n * 2 ^ (e + 1074) ->
  fnum (binary_normalize 53 1024 n e z) = fnum y /\ f64_ok (binary_normalize 53 1024 n e z) /\
  (n <> 0 -> binary_normalize 53 1024 n e z = y).
Proof.
  intros He [Hv Hf] Hy. pose proof (fnum_canonical y Hv) as Hc.
  assert (0 < 2 ^ (e + 1074)) as Hp by (apply Z.pow_pos_nonneg; lia).
  destruct n as [| p | p].
  - rewrite Hy. cbn. repeat split; lia.
  - destruct y as [s | s | | [] m e']; cbn [fnum cond_Zopp] in *; try (exfalso; discriminate || lia).
    destruct (Hc _ _ _ eq_refl) as [Hc' HE]. assert (-1074 <= e') by (destruct Hc'; lia).
    cbn [binary_normalize]. rewrite (binary_round_exact false p e (Z.pos m) e') by (auto; lia).
    cbn. repeat split; auto.
  - destruct y as [s | s | | [] m e']; cbn [fnum cond_Zopp] in *; try (exfalso; discriminate || lia).
    destruct (Hc _ _ _ eq_refl) as [Hc' HE]. assert (-1074 <= e') by (destruct Hc'; lia).
    cbn [binary_normalize]. rewrite (binary_round_exact true p e (Z.pos m) e') by (auto; lia).
    cbn. repeat split; auto.
Qed.

(** ** Exact additions and subtractions *)

Lemma shl_align_fst m e ez : ez <= e ->
  Z.pos (fst (shl_align m e ez)) = Z.pos m * 2 ^ (e - ez).
Proof.
  intros H. unfold shl_align. destruct (ez - e) as [| d | d] eqn:Hd; cbn [fst].
  - replace (e - ez) with 0 by lia. lia.
  - lia.
  - rewrite pos_iter_xO. do 2 f_equal. lia.
Qed.

Lemma fnum_align s m e ez : -1074 <= ez <= e ->
  cond_Zopp s (Z.pos (fst (shl_align m e ez))) * 2 ^ (ez + 1074) = fnum (S754_finite s m e).
Proof.
  intros H. assert (Z.pos (fst (shl_align m e ez)) * 2 ^ (ez + 1074) = Z.pos m * 2 ^ (e + 1074)) as E.
  { rewrite shl_align_fst, <- Z.mul_assoc, <- Z.pow_add_r by lia. do 2 f_equal. lia. }
  cbn [fnum]. unfold cond_Zopp. destruct s; lia.
Qed.

Lemma ok_exponent s m e : f64_ok (S754_finite s m e) -> -1074 <= e <= 971.
Proof. intros [Hv _]. destruct (fnum_canonical _ Hv _ _ _ eq_refl) as [Hc ?]. destruct Hc; lia. Qed.

Lemma f64_add_exact x y z : f64_ok x -> f64_ok y -> f64_ok z -> fnum x + fnum y = fnum z ->
  f64_ok (f64_add x y) /\ fnum (f64_add x y) = fnum z.
Proof.
  intros Hx Hy Hz Hv. unfold f64_add.
  destruct x as [sx | sx | | sx mx ex]; try (destruct Hx; discriminate);
  destruct y as [sy | sy | | sy my ey]; try (destruct Hy; discriminate).
  - rewrite <- Hv. destruct sx, sy; cbn; repeat split; lia.
  - split; [exact Hy | rewrite <- Hv; reflexivity].
  - split; [exact Hx | rewrite <- Hv; cbn [fnum]; cbn [SFadd]; cbn [fnum]; lia].
  - pose proof (ok_exponent _ _ _ Hx). pose proof (ok_exponent _ _ _ Hy).
    cbn [SFadd]. cbv zeta.
    destruct (fnum_of_Z_normalize
      (cond_Zopp sx (Z.pos (fst (shl_align mx ex (Z.min ex ey)))) +
       cond_Zopp sy (Z.pos (fst (shl_align my ey (Z.min ex ey))))) (Z.min ex ey) false z)
      as (Hn & Hok & _); auto; [lia |].
    rewrite Z.mul_add_distr_r, !fnum_align by lia. auto.
Qed.

Lemma f64_sub_exact x y z : f64_ok x -> f64_ok y -> f64_ok z -> fnum x - fnum y = fnum z ->
  f64_ok (f64_sub x y) /\ fnum (f64_sub x y) = fnum z.
Proof.
  intros Hx Hy Hz Hv. unfold f64_sub.
  destruct x as [sx | sx | | sx mx ex]; try (destruct Hx; discriminate);
  destruct y as [sy | sy | | sy my ey]; try (destruct Hy; discriminate).
  - rewrite <- Hv. destruct sx, sy; cbn; repeat split; lia.
  - split; [exact Hy | rewrite <- Hv; cbn; destruct sy; cbn; lia].
  - split; [exact Hx | rewrite <- Hv; cbn [fnum]; cbn [SFsub]; cbn [fnum]; lia].
  - pose proof (ok_exponent _ _ _ Hx). pose proof (ok_exponent _ _ _ Hy).
    cbn [SFsub]. cbv zeta.
    destruct (fnum_of_Z_normalize
      (cond_Zopp sx (Z.pos (fst (shl_align mx ex (Z.min ex ey)))) -
       cond_Zopp sy (Z.pos (fst (shl_align my ey (Z.min ex ey))))) (Z.min ex ey) false z)
      as (Hn & Hok & _); auto; [lia |].
    rewrite Z.mul_sub_distr_r, !fnum_align by lia. auto.
Qed.

(** ** Which numbers are floats *)

Lemma f64_ok_intro s m e : canonical (Z.pos m) e -> e <= 971 -> f64_ok (S754_finite s m e).
Proof.
  intros Hc He. split; [| reflexivity]. unfold f64_valid, valid_binary, bounded.
  rewrite (proj2 (canonical_spec m e) Hc). now apply Z.leb_le.
Qed.

(** Any integer below [2 ^ 53] times a power of two in range is a float. *)
Lemma representable_pos m e : 0 < m < 2 ^ 53 -> -1074 <= e <= 971 ->
  exists y, f64_ok y /\ f64_ltb f64_zero y = true /\ fnum y = m * 2 ^ (e + 1074).
Proof.
  intros Hm He. set (E := Z.max (Z.log2 m + 1 + e - 53) (-1074)).
  assert (Z.log2 m < 53) as Hl by (apply log2_lt; lia).
  pose proof (Z.log2_nonneg m) as Hl0. pose proof (log2_bounds m ltac:(lia)) as Hb.
  assert (-1074 <= E <= e) as HE by lia.
  assert (canonical (m * 2 ^ (e - E)) E) as Hc.
  { assert (m * 2 ^ (e - E) < 2 ^ 53) as Hlt.
    { apply Z.lt_le_trans with (2 ^ (Z.log2 m + 1) * 2 ^ (e - E)).
      - apply Z.mul_lt_mono_pos_r; [apply pow2_pos |]; lia.
      - rewrite <- Z.pow_add_r by lia. apply Z.pow_le_mono_r; lia. }
    assert (0 < 2 ^ (e - E)) as Hp by (apply pow2_pos; lia).
    unfold E in *. destruct (Z.max_spec (Z.log2 m + 1 + e - 53) (-1074)) as [[Hlt' EE] | [Hge EE]];
      rewrite EE in *; [right | left].
    - split; [| reflexivity]. lia.
    - split; [| lia]. split; [| assumption].
      replace (e - (Z.log2 m + 1 + e - 53)) with (52 - Z.log2 m) by lia.
      apply Z.le_trans with (2 ^ Z.log2 m * 2 ^ (52 - Z.log2 m)).
      + rewrite <- Z.pow_add_r by lia. apply Z.pow_le_mono_r; lia.
      + apply Z.mul_le_mono_nonneg_r; [| lia]. apply Z.pow_nonneg. lia. }
  assert (0 < m * 2 ^ (e - E)) as Hpos by (destruct Hc; lia).
  exists (S754_finite false (Z.to_pos (m * 2 ^ (e - E))) E). repeat split.
  - apply f64_ok_intro; [| lia]. now rewrite Z2Pos.id.
  - cbn [fnum cond_Zopp]. rewrite Z2Pos.id, <- Z.mul_assoc, <- Z.pow_add_r by lia.
    do 2 f_equal. lia.
Qed.

Lemma representable m e : Z.abs m < 2 ^ 53 -> -1074 <= e <= 971 ->
  exists y, f64_ok y /\ fnum y = m * 2 ^ (e + 1074).
Proof.
  intros Hm He. destruct (Z.lt_trichotomy m 0) as [Hlt | [-> | Hgt]].
  - destruct (representable_pos (- m) e) as (y & [Hv Hf] & _ & Hy); [lia | lia |].
    exists (SFopp y). destruct y as [s | s | | s p e']; try discriminate Hf;
      cbn [SFopp fnum f64_ok] in *; (split; [split; assumption |]); [lia |].
    destruct s; cbn [cond_Zopp negb] in *; lia.
  - exists f64_zero. repeat split; reflexivity.
  - destruct (representable_pos m e) as (y & Hok & _ & Hy); [lia | lia |]. eauto.
Qed.

(** ** Comparisons *)

Lemma canonical_lt m1 e1 m2 e2 : canonical m1 e1 -> canonical m2 e2 -> e1 < e2 ->
  m1 * 2 ^ (e1 + 1074) < m2 * 2 ^ (e2 + 1074).
Proof.
  intros H1 H2 He. assert (-1074 <= e1 /\ m1 < 2 ^ 53) as [He1 Hm1] by (destruct H1; lia).
  assert (2 ^ 52 <= m2) as Hm2 by (destruct H2; lia).
  apply Z.lt_le_trans with (2 ^ 53 * 2 ^ (e1 + 1074)).
  - apply Z.mul_lt_mono_pos_r; [apply pow2_pos |]; lia.
  - apply Z.le_trans with (2 ^ 52 * 2 ^ (e2 + 1074)).
    + rewrite <- !Z.pow_add_r by lia. apply Z.pow_le_mono_r; lia.
    + apply Z.mul_le_mono_nonneg_r; [apply Z.pow_nonneg |]; lia.
Qed.

Lemma compare_finite_pos m1 e1 m2 e2 : canonical (Z.pos m1) e1 -> canonical (Z.pos m2) e2 ->
  match Z.compare e1 e2 with
  | Lt => Lt
  | Gt => Gt
  | Eq => Pos.compare_cont Eq m1 m2
  end = (Z.pos m1 * 2 ^ (e1 + 1074) ?= Z.pos m2 * 2 ^ (e2 + 1074)).
Proof.
  intros H1 H2. symmetry. assert (-1074 <= e1) by (destruct H1; lia).
  destruct (Z.compare_spec e1 e2) as [-> | Hlt | Hgt].
  - change (Pos.compare_cont Eq m1 m2) with (Z.pos m1 ?= Z.pos m2).
    symmetry. apply Zmult_compare_compat_r. apply Z.lt_gt, pow2_pos. lia.
  - apply Z.compare_lt_iff, canonical_lt; assumption.
  - apply Z.compare_gt_iff, canonical_lt; assumption.
Qed.

Lemma fnum_pos_sign s m e : -1074 <= e ->
  fnum (S754_finite s m e) = (if s then -1 else 1) * (Z.pos m * 2 ^ (e + 1074)) /\
  0 < Z.pos m * 2 ^ (e + 1074).
Proof.
  intros He. assert (0 < 2 ^ (e + 1074)) by (apply pow2_pos; lia).
  cbn [fnum]. destruct s; cbn [cond_Zopp]; lia.
Qed.

Lemma f64_compare_fnum x y : f64_ok x -> f64_ok y -> SFcompare x y = Some (fnum x ?= fnum y).
Proof.
  intros Hx Hy.
  destruct x as [sx | sx | | sx mx ex]; try (destruct Hx; discriminate);
  destruct y as [sy | sy | | sy my ey]; try (destruct Hy; discriminate); [reflexivity | | |].
  - pose proof (ok_exponent _ _ _ Hy). destruct (fnum_pos_sign sy my ey) as [-> Hp]; [lia |].
    cbn [SFcompare fnum]. f_equal. symmetry.
    destruct sy; [apply Z.compare_gt_iff | apply Z.compare_lt_iff]; lia.
  - pose proof (ok_exponent _ _ _ Hx). destruct (fnum_pos_sign sx mx ex) as [-> Hp]; [lia |].
    cbn [SFcompare fnum]. f_equal. symmetry.
    destruct sx; [apply Z.compare_lt_iff | apply Z.compare_gt_iff]; lia.
  - pose proof (fnum_canonical _ (proj1 Hx) _ _ _ eq_refl) as [Hcx _].
    pose proof (fnum_canonical _ (proj1 Hy) _ _ _ eq_refl) as [Hcy _].
    destruct (fnum_pos_sign sx mx ex) as [Ex Hpx]; [destruct Hcx; lia |].
    destruct (fnum_pos_sign sy my ey) as [Ey Hpy]; [destruct Hcy; lia |].
    rewrite Ex, Ey. cbn [SFcompare]. f_equal.
    pose proof (compare_finite_pos mx ex my ey Hcx Hcy) as Hc.
    destruct sx, sy.
    + replace (-1 * (Z.pos mx * 2 ^ (ex + 1074))) with (- (Z.pos mx * 2 ^ (ex + 1074))) by lia.
      replace (-1 * (Z.pos my * 2 ^ (ey + 1074))) with (- (Z.pos my * 2 ^ (ey + 1074))) by lia.
      rewrite Z.compare_opp, (Z.compare_antisym (Z.pos mx * 2 ^ (ex + 1074))), <- Hc.
      destruct (ex ?= ey); reflexivity.
    + symmetry. apply Z.compare_lt_iff. lia.
    + symmetry. apply Z.compare_gt_iff. lia.
    + rewrite !Z.mul_1_l. exact Hc.
Qed.

Lemma f64_leb_fnum x y : f64_ok x -> f64_ok y -> f64_leb x y = (fnum x <=? fnum y).
Proof.
  intros. unfold f64_leb, SFleb, Z.leb. rewrite f64_compare_fnum by assumption.
  now destruct (fnum x ?= fnum y).
Qed.

Lemma f64_ltb_fnum x y : f64_ok x -> f64_ok y -> f64_ltb x y = (fnum x <? fnum y).
Proof.
  intros. unfold f64_ltb, SFltb, Z.ltb. rewrite f64_compare_fnum by assumption.
  now destruct (fnum x ?= fnum y).
Qed.

(** ** Nonnegative bounded floats

    [f64_upto k x]: a canonical finite float with [0 <= x <= 2 ^ k]. *)

Definition f64_upto (k : Z) (x : float64) : Prop :=
  f64_ok x /\ 0 <= fnum x <= 2 ^ (k + 1074).

Lemma f64_upto_mono k k' x : k <= k' -> 0 <= k + 1074 -> f64_upto k x -> f64_upto k' x.
Proof.
  intros Hk Hk0 [Hok [H0 H]]. split; [exact Hok |]. split; [exact H0 |].
  etransitivity; [exact H |]. apply Z.pow_le_mono_r; lia.
Qed.

(** The shape of a nonnegative float. *)
Lemma upto_cases k x : f64_upto k x ->
  (exists s, x = S754_zero s) \/
  (exists m e, x = S754_finite false m e /\ canonical (Z.pos m) e /\ e <= 971 /\
    Z.pos m * 2 ^ (e + 1074) <= 2 ^ (k + 1074)).
Proof.
  intros [Hok [H0 Hk]]. destruct x as [s | s | | s m e]; try (destruct Hok; discriminate).
  - left. eauto.
  - right. pose proof (fnum_canonical _ (proj1 Hok) _ _ _ eq_refl) as [Hc He].
    destruct (fnum_pos_sign s m e) as [E Hp]; [destruct Hc; lia |].
    destruct s; [rewrite E in H0; lia |]. cbn [fnum cond_Zopp] in Hk. eauto 6.
Qed.

Lemma upto_zero k s : 0 <= k + 1074 -> f64_upto k (S754_zero s).
Proof. intros. split; [split; reflexivity |]. cbn. split; [lia |]. apply Z.pow_nonneg. lia. Qed.

Lemma upto_log2 m e k : 0 < m -> -1074 <= e -> -1074 <= k ->
  m * 2 ^ (e + 1074) <= 2 ^ (k + 1074) -> Z.log2 m + e <= k.
Proof.
  intros Hm He Hk H. apply Z.log2_le_mono in H.
  rewrite Z.log2_mul_pow2, Z.log2_pow2 in H by lia. lia.
Qed.

Lemma upto_of_aux m e l k : 0 < m -> e <= target m e -> Z.log2 m + 1 + e <= k ->
  -1074 <= k <= 1023 -> f64_upto k (binary_round_aux 53 1024 false m e l).
Proof.
  intros Hm He Hl Hk.
  destruct (binary_round_aux_valid false m e l Hm He) as [Hv Hs].
  destruct (binary_round_aux_below m e l k Hm He Hl Hk) as [Hf Hb].
  split; [now split |]. split; [| exact Hb].
  destruct (binary_round_aux 53 1024 false m e l) as [s | s | | s p e'];
    cbn [sign_ok] in Hs; try contradiction; try (cbn; lia). subst s.
  cbn [fnum cond_Zopp]. apply Z.mul_nonneg_nonneg; [lia | apply Z.pow_nonneg; lia].
Qed.

Lemma upto_of_normalize m e k : 0 < m -> Z.log2 m + 1 + e <= k -> -1074 <= k <= 1023 ->
  f64_upto k (binary_normalize 53 1024 m e false).
Proof.
  intros Hm Hl Hk. destruct m as [| p | p]; try lia. cbn [binary_normalize].
  destruct (binary_round_unfold false p e) as (j & Hj & -> & Ht & _).
  apply upto_of_aux; [| assumption | | assumption].
  - assert (0 < 2 ^ j) by (apply pow2_pos; lia). lia.
  - rewrite Z.log2_mul_pow2 by lia. lia.
Qed.

(** Integers of at most [k] bits. *)
Lemma f64_of_Z_upto n k : 0 <= n < 2 ^ k -> 0 <= k <= 1023 -> f64_upto k (f64_of_Z n).
Proof.
  intros Hn Hk. destruct (Z.eq_dec n 0) as [-> | Hne].
  - apply upto_zero. lia.
  - apply upto_of_normalize; [lia | | lia]. pose proof (log2_lt n k). lia.
Qed.

Lemma f64_add_upto k x y : -1074 <= k <= 1022 -> f64_upto k x -> f64_upto k y ->
  f64_upto (k + 1) (f64_add x y).
Proof.
  intros Hk Hx Hy. unfold f64_add.
  destruct (upto_cases k x Hx) as [[sx ->] | (mx & ex & -> & Hcx & Hex & Hbx)];
  destruct (upto_cases k y Hy) as [[sy ->] | (my & ey & -> & Hcy & Hey & Hby)].
  - destruct sx, sy; apply upto_zero; lia.
  - now apply (f64_upto_mono k); [lia.. |].
  - now apply (f64_upto_mono k); [lia.. |].
  - cbn [SFadd cond_Zopp]. cbv zeta.
    assert (-1074 <= ex /\ -1074 <= ey) as [? ?] by (destruct Hcx, Hcy; lia).
    pose proof (shl_align_fst mx ex (Z.min ex ey)) as Ex.
    pose proof (shl_align_fst my ey (Z.min ex ey)) as Ey.
    set (a := Z.pos (fst (shl_align mx ex (Z.min ex ey)))) in *.
    set (b := Z.pos (fst (shl_align my ey (Z.min ex ey)))) in *.
    set (ez := Z.min ex ey) in *.
    assert ((a + b) * 2 ^ (ez + 1074) <= 2 ^ (k + 1 + 1074)) as Hle.
    { rewrite Z.mul_add_distr_r, Ex, Ey, <- !Z.mul_assoc, <- !Z.pow_add_r by lia.
      replace (ex - ez + (ez + 1074)) with (ex + 1074) by lia.
      replace (ey - ez + (ez + 1074)) with (ey + 1074) by lia.
      replace (k + 1 + 1074) with (Z.succ (k + 1074)) by lia. rewrite Z.pow_succ_r by lia. lia. }
    assert (0 < a + b) as Hab by lia.
    destruct (Z.eq_dec (Z.log2 (a + b) + ez) (k + 1)) as [Heq | Hne].
    + (* exactly [2 ^ (k + 1)] *)
      assert ((a + b) * 2 ^ (ez + 1074) = 2 ^ (k + 1 + 1074)) as E.
      { apply Z.le_antisymm; [exact Hle |]. rewrite <- Heq.
        replace (Z.log2 (a + b) + ez + 1074) with (Z.log2 (a + b) + (ez + 1074)) by lia.
        rewrite Z.pow_add_r by (pose proof (Z.log2_nonneg (a + b)); lia).
        apply Z.mul_le_mono_nonneg_r; [apply Z.pow_nonneg; lia | apply log2_bounds; lia]. }
      destruct (representable_pos (2 ^ (k + 1 - Z.min (k + 1) 971)) (Z.min (k + 1) 971))
        as (y & Hoky & _ & Hvy).
      { split; [apply pow2_pos; lia |]. apply Z.pow_lt_mono_r; lia. }
      { lia. }
      rewrite <- Z.pow_add_r in Hvy by lia.
      replace (k + 1 - Z.min (k + 1) 971 + (Z.min (k + 1) 971 + 1074)) with (k + 1 + 1074) in Hvy by lia.
      destruct (fnum_of_Z_normalize (a + b) ez false y) as (Hn & Hokn & _); [lia | assumption | lia |].
      split; [exact Hokn |]. rewrite Hn, Hvy. split; [apply Z.pow_nonneg |]; lia.
    + apply upto_of_normalize; [lia | | lia].
      pose proof (upto_log2 (a + b) ez (k + 1) Hab ltac:(lia) ltac:(lia) Hle). lia.
Qed.

Lemma f64_mul_upto k j x y : 0 <= k -> 0 <= j -> k + j <= 1021 -> f64_upto k x -> f64_upto j y ->
  f64_upto (k + j + 2) (f64_mul x y).
Proof.
  intros Hk Hj Hkj Hx Hy. unfold f64_mul.
  destruct (upto_cases k x Hx) as [[sx ->] | (mx & ex & -> & Hcx & Hex & Hbx)];
  destruct (upto_cases j y Hy) as [[sy ->] | (my & ey & -> & Hcy & Hey & Hby)];
    try (apply upto_zero; lia).
  cbn [SFmul xorb].
  assert (-1074 <= ex /\ -1074 <= ey) as [? ?] by (destruct Hcx, Hcy; lia).
  pose proof (upto_log2 (Z.pos mx) ex k ltac:(lia) ltac:(assumption) ltac:(lia) Hbx).
  pose proof (upto_log2 (Z.pos my) ey j ltac:(lia) ltac:(assumption) ltac:(lia) Hby).
  pose proof (Z.log2_mul_above (Z.pos mx) (Z.pos my)).
  pose proof (Z.log2_mul_below (Z.pos mx) (Z.pos my)).
  rewrite Pos2Z.inj_mul.
  apply upto_of_aux; [lia | | lia | lia].
  unfold target. pose proof (Z.log2_nonneg (Z.pos mx)). pose proof (Z.log2_nonneg (Z.pos my)).
  destruct Hcx as [[Hmx _] | [_ ->]].
  - pose proof (log2_ge (Z.pos mx) 52). lia.
  - destruct Hcy as [[Hmy _] | [_ ->]]; [pose proof (log2_ge (Z.pos my) 52); lia | lia].
Qed.

(** ** How far rounding goes up

    A result that is a normal number is at most one part in [2 ^ 52] above
    the exact value. *)

Lemma binary_round_aux_above m e l k : 0 < m -> e <= target m e -> -1074 <= Z.log2 m - 52 + e ->
  0 <= e + 1074 + k -> 0 <= k ->
  f64_finite (binary_round_aux 53 1024 false m e l) = true ->
  fnum (binary_round_aux 53 1024 false m e l) * 2 ^ k * 2 ^ 52 <= m * 2 ^ (e + 1074 + k) * (2 ^ 52 + 1).
Proof.
  intros Hm He Hn Hk Hk0. set (t := target m e).
  assert (t = Z.log2 m - 52 + e) as Et by (unfold t, target; lia).
  destruct (binary_round_aux_cases false m e l Hm He) as (m2 & Hm2 & Hcase). fold t in Hm2, Hcase, He.
  assert (m2 * 2 ^ (t - e) <= m + 2 ^ (t - e) /\ 2 ^ 52 * 2 ^ (t - e) <= m) as [Hup Hbig].
  { assert (0 < 2 ^ (t - e)) by (apply pow2_pos; lia). pose proof (Z.mul_div_le m (2 ^ (t - e)) ltac:(lia)).
    split; [nia |]. rewrite <- Z.pow_add_r by lia. replace (52 + (t - e)) with (Z.log2 m) by lia. apply log2_bounds; lia. }
  assert (m2 * 2 ^ (t + 1074) * 2 ^ k * 2 ^ 52 <= m * 2 ^ (e + 1074 + k) * (2 ^ 52 + 1)) as Hle.
  { assert (2 ^ (t + 1074) * 2 ^ k = 2 ^ (t - e) * 2 ^ (e + 1074 + k)) as Ep by (rewrite <- !Z.pow_add_r by lia; f_equal; lia).
    assert (0 < 2 ^ (e + 1074 + k)) by (apply pow2_pos; lia).
    replace (m2 * 2 ^ (t + 1074) * 2 ^ k * 2 ^ 52) with (m2 * (2 ^ (t + 1074) * 2 ^ k) * 2 ^ 52) by lia. rewrite Ep.
    replace (m2 * (2 ^ (t - e) * 2 ^ (e + 1074 + k)) * 2 ^ 52) with (m2 * 2 ^ (t - e) * 2 ^ 52 * 2 ^ (e + 1074 + k)) by lia.
    replace (m * 2 ^ (e + 1074 + k) * (2 ^ 52 + 1)) with (m * (2 ^ 52 + 1) * 2 ^ (e + 1074 + k)) by lia.
    apply Z.mul_le_mono_nonneg_r; lia. }
  assert (forall m3 e3, m3 * 2 ^ (e3 + 1074) = m2 * 2 ^ (t + 1074) -> 0 < m3 -> f64_finite (finish false m3 e3) = true ->
    fnum (finish false m3 e3) * 2 ^ k * 2 ^ 52 <= m * 2 ^ (e + 1074 + k) * (2 ^ 52 + 1)) as Hfin.
  { intros m3 e3 E3 Hp. destruct m3 as [| q | q]; [lia | | lia]. unfold finish. destruct (Z.leb e3 _); [| discriminate].
    intros _. cbn [fnum cond_Zopp]. rewrite E3. exact Hle. }
  destruct Hcase as [[-> ->] | [[Hc ->] | (-> & Ht & ->)]].
  - intros _. cbn [fnum]. assert (0 <= 2 ^ (e + 1074 + k)) by (apply Z.pow_nonneg; lia). nia.
  - apply Hfin; [reflexivity | destruct Hc; lia].
  - apply Hfin; [| lia]. replace (t + 1 + 1074) with (Z.succ (t + 1074)) by lia. rewrite Z.pow_succ_r by lia. lia.
Qed.

(** A normal result is at least the power of two below the exact value. *)
Lemma binary_round_aux_from m e l j : 0 < m -> e <= target m e -> -1074 <= Z.log2 m - 52 + e -> j <= Z.log2 m + e + 1074 ->
  0 <= j -> f64_finite (binary_round_aux 53 1024 false m e l) = true ->
  2 ^ j <= fnum (binary_round_aux 53 1024 false m e l).
Proof.
  intros Hm He Hn Hj Hj0. set (t := target m e).
  assert (t = Z.log2 m - 52 + e) as Et by (unfold t, target; lia).
  destruct (binary_round_aux_cases false m e l Hm He) as (m2 & Hm2 & Hcase). fold t in Hm2, Hcase, He.
  assert (2 ^ 52 <= m2) as H52.
  { etransitivity; [| apply Hm2]. apply Z.div_le_lower_bound; [apply pow2_pos; lia |].
    rewrite <- Z.pow_add_r by lia. replace (t - e + 52) with (Z.log2 m) by lia. apply log2_bounds; lia. }
  assert (2 ^ j <= m2 * 2 ^ (t + 1074)) as Hle.
  { transitivity (2 ^ 52 * 2 ^ (t + 1074)); [rewrite <- Z.pow_add_r by lia; apply Z.pow_le_mono_r; lia |].
    apply Z.mul_le_mono_nonneg_r; [apply Z.pow_nonneg |]; lia. }
  assert (forall m3 e3, m3 * 2 ^ (e3 + 1074) = m2 * 2 ^ (t + 1074) -> 0 < m3 -> f64_finite (finish false m3 e3) = true ->
    2 ^ j <= fnum (finish false m3 e3)) as Hfin.
  { intros m3 e3 E3 Hp. destruct m3 as [| q | q]; [lia | | lia]. unfold finish. destruct (Z.leb e3 _); [| discriminate].
    intros _. cbn [fnum cond_Zopp]. rewrite E3. exact Hle. }
  destruct Hcase as [[-> ->] | [[Hc ->] | (-> & Ht & ->)]]; [lia | apply Hfin; [reflexivity | destruct Hc; lia] |].
  apply Hfin; [| lia]. replace (t + 1 + 1074) with (Z.succ (t + 1074)) by lia. rewrite Z.pow_succ_r by lia. lia.
Qed.

(** The sum of two positive floats rounds the exact sum. *)
Lemma f64_add_rounds mx ex my ey : -1074 <= ex -> -1074 <= ey -> exists m e,
  f64_add (S754_finite false mx ex) (S754_finite false my ey) = binary_round_aux 53 1024 false m e loc_Exact /\
  0 < m /\ e <= target m e /\ -1074 <= e /\
  m * 2 ^ (e + 1074) = fnum (S754_finite false mx ex) + fnum (S754_finite false my ey).
Proof.
  intros Hx Hy. unfold f64_add. cbn [SFadd cond_Zopp]. cbv zeta.
  pose proof (shl_align_fst mx ex (Z.min ex ey)) as Ex. pose proof (shl_align_fst my ey (Z.min ex ey)) as Ey.
  set (ez := Z.min ex ey) in *. set (a := Z.pos (fst (shl_align mx ex ez))) in *. set (b := Z.pos (fst (shl_align my ey ez))) in *.
  assert ((a + b) * 2 ^ (ez + 1074) = fnum (S754_finite false mx ex) + fnum (S754_finite false my ey)) as Ev.
  { cbn [fnum cond_Zopp]. rewrite Z.mul_add_distr_r, Ex, Ey, <- !Z.mul_assoc, <- !Z.pow_add_r by lia.
    f_equal; do 2 f_equal; lia. }
  assert (0 < a + b) as Hab by lia. destruct (a + b) as [| p | p]; try lia. cbn [binary_normalize].
  destruct (binary_round_unfold false p ez) as (j & Hj & -> & Ht & Hje).
  exists (Z.pos p * 2 ^ j), (ez - j). split; [reflexivity |]. split; [| split; [exact Ht | split; [lia |]]].
  - assert (0 < 2 ^ j) by (apply pow2_pos; lia). lia.
  - rewrite <- Ev, <- Z.mul_assoc, <- Z.pow_add_r by lia. do 2 f_equal. lia.
Qed.

(** A sum is at most one rounding above the exact one, and not below a power
    of two that the exact one reaches. *)
Lemma f64_add_above k x y : -1074 <= k <= 1021 -> f64_upto k x -> f64_upto k y ->
  fnum (f64_add x y) * 2 ^ 52 <= (fnum x + fnum y) * (2 ^ 52 + 1) /\
  forall j, 0 <= j -> 2 ^ j <= fnum x + fnum y -> 2 ^ j <= fnum (f64_add x y).
Proof.
  intros Hk Hx Hy. pose proof (f64_add_upto k x y ltac:(lia) Hx Hy) as [[_ Hf] _].
  assert (forall z, f64_ok z -> fnum x + fnum y = fnum z -> fnum (f64_add x y) = fnum x + fnum y) as Hexact.
  { intros z Hz E. destruct (f64_add_exact x y z (proj1 Hx) (proj1 Hy) Hz E) as [_ ->]. lia. }
  assert (fnum (f64_add x y) = fnum x + fnum y -> fnum (f64_add x y) * 2 ^ 52 <= (fnum x + fnum y) * (2 ^ 52 + 1) /\
    forall j, 0 <= j -> 2 ^ j <= fnum x + fnum y -> 2 ^ j <= fnum (f64_add x y)) as Hdone.
  { intros ->. destruct Hx as [_ [? _]], Hy as [_ [? _]]. split; [lia | auto]. }
  destruct (upto_cases k x Hx) as [[sx ->] | (mx & ex & -> & Hcx & Hex & Hbx)];
    [apply Hdone, (Hexact y); [apply Hy | reflexivity] |].
  destruct (upto_cases k y Hy) as [[sy ->] | (my & ey & -> & Hcy & Hey & Hby)];
    [apply Hdone, (Hexact (S754_finite false mx ex)); [apply Hx | cbn [fnum]; lia] |].
  set (v := fnum (S754_finite false mx ex) + fnum (S754_finite false my ey)) in *.
  destruct (Z.lt_ge_cases v (2 ^ 53)) as [Hlt | Hge].
  { destruct Hx as [_ [? _]], Hy as [_ [? _]]. destruct (representable v (-1074)) as (z & Hz & Ez); [lia | lia |].
    apply Hdone, (Hexact z Hz). rewrite Ez. unfold v. lia. }
  clear Hexact Hdone. destruct (f64_add_rounds mx ex my ey) as (m & e & E & Hm & Ht & He & Ev);
    [destruct Hcx; lia | destruct Hcy; lia |]. rewrite E in *. fold v in Ev.
  assert (forall j, 0 <= j -> 2 ^ j <= v -> j <= Z.log2 m + e + 1074) as Hlog.
  { intros j Hj Hv. replace (Z.log2 m + e + 1074) with ((e + 1074) + Z.log2 m) by lia.
    rewrite <- Z.log2_mul_pow2, Ev by lia. apply log2_ge; lia. }
  pose proof (Hlog 53 ltac:(lia) Hge). split.
  - pose proof (binary_round_aux_above m e loc_Exact 0 Hm Ht) as Hup.
    rewrite Z.add_0_r, Z.mul_1_r, Ev in Hup. apply Hup; [lia.. | exact Hf].
  - intros j Hj Hv. apply binary_round_aux_from; [exact Hm | exact Ht | lia | auto | exact Hj | exact Hf].
Qed.

(** ** Floats that hold integers

    [holds x n]: the float [x] is exactly the integer [n].  Integer
    arithmetic within [2 ^ 53] is exact on such floats. *)

Definition holds (x : float64) (n : Z) : Prop := f64_ok x /\ fnum x = n * 2 ^ 1074.

Lemma two_1074_pos : 0 < 2 ^ 1074.
Proof. apply pow2_pos. lia. Qed.

Lemma int_representable n : Z.abs n <= 2 ^ 53 -> exists y, f64_ok y /\ fnum y = n * 2 ^ 1074.
Proof.
  intros Hn. destruct (Z.eq_dec (Z.abs n) (2 ^ 53)) as [E | Hne].
  - destruct (representable (Z.sgn n * 2 ^ 52) 1) as (y & Hok & Hy); [lia | lia |].
    exists y. split; [exact Hok |]. rewrite Hy.
    replace (2 ^ (1 + 1074)) with (2 * 2 ^ 1074) by (rewrite <- Z.pow_succ_r; f_equal; lia).
    pose proof (Z.abs_sgn n). lia.
  - destruct (representable n 0) as (y & Hok & Hy); [lia | lia |]. eauto.
Qed.

Lemma holds_of_Z n : Z.abs n <= 2 ^ 53 -> holds (f64_of_Z n) n.
Proof.
  intros Hn. destruct (int_representable n Hn) as (y & Hok & Hy).
  destruct (fnum_of_Z_normalize n 0 false y) as (Hn' & Hok' & _); [lia | assumption | |].
  - rewrite Hy. f_equal.
  - split; [exact Hok' |]. unfold f64_of_Z. rewrite Hn', Hy. reflexivity.
Qed.

Lemma holds_upto x n k : holds x n -> 0 <= n <= 2 ^ k -> 0 <= k -> f64_upto k x.
Proof.
  intros [Hok Hx] Hn Hk. split; [exact Hok |]. rewrite Hx. pose proof two_1074_pos.
  split; [lia |]. rewrite Z.pow_add_r by lia. apply Z.mul_le_mono_nonneg_r; lia.
Qed.

Lemma holds_add x y a b : holds x a -> holds y b -> Z.abs (a + b) <= 2 ^ 53 ->
  holds (f64_add x y) (a + b).
Proof.
  intros [Hx Ex] [Hy Ey] Hab. destruct (int_representable (a + b) Hab) as (z & Hz & Ez).
  destruct (f64_add_exact x y z) as [Hok E]; auto; [lia |]. split; [exact Hok | lia].
Qed.

Lemma holds_sub x y a b : holds x a -> holds y b -> Z.abs (a - b) <= 2 ^ 53 ->
  holds (f64_sub x y) (a - b).
Proof.
  intros [Hx Ex] [Hy Ey] Hab. destruct (int_representable (a - b) Hab) as (z & Hz & Ez).
  destruct (f64_sub_exact x y z) as [Hok E]; auto; [lia |]. split; [exact Hok | lia].
Qed.

Lemma holds_leb x y a b : holds x a -> holds y b -> f64_leb x y = (a <=? b).
Proof.
  intros [Hx Ex] [Hy Ey]. rewrite f64_leb_fnum, Ex, Ey by assumption. pose proof two_1074_pos.
  destruct (Z.leb_spec a b); [apply Z.leb_le | apply Z.leb_gt];
    [apply Z.mul_le_mono_nonneg_r | apply Z.mul_lt_mono_pos_r]; lia.
Qed.

Lemma holds_ltb x y a b : holds x a -> holds y b -> f64_ltb x y = (a <? b).
Proof.
  intros [Hx Ex] [Hy Ey]. rewrite f64_ltb_fnum, Ex, Ey by assumption. pose proof two_1074_pos.
  destruct (Z.ltb_spec a b); [apply Z.ltb_lt | apply Z.ltb_ge];
    [apply Z.mul_lt_mono_pos_r | apply Z.mul_le_mono_nonneg_r]; lia.
Qed.

(** A positive integer held by a float: a normal number of exponent at
    least [-52]. *)
Lemma holds_pos_shape x n : holds x n -> 0 < n -> exists m e,
  x = S754_finite false m e /\ 2 ^ 52 <= Z.pos m < 2 ^ 53 /\ -52 <= e <= 971 /\
  Z.pos m * 2 ^ (e + 1074) = n * 2 ^ 1074 /\ Z.log2 n = 52 + e.
Proof.
  intros [Hok E] Hn. pose proof two_1074_pos.
  destruct x as [s | s | | s m e]; try (destruct Hok; discriminate); [cbn in E; lia |].
  pose proof (fnum_canonical _ (proj1 Hok) _ _ _ eq_refl) as [Hc He].
  destruct (fnum_pos_sign s m e) as [E' Hp]; [destruct Hc; lia |].
  destruct s; [lia |]. cbn [fnum cond_Zopp] in E. exists m, e.
  assert (Z.log2 (Z.pos m) + e = Z.log2 n) as Hl.
  { pose proof (log2_scale (Z.pos m) e n 0) as Hs. rewrite Hs; [lia | lia | lia | | lia | exact E].
    destruct Hc; lia. }
  pose proof (Z.log2_nonneg n).
  assert (Z.log2 (Z.pos m) < 53) by (apply log2_lt; destruct Hc; lia).
  destruct Hc as [[Hm _] | [_ ->]]; [| lia].
  pose proof (log2_ge (Z.pos m) 52). repeat split; lia.
Qed.

Lemma holds_mul x y a b : holds x a -> holds y b -> 0 <= a -> 0 <= b -> a * b <= 2 ^ 53 ->
  holds (f64_mul x y) (a * b).
Proof.
  intros Hx Hy Ha Hb Hab. pose proof two_1074_pos as H2.
  assert (forall x, holds x 0 -> exists s, x = S754_zero s) as Hzero.
  { intros z [Hok E]. destruct z as [s | s | | s m e]; try (destruct Hok; discriminate); [eauto |].
    pose proof (ok_exponent _ _ _ Hok). destruct (fnum_pos_sign s m e); [lia |]. destruct s; lia. }
  assert (forall s, holds (S754_zero s) 0) as Hz0 by (intros s; split; [split |]; reflexivity).
  destruct (Z.eq_dec a 0) as [-> | Hna].
  { destruct (Hzero x Hx) as [s ->]. destruct Hy as [Hok _].
    destruct y as [s' | s' | | s' m e]; try (destruct Hok; discriminate); apply Hz0. }
  destruct (Z.eq_dec b 0) as [-> | Hnb].
  { destruct (Hzero y Hy) as [s ->]. destruct Hx as [Hok _]. rewrite Z.mul_0_r.
    destruct x as [s' | s' | | s' m e]; try (destruct Hok; discriminate); apply Hz0. }
  destruct (holds_pos_shape x a Hx) as (mx & ex & -> & Hmx & Hex & Ex & _); [lia |].
  destruct (holds_pos_shape y b Hy) as (my & ey & -> & Hmy & Hey & Ey & _); [lia |].
  assert (0 < a * b) as Hp by nia.
  destruct (holds_pos_shape (f64_of_Z (a * b)) (a * b)) as (mz & ez & Ez & Hmz & Hez & Evz & _);
    [apply holds_of_Z; lia | assumption |].
  assert (f64_mul (S754_finite false mx ex) (S754_finite false my ey) = f64_of_Z (a * b)) as ->;
    [| apply holds_of_Z; lia].
  rewrite Ez. unfold f64_mul. cbn [SFmul xorb].
  replace mz with (Z.to_pos (Z.pos mz)) by reflexivity.
  apply binary_round_aux_exact; [lia | lia | | left; lia | lia |].
  - unfold target. rewrite Pos2Z.inj_mul.
    pose proof (Z.log2_mul_below (Z.pos mx) (Z.pos my)). pose proof (log2_ge (Z.pos mx) 52).
    pose proof (Z.log2_nonneg (Z.pos my)). lia.
  - rewrite Evz, Pos2Z.inj_mul.
    apply (Z.mul_cancel_r _ _ (2 ^ 1074)); [lia |].
    transitivity ((Z.pos mx * 2 ^ (ex + 1074)) * (Z.pos my * 2 ^ (ey + 1074))); [| rewrite Ex, Ey; lia].
    replace (Z.pos mx * Z.pos my * 2 ^ (ex + ey + 1074) * 2 ^ 1074)
      with (Z.pos mx * Z.pos my * (2 ^ (ex + ey + 1074) * 2 ^ 1074)) by lia.
    rewrite <- Z.pow_add_r by lia.
    replace (ex + ey + 1074 + 1074) with ((ex + 1074) + (ey + 1074)) by lia.
    rewrite Z.pow_add_r by lia. lia.
Qed.

(** A product with an integer, the other factor being zero or at least
    [2 ^ -100]. *)
Lemma f64_mul_above k j x y n : 0 <= k -> 0 <= j -> k + j <= 1021 -> f64_upto k x -> f64_upto j y -> holds y n ->
  fnum x = 0 \/ 2 ^ 974 <= fnum x ->
  fnum (f64_mul x y) * 2 ^ 52 <= fnum x * n * (2 ^ 52 + 1).
Proof.
  intros Hk Hj Hkj Hx Hy Hn Hbig. pose proof (f64_mul_upto k j x y Hk Hj Hkj Hx Hy) as [[_ Hf] _].
  assert (0 <= n) as Hn0 by (destruct Hy as [_ [? _]], Hn as [_ E]; pose proof two_1074_pos; nia).
  destruct (upto_cases k x Hx) as [[sx ->] | (mx & ex & -> & Hcx & Hex & Hbx)];
    destruct (upto_cases j y Hy) as [[sy ->] | (my & ey & -> & Hcy & Hey & Hby)];
    [unfold f64_mul; cbn; lia | unfold f64_mul; cbn; lia | |].
  { unfold f64_mul. cbn [SFmul]. change (0 * 2 ^ 52 <= fnum (S754_finite false mx ex) * n * (2 ^ 52 + 1)). apply Z.mul_nonneg_nonneg; [apply Z.mul_nonneg_nonneg; [apply Hx | exact Hn0] | lia]. }
  assert (-1074 <= ex /\ -1074 <= ey) as [? ?] by (destruct Hcx, Hcy; lia).
  destruct (fnum_pos_sign false mx ex) as [Efx Hpx]; [lia |]. destruct (fnum_pos_sign false my ey) as [Efy Hpy]; [lia |].
  destruct Hn as [Hoky En]. assert (0 < n) as Hnp by (pose proof two_1074_pos; nia).
  destruct (holds_pos_shape (S754_finite false my ey) n (conj Hoky En) Hnp) as (my' & ey' & E & Hmy & Hey' & Emy & _).
  injection E as <- <-. unfold f64_mul in *. cbn [SFmul] in *.
  change (xorb false false) with false in *. rewrite Pos2Z.inj_mul in *.
  pose proof (Z.log2_mul_below (Z.pos mx) (Z.pos my) ltac:(lia) ltac:(lia)) as Hla. pose proof (Z.log2_nonneg (Z.pos mx)).
  pose proof (log2_ge (Z.pos my) 52 ltac:(lia) ltac:(lia)) as Hly.
  assert (974 <= Z.log2 (Z.pos mx) + (ex + 1074)) as Hlx.
  { rewrite Z.add_comm, <- Z.log2_mul_pow2 by lia. apply log2_ge; [lia |]. cbn [fnum cond_Zopp] in Hbig. lia. }
  pose proof (binary_round_aux_above (Z.pos mx * Z.pos my) (ex + ey) loc_Exact 1074) as Hup.
  assert (Z.pos mx * Z.pos my * 2 ^ (ex + ey + 1074 + 1074) = fnum (S754_finite false mx ex) * n * 2 ^ 1074) as Ev.
  { rewrite <- (Z.mul_assoc _ n), <- Emy. cbn [fnum cond_Zopp]. replace (ex + ey + 1074 + 1074) with ((ex + 1074) + (ey + 1074)) by lia.
    rewrite Z.pow_add_r by lia. lia. }
  rewrite Ev in Hup. specialize (Hup ltac:(lia) ltac:(unfold target; lia) ltac:(lia) ltac:(lia) ltac:(lia) Hf).
  apply (Z.mul_le_mono_pos_r _ _ (2 ^ 1074) two_1074_pos).
  rewrite <- (Z.mul_assoc _ (2 ^ 52)), (Z.mul_comm (2 ^ 52)), Z.mul_assoc. etransitivity; [exact Hup |].
  apply Z.eq_le_incl. ring.
Qed.

(** ** Seconds of a duration *)

Lemma f64_nanos_upto n : 0 <= n < Second -> f64_upto 1 (f64_div (f64_of_Z n) (f64_of_Z Second)).
Proof.
  intros Hn. unfold Second in *. destruct (Z.eq_dec n 0) as [-> | Hne].
  { apply upto_zero. lia. }
  destruct (holds_pos_shape (f64_of_Z n) n) as (m & e & -> & Hm & He & _ & Hl);
    [apply holds_of_Z; lia | lia |].
  assert (Z.log2 n <= 29) as Hln by (apply (Z.log2_le_mono n (2 ^ 30 - 1)); lia).
  assert (f64_of_Z 1000000000 = S754_finite false 8388608000000000 (-23)) as -> by reflexivity.
  unfold f64_div. cbn [SFdiv xorb]. unfold SFdiv_core_binary.
  rewrite !Zdigits2_log2 by lia.
  assert (Z.log2 (Z.pos m) = 52) as -> by (apply Z.log2_unique; lia).
  change (Z.log2 8388608000000000) with 52.
  replace (52 + 1 + e - (52 + 1 + -23)) with (e + 23) by lia.
  assert (Z.min (fexp 53 1024 (e + 23)) (e - -23) = e - 30) as -> by (unfold fexp, emin; lia).
  replace (e - -23 - (e - 30)) with 53 by lia. rewrite Z.shiftl_mul_pow2 by lia.
  pose proof (Z_div_mod (Z.pos m * 2 ^ 53) 8388608000000000 eq_refl) as Hd.
  destruct (Z.div_eucl (Z.pos m * 2 ^ 53) 8388608000000000) as [q r]. destruct Hd as [Hd Hr].
  assert (2 ^ 52 <= q < 2 ^ 54) as Hq by lia.
  pose proof (log2_ge q 52). pose proof (log2_lt q 54).
  apply upto_of_aux; unfold target; lia.
Qed.

Lemma duration_seconds_upto d : 0 <= d <= int64_max -> f64_upto 35 (duration_seconds d).
Proof.
  intros Hd. unfold duration_seconds, int64_max, Second in *.
  pose proof (Z.quot_pos d 1000000000). pose proof (Z.rem_bound_pos d 1000000000).
  assert (Z.quot d 1000000000 < 2 ^ 34) by (apply Z.quot_lt_upper_bound; lia).
  apply (f64_add_upto 34); [lia | apply f64_of_Z_upto; lia |].
  apply (f64_upto_mono 1); [lia | lia |]. apply f64_nanos_upto. unfold Second. lia.
Qed.

(** The nanoseconds of a duration as a fraction of a second: at most one
    rounding above it, and zero or not too small. *)
Lemma f64_nanos_above n : 0 <= n < Second ->
  fnum (f64_div (f64_of_Z n) (f64_of_Z Second)) * Second * 2 ^ 52 <= n * 2 ^ 1074 * (2 ^ 52 + 1) /\
  (n = 0 \/ 2 ^ 1000 <= fnum (f64_div (f64_of_Z n) (f64_of_Z Second))).
Proof.
  intros Hn. pose proof (f64_nanos_upto n Hn) as [[_ Hf] _]. unfold Second in *. destruct (Z.eq_dec n 0) as [-> | Hne].
  { split; [vm_compute; discriminate | now left]. }
  destruct (holds_pos_shape (f64_of_Z n) n) as (m & e & Em & Hm & He & Ev & Hl); [apply holds_of_Z; lia | lia |].
  rewrite Em in *.
  assert (Z.log2 n <= 29) as Hln by (apply (Z.log2_le_mono n (2 ^ 30 - 1)); lia).
  assert (f64_of_Z 1000000000 = S754_finite false 8388608000000000 (-23)) as Es by reflexivity. rewrite Es in *.
  unfold f64_div in *. cbn [SFdiv xorb] in *. unfold SFdiv_core_binary in *.
  rewrite !Zdigits2_log2 in * by lia.
  assert (Z.log2 (Z.pos m) = 52) as E52 by (apply Z.log2_unique; lia). rewrite E52 in *.
  change (Z.log2 8388608000000000) with 52 in *.
  replace (52 + 1 + e - (52 + 1 + -23)) with (e + 23) in * by lia.
  assert (Z.min (fexp 53 1024 (e + 23)) (e - -23) = e - 30) as Emin by (unfold fexp, emin; lia). rewrite Emin in *.
  replace (e - -23 - (e - 30)) with 53 in * by lia. rewrite Z.shiftl_mul_pow2 in * by lia.
  pose proof (Z_div_mod (Z.pos m * 2 ^ 53) 8388608000000000 eq_refl) as Hd.
  destruct (Z.div_eucl (Z.pos m * 2 ^ 53) 8388608000000000) as [q r]. destruct Hd as [Hd Hr].
  assert (2 ^ 52 <= q < 2 ^ 54) as Hq by lia.
  pose proof (log2_ge q 52 ltac:(lia) ltac:(lia)) as Hq1. pose proof (log2_lt q 54 ltac:(lia) ltac:(lia) ltac:(lia)) as Hq2.
  assert (q * 2 ^ (e - 30 + 1074) * 1000000000 <= n * 2 ^ 1074) as Hval.
  { rewrite <- Ev. replace (e + 1074) with (30 + (e - 30 + 1074)) by lia. rewrite (Z.pow_add_r 2 30) by lia.
    assert (0 < 2 ^ (e - 30 + 1074)) by (apply pow2_pos; lia). nia. }
  split.
  - pose proof (binary_round_aux_above q (e - 30) (new_location 8388608000000000 r) 0) as Hup.
    rewrite Z.add_0_r, Z.mul_1_r in Hup. specialize (Hup ltac:(lia) ltac:(unfold target; lia) ltac:(lia) ltac:(lia) ltac:(lia) Hf). lia.
  - right. apply binary_round_aux_from; [lia | unfold target; lia | lia | lia | lia | exact Hf].
Qed.

(** The float of a nonnegative duration is zero or not too small, and at most
    two roundings above the exact number of seconds. *)
Lemma duration_seconds_above d : 0 <= d <= int64_max ->
  fnum (duration_seconds d) * Second * 2 ^ 104 <= d * 2 ^ 1074 * (2 ^ 52 + 1) ^ 2 /\
  (fnum (duration_seconds d) = 0 \/ 2 ^ 974 <= fnum (duration_seconds d)).
Proof.
  intros Hd. pose proof (Z.quot_rem d Second ltac:(discriminate)) as Hq.
  unfold duration_seconds, int64_max, Second in *.
  pose proof (Z.quot_pos d 1000000000). pose proof (Z.rem_bound_pos d 1000000000 ltac:(lia) ltac:(lia)) as Hr.
  assert (Z.quot d 1000000000 < 2 ^ 34) as Hq34 by (apply Z.quot_lt_upper_bound; lia).
  set (q := Z.quot d 1000000000) in *. set (r := Z.rem d 1000000000) in *.
  destruct (f64_nanos_above r) as [Ha Hb]; [unfold Second; lia |]. unfold Second in Ha, Hb.
  destruct (holds_of_Z q) as [Hokq Eq]; [lia |].
  pose proof (f64_nanos_upto r ltac:(unfold Second; lia)) as Hy. unfold Second in Hy.
  destruct (f64_add_above 34 (f64_of_Z q) (f64_div (f64_of_Z r) (f64_of_Z 1000000000)) ltac:(lia)
    ltac:(apply f64_of_Z_upto; lia) ltac:(apply (f64_upto_mono 1); [lia | lia | exact Hy])) as [Hs Hfrom].
  assert (0 <= q) as Hq0 by auto with lia. split.
  - rewrite Eq in Hs. set (x := fnum (f64_add _ _)) in *. set (y := fnum (f64_div _ _)) in *. clearbody x y.
    generalize two_1074_pos. intros Hp. set (P := 2 ^ 1074) in *. clearbody P. nia.
  - destruct (Z.eq_dec q 0) as [E0 | Hne].
    + destruct Hb as [Hr0 | Hb]; [rewrite E0, Hr0; now left |]. right.
      apply Hfrom; [lia |]. rewrite Eq, E0. transitivity (2 ^ 1000); [apply Z.pow_le_mono_r; lia | lia].
    + right. apply Hfrom; [lia |]. rewrite Eq. destruct Hy as [_ [Hy _]]. pose proof two_1074_pos.
      transitivity (1 * 2 ^ 1074); [rewrite Z.mul_1_l; apply Z.pow_le_mono_r; lia | nia].
Qed.

Lemma duration_seconds_whole n : 0 <= n <= 2 ^ 53 -> holds (duration_seconds (n * Second)) n.
Proof.
  intros Hn. unfold duration_seconds. rewrite Z.quot_mul, Z.rem_mul by discriminate.
  rewrite <- (Z.add_0_r n) at 2. apply holds_add; [apply holds_of_Z; lia | | lia].
  split; [split |]; reflexivity.
Qed.

Lemma duration_seconds_zero : duration_seconds 0 = f64_zero.
Proof. reflexivity. Qed.

#[export] Hint Resolve holds_of_Z holds_add holds_sub holds_mul duration_seconds_whole : dense.
