(* ===== verification/GoStrings.v ===== *)
(** * Go strings and host:port addresses

    The functions of the packages [strings], [strconv] and [net] that the
    source uses, on byte strings.  [trim_space] removes every Unicode space
    (as UTF-8 byte sequences), [to_lower] lowers the ASCII letters, and
    [split_host_port] follows [net.SplitHostPort] test by
    test. *)

From S2P Require Import Prelude.
From Stdlib Require Import Ascii.
From Stdlib Require String.
From stdpp Require Import pretty.


Abbreviation bytes := Stdlib.Strings.String.list_ascii_of_string.
Abbreviation str := Stdlib.Strings.String.string_of_list_ascii.

(** ** Prefixes, suffixes, search *)

(** [strip_prefix p s] is what follows [p] in [s]. *)
Fixpoint strip_prefix (p s : list ascii) : option (list ascii) :=
  match p, s with
  | [], _ => Some s
  | a :: p', b :: s' => if Ascii.eqb a b then strip_prefix p' s' else None
  | _ :: _, [] => None
  end.

(** [strings.HasPrefix], [strings.HasSuffix], [strings.TrimSuffix]. *)
Definition has_prefix (s p : string) : bool :=
  match strip_prefix (bytes p) (bytes s) with Some _ => true | None => false end.

Definition trim_suffix (s p : string) : string :=
  match strip_prefix (rev (bytes p)) (rev (bytes s)) with
  | Some r => str (rev r)
  | None => s
  end.

(** [strings.Contains]. *)
Fixpoint contains_l (s p : list ascii) : bool :=
  match strip_prefix p s with
  | Some _ => true
  | None => match s with [] => false | _ :: s' => contains_l s' p end
  end.
Definition contains (s p : string) : bool := contains_l (bytes s) (bytes p).

(** Index of the first, and of the last, occurrence of a byte. *)
Fixpoint index_byte (s : list ascii) (c : ascii) : option nat :=
  match s with
  | [] => None
  | a :: s' => if Ascii.eqb a c then Some 0%nat else S <$> index_byte s' c
  end.

Fixpoint last_index_byte (s : list ascii) (c : ascii) : option nat :=
  match s with
  | [] => None
  | a :: s' =>
      match last_index_byte s' c with
      | Some i => Some (S i)
      | None => if Ascii.eqb a c then Some 0%nat else None
      end
  end.

(** [strings.Split(s, c)] for a one-byte separator. *)
Fixpoint split_go (s cur : list ascii) (c : ascii) : list string :=
  match s with
  | [] => [str (rev cur)]
  | a :: s' => if Ascii.eqb a c then str (rev cur) :: split_go s' [] c else split_go s' (a :: cur) c
  end.
Definition split (s : string) (c : ascii) : list string := split_go (bytes s) [] c.

(** [strings.Join]. *)
Fixpoint join (sep : string) (l : list string) : string :=
  match l with
  | [] => ""
  | [x] => x
  | x :: l' => x +:+ sep +:+ join sep l'
  end.

(** ** Spaces *)

Definition byte (n : nat) : ascii := ascii_of_nat n.

Definition quote : string := str [byte 34].
Definition newline : string := str [byte 10].

(** The UTF-8 encodings of the code points of [unicode.IsSpace]. *)
Definition spaces : list (list ascii) :=
  (fun n => [byte n]) <$> [9; 10; 11; 12; 13; 32]%nat.

Definition unicode_spaces : list (list ascii) :=
  ((fun n => [byte 194; byte n]) <$> [133; 160]%nat) ++
  [[byte 225; byte 154; byte 128]] ++
  ((fun n => [byte 226; byte 128; byte n]) <$> (seq 128 11 ++ [168; 169; 175]%nat)) ++
  [[byte 226; byte 129; byte 159]; [byte 227; byte 128; byte 128]].

Definition all_spaces : list (list ascii) := spaces ++ unicode_spaces.

Fixpoint strip_any (ps : list (list ascii)) (s : list ascii) : option (list ascii) :=
  match ps with
  | [] => None
  | p :: ps' => match strip_prefix p s with Some r => Some r | None => strip_any ps' s end
  end.

(** Every space stripped is at least one byte, so [length s] rounds are
    enough. *)
Fixpoint trim_left_fuel (ps : list (list ascii)) (fuel : nat) (s : list ascii) : list ascii :=
  match fuel with
  | O => s
  | S n => match strip_any ps s with Some r => trim_left_fuel ps n r | None => s end
  end.
Definition trim_left (ps : list (list ascii)) (s : list ascii) : list ascii :=
  trim_left_fuel ps (length s) s.

(** [strings.TrimSpace]. *)
Definition trim_space (s : string) : string :=
  str (rev (trim_left (@rev ascii <$> all_spaces) (rev (trim_left all_spaces (bytes s))))).

(** [strings.Trim(s, "[]")]. *)
Definition trim_brackets (s : string) : string :=
  let ps := [bytes "["; bytes "]"] in
  str (rev (trim_left ps (rev (trim_left ps (bytes s))))).

(** ** Letters *)

Definition lower_byte (a : ascii) : ascii :=
  let n := nat_of_ascii a in
  if (65 <=? n)%nat && (n <=? 90)%nat then ascii_of_nat (n + 32) else a.
(** [strings.ToLower] of ASCII text; other bytes are left as they are. *)
Definition to_lower (s : string) : string := str (lower_byte <$> bytes s).

(** ** Numbers: [strconv.FormatInt] and [strconv.FormatUint] in base 10 *)

Definition format_int (z : Z) : string := pretty z.

(** [time.Duration.String].  A fraction of [prec] digits loses its trailing
    zeros, and its point with the last of them. *)
Fixpoint fraction_digits (prec : nat) (v : Z) (printing : bool) : string :=
  match prec with
  | O => ""
  | S prec' =>
      let d := (v mod 10)%Z in
      let print := printing || negb (d =? 0)%Z in
      fraction_digits prec' (v / 10)%Z print +:+ if print then format_int d else ""
  end.

Definition fraction (prec : nat) (v : Z) : string :=
  let digits := fraction_digits prec v false in
  if decide (digits = "") then "" else "." +:+ digits.

Definition unsigned_duration_string (u : Z) : string :=
  let decimal prec v := format_int (v / 10 ^ Z.of_nat prec)%Z +:+ fraction prec v in
  if (u =? 0)%Z then "0s"
  else if (u <? 1000)%Z then decimal 0%nat u +:+ "ns"
  else if (u <? 1000000)%Z then decimal 3%nat u +:+ str [byte 194; byte 181] +:+ "s"
  else if (u <? Second)%Z then decimal 6%nat u +:+ "ms"
  else
    let seconds := (u / Second)%Z in
    let minutes := (seconds / 60)%Z in
    let hours := (minutes / 60)%Z in
    (if (0 <? hours)%Z then format_int hours +:+ "h" else "") +:+
    (if (0 <? minutes)%Z then format_int (minutes mod 60)%Z +:+ "m" else "") +:+
    format_int (seconds mod 60)%Z +:+ fraction 9 u +:+ "s".

Definition duration_string (d : Z) : string :=
  (if (d <? 0)%Z then "-" else "") +:+ unsigned_duration_string (Z.abs d).

Example duration_strings :
  duration_string <$> [0; 7; 1500; 2000000; 2 * Second; 90 * Second + 250 * Millisecond; - (3 * Hour)]%Z =
    ["0s"; "7ns"; "1.5" +:+ str [byte 194; byte 181] +:+ "s"; "2ms"; "2s"; "1m30.25s"; "-3h0m0s"].
Proof. vm_compute. reflexivity. Qed.

(** ** [net.SplitHostPort] *)

Definition has_byte (s : list ascii) (c : ascii) : bool :=
  match index_byte s c with Some _ => true | None => false end.

Definition comma : ascii := ","%char.
Definition colon : ascii := ":"%char.
Definition lbracket : ascii := "["%char.
Definition rbracket : ascii := "]"%char.

(** [Some (host, port)], or [None] for any of its errors. *)
Definition split_host_port (hostport : string) : option (string * string) :=
  let s := bytes hostport in
  match last_index_byte s colon with
  | None => None
  | Some i =>
      match
        match s with
        | c :: _ =>
            if Ascii.eqb c lbracket then
              match index_byte s rbracket with
              | None => None
              | Some e =>
                  if (S e =? length s)%nat then None
                  else if (S e =? i)%nat then Some (take (e - 1) (drop 1 s), 1%nat, S e)
                  else None
              end
            else
              let host := take i s in
              if has_byte host colon then None else Some (host, 0%nat, 0%nat)
        | [] => None
        end
      with
      | None => None
      | Some (host, j, k) =>
          if has_byte (drop j s) lbracket then None
          else if has_byte (drop k s) rbracket then None
          else Some (str host, str (drop (S i) s))
      end
  end.

(** ** Lemmas *)

Lemma bytes_app s t : bytes (s +:+ t) = bytes s ++ bytes t.
Proof. induction s as [| a s IH]; [reflexivity | exact (f_equal (cons a) IH)]. Qed.

Lemma str_app l k : str (l ++ k) = str l +:+ str k.
Proof. induction l as [| a l IH]; [reflexivity | exact (f_equal (String a) IH)]. Qed.

Lemma string_length_app s t : String.length (s +:+ t) = (String.length s + String.length t)%nat.
Proof.
  induction s as [| a s IH]; [reflexivity |]. change (String a s +:+ t) with (String a (s +:+ t)). cbn. now rewrite IH.
Qed.

Lemma string_app_nil (s : string) : s +:+ "" = s.
Proof. induction s as [| a s IH]; [reflexivity |]. exact (f_equal (String a) IH). Qed.

Lemma string_app_assoc (s t u : string) : s +:+ (t +:+ u) = (s +:+ t) +:+ u.
Proof. induction s as [| a s IH]; [reflexivity |]. exact (f_equal (String a) IH). Qed.

Lemma str_bytes s : str (bytes s) = s.
Proof. apply Stdlib.Strings.String.string_of_list_ascii_of_string. Qed.

Lemma bytes_str l : bytes (str l) = l.
Proof. apply Stdlib.Strings.String.list_ascii_of_string_of_list_ascii. Qed.

Lemma bytes_inj s t : bytes s = bytes t -> s = t.
Proof. intros H. rewrite <- (str_bytes s), H. apply str_bytes. Qed.

Lemma strip_prefix_spec p s r : strip_prefix p s = Some r <-> s = p ++ r.
Proof.
  revert s. induction p as [| a p IH]; intros s; cbn.
  - split; congruence.
  - destruct s as [| b s]; [split; discriminate |]. destruct (Ascii.eqb_spec a b) as [-> | Hne].
    + rewrite IH. split; congruence.
    + split; congruence.
Qed.

Lemma has_prefix_spec s p : has_prefix s p = true <-> exists r, s = p +:+ r.
Proof.
  unfold has_prefix. destruct (strip_prefix (bytes p) (bytes s)) as [r |] eqn:E.
  - split; [| done]. intros _. exists (str r). apply bytes_inj.
    rewrite bytes_app, bytes_str. now apply strip_prefix_spec.
  - split; [done |]. intros [r ->]. rewrite bytes_app in E.
    assert (strip_prefix (bytes p) (bytes p ++ bytes r) = Some (bytes r)) as E' by (now apply strip_prefix_spec).
    congruence.
Qed.

Lemma has_prefix_app p r : has_prefix (p +:+ r) p = true.
Proof. apply has_prefix_spec. eauto. Qed.

Lemma trim_suffix_app s p : trim_suffix (s +:+ p) p = s.
Proof.
  unfold trim_suffix. rewrite bytes_app, rev_app_distr.
  assert (strip_prefix (rev (bytes p)) (rev (bytes p) ++ rev (bytes s)) = Some (rev (bytes s))) as ->
    by (now apply strip_prefix_spec).
  now rewrite rev_involutive, str_bytes.
Qed.

(** Either the suffix is cut, or nothing changes. *)
Lemma trim_suffix_cases s p : s = trim_suffix s p +:+ p \/ trim_suffix s p = s.
Proof.
  unfold trim_suffix. destruct (strip_prefix (rev (bytes p)) (rev (bytes s))) as [r |] eqn:E; [| now right].
  left. apply strip_prefix_spec in E. apply bytes_inj. rewrite bytes_app, bytes_str.
  rewrite <- (rev_involutive (bytes s)), E, rev_app_distr, rev_involutive. reflexivity.
Qed.

(** ** Strings without spaces *)

Definition is_graphic (a : ascii) : bool :=
  let n := nat_of_ascii a in (33 <=? n)%nat && (n <=? 126)%nat.
Definition graphic (s : list ascii) : bool := forallb is_graphic s.

Definition ends_graphic (ps : list (list ascii)) : bool :=
  forallb (fun p => match p with [] => false | a :: _ => negb (graphic [a]) end) ps.

Lemma strip_any_graphic ps s : ends_graphic ps = true -> graphic s = true -> strip_any ps s = None.
Proof.
  intros Hps Hs. induction ps as [| p ps IH]; cbn; [reflexivity |].
  cbn in Hps. apply andb_true_iff in Hps as [Hp Hps].
  destruct p as [| a p]; [discriminate |]. destruct s as [| b s]; cbn; [now apply IH |].
  destruct (Ascii.eqb_spec a b) as [-> | Hne]; [| now apply IH].
  exfalso. unfold graphic in Hs, Hp. cbn [forallb] in Hs, Hp.
  apply andb_true_iff in Hs as [Hb _]. rewrite Hb in Hp. discriminate.
Qed.

Lemma trim_left_graphic ps s : ends_graphic ps = true -> graphic s = true -> trim_left ps s = s.
Proof.
  intros Hps Hs. unfold trim_left. destruct (length s); cbn; [reflexivity |].
  now rewrite strip_any_graphic.
Qed.

Lemma graphic_rev s : graphic (rev s) = graphic s.
Proof.
  unfold graphic. induction s as [| a s IH]; cbn; [reflexivity |].
  rewrite forallb_app, IH. cbn. rewrite andb_true_r. apply andb_comm.
Qed.

Lemma graphic_app s t : graphic (s ++ t) = graphic s && graphic t.
Proof. apply forallb_app. Qed.

Lemma all_spaces_ends : ends_graphic all_spaces = true /\ ends_graphic (@rev ascii <$> all_spaces) = true.
Proof. split; vm_compute; reflexivity. Qed.

Lemma trim_space_graphic s : graphic (bytes s) = true -> trim_space s = s.
Proof.
  intros H. destruct all_spaces_ends as [H1 H2]. unfold trim_space.
  rewrite (trim_left_graphic all_spaces) by assumption.
  rewrite trim_left_graphic by (rewrite ?graphic_rev; assumption).
  now rewrite rev_involutive, str_bytes.
Qed.

(** ** Addresses *)

Lemma has_byte_app s t c : has_byte (s ++ t) c = has_byte s c || has_byte t c.
Proof.
  unfold has_byte. induction s as [| a s IH]; [reflexivity |]. cbn.
  destruct (Ascii.eqb a c); [reflexivity |].
  destruct (index_byte (s ++ t) c), (index_byte s c), (index_byte t c); cbn in *; congruence.
Qed.

Lemma has_byte_cons a s c : has_byte (a :: s) c = Ascii.eqb a c || has_byte s c.
Proof. unfold has_byte. cbn. destruct (Ascii.eqb a c); [reflexivity |]. now destruct (index_byte s c). Qed.

Lemma last_index_byte_none s c : has_byte s c = false -> last_index_byte s c = None.
Proof.
  induction s as [| a s IH]; [reflexivity |]. rewrite has_byte_cons. cbn.
  intros [-> H]%orb_false_iff. now rewrite IH.
Qed.

Lemma last_index_byte_app s t c : has_byte t c = false -> last_index_byte (s ++ c :: t) c = Some (length s).
Proof.
  intros H. induction s as [| a s IH]; cbn.
  - rewrite last_index_byte_none by assumption. now rewrite Ascii.eqb_refl.
  - now rewrite IH.
Qed.

Lemma index_byte_app s t c : has_byte s c = false -> index_byte (s ++ c :: t) c = Some (length s).
Proof.
  induction s as [| a s IH]; cbn.
  - now rewrite Ascii.eqb_refl.
  - rewrite has_byte_cons. intros [-> H]%orb_false_iff. now rewrite IH.
Qed.

Lemma drop_past (s t : list ascii) c : drop (S (length s)) (s ++ c :: t) = t.
Proof. induction s as [| a s IH]; [apply drop_0 | exact IH]. Qed.

(** [plain s]: no colon and no brackets. *)
Definition plain (s : list ascii) : bool :=
  negb (has_byte s colon || has_byte s lbracket || has_byte s rbracket).

Lemma plain_spec s : plain s = true ->
  has_byte s colon = false /\ has_byte s lbracket = false /\ has_byte s rbracket = false.
Proof. unfold plain. intros [[? ?]%orb_false_iff ?]%negb_true_iff%orb_false_iff. auto. Qed.

Lemma split_host_port_plain host port : host <> "" -> plain (bytes host) = true -> plain (bytes port) = true ->
  split_host_port (host +:+ ":" +:+ port) = Some (host, port).
Proof.
  intros Hne (Hc & Hl & Hr)%plain_spec (Pc & Pl & Pr)%plain_spec.
  assert (bytes (host +:+ ":" +:+ port) = bytes host ++ colon :: bytes port) as Eb.
  { rewrite bytes_app. reflexivity. }
  unfold split_host_port. rewrite Eb, last_index_byte_app by assumption.
  destruct (bytes host) as [| a h] eqn:Eh.
  { exfalso. apply Hne. apply bytes_inj. now rewrite Eh. }
  cbn [app]. pose proof Hl as Hl'. rewrite has_byte_cons in Hl'. apply orb_false_iff in Hl' as [-> _].
  change (a :: h ++ colon :: bytes port) with ((a :: h) ++ colon :: bytes port).
  rewrite take_app_length, Hc, drop_0.
  rewrite !has_byte_app, Hl, Hr, !has_byte_cons, Pl, Pr. cbn [orb].
  do 2 f_equal.
  - rewrite <- Eh. apply str_bytes.
  - rewrite drop_past. apply str_bytes.
Qed.

Lemma split_host_port_bracket host port : has_byte (bytes host) rbracket = false ->
  has_byte (bytes host) lbracket = false -> plain (bytes port) = true ->
  split_host_port ("[" +:+ host +:+ "]:" +:+ port) = Some (host, port).
Proof.
  intros Hr Hl (Pc & Pl & Pr)%plain_spec.
  assert (bytes ("[" +:+ host +:+ "]:" +:+ port) = lbracket :: bytes host ++ rbracket :: colon :: bytes port) as Eb.
  { rewrite !bytes_app. reflexivity. }
  unfold split_host_port. rewrite Eb.
  assert (lbracket :: bytes host ++ rbracket :: colon :: bytes port =
    (lbracket :: bytes host ++ [rbracket]) ++ colon :: bytes port) as Er.
  { cbn. f_equal. now rewrite <- app_assoc. }
  rewrite Er at 1. rewrite last_index_byte_app by assumption.
  rewrite Ascii.eqb_refl.
  assert (index_byte (lbracket :: bytes host ++ rbracket :: colon :: bytes port) rbracket = Some (S (length (bytes host)))) as ->.
  { change (lbracket :: bytes host ++ rbracket :: colon :: bytes port) with ((lbracket :: bytes host) ++ rbracket :: colon :: bytes port).
    rewrite index_byte_app; [reflexivity |]. rewrite has_byte_cons, Hr. reflexivity. }
  cbn [length]. rewrite !length_app. cbn [length].
  destruct (Nat.eqb_spec (S (S (length (bytes host)))) (S (length (bytes host) + S (S (length (bytes port)))))); [lia |].
  destruct (Nat.eqb_spec (S (S (length (bytes host)))) (S (length (bytes host) + 1))); [| lia].
  cbn [Nat.sub]. rewrite Nat.sub_0_r.
  change (drop 1 (lbracket :: ?l)) with (drop 0 l). rewrite drop_0, take_app_length.
  rewrite has_byte_app, Hl, !has_byte_cons, Pl. cbn [orb].
  change (drop (S ?n) (lbracket :: ?l)) with (drop n l). rewrite drop_past.
  rewrite has_byte_cons, Pr. cbn [orb].
  replace (drop (S (length (bytes host) + 1)) _) with (bytes port).
  { cbn. now rewrite !str_bytes. }
  rewrite <- (drop_past (bytes host ++ [rbracket]) (bytes port) colon) at 1.
  now rewrite length_app, <- app_assoc.
Qed.

Lemma has_byte_graphic_space s : graphic s = true -> forall c, is_graphic c = false -> has_byte s c = false.
Proof.
  intros Hs c Hc. induction s as [| a s IH]; [reflexivity |].
  rewrite has_byte_cons. cbn in Hs. apply andb_true_iff in Hs as [Ha Hs]. rewrite (IH Hs).
  destruct (Ascii.eqb_spec a c) as [-> |]; [congruence | reflexivity].
Qed.

#[export] Hint Rewrite bytes_app str_app str_bytes bytes_str : dense.

Example trim_space_ex : trim_space (str [byte 32; byte 226; byte 128; byte 131; byte 120; byte 194; byte 160]) = "x".
Proof. reflexivity. Qed.
Example split_ex : split "a, b,,c" ","%char = ["a"; " b"; ""; "c"].
Proof. reflexivity. Qed.
Example split_host_port_ex :
  (split_host_port "10.0.0.1:80", split_host_port "[::1]:80", split_host_port "::1", split_host_port "[::1]")
  = (Some ("10.0.0.1", "80"), Some ("::1", "80"), None, None).
Proof. reflexivity. Qed.
