(* ===== verification/FloatText.v ===== *)
(** * Floats as text

    [strconv.FormatFloat(x, 'f', -1, 64)]: the fewest decimal digits that
    still read back as [x], and among them the closest to it.  The reader is
    the correctly rounded one of [strconv.ParseFloat].  The search goes from
    one significant digit on, up to the exact expansion of [x], so its fuel
    is always enough.

    The theorem: what is printed reads back as the same float
    ([format_float_reads]). *)

From S2P Require Import Prelude Float64 GoStrings.
From Stdlib Require Import Ascii.
From stdpp Require Import pretty.

#[local] Open Scope Z_scope.

(** ** The float nearest to a decimal *)

(** The float nearest to a fraction of positive integers, ties to even. *)
Definition ratio_float (s : bool) (a b : Z) : float64 :=
  SFdiv 53 1024 (S754_finite s (Z.to_pos a) 0) (S754_finite false (Z.to_pos b) 0).

(** A decimal of [k] fraction digits without its trailing zeros. *)
Fixpoint strip_zeros (k : nat) (d : Z) : Z * nat :=
  match k with
  | O => (d, O)
  | S k' => if d mod 10 =? 0 then strip_zeros k' (d / 10) else (d, k)
  end.

(** The float nearest to [d * 10 ^ -k], ties to even. *)
Definition decimal_float (s : bool) (d k : Z) : float64 :=
  if d =? 0 then S754_zero s
  else if k <=? 0 then ratio_float s (d * 10 ^ (- k)) 1
  else ratio_float s (strip_zeros (Z.to_nat k) d).1 (10 ^ Z.of_nat (strip_zeros (Z.to_nat k) d).2).

(** ** The shortest decimal *)

(** [m * 2 ^ e] as a fraction, and the decimal of [k] fraction digits just
    below it, with the remainder. *)
Definition float_num (m e : Z) : Z := m * 2 ^ Z.max 0 e.
Definition float_den (e : Z) : Z := 2 ^ Z.max 0 (- e).

Definition scaled_num (m e k : Z) : Z := float_num m e * 10 ^ Z.max 0 k.
Definition scaled_den (e k : Z) : Z := float_den e * 10 ^ Z.max 0 (- k).

Definition reads_as (m e d k : Z) : bool :=
  bool_decide (decimal_float false d k = S754_finite false (Z.to_pos m) e).

(** The closest of the two decimals of [k] digits around it that reads back. *)
Definition closest (m e k : Z) : option Z :=
  let n := scaled_num m e k in
  let d := scaled_den e k in
  let lo := n / d in
  let r := n mod d in
  match reads_as m e lo k, reads_as m e (lo + 1) k with
  | true, true => Some (if (2 * r <? d) || ((2 * r =? d) && Z.even lo) then lo else lo + 1)
  | true, false => Some lo
  | false, true => Some (lo + 1)
  | false, false => None
  end.

Fixpoint shortest_from (fuel : nat) (m e k : Z) : Z * Z :=
  match fuel with
  | O => (0, k)
  | S fuel' => match closest m e k with Some d => (d, k) | None => shortest_from fuel' m e (k + 1) end
  end.

(** One significant digit, and the digits of the exact expansion. *)
Definition first_place (m e : Z) : Z :=
  - Z.of_nat (String.length (format_int (float_num m e / float_den e))).
Definition last_place (e : Z) : Z := Z.max 0 (- e).

Definition shortest (m e : Z) : Z * Z :=
  shortest_from (S (Z.to_nat (last_place e - first_place m e))) m e (first_place m e).

(** ** Printing *)

Definition decimal_text (d k : Z) : string :=
  if k <=? 0 then format_int (d * 10 ^ (- k))
  else format_int (d / 10 ^ k) +:+ fraction (Z.to_nat k) d.

Definition sign_text (s : bool) : string := if s then "-" else "".

Definition FormatFloat (x : float64) : string :=
  match x with
  | S754_nan => "NaN"
  | S754_infinity s => if s then "-Inf" else "+Inf"
  | S754_zero s => sign_text s +:+ "0"
  | S754_finite s m e => sign_text s +:+ decimal_text (shortest (Z.pos m) e).1 (shortest (Z.pos m) e).2
  end.

Example format_floats :
  FormatFloat <$> [f64_lit 5 3; f64_lit 1 2; f64_lit 25 3; f64_lit 25 1; f64_of_Z 10; f64_lit 1 1; f64_zero;
    f64_add (f64_lit 1 1) (f64_lit 2 1); f64_of_Z (10 ^ 23); f64_div (f64_of_Z 1) (f64_of_Z 3);
    f64_div (f64_of_Z (-1)) (f64_of_Z 8); f64_of_Z (2 ^ 60)] =
  ["0.005"; "0.01"; "0.025"; "2.5"; "10"; "0.1"; "0"; "0.30000000000000004"; "100000000000000000000000";
   "0.3333333333333333"; "-0.125"; "1152921504606847000"].
Proof. vm_compute. reflexivity. Qed.

(** ** Reading a decimal that is a float *)

Lemma div_exponent A B m e : 0 < A -> 0 < B -> canonical m e ->
  A * 2 ^ Z.max 0 (- e) = float_num m e * B ->
  Z.min (fexp 53 1024 (Zdigits2 A + 0 - (Zdigits2 B + 0))) (0 - 0) <= e.
Proof.
  intros HA HB Hc Hv. assert (0 < m) as Hm by (destruct Hc; lia).
  rewrite !Zdigits2_log2 by assumption. rewrite <- (target_canonical m e Hc) at 1.
  destruct (Z.le_gt_cases 0 e) as [He | He].
  - rewrite target_canonical by assumption. lia.
  - unfold float_num in Hv. rewrite (Z.max_l 0 e), (Z.max_r 0 (- e)), Z.pow_0_r, Z.mul_1_r in Hv by lia.
    apply (f_equal Z.log2) in Hv. rewrite Z.log2_mul_pow2 in Hv by lia.
    pose proof (Z.log2_mul_above m B). unfold fexp, emin, target. lia.
Qed.

Lemma new_location_exact b : new_location b 0 = loc_Exact.
Proof. unfold new_location, new_location_even, new_location_odd. now destruct (Z.even b). Qed.

Lemma ratio_float_exact s A B m e : 0 < A -> 0 < B -> canonical m e -> e <= 971 ->
  A * float_den e = float_num m e * B -> ratio_float s A B = S754_finite s (Z.to_pos m) e.
Proof.
  intros HA H2 Hc He Hv. assert (0 < m) as Hm by (destruct Hc; lia).
  unfold ratio_float, SFdiv, SFdiv_core_binary. rewrite !Z2Pos.id by assumption.
  pose proof (div_exponent A B m e HA H2 Hc Hv) as Hle.
  set (e' := Z.min _ _) in *. assert (-1074 <= e') as Hlow by (unfold e', fexp, emin; lia).
  assert (e' <= 0) as Hup by (unfold e'; lia).
  assert (A * 2 ^ (- e') = m * 2 ^ (e - e') * B) as Hq.
  { apply (Z.mul_cancel_r _ _ (float_den e)); [unfold float_den; pose proof (pow2_pos (Z.max 0 (- e))); lia |].
    replace (A * 2 ^ (- e') * float_den e) with (A * float_den e * 2 ^ (- e')) by lia. rewrite Hv.
    unfold float_num, float_den.
    replace (m * 2 ^ (e - e') * B * 2 ^ Z.max 0 (- e)) with (m * B * (2 ^ (e - e') * 2 ^ Z.max 0 (- e))) by lia.
    replace (m * 2 ^ Z.max 0 e * B * 2 ^ (- e')) with (m * B * (2 ^ Z.max 0 e * 2 ^ (- e'))) by lia.
    rewrite <- !Z.pow_add_r by lia. do 2 f_equal. lia. }
  assert ((match 0 - 0 - e' with Z0 => A | Zpos _ => Z.shiftl A (0 - 0 - e') | Zneg _ => 0 end) = A * 2 ^ (- e')) as ->.
  { destruct (0 - 0 - e') as [| p | p] eqn:Ep; [| | lia].
    - replace (- e') with 0 by lia. lia.
    - rewrite Z.shiftl_mul_pow2 by lia. do 2 f_equal. lia. }
  rewrite Hq. pose proof (Z.mod_mul (m * 2 ^ (e - e')) B) as Hmod. pose proof (Z.div_mul (m * 2 ^ (e - e')) B) as Hd'.
  unfold Z.modulo in Hmod. unfold Z.div in Hd'. destruct (Z.div_eucl (m * 2 ^ (e - e') * B) B) as [q r].
  rewrite Hmod, Hd' by lia. rewrite new_location_exact, xorb_false_r.
  assert (0 < 2 ^ (e - e')) by (apply pow2_pos; lia).
  apply binary_round_aux_exact; try assumption; try lia.
  - unfold target. rewrite Z.log2_mul_pow2 by lia. pose proof (target_canonical m e Hc). unfold target in *. lia.
  - rewrite <- Z.mul_assoc, <- Z.pow_add_r by lia. do 2 f_equal. lia.
Qed.

Lemma pow10_pos k : 0 <= k -> 0 < 10 ^ k.
Proof. intros. apply Z.pow_pos_nonneg; lia. Qed.

Lemma strip_zeros_spec k d : exists j : nat, d = (strip_zeros k d).1 * 10 ^ Z.of_nat j /\
  (j + (strip_zeros k d).2 = k)%nat.
Proof.
  revert d. induction k as [| k IH]; intros d; cbn [strip_zeros].
  - exists 0%nat. cbn. lia.
  - destruct (Z.eqb_spec (d mod 10) 0) as [Hd | Hd]; [| exists 0%nat; cbn; lia].
    destruct (IH (d / 10)) as (j & Hj & Hk). exists (S j). rewrite Nat2Z.inj_succ, Z.pow_succ_r by lia.
    split; [| lia]. pose proof (Z.div_mod d 10). lia.
Qed.

Lemma decimal_float_exact s d k m e : 0 < d -> canonical m e -> e <= 971 ->
  d * 10 ^ Z.max 0 (- k) * float_den e = float_num m e * 10 ^ Z.max 0 k ->
  decimal_float s d k = S754_finite s (Z.to_pos m) e.
Proof.
  intros Hd Hc He Hv. unfold decimal_float. destruct (Z.eqb_spec d 0) as [| _]; [lia |].
  destruct (Z.leb_spec k 0) as [Hk | Hk].
  - pose proof (pow10_pos (- k)). rewrite (Z.max_r 0 (- k)), (Z.max_l 0 k) in Hv by lia.
    apply ratio_float_exact; auto; lia.
  - rewrite (Z.max_l 0 (- k)), (Z.max_r 0 k), Z.pow_0_r, Z.mul_1_r in Hv by lia.
    destruct (strip_zeros_spec (Z.to_nat k) d) as (j & Hj & Hl).
    pose proof (pow10_pos (Z.of_nat j)) as Hp. apply ratio_float_exact; auto; [lia | apply pow10_pos; lia |].
    apply (Z.mul_cancel_r _ _ (10 ^ Z.of_nat j)); [lia |].
    rewrite <- (Z.mul_assoc (float_num m e)), <- Z.pow_add_r by lia.
    replace (Z.of_nat (strip_zeros (Z.to_nat k) d).2 + Z.of_nat j) with k by lia. rewrite <- Hv. lia.
Qed.

(** ** The search finds a decimal that reads back *)

(** At the last place the decimal below is the float itself. *)
Lemma last_place_reads m e : canonical m e -> e <= 971 ->
  exists d, closest m e (last_place e) = Some d /\ decimal_float false d (last_place e) = S754_finite false (Z.to_pos m) e.
Proof.
  intros Hc He. assert (0 < m) as Hm by (destruct Hc; lia).
  assert (scaled_num m e (last_place e) mod scaled_den e (last_place e) = 0 /\
    0 < scaled_num m e (last_place e) / scaled_den e (last_place e) /\
    decimal_float false (scaled_num m e (last_place e) / scaled_den e (last_place e)) (last_place e) =
      S754_finite false (Z.to_pos m) e) as (Hr & Hpos & Hd).
  { assert (scaled_num m e (last_place e) = m * 2 ^ Z.max 0 e * 5 ^ Z.max 0 (- e) * scaled_den e (last_place e)) as Hn.
    { unfold scaled_num, scaled_den, float_num, float_den, last_place.
      rewrite (Z.max_r 0 (Z.max 0 (- e))), (Z.max_l 0 (- Z.max 0 (- e))) by lia.
      replace 10 with (5 * 2) by lia. rewrite Z.pow_mul_l. lia. }
    assert (0 < scaled_den e (last_place e)) as Hden.
    { unfold scaled_den, float_den. apply Z.mul_pos_pos; apply Z.pow_pos_nonneg; lia. }
    assert (0 < m * 2 ^ Z.max 0 e * 5 ^ Z.max 0 (- e)) as Hp.
    { apply Z.mul_pos_pos; [apply Z.mul_pos_pos; [lia |] |]; apply Z.pow_pos_nonneg; lia. }
    rewrite Hn, Z.mod_mul, Z.div_mul by lia. split; [reflexivity |]. split; [exact Hp |].
    apply decimal_float_exact; auto. unfold float_num, float_den, last_place.
    rewrite (Z.max_l 0 (- Z.max 0 (- e))), (Z.max_r 0 (Z.max 0 (- e))) by lia.
    replace 10 with (5 * 2) by lia. rewrite (Z.pow_mul_l 5 2 (Z.max 0 (- e))). lia. }
  unfold closest. rewrite Hr. unfold reads_as at 1. rewrite bool_decide_eq_true_2 by exact Hd.
  assert (0 < scaled_den e (last_place e)).
  { unfold scaled_den, float_den. apply Z.mul_pos_pos; apply Z.pow_pos_nonneg; lia. }
  destruct (reads_as m e _ (last_place e)); [| eauto].
  rewrite (proj2 (Z.ltb_lt _ _)) by lia. cbn [orb]. eauto.
Qed.

Lemma closest_reads m e k d : closest m e k = Some d -> decimal_float false d k = S754_finite false (Z.to_pos m) e.
Proof.
  unfold closest. destruct (reads_as m e _ k) eqn:E1, (reads_as m e (_ + 1) k) eqn:E2; intros [= <-].
  all: try (destruct (_ || _)); eapply bool_decide_eq_true_1; eassumption.
Qed.

Lemma shortest_from_spec fuel m e k j d0 : k <= j -> j < k + Z.of_nat fuel -> closest m e j = Some d0 ->
  exists d i, shortest_from fuel m e k = (d, i) /\ k <= i <= j /\ closest m e i = Some d /\
    forall i', k <= i' < i -> closest m e i' = None.
Proof.
  revert k. induction fuel as [| fuel IH]; intros k Hk Hf Hj; [lia |]. cbn [shortest_from].
  destruct (closest m e k) as [d |] eqn:Ek.
  - exists d, k. repeat split; auto; lia.
  - assert (k <> j) by congruence.
    destruct (IH (k + 1)) as (d & i & E & Hi & Hd & Hmin); [lia.. | exact Hj |].
    exists d, i. split; [exact E |]. split; [lia |]. split; [exact Hd |]. intros i' Hi'.
    destruct (Z.eq_dec i' k) as [-> | Hne]; [exact Ek | apply Hmin; lia].
Qed.

Lemma shortest_spec m e : canonical m e -> e <= 971 -> exists d k, shortest m e = (d, k) /\ 
  first_place m e <= k /\ closest m e k = Some d /\ forall i, first_place m e <= i < k -> closest m e i = None.
Proof.
  intros Hc He. destruct (last_place_reads m e Hc He) as (d0 & Hd0 & _).
  assert (first_place m e <= last_place e) as Hle by (unfold first_place, last_place; lia).
  destruct (shortest_from_spec (S (Z.to_nat (last_place e - first_place m e))) m e (first_place m e) (last_place e) d0)
    as (d & k & E & Hk & Hd & Hmin); [lia.. | exact Hd0 |].
  exists d, k. unfold shortest. repeat split; auto; lia.
Qed.

(** ** Decimal digits *)

Definition digit_value (a : ascii) : option Z :=
  let n := nat_of_ascii a in
  if (48 <=? n)%nat && (n <=? 57)%nat then Some (Z.of_nat n - 48) else None.

Fixpoint digits_value (acc : Z) (l : list ascii) : option Z :=
  match l with
  | [] => Some acc
  | a :: l' => v ← digit_value a; digits_value (10 * acc + v) l'
  end.

Lemma digits_value_app acc l k : digits_value acc (l ++ k) = v ← digits_value acc l; digits_value v k.
Proof.
  revert acc. induction l as [| a l IH]; intros acc; [reflexivity |]. cbn.
  destruct (digit_value a); [apply IH | reflexivity].
Qed.

Lemma digits_value_none acc l v c : digits_value acc l = Some v -> digit_value c = None -> has_byte l c = false.
Proof.
  intros Hl Hc. revert acc Hl. induction l as [| a l IH]; intros acc Hl; [reflexivity |]. cbn in Hl.
  destruct (digit_value a) as [w |] eqn:Ea; [| discriminate]. rewrite has_byte_cons. apply orb_false_iff. split; [| eauto].
  destruct (Ascii.eqb_spec a c) as [-> |]; congruence.
Qed.

Lemma pretty_char_value x : (x < 10)%N -> digit_value (pretty_N_char x) = Some (Z.of_N x).
Proof. intros Hx. destruct x as [| p]; [reflexivity |]. do 4 (destruct p as [p | p |]; try reflexivity; try lia). Qed.

Lemma pretty_go_value x s : digits_value 0 (bytes (pretty_N_go x s)) = digits_value (Z.of_N x) (bytes s).
Proof.
  revert s. induction (N.lt_wf_0 x) as [x _ IH]; intros s.
  destruct (decide (x = 0)%N) as [-> | Hx]; [now rewrite pretty_N_go_0 |].
  rewrite pretty_N_go_step by lia. rewrite IH by (apply N.div_lt; lia). cbn.
  rewrite pretty_char_value by (apply N.mod_lt; lia). cbn. f_equal.
  rewrite N2Z.inj_div, N2Z.inj_mod. pose proof (Z.div_mod (Z.of_N x) (Z.of_N 10)). lia.
Qed.

Lemma format_int_value z : 0 <= z -> digits_value 0 (bytes (format_int z)) = Some z.
Proof.
  intros Hz. destruct z as [| p | p]; [reflexivity | | lia].
  change (format_int (Z.pos p)) with (pretty_N_go (N.pos p) "").
  rewrite pretty_go_value. reflexivity.
Qed.

Lemma format_digit_value d : 0 <= d < 10 -> exists a, format_int d = String a "" /\ digit_value a = Some d.
Proof.
  intros Hd. assert (d = 0 \/ d = 1 \/ d = 2 \/ d = 3 \/ d = 4 \/ d = 5 \/ d = 6 \/ d = 7 \/ d = 8 \/ d = 9) as H by lia.
  repeat (destruct H as [-> | H]; [eexists; split; reflexivity |]). subst. eexists. split; reflexivity.
Qed.

(** All the digits of a fraction, and the ones left without trailing zeros. *)
Lemma fraction_digits_value p v acc : 
  digits_value acc (bytes (fraction_digits p v true)) = Some (acc * 10 ^ Z.of_nat p + v mod 10 ^ Z.of_nat p) /\
  length (bytes (fraction_digits p v true)) = p.
Proof.
  revert v. induction p as [| p IH]; intros v.
  - cbn. rewrite Z.mod_1_r. split; [f_equal; lia | reflexivity].
  - change (fraction_digits (S p) v true) with (fraction_digits p (v / 10) true +:+ format_int (v mod 10)).
    destruct (format_digit_value (v mod 10)) as (a & -> & Ha); [apply Z.mod_pos_bound; lia |].
    rewrite bytes_app, digits_value_app, length_app. destruct (IH (v / 10)) as [-> ->]. cbn [mbind option_bind Stdlib.Strings.String.list_ascii_of_string digits_value].
    rewrite Ha. cbn [mbind option_bind]. split; [| cbn; lia]. f_equal. rewrite Nat2Z.inj_succ, Z.pow_succ_r by lia.
    pose proof (pow10_pos (Z.of_nat p)). rewrite Z.rem_mul_r by lia. lia.
Qed.

Lemma fraction_digits_strip p v :
  fraction_digits p v false = fraction_digits (strip_zeros p v).2 (strip_zeros p v).1 true.
Proof.
  revert v. induction p as [| p IH]; intros v; [reflexivity |]. cbn [fraction_digits strip_zeros].
  destruct (Z.eqb_spec (v mod 10) 0) as [Hv | Hv]; cbn [orb negb]; [| reflexivity].
  rewrite IH. apply bytes_inj. rewrite bytes_app. apply app_nil_r.
Qed.

Definition point : ascii := "."%char.

(** The text of a decimal: its integer part, and its fraction digits without
    the trailing zeros. *)
Lemma decimal_text_bytes d k : 0 <= d -> 0 < k ->
  let '(d', k') := strip_zeros (Z.to_nat k) d in
  exists whole frac, bytes (decimal_text d k) = whole ++ (match k' with O => [] | _ => point :: frac end) /\
    whole <> [] /\ length frac = k' /\ digits_value 0 whole = Some (d' / 10 ^ Z.of_nat k') /\
    digits_value (d' / 10 ^ Z.of_nat k') frac = Some d'.
Proof.
  intros Hd Hk. destruct (strip_zeros (Z.to_nat k) d) as [d' k'] eqn:Es.
  destruct (strip_zeros_spec (Z.to_nat k) d) as (j & Hj & Hl). rewrite Es in Hj, Hl. cbn [fst snd] in Hj, Hl.
  pose proof (pow10_pos (Z.of_nat j)) as Hpj. pose proof (pow10_pos (Z.of_nat k')) as Hpk.
  assert (0 <= d') as Hd' by nia.
  assert (d / 10 ^ k = d' / 10 ^ Z.of_nat k') as Hdiv.
  { rewrite Hj. replace k with (Z.of_nat k' + Z.of_nat j) by lia.
    rewrite Z.pow_add_r by lia. apply Z.div_mul_cancel_r; lia. }
  destruct (fraction_digits_value k' d' (d' / 10 ^ Z.of_nat k')) as [Hf Hfl].
  exists (bytes (format_int (d' / 10 ^ Z.of_nat k'))), (bytes (fraction_digits k' d' true)).
  assert (0 <= d' / 10 ^ Z.of_nat k') as Hq by (apply Z.div_pos; lia).
  split; [| split; [| split; [exact Hfl | split; [now apply format_int_value |]]]].
  - unfold decimal_text. destruct (Z.leb_spec k 0) as [| _]; [lia |]. rewrite Hdiv, bytes_app. f_equal.
    unfold fraction. rewrite fraction_digits_strip, Es. cbn [fst snd].
    destruct k' as [| k']; [reflexivity |]. rewrite decide_False; [reflexivity |].
    intros E0. rewrite E0 in Hfl. discriminate.
  - intros E0.
    apply format_int_value in Hq. rewrite E0 in Hq. cbn in Hq. injection Hq as Hq. rewrite <- Hq in E0. discriminate.
  - rewrite Hf. f_equal. pose proof (Z.div_mod d' (10 ^ Z.of_nat k')). lia.
Qed.

(** ** Reading the text *)

Definition minus : ascii := "-"%char.

(** [strconv.ParseFloat] on decimals without an exponent. *)
Definition read_decimal (neg : bool) (l : list ascii) : option float64 :=
  match index_byte l point with
  | None => match l with [] => None | _ => d ← digits_value 0 l; Some (decimal_float neg d 0) end
  | Some i => d ← digits_value 0 (take i l ++ drop (S i) l);
      Some (decimal_float neg d (Z.of_nat (length (drop (S i) l))))
  end.

Definition ParseFloat (s : string) : option float64 :=
  if decide (s = "NaN") then Some S754_nan
  else if decide (s = "+Inf") then Some (S754_infinity false)
  else if decide (s = "-Inf") then Some (S754_infinity true)
  else
    match bytes s with
    | a :: l => if Ascii.eqb a minus then read_decimal true l else read_decimal false (a :: l)
    | [] => None
    end.

Lemma strip_zeros_again k d d' k' : strip_zeros k d = (d', k') -> strip_zeros k' d' = (d', k').
Proof.
  revert d. induction k as [| k IH]; intros d; cbn [strip_zeros]; [now intros [= <- <-] |].
  destruct (Z.eqb_spec (d mod 10) 0) as [Hd | Hd]; [apply IH |]. intros [= <- <-]. cbn [strip_zeros].
  destruct (Z.eqb_spec (d mod 10) 0) as [| _]; [contradiction | reflexivity].
Qed.

Lemma read_decimal_text neg d k : 0 < d ->
  read_decimal neg (bytes (decimal_text d k)) = Some (decimal_float neg d k) /\
  exists a l v, bytes (decimal_text d k) = a :: l /\ digit_value a = Some v.
Proof.
  intros Hd. destruct (Z.leb_spec k 0) as [Hk | Hk].
  - unfold decimal_text. rewrite (proj2 (Z.leb_le _ _)) by exact Hk.
    pose proof (pow10_pos (- k)) as Hp. set (D := d * 10 ^ (- k)).
    assert (digits_value 0 (bytes (format_int D)) = Some D) as Hv by (apply format_int_value; unfold D; nia).
    assert (has_byte (bytes (format_int D)) point = false) as Hpt by (now apply (digits_value_none _ _ _ _ Hv)).
    destruct (bytes (format_int D)) as [| a l] eqn:El.
    { exfalso. assert (0 < D) by (unfold D; nia). cbn in Hv. injection Hv as Hv. lia. }
    split.
    + unfold read_decimal. unfold has_byte in Hpt. destruct (index_byte (a :: l) point); [discriminate |].
      rewrite Hv. cbn [mbind option_bind]. f_equal. unfold decimal_float.
      destruct (Z.eqb_spec D 0) as [H0 | _]; [exfalso; unfold D in H0; nia |].
      destruct (Z.eqb_spec d 0) as [| _]; [lia |]. destruct (Z.leb_spec k 0) as [_ |]; [| lia].
      destruct (Z.leb_spec 0 0) as [_ |]; [| lia]. fold D. now rewrite Z.mul_1_r.
    + cbn in Hv. destruct (digit_value a) as [v |] eqn:Ea; [eauto | discriminate].
  - pose proof (decimal_text_bytes d k ltac:(lia) Hk) as Ht. 
    destruct (strip_zeros (Z.to_nat k) d) as [d' k'] eqn:Es. destruct Ht as (whole & frac & Eb & Hne & Hl & Hw & Hf).
    assert (has_byte whole point = false) as Hpt by (now apply (digits_value_none _ _ _ _ Hw)).
    assert (d' <> 0) as Hd'.
    { intros ->. destruct (strip_zeros_spec (Z.to_nat k) d) as (j & Hj & _). rewrite Es in Hj. cbn in Hj. lia. }
    assert (decimal_float neg d k = ratio_float neg d' (10 ^ Z.of_nat k')) as Hdf.
    { unfold decimal_float. destruct (Z.eqb_spec d 0) as [| _]; [lia |]. destruct (Z.leb_spec k 0) as [| _]; [lia |].
      now rewrite Es. }
    rewrite Hdf, Eb. split.
    + destruct k' as [| k'].
      * rewrite app_nil_r. unfold read_decimal. unfold has_byte in Hpt. destruct (index_byte whole point); [discriminate |].
        destruct whole; [contradiction |]. rewrite Hw. cbn [mbind option_bind Z.of_nat]. rewrite Z.pow_0_r, Z.div_1_r.
        unfold decimal_float. destruct (Z.eqb_spec d' 0) as [| _]; [contradiction |]. change (0 <=? 0) with true.
        cbn iota. now rewrite Z.mul_1_r.
      * unfold read_decimal. rewrite index_byte_app by exact Hpt.
        rewrite take_app_length, drop_past, digits_value_app, Hw. cbn [mbind option_bind]. rewrite Hf, Hl.
        cbn [mbind option_bind]. f_equal. unfold decimal_float. destruct (Z.eqb_spec d' 0) as [| _]; [contradiction |].
        destruct (Z.leb_spec (Z.of_nat (S k')) 0) as [| _]; [lia |].
        rewrite Nat2Z.id, (strip_zeros_again _ _ _ _ Es). reflexivity.
    + destruct whole as [| a whole]; [contradiction |]. cbn in Hw.
      destruct (digit_value a) as [v |] eqn:Ea; [| discriminate]. cbn [app]. eauto.
Qed.

(** The sign only goes through. *)
Definition with_sign (s : bool) (x : float64) : float64 :=
  match x with
  | S754_finite _ m e => S754_finite s m e
  | S754_zero _ => S754_zero s
  | S754_infinity _ => S754_infinity s
  | S754_nan => S754_nan
  end.

Lemma decimal_float_sign s d k : decimal_float s d k = with_sign s (decimal_float false d k).
Proof.
  assert (forall a b, ratio_float s a b = with_sign s (ratio_float false a b)) as Hr.
  { intros a b. unfold ratio_float, SFdiv. destruct (SFdiv_core_binary _ _ _ _ _ _) as [[q e] l].
    rewrite !xorb_false_r. unfold binary_round_aux. destruct (shr_fexp _ _ q e l) as [r e1].
    destruct (shr_fexp _ _ _ e1 loc_Exact) as [r2 e2]. destruct (shr_m r2); try reflexivity. now destruct (e2 <=? _). }
  unfold decimal_float. destruct (d =? 0); [reflexivity |]. destruct (k <=? 0); apply Hr.
Qed.

Lemma closest_pos m e k d : 0 < m -> closest m e k = Some d -> 0 < d.
Proof.
  intros Hm Hd. assert (0 <= scaled_num m e k / scaled_den e k) as Hlo.
  { apply Z.div_pos.
    - unfold scaled_num, float_num. pose proof (pow2_pos (Z.max 0 e)). pose proof (pow10_pos (Z.max 0 k)). nia.
    - unfold scaled_den, float_den. pose proof (pow2_pos (Z.max 0 (- e))). pose proof (pow10_pos (Z.max 0 (- k))). nia. }
  assert (d <> 0) as Hne.
  { intros ->. apply closest_reads in Hd. discriminate. }
  unfold closest in Hd. destruct (reads_as m e _ k), (reads_as m e (_ + 1) k); try discriminate;
    injection Hd as Hd; try (destruct (_ || _) in Hd); lia.
Qed.

Lemma shortest_reads s m e : canonical (Z.pos m) e -> e <= 971 -> exists d k, shortest (Z.pos m) e = (d, k) /\ 0 < d /\
  decimal_float s d k = S754_finite s m e.
Proof.
  intros Hc He. destruct (shortest_spec (Z.pos m) e Hc He) as (d & k & E & _ & Hd & _).
  exists d, k. split; [exact E |]. split; [eapply closest_pos; [| exact Hd]; lia |].
  rewrite decimal_float_sign, (closest_reads _ _ _ _ Hd). reflexivity.
Qed.

Lemma parse_signed s l x : read_decimal s l = Some x -> (exists a l' v, l = a :: l' /\ digit_value a = Some v) ->
  ParseFloat (sign_text s +:+ str l) = Some x.
Proof.
  intros Hr (a & l' & v & -> & Ha). unfold ParseFloat.
  assert (forall t, bytes t <> bytes (sign_text s +:+ str (a :: l')) -> sign_text s +:+ str (a :: l') <> t) as Hne
    by (intros t Ht E; apply Ht; now rewrite E).
  assert (bytes (sign_text s +:+ str (a :: l')) = if s then minus :: a :: l' else a :: l') as Eb.
  { rewrite bytes_app, bytes_str. now destruct s. }
  rewrite !decide_False; [| apply Hne; rewrite Eb; destruct s; intros [=]; subst; discriminate..].
  rewrite Eb. destruct s; [exact Hr |].
  destruct (Ascii.eqb_spec a minus) as [-> |]; [discriminate | exact Hr].
Qed.

(** What [FormatFloat] prints reads back as the same float, infinities,
    zeros and NaN included: no digit that matters is lost. *)
Lemma format_float_reads x : f64_valid x = true -> ParseFloat (FormatFloat x) = Some x.
Proof.
  intros Hv. destruct x as [s | s | | s m e]; [now destruct s | now destruct s | reflexivity |].
  destruct (fnum_canonical _ Hv s m e eq_refl) as [Hc He].
  destruct (shortest_reads s m e Hc He) as (d & k & E & Hd & Hx). cbn [FormatFloat]. rewrite E. cbn [fst snd].
  destruct (read_decimal_text s d k Hd) as [Hr Hdig]. rewrite <- (str_bytes (decimal_text d k)).
  apply parse_signed; [now rewrite Hr, Hx | exact Hdig].
Qed.
