(* ===== verification/GoErrors.v ===== *)
(** * Go errors

    The error values the source builds and tests: sentinels of the standard
    library and of grpc, errors with a text of their own, errors wrapped by
    [fmt.Errorf] with a [%w] verb, joined errors, and grpc statuses.  A nil
    error is [None]. *)

From S2P Require Import Prelude GoStrings.

(** The grpc status codes. *)
Inductive Code : Type :=
| OK | Canceled | Unknown | InvalidArgument | DeadlineExceeded | NotFound | AlreadyExists
| PermissionDenied | ResourceExhausted | FailedPrecondition | Aborted | OutOfRange
| Unimplemented | Internal | Unavailable | DataLoss | Unauthenticated.

#[global] Instance Code_eq_dec : EqDecision Code.
Proof. solve_decision. Defined.

(** [codes.Code.String]. *)
Definition code_string (c : Code) : string :=
  match c with
  | OK => "OK" | Canceled => "Canceled" | Unknown => "Unknown"
  | InvalidArgument => "InvalidArgument" | DeadlineExceeded => "DeadlineExceeded"
  | NotFound => "NotFound" | AlreadyExists => "AlreadyExists"
  | PermissionDenied => "PermissionDenied" | ResourceExhausted => "ResourceExhausted"
  | FailedPrecondition => "FailedPrecondition" | Aborted => "Aborted"
  | OutOfRange => "OutOfRange" | Unimplemented => "Unimplemented" | Internal => "Internal"
  | Unavailable => "Unavailable" | DataLoss => "DataLoss" | Unauthenticated => "Unauthenticated"
  end.

#[warnings="-register-all"]
Inductive error : Type :=
| EContextCanceled            (** [context.Canceled] *)
| EDeadlineExceeded           (** [context.DeadlineExceeded] *)
| EServerClosed               (** [http.ErrServerClosed] *)
| EServerStopped              (** [grpc.ErrServerStopped] *)
| ENotSupported               (** [http.ErrNotSupported] *)
| EText (msg : string)        (** [errors.New], [fmt.Errorf] without [%w] *)
| EWrap (msg : string) (e : error)  (** [fmt.Errorf] with [%w]: its text, what it wraps *)
| EJoin (es : list error)     (** [errors.Join] *)
| EStatus (c : Code) (msg : string). (** [status.Error] *)

(** [errors.Join]: nil errors are dropped, and no error is left of none. *)
Definition errors_join (es : list (option error)) : option error :=
  match omap id es with
  | [] => None
  | es' => Some (EJoin es')
  end.

(** [errors.Is(e, target)] for the sentinels: [e] itself, or one of the
    errors it wraps. *)
Inductive sentinel : Type := SCanceled | SDeadline | SServerClosed | SServerStopped.

Definition is_sentinel (e : error) (s : sentinel) : bool :=
  match e, s with
  | EContextCanceled, SCanceled | EDeadlineExceeded, SDeadline
  | EServerClosed, SServerClosed | EServerStopped, SServerStopped => true
  | _, _ => false
  end.

Fixpoint errors_is (e : error) (s : sentinel) : bool :=
  is_sentinel e s ||
  match e with
  | EWrap _ e' => errors_is e' s
  | EJoin es => existsb (fun e' => errors_is e' s) es
  | _ => false
  end.

(** [errors.Is] on a possibly nil error. *)
Definition errors_is_opt (e : option error) (s : sentinel) : bool :=
  match e with Some e => errors_is e s | None => false end.

(** [err != nil && err != http.ErrServerClosed] compares identities. *)
Definition is_server_closed (e : error) : bool := is_sentinel e SServerClosed.

Fixpoint error_text (e : error) : string :=
  match e with
  | EContextCanceled => "context canceled"
  | EDeadlineExceeded => "context deadline exceeded"
  | EServerClosed => "http: Server closed"
  | EServerStopped => "grpc: the server has been stopped"
  | ENotSupported => "feature not supported"
  | EText msg => msg
  | EWrap msg _ => msg
  | EJoin es => join (str [byte 10]) (error_text <$> es)
  | EStatus c msg => "rpc error: code = " +:+ code_string c +:+ " desc = " +:+ msg
  end.

(** The grpc status of an error: its own, or the first one it wraps
    ([errors.As]). *)
Fixpoint status_as (e : error) : option Code :=
  match e with
  | EStatus c _ => Some c
  | EWrap _ e' => status_as e'
  | EJoin es => head (omap status_as es)
  | _ => None
  end.

(** [status.Code] and [status.FromError]. *)
Definition status_code (e : option error) : Code :=
  match e with
  | None => OK
  | Some e => match status_as e with Some c => c | None => Unknown end
  end.

Definition status_from_error (e : error) : Code * bool :=
  match status_as e with
  | Some c => (c, true)
  | None => (Unknown, false)
  end.

(** ** Keeping the first error

    [if err != nil && first == nil { first = err }]: the idiom of every
    shutdown loop. *)
Definition keep_first (first err : option error) : option error :=
  match first with Some e => Some e | None => err end.

Fixpoint first_error (es : list (option error)) : option error :=
  match es with
  | [] => None
  | Some e :: _ => Some e
  | None :: es' => first_error es'
  end.

Lemma keep_first_assoc a b c : keep_first (keep_first a b) c = keep_first a (keep_first b c).
Proof. now destruct a. Qed.

Lemma keep_first_none_r a : keep_first a None = a.
Proof. now destruct a. Qed.

Lemma first_error_app es fs : first_error (es ++ fs) = keep_first (first_error es) (first_error fs).
Proof. induction es as [| [e |] es IH]; cbn; auto. Qed.

Lemma fold_keep_first es a : foldl keep_first a es = keep_first a (first_error es).
Proof.
  revert a. induction es as [| e es IH]; intros a; cbn [foldl].
  - now rewrite keep_first_none_r.
  - rewrite IH, keep_first_assoc. now destruct e.
Qed.

Lemma first_error_none es : first_error es = None <-> Forall (fun e => e = None) es.
Proof.
  induction es as [| [e |] es IH]; cbn.
  - split; auto.
  - split; [discriminate |]. intros H. inversion H. discriminate.
  - rewrite IH. split; intros H; [now constructor | now inversion H].
Qed.

Lemma errors_is_join es s : errors_is (EJoin es) s = existsb (fun e => errors_is e s) es.
Proof. reflexivity. Qed.

#[export] Hint Rewrite keep_first_none_r : dense.
