(* ===== verification/Gobreaker.v ===== *)
(** * The breaker of gobreaker, as both middlewares use it

    The settings [go/middleware/circuitbreaker.go] and [grpc.go] give to
    gobreaker, what they rely on of it ([Breaker], [BreakerLaws]), and
    [Execute] around a call: admitted, run, its result reported. *)

From S2P Require Import Prelude GoStrings GoErrors.

#[local] Open Scope Z_scope.

(** [gobreaker.Settings]. *)
Record Settings : Type := mkSettings {
  gb_Name : string;
  gb_MaxRequests : Z;
  gb_Interval : Z;
  gb_Timeout : Z;
  gb_ReadyToTrip : Z -> bool    (** of the consecutive failures *)
}.

(** Whether a call is admitted, with the token of its generation, or refused
    with an error; and what a finished call reports. *)
Class Breaker (B : Type) := {
  token : Type;
  NewCircuitBreaker : Settings -> B;
  accept : Settings -> M B (token + error);
  report : Settings -> token -> bool -> M B unit
}.

(** Its documentation: a call refused gets an error of the breaker's own,
    and the breaker itself does not panic. *)
Class BreakerLaws (B : Type) `{Breaker B} := {
  report_returns : forall cb tok ok (c : Clocked B), exists c', report cb tok ok c = (Ret tt, c');
  refusal_plain : forall cb (c : Clocked B) e c', accept cb c = (Ret (inr e), c') -> status_as e = None
}.

Section Execute.
Context {B : Type} `{BreakerLaws B} {W Er : Type} (own : error -> Er) (view : W -> B) (upd : B -> W -> W).

Definition on_breaker {A} : M B A -> M W A := zoom view upd.

(** [cb.Execute] of a breaker kept in the state, its errors seen as [own]: a
    refused call is not run, and a call that panics has failed and panics on.
    The error decides success, not the value. *)
Definition Execute {A} (cb : Settings) (call : M W (A * option Er)) : M W (option A * option Er) :=
  a ← on_breaker (accept cb);
  match a with
  | inr e => mret (None, Some (own e))
  | inl tok =>
      res ← deferring call (fun o => on_breaker (report cb tok (match o with Ret (_, None) => true | _ => false end)));
      mret (Some res.1, res.2)
  end.

(** A call that ended without error. *)
Definition succeeded {R} (err : R -> option Er) (o : outcome R) : bool :=
  match o with Ret res => match err res with None => true | Some _ => false end | Panic _ => false end.

Lemma report_run cb tok ok (c : Clocked W) : exists c', on_breaker (report cb tok ok) c = (Ret tt, c').
Proof. unfold on_breaker, zoom. destruct (report_returns cb tok ok (with_st c (view (st c)))) as [c' ->]. eauto. Qed.

Lemma refused_plain cb (c c1 : Clocked W) e : on_breaker (accept cb) c = (Ret (inr e), c1) -> status_as e = None.
Proof.
  unfold on_breaker, zoom. destruct (accept cb (with_st c (view (st c)))) as [[[tok | e'] | v] c'] eqn:E; try discriminate.
  intros [= <- <-]. exact (refusal_plain _ _ _ _ E).
Qed.

Lemma Execute_run {A} cb (call : M W (A * option Er)) (c c1 : Clocked W) tok :
  on_breaker (accept cb) c = (Ret (inl tok), c1) -> forall o c2, call c1 = (o, c2) ->
  exists c3, on_breaker (report cb tok (succeeded snd o)) c2 = (Ret tt, c3) /\
    Execute cb call c = (outcome_map (fun res => (Some res.1, res.2)) o, c3).
Proof.
  intros Ea o c2 Ec. destruct (report_run cb tok (succeeded snd o) c2) as [c3 E3].
  exists c3. split; [exact E3 |]. unfold Execute. rewrite bind_run, Ea, bind_run. unfold deferring. rewrite Ec.
  replace (match o with Ret (_, None) => true | _ => false end) with (succeeded snd o)
    by (now destruct o as [[x [e |]] | v]).
  rewrite E3. now destruct o as [[x [e |]] | v].
Qed.

Lemma Execute_refused {A} cb (call : M W (A * option Er)) (c c1 : Clocked W) e :
  on_breaker (accept cb) c = (Ret (inr e), c1) -> Execute cb call c = (Ret (None, Some (own e)), c1).
Proof. intros Ea. unfold Execute. now rewrite bind_run, Ea. Qed.
End Execute.
