(* ===== verification/Spans.v ===== *)
(** * Spans

    What the source uses of the OpenTelemetry API: the spans of a tracer and
    the values a context carries for it.

    A context is the record of what was done to it, so that any propagator or
    tracer is a function of it: extracting from a carrier, and starting a
    span.  The tracer, the propagator and the reading of a context
    ([trace.SpanFromContext]) are parameters ([Tracer]); their laws are the
    documented ones, that the context [Start] returns contains the span it
    started, and that the calls do not panic. *)

From S2P Require Import Prelude.

(** [SpanContext]: [None] where [HasTraceID] or [HasSpanID] is false, and
    otherwise the ID's text. *)
Record span_context : Type := mkSpanContext { TraceID : option string; SpanID : option string }.

Record span : Type := mkSpan { span_number : nat; SpanContext : span_context }.

(** [propagation.TextMapCarrier], as read. *)
Record TextMapCarrier : Type := mkCarrier { carrier_Get : string -> string; carrier_Keys : list string }.

(** The values of a context: none, those extracted from a carrier, and a
    started span. *)
#[warnings="-register-all"]
Inductive otel_context : Type :=
| Background
| Extracted (carrier : TextMapCarrier) (parent : otel_context)
| WithSpan (s : span) (parent : otel_context).

(** [Start tracer name ctx] and [End] change the state [S] of the tracer;
    [Inject] gives the keys and values set on a carrier. *)
Class Tracer (S : Type) := {
  Start : string -> string -> otel_context -> M S span;
  End_ : span -> M S unit;
  SpanFromContext : otel_context -> span_context;
  Inject : otel_context -> list (string * string)
}.

Class TracerLaws (S : Type) `{Tracer S} := {
  span_of_started : forall s ctx, SpanFromContext (WithSpan s ctx) = SpanContext s;
  start_returns : forall tracerName name ctx (c : Clocked S), exists s c', Start tracerName name ctx c = (Ret s, c');
  end_returns : forall s (c : Clocked S), exists c', End_ s c = (Ret tt, c')
}.
