(* ===== verification/RateLimit.v ===== *)
(** * The in-memory token bucket and the rate-limit keys

    [go/middleware/ratelimit.go]: [RateLimiter] with [NewRateLimiter] and
    [Allow] on float64 tokens, the interfaces a limiter is used through, and
    the functions that derive a key from addresses and headers.

    The theorems: the tokens stay canonical floats between 0 and the burst
    ([bucket_invariant]); a fresh bucket admits exactly its burst at one
    instant ([burst_exact]); on whole seconds the float bucket refines the
    integer token bucket [ibucket] ([bucket_refines_integers]); on any clock it
    admits at most burst plus rate times elapsed time, up to rounding
    ([admission_bound]); the key
    of a peer does not depend on its port ([remote_key_port]). *)

From S2P Require Import Prelude Float64 GoStrings.

(** ** State and operations *)

Record RateLimiter : Type := mkRateLimiter {
  tokens : float64;
  maxTokens : float64;
  refillRate : float64;
  lastRefill : Z
}.

(** [RateLimiterInterface] and [KeyedRateLimiter]: a limiter is a state
    with a call on it. *)
Class RateLimiterInterface (L : Type) := LAllow : M L bool.
Class KeyedRateLimiter (L : Type) := LAllowKey : string -> M L bool.

Definition NewRateLimiter {S} (requestsPerSecond burst : Z) : M S RateLimiter :=
  t ← now;
  mret (mkRateLimiter (f64_of_Z burst) (f64_of_Z burst) (f64_of_Z requestsPerSecond) t).

(** The body of [Allow] after it read the clock. *)
Definition refill (t : Z) (rl : RateLimiter) : RateLimiter :=
  let elapsed := duration_seconds (time_sub t (lastRefill rl)) in
  let toks := f64_add (tokens rl) (f64_mul elapsed (refillRate rl)) in
  let toks := if f64_ltb (maxTokens rl) toks then maxTokens rl else toks in
  mkRateLimiter toks (maxTokens rl) (refillRate rl) t.

Definition allow_at (t : Z) (rl : RateLimiter) : bool * RateLimiter :=
  let rl := refill t rl in
  if f64_leb f64_one (tokens rl) then
    (true, mkRateLimiter (f64_sub (tokens rl) f64_one) (maxTokens rl) (refillRate rl) (lastRefill rl))
  else (false, rl).

Definition Allow : M RateLimiter bool :=
  t ← now; state (allow_at t).

(** [AllowKey] of the plain limiter ignores the key. *)
Definition AllowKey (key : string) : M RateLimiter bool := Allow.

#[export] Instance RateLimiter_limiter : RateLimiterInterface RateLimiter := Allow.
#[export] Instance RateLimiter_keyed : KeyedRateLimiter RateLimiter := AllowKey.

(** [isNilRateLimiter]: nil interfaces and nil pointers in an interface. *)
Definition isNilRateLimiter {L} (limiter : iface L) : bool :=
  match limiter with
  | NilInterface | NilPointer => true
  | Value _ => false
  end.

(** ** Keys *)

Definition forwardedIPKey (forwardedFor : string) : string :=
  if decide (forwardedFor = "") then ""
  else
    match index_byte (bytes forwardedFor) comma with
    | Some idx => trim_space (str (take idx (bytes forwardedFor)))
    | None => trim_space forwardedFor
    end.

Definition remoteAddrKey (remoteAddr : string) : string :=
  if decide (remoteAddr = "") then ""
  else
    match split_host_port (trim_space remoteAddr) with
    | Some (host, _) => if decide (host = "") then trim_space remoteAddr else host
    | None => trim_space remoteAddr
    end.

(** The argument is the [RemoteAddr] of the request, [None] for a nil
    request. *)
Definition defaultHTTPRateLimitKey (r : option string) : string :=
  match r with
  | None => "global"
  | Some remoteAddr =>
      let remoteIP := remoteAddrKey remoteAddr in
      if decide (remoteIP = "") then "global" else remoteIP
  end.

(** ** Runs of calls *)

(** The results of calls of [Allow] at the given instants. *)
Fixpoint run_allow (ts : list Z) (rl : RateLimiter) : list bool * RateLimiter :=
  match ts with
  | [] => ([], rl)
  | t :: ts' =>
      let '(b, rl') := allow_at t rl in
      let '(bs, rl'') := run_allow ts' rl' in
      (b :: bs, rl'')
  end.

(** A limiter made by [NewRateLimiter] and then asked [n] times. *)
Definition fresh_run (requestsPerSecond burst : Z) (n : nat) (c : Clocked unit) :
    outcome (list bool) * Clocked RateLimiter :=
  match NewRateLimiter requestsPerSecond burst c with
  | (Ret rl, c') => repeat_call n Allow (with_st c' rl)
  | (Panic v, c') => (Panic v, with_st c' (mkRateLimiter f64_zero f64_zero f64_zero 0))
  end.

Lemma repeat_allow n c :
  repeat_call n Allow c =
    (Ret (run_allow (readings c n) (st c)).1,
     mkClocked (clk c) (wall c) (tick c + n)%nat (run_allow (readings c n) (st c)).2).
Proof.
  revert c. induction n as [| n IH]; intros c.
  - destruct c; cbn. repeat f_equal. lia.
  - cbn [repeat_call]. unfold readings. cbn [seq fmap list_fmap run_allow].
    unfold mbind at 1, M_bind. unfold Allow at 1. unfold mbind at 1, M_bind.
    cbn [now state next_tick st clk wall tick with_st].
    destruct (allow_at (clk c (tick c)) (st c)) as [b rl'] eqn:E.
    unfold mbind at 1, M_bind. unfold state. cbn [st next_tick]. rewrite E.
    unfold mbind, M_bind. rewrite IH. unfold readings. cbn [clk wall tick st with_st next_tick].
    destruct (run_allow (clk c <$> seq (S (tick c)) n) rl') as [bs rl''].
    cbn. repeat f_equal. lia.
Qed.

Lemma fresh_run_unfold rps burst n c :
  fresh_run rps burst n c =
    let rl := mkRateLimiter (f64_of_Z burst) (f64_of_Z burst) (f64_of_Z rps) (clk c (tick c)) in
    let ts := readings (next_tick c) n in
    (Ret (run_allow ts rl).1, mkClocked (clk c) (wall c) (S (tick c) + n)%nat (run_allow ts rl).2).
Proof. unfold fresh_run, NewRateLimiter. mstep. now rewrite repeat_allow. Qed.

(** ** Taking one token is exact *)

Lemma f64_one_ok : f64_ok f64_one /\ fnum f64_one = 1 * 2 ^ 1074.
Proof. apply (holds_of_Z 1). lia. Qed.

Lemma f64_sub_one x : f64_upto 53 x -> 2 ^ 1074 <= fnum x ->
  f64_upto 53 (f64_sub x f64_one) /\ fnum (f64_sub x f64_one) = fnum x - 2 ^ 1074.
Proof.
  intros Hx H1. destruct f64_one_ok as [Ho Eo]. pose proof two_1074_pos as Hp.
  destruct (upto_cases 53 x Hx) as [[s ->] | (m & e & -> & Hc & He & Hb)]; [cbn in H1; lia |].
  cbn [fnum cond_Zopp] in H1.
  assert (exists y, f64_ok y /\ fnum y = Z.pos m * 2 ^ (e + 1074) - 2 ^ 1074) as (y & Hy & Ey).
  { assert (-1074 <= e) as Hel by (destruct Hc; lia). destruct (Z.le_gt_cases e 0) as [Hle | Hgt].
    - destruct (representable (Z.pos m - 2 ^ (- e)) e) as (y & Hy & Ey).
      + assert (2 ^ (- e) <= Z.pos m); [| destruct Hc; lia].
        apply (Z.mul_le_mono_pos_r _ _ (2 ^ (e + 1074))); [apply pow2_pos; lia |].
        rewrite <- Z.pow_add_r by lia. now replace (- e + (e + 1074)) with 1074 by lia.
      + lia.
      + exists y. split; [exact Hy |]. rewrite Ey, Z.mul_sub_distr_r, <- Z.pow_add_r by lia.
        do 2 f_equal. lia.
    - destruct (int_representable (2 ^ 53 - 1)) as (y & Hy & Ey); [lia |].
      exists y. split; [exact Hy |]. rewrite Ey.
      assert (Z.pos m * 2 ^ (e + 1074) = 2 ^ (53 + 1074)) as ->; [| rewrite Z.pow_add_r by lia; lia].
      apply Z.le_antisymm; [exact Hb |].
      assert (2 ^ 52 <= Z.pos m) by (destruct Hc; lia).
      transitivity (2 ^ 52 * 2 ^ (e + 1074)).
      + rewrite <- Z.pow_add_r by lia. apply Z.pow_le_mono_r; lia.
      + apply Z.mul_le_mono_nonneg_r; [apply Z.pow_nonneg |]; lia. }
  destruct (f64_sub_exact (S754_finite false m e) f64_one y) as [Hok E].
  { exact (proj1 Hx). }
  { exact Ho. }
  { exact Hy. }
  { rewrite Eo, Ey. cbn [fnum cond_Zopp]. lia. }
  rewrite E, Ey. cbn [fnum cond_Zopp]. split; [| reflexivity].
  split; [exact Hok |]. rewrite E, Ey. lia.
Qed.

(** ** The invariant of a bucket *)

Record bucket_ok (rl : RateLimiter) : Prop := {
  ok_max : f64_upto 53 (maxTokens rl);
  ok_tokens : f64_upto 53 (tokens rl);
  ok_le : fnum (tokens rl) <= fnum (maxTokens rl);
  ok_rate : f64_upto 63 (refillRate rl)
}.

Lemma new_bucket_ok rps burst t : 0 <= rps <= int64_max -> 0 <= burst <= 2 ^ 53 ->
  bucket_ok (mkRateLimiter (f64_of_Z burst) (f64_of_Z burst) (f64_of_Z rps) t).
Proof.
  unfold int64_max. intros Hr Hb.
  assert (f64_upto 53 (f64_of_Z burst)) by (apply (holds_upto _ burst); [apply holds_of_Z |..]; lia).
  split; cbn; auto; [lia |]. apply f64_of_Z_upto; lia.
Qed.

Lemma refill_ok t rl : bucket_ok rl -> lastRefill rl <= t -> bucket_ok (refill t rl).
Proof.
  intros [Hm Ht Hle Hr] Hlast. unfold refill.
  assert (f64_upto 35 (duration_seconds (time_sub t (lastRefill rl)))) as He.
  { apply duration_seconds_upto. pose proof (time_sub_range t (lastRefill rl)) as [_ ?].
    split; [apply time_sub_nonneg |]; assumption. }
  assert (f64_upto 101 (f64_add (tokens rl)
    (f64_mul (duration_seconds (time_sub t (lastRefill rl))) (refillRate rl)))) as Hs.
  { apply (f64_add_upto 100); [lia | apply (f64_upto_mono 53); [lia | lia | assumption] |].
    apply (f64_mul_upto 35 63); [lia | lia | lia | assumption | assumption]. }
  destruct (f64_ltb (maxTokens rl) _) eqn:E; [split; cbn; auto; lia |].
  rewrite f64_ltb_fnum in E by (exact (proj1 Hs) || exact (proj1 Hm)). apply Z.ltb_ge in E.
  split; cbn; auto. destruct Hs as [Hok [H0 _]], Hm as [_ [_ Hm]]. split; [exact Hok | lia].
Qed.

Lemma allow_ok t rl : bucket_ok rl -> lastRefill rl <= t -> bucket_ok (allow_at t rl).2.
Proof.
  intros Hok Hlast. pose proof (refill_ok t rl Hok Hlast) as [Hm Ht Hle Hr].
  unfold allow_at. destruct (f64_leb f64_one (tokens (refill t rl))) eqn:E; [| split; assumption].
  destruct f64_one_ok as [Ho Eo].
  rewrite f64_leb_fnum, Eo in E by (assumption || exact (proj1 Ht)). apply Z.leb_le in E.
  destruct (f64_sub_one (tokens (refill t rl))) as [Hu Es]; [assumption | lia |].
  pose proof two_1074_pos. split; cbn [snd tokens maxTokens refillRate]; auto. lia.
Qed.

Lemma allow_last t rl : lastRefill (allow_at t rl).2 = t.
Proof. unfold allow_at. now destruct (f64_leb _ _). Qed.

Lemma allow_config t rl : maxTokens (allow_at t rl).2 = maxTokens rl /\ refillRate (allow_at t rl).2 = refillRate rl.
Proof. unfold allow_at. now destruct (f64_leb _ _). Qed.

Lemma run_allow_cons t ts rl :
  run_allow (t :: ts) rl =
    ((allow_at t rl).1 :: (run_allow ts (allow_at t rl).2).1, (run_allow ts (allow_at t rl).2).2).
Proof.
  cbn [run_allow]. destruct (allow_at t rl) as [b rl']. cbn [fst snd].
  now destruct (run_allow ts rl').
Qed.

Lemma run_allow_ok ts rl : bucket_ok rl -> ascending (lastRefill rl) ts ->
  bucket_ok (run_allow ts rl).2 /\ maxTokens (run_allow ts rl).2 = maxTokens rl.
Proof.
  revert rl. induction ts as [| t ts IH]; intros rl Hok Ha; [now split |].
  destruct Ha as [Ht Ha]. rewrite run_allow_cons. cbn [snd].
  destruct (IH (allow_at t rl).2) as [H1 H2].
  - now apply allow_ok.
  - now rewrite allow_last.
  - split; [exact H1 |]. rewrite H2. apply allow_config.
Qed.

(** ** The integer token bucket

    The specification: whole tokens, a clock in whole seconds. *)

Record IBucket : Type := mkIBucket { itokens : Z; imax : Z; irate : Z; ilast : Z }.

Definition irefill (s : Z) (b : IBucket) : Z := Z.min (imax b) (itokens b + (s - ilast b) * irate b).

Definition iallow_at (s : Z) (b : IBucket) : bool * IBucket :=
  if 1 <=? irefill s b then (true, mkIBucket (irefill s b - 1) (imax b) (irate b) s)
  else (false, mkIBucket (irefill s b) (imax b) (irate b) s).

Fixpoint irun (ss : list Z) (b : IBucket) : list bool * IBucket :=
  match ss with
  | [] => ([], b)
  | s :: ss' => ((iallow_at s b).1 :: (irun ss' (iallow_at s b).2).1, (irun ss' (iallow_at s b).2).2)
  end.

Definition ibucket_ok (b : IBucket) : Prop := 0 <= itokens b <= imax b /\ 0 <= irate b.

(** [rl] is the float form of [b], whose second 0 is the instant [t0]. *)
Record refines (t0 : Z) (rl : RateLimiter) (b : IBucket) : Prop := {
  ref_tokens : holds (tokens rl) (itokens b);
  ref_max : holds (maxTokens rl) (imax b);
  ref_rate : holds (refillRate rl) (irate b);
  ref_last : lastRefill rl = t0 + ilast b * Second
}.

Lemma iallow_ok s b : ibucket_ok b -> ilast b <= s ->
  ibucket_ok (iallow_at s b).2 /\ ilast (iallow_at s b).2 = s /\
  imax (iallow_at s b).2 = imax b /\ irate (iallow_at s b).2 = irate b.
Proof.
  intros [Ht Hr] Hs. assert (0 <= (s - ilast b) * irate b) by (apply Z.mul_nonneg_nonneg; lia).
  unfold iallow_at, ibucket_ok, irefill. destruct (Z.leb_spec 1 (Z.min (imax b) (itokens b + (s - ilast b) * irate b)));
    cbn; repeat split; lia.
Qed.

Lemma refill_refines t0 rl b s : refines t0 rl b -> ibucket_ok b -> ilast b <= s ->
  imax b + (s - ilast b) * irate b <= 2 ^ 53 -> (s - ilast b) * Second <= int64_max ->
  holds (tokens (refill (t0 + s * Second) rl)) (irefill s b).
Proof.
  intros [Ht Hm Hr Hl] [Hok Hrate] Hs Hb Hspan. unfold refill, irefill. rewrite Hl.
  assert (0 <= (s - ilast b) * irate b) by (apply Z.mul_nonneg_nonneg; lia).
  rewrite time_sub_small by (unfold is_int64, int64_min, int64_max, Second in *; lia).
  replace (t0 + s * Second - (t0 + ilast b * Second)) with ((s - ilast b) * Second) by lia.
  assert (0 <= s - ilast b <= 2 ^ 53) as Hd by (unfold int64_max, Second in *; lia).
  assert (holds (f64_add (tokens rl) (f64_mul (duration_seconds ((s - ilast b) * Second)) (refillRate rl)))
    (itokens b + (s - ilast b) * irate b)) as Hsum.
  { apply holds_add; [assumption | | lia].
    apply holds_mul; [apply duration_seconds_whole; lia | assumption | lia | lia | lia]. }
  rewrite (holds_ltb _ _ _ _ Hm Hsum). cbn [tokens].
  destruct (Z.ltb_spec (imax b) (itokens b + (s - ilast b) * irate b)).
  - rewrite Z.min_l by lia. exact Hm.
  - rewrite Z.min_r by lia. exact Hsum.
Qed.

Lemma allow_refines t0 rl b s : refines t0 rl b -> ibucket_ok b -> ilast b <= s ->
  imax b + (s - ilast b) * irate b <= 2 ^ 53 -> (s - ilast b) * Second <= int64_max ->
  (allow_at (t0 + s * Second) rl).1 = (iallow_at s b).1 /\
  refines t0 (allow_at (t0 + s * Second) rl).2 (iallow_at s b).2.
Proof.
  intros HR Hok Hs Hb Hspan. pose proof (refill_refines t0 rl b s HR Hok Hs Hb Hspan) as Hf.
  destruct HR as [Ht Hm Hr Hl]. destruct Hok as [Hok Hrate].
  assert (0 <= (s - ilast b) * irate b) by (apply Z.mul_nonneg_nonneg; lia).
  unfold allow_at, iallow_at. rewrite (holds_leb f64_one _ 1 _ (holds_of_Z 1 ltac:(lia)) Hf).
  destruct (Z.leb_spec 1 (irefill s b)); cbn [fst snd].
  - split; [reflexivity |]. split; cbn [tokens maxTokens refillRate lastRefill itokens imax irate ilast]; auto.
    apply holds_sub; [assumption | apply holds_of_Z; lia |]. unfold irefill in *. lia.
  - split; [reflexivity |]. split; auto.
Qed.

Lemma run_refines t0 ss rl b last : refines t0 rl b -> ibucket_ok b -> ascending (ilast b) ss ->
  Forall (fun s => s <= last) ss -> ilast b <= last ->
  imax b + (last - ilast b) * irate b <= 2 ^ 53 -> (last - ilast b) * Second <= int64_max ->
  (run_allow ((fun s => t0 + s * Second) <$> ss) rl).1 = (irun ss b).1.
Proof.
  revert rl b. induction ss as [| s ss IH]; intros rl b HR Hok Ha HF Hl Hb Hspan; [reflexivity |].
  destruct Ha as [Hs Ha]. inversion HF as [| ? ? Hsl HF']; subst.
  assert ((s - ilast b) * irate b <= (last - ilast b) * irate b)
    by (apply Z.mul_le_mono_nonneg_r; [apply Hok | lia]).
  destruct (allow_refines t0 rl b s HR Hok Hs) as [E HR']; [lia | unfold Second in *; lia |].
  destruct (iallow_ok s b Hok Hs) as (Hok' & El & Em & Er).
  cbn [fmap list_fmap irun]. rewrite run_allow_cons. cbn [fst snd]. f_equal; [exact E |].
  apply IH; auto; rewrite El; auto; rewrite ?Em, ?Er.
  - assert ((last - s) * irate b <= (last - ilast b) * irate b)
      by (apply Z.mul_le_mono_nonneg_r; [apply Hok | lia]). lia.
  - unfold Second in *; lia.
Qed.

(** Admitted requests are paid for by tokens. *)
Definition admitted (bs : list bool) : Z := Z.of_nat (length (filter (fun b => b = true) bs)).

Lemma admitted_cons b bs : admitted (b :: bs) = (if b then 1 else 0) + admitted bs.
Proof.
  unfold admitted. destruct b.
  - rewrite filter_cons_True by reflexivity. cbn [length]. lia.
  - rewrite filter_cons_False by discriminate. lia.
Qed.

Lemma irun_admitted ss b last : ibucket_ok b -> ascending (ilast b) ss ->
  Forall (fun s => s <= last) ss -> ilast b <= last ->
  admitted (irun ss b).1 <= itokens b + (last - ilast b) * irate b.
Proof.
  revert b. induction ss as [| s ss IH]; intros b Hok Ha HF Hl.
  - assert (0 <= (last - ilast b) * irate b) by (apply Z.mul_nonneg_nonneg; [lia | apply Hok]).
    destruct Hok. change (admitted (irun [] b).1) with 0. lia.
  - destruct Ha as [Hs Ha]. inversion HF as [| ? ? Hsl HF']; subst.
    destruct (iallow_ok s b Hok Hs) as (Hok' & El & Em & Er).
    cbn [irun fst]. rewrite admitted_cons. specialize (IH (iallow_at s b).2 Hok').
    rewrite El, Er in IH. specialize (IH Ha HF' Hsl).
    assert ((if (iallow_at s b).1 then 1 else 0) + itokens (iallow_at s b).2 <= itokens b + (s - ilast b) * irate b).
    { unfold iallow_at, irefill. destruct (1 <=? _); cbn; lia. }
    lia.
Qed.

(** ** What rounding can add

    On any clock: the seconds of a duration, their product with the rate and
    the sum with the tokens are rounded, each result by at most one part in
    [2 ^ 52]; the token taken is exact. *)

Lemma rounded_refill T B F D d n X P :
  0 <= T <= B -> 0 <= n -> 0 <= d -> 0 <= F -> 0 < P -> D * Second * 2 ^ 104 <= d * P * (2 ^ 52 + 1) ^ 2 ->
  F * 2 ^ 52 <= D * n * (2 ^ 52 + 1) -> X * 2 ^ 52 <= (T + F) * (2 ^ 52 + 1) ->
  X * Second * 2 ^ 52 <= T * Second * 2 ^ 52 + B * Second + d * n * P * (2 ^ 52 + 8).
Proof.
  unfold Second. intros HT Hn Hd HF HP HD HFD HX.
  assert (F * 1000000000 * 2 ^ 156 <= d * n * P * (2 ^ 52 + 1) ^ 3) as HF'.
  { apply Z.le_trans with (D * 1000000000 * 2 ^ 104 * n * (2 ^ 52 + 1)); [nia |].
    apply Z.le_trans with (d * P * (2 ^ 52 + 1) ^ 2 * n * (2 ^ 52 + 1)); [| nia].
    apply Z.mul_le_mono_nonneg_r; [lia |]. apply Z.mul_le_mono_nonneg_r; lia. }
  assert (0 <= d * n * P) as HdnP by (repeat apply Z.mul_nonneg_nonneg; lia).
  set (Q := d * n * P) in *. clearbody Q. lia.
Qed.

Lemma refill_above t rl n : bucket_ok rl -> holds (refillRate rl) n -> lastRefill rl <= t ->
  fnum (tokens (refill t rl)) * Second * 2 ^ 52 <=
    fnum (tokens rl) * Second * 2 ^ 52 + fnum (maxTokens rl) * Second + (t - lastRefill rl) * n * 2 ^ 1074 * (2 ^ 52 + 8).
Proof.
  intros Hb Hn Hl. pose proof Hb as [Hm Ht Hle Hr]. pose proof two_1074_pos.
  set (el := time_sub t (lastRefill rl)).
  assert (0 <= el <= int64_max /\ el <= t - lastRefill rl) as (Hel & Hsub).
  { pose proof (time_sub_range t (lastRefill rl)) as [_ ?]. pose proof (time_sub_nonneg t (lastRefill rl) Hl).
    unfold el. split; [auto |]. unfold time_sub, int64_min, int64_max in *. lia. }
  assert (0 <= n) as Hn0 by (destruct Hr as [_ [? _]], Hn as [_ E]; nia).
  pose proof (duration_seconds_upto el Hel) as Hu. destruct (duration_seconds_above el Hel) as [HD Hbig].
  pose proof (f64_mul_above 35 63 _ _ n ltac:(lia) ltac:(lia) ltac:(lia) Hu Hr Hn Hbig) as HF.
  pose proof (f64_mul_upto 35 63 _ _ ltac:(lia) ltac:(lia) ltac:(lia) Hu Hr) as HuF.
  destruct (f64_add_above 100 (tokens rl) (f64_mul (duration_seconds el) (refillRate rl)) ltac:(lia)
    ltac:(apply (f64_upto_mono 53); [lia | lia | exact Ht]) HuF) as [HX _].
  pose proof (f64_add_upto 100 (tokens rl) (f64_mul (duration_seconds el) (refillRate rl)) ltac:(lia)
    ltac:(apply (f64_upto_mono 53); [lia | lia | exact Ht]) HuF) as HuX.
  assert (fnum (tokens (refill t rl)) <= fnum (f64_add (tokens rl) (f64_mul (duration_seconds el) (refillRate rl)))) as Hcap.
  { unfold refill. fold el. destruct (f64_ltb _ _) eqn:E; cbn [tokens]; [| lia].
    rewrite f64_ltb_fnum in E by (apply Hm || apply HuX). apply Z.ltb_lt in E. lia. }
  destruct HuF as [_ [HF0 _]], Ht as [_ [Ht0 _]].
  pose proof (rounded_refill _ (fnum (maxTokens rl)) _ _ _ n _ (2 ^ 1074) (conj Ht0 Hle) Hn0 (proj1 Hel) HF0 ltac:(lia) HD HF HX) as Hfin.
  assert (el * n * 2 ^ 1074 * (2 ^ 52 + 8) <= (t - lastRefill rl) * n * 2 ^ 1074 * (2 ^ 52 + 8)).
  { apply Z.mul_le_mono_nonneg_r; [lia |]. apply Z.mul_le_mono_nonneg_r; [lia |]. apply Z.mul_le_mono_nonneg_r; lia. }
  unfold Second in *. lia.
Qed.

(** An admitted call pays one token. *)
Lemma allow_pays t rl : bucket_ok rl -> lastRefill rl <= t ->
  fnum (tokens (allow_at t rl).2) + (if (allow_at t rl).1 then 2 ^ 1074 else 0) = fnum (tokens (refill t rl)).
Proof.
  intros Hok Hl. pose proof (refill_ok t rl Hok Hl) as [_ Ht _ _]. unfold allow_at.
  destruct (f64_leb f64_one (tokens (refill t rl))) eqn:E; cbn [fst snd tokens]; [| lia].
  destruct f64_one_ok as [Ho Eo]. rewrite f64_leb_fnum, Eo in E by (assumption || exact (proj1 Ht)). apply Z.leb_le in E.
  destruct (f64_sub_one (tokens (refill t rl)) Ht) as [_ ->]; lia.
Qed.

Lemma run_paid ts rl n last : bucket_ok rl -> holds (refillRate rl) n -> ascending (lastRefill rl) ts ->
  Forall (fun t => t <= last) ts -> lastRefill rl <= last ->
  admitted (run_allow ts rl).1 * 2 ^ 1074 * Second * 2 ^ 52 <=
    fnum (tokens rl) * Second * 2 ^ 52 + Z.of_nat (length ts) * fnum (maxTokens rl) * Second +
    (last - lastRefill rl) * n * 2 ^ 1074 * (2 ^ 52 + 8).
Proof.
  revert rl. induction ts as [| t ts IH]; intros rl Hok Hn Ha HF Hl.
  - change (admitted (run_allow [] rl).1) with 0. destruct Hok as [_ [_ [? _]] _ [_ [? _]]], Hn as [_ E].
    pose proof two_1074_pos. assert (0 <= n) by nia.
    assert (0 <= (last - lastRefill rl) * n * 2 ^ 1074) by (repeat apply Z.mul_nonneg_nonneg; lia). cbn [length]. unfold Second. lia.
  - destruct Ha as [Ht Ha]. apply Forall_cons in HF as [Htl HF]. rewrite run_allow_cons. cbn [fst length]. rewrite admitted_cons.
    destruct (allow_config t rl) as [Em Er]. specialize (IH (allow_at t rl).2 (allow_ok t rl Hok Ht)).
    rewrite Em, Er, allow_last in IH. specialize (IH Hn Ha HF Htl).
    pose proof (refill_above t rl n Hok Hn Ht) as Hre. rewrite <- (allow_pays t rl Hok Ht) in Hre.
    rewrite Nat2Z.inj_succ. set (G := 2 ^ 1074) in *. clearbody G. unfold Second in *.
    destruct (allow_at t rl).1; lia.
Qed.

(** A limiter just made. *)
Lemma fresh_admitted rps burst t0 ts last : 0 <= rps <= 2 ^ 53 -> 0 <= burst <= 2 ^ 53 -> ascending t0 ts ->
  Forall (fun t => t <= last) ts -> t0 <= last ->
  admitted (run_allow ts (mkRateLimiter (f64_of_Z burst) (f64_of_Z burst) (f64_of_Z rps) t0)).1 * Second * 2 ^ 52 <=
    burst * Second * (2 ^ 52 + Z.of_nat (length ts)) + (last - t0) * rps * (2 ^ 52 + 8).
Proof.
  intros Hr Hb Ha HF Hl.
  pose proof (run_paid ts (mkRateLimiter (f64_of_Z burst) (f64_of_Z burst) (f64_of_Z rps) t0) rps last
    (new_bucket_ok rps burst t0 ltac:(unfold int64_max; lia) Hb) (holds_of_Z rps ltac:(lia)) Ha HF Hl) as Hp.
  cbn [tokens maxTokens lastRefill] in Hp. destruct (holds_of_Z burst ltac:(lia)) as [_ Eb]. rewrite Eb in Hp.
  apply (Z.mul_le_mono_pos_r _ _ (2 ^ 1074) two_1074_pos). set (G := 2 ^ 1074) in *. clearbody G. unfold Second in *. lia.
Qed.

Lemma irun_same_instant n b : ibucket_ok b ->
  (irun (replicate n (ilast b)) b).1 =
    replicate (Nat.min n (Z.to_nat (itokens b))) true ++ replicate (n - Z.to_nat (itokens b)) false.
Proof.
  revert b. induction n as [| n IH]; intros b Hok; [reflexivity |].
  cbn [replicate irun fst]. destruct (iallow_ok (ilast b) b Hok) as (Hok' & El & _ & _); [lia |].
  specialize (IH (iallow_at (ilast b) b).2 Hok'). rewrite El in IH. rewrite IH.
  destruct Hok as [Ht Hr].
  assert (irefill (ilast b) b = itokens b) as E by (unfold irefill; lia).
  unfold iallow_at. rewrite E. destruct (Z.leb_spec 1 (itokens b)); cbn [fst snd itokens].
  - replace (Z.to_nat (itokens b)) with (S (Z.to_nat (itokens b - 1))) by lia. reflexivity.
  - replace (itokens b) with 0 by lia. cbn. now rewrite Nat.min_0_r, Nat.sub_0_r.
Qed.

Lemma fresh_refines rps burst t : 0 <= rps <= 2 ^ 53 -> 0 <= burst <= 2 ^ 53 ->
  refines t (mkRateLimiter (f64_of_Z burst) (f64_of_Z burst) (f64_of_Z rps) t) (mkIBucket burst burst rps 0).
Proof. intros. split; cbn; try (apply holds_of_Z; lia). lia. Qed.

Lemma run_allow_length ts rl : length (run_allow ts rl).1 = length ts.
Proof. revert rl. induction ts as [| t ts IH]; intros rl; [reflexivity |]. rewrite run_allow_cons. cbn. now rewrite IH. Qed.

(** Readings at whole seconds after the creation, in order. *)
Lemma whole_seconds rps burst n (c : Clocked unit) (sec : nat -> Z) : 0 <= rps <= 2 ^ 53 -> 0 <= burst <= 2 ^ 53 ->
  monotone (clk c) -> (forall i, (i <= n)%nat -> clk c (tick c + i)%nat = clk c (tick c) + sec i * Second) ->
  burst + sec n * rps <= 2 ^ 53 -> clk c (tick c + n)%nat - clk c (tick c) <= int64_max ->
  admitted (run_allow (readings (next_tick c) n)
    (mkRateLimiter (f64_of_Z burst) (f64_of_Z burst) (f64_of_Z rps) (clk c (tick c)))).1 <= burst + sec n * rps.
Proof.
  intros Hr Hb Hm Hsec Hmax Hint.
  assert (forall i j, (i <= j <= n)%nat -> sec i <= sec j) as Hmono.
  { intros i j Hij. pose proof (Hm (tick c + i)%nat (tick c + j)%nat ltac:(lia)) as Hc. rewrite !Hsec in Hc by lia.
    unfold Second in *. lia. }
  assert (sec 0%nat = 0) as H0 by (specialize (Hsec 0%nat ltac:(lia)); rewrite Nat.add_0_r in Hsec; unfold Second in *; lia).
  pose proof (Hmono 0%nat n ltac:(lia)) as Hn. rewrite (Hsec n) in Hint by lia.
  set (ss := sec <$> seq 1 n).
  assert (readings (next_tick c) n = (fun s => clk c (tick c) + s * Second) <$> ss) as ->.
  { unfold readings, ss. rewrite <- list_fmap_compose. cbn [tick next_tick clk]. apply list_eq. intros i. rewrite !list_lookup_fmap.
    destruct (decide (i < n)%nat) as [Hi | Hi]; [| rewrite !lookup_ge_None_2; [reflexivity | rewrite length_seq; lia..]].
    rewrite !lookup_seq_lt by lia. cbn. rewrite <- Hsec by lia. do 2 f_equal. lia. }
  assert (ibucket_ok (mkIBucket burst burst rps 0)) as Hok by (unfold ibucket_ok; cbn; lia).
  assert (ascending 0 ss) as Hasc.
  { unfold ss. assert (forall k i lo, (i + k <= S n)%nat -> (forall j, (i <= j <= n)%nat -> lo <= sec j) -> ascending lo (sec <$> seq i k)) as Hseq;
      [| apply Hseq; [lia |]; intros j Hj; rewrite <- H0; apply Hmono; lia].
    induction k as [| k IH]; intros i lo Hk Hlo; [exact I |]. cbn. split; [apply Hlo; lia |].
    apply IH; [lia |]. intros j Hj. apply Hmono. lia. }
  assert (Forall (fun s => s <= sec n) ss) as Hall.
  { unfold ss. apply Forall_fmap, Forall_forall. intros i Hi. apply elem_of_seq in Hi. cbn. apply Hmono. lia. }
  rewrite (run_refines _ ss _ (mkIBucket burst burst rps 0) (sec n)); auto using fresh_refines; cbn [imax irate ilast]; try lia.
  pose proof (irun_admitted ss _ (sec n) Hok Hasc Hall ltac:(cbn; lia)) as Hi. cbn [itokens ilast irate] in Hi. lia.
Qed.

(** ** Theorems *)

(** C1. On a clock that reads whole seconds [ss] after its creation, a
    limiter made by [NewRateLimiter] answers every [Allow] as the integer
    token bucket does, as long as all quantities stay within [2 ^ 53]. *)
Theorem bucket_refines_integers rps burst (ss : list Z) last (c : Clocked unit) :
  0 <= rps <= 2 ^ 53 -> 0 <= burst <= 2 ^ 53 ->
  ascending 0 ss -> Forall (fun s => s <= last) ss -> 0 <= last ->
  burst + last * rps <= 2 ^ 53 -> last * Second <= int64_max ->
  readings (next_tick c) (length ss) = (fun s => clk c (tick c) + s * Second) <$> ss ->
  (fresh_run rps burst (length ss) c).1 = Ret (irun ss (mkIBucket burst burst rps 0)).1.
Proof.
  intros Hr Hb Ha HF Hl Hm Hspan Hread. rewrite fresh_run_unfold, Hread. cbn [fst]. f_equal.
  apply (run_refines _ ss _ _ last); auto using fresh_refines; cbn [imax irate ilast]; try lia.
  unfold ibucket_ok. cbn. lia.
Qed.

(** Whatever the instants of the calls, on a clock that never runs
    backwards the tokens of a limiter are a finite float, at least 0 and at
    most its burst, after any number of calls. *)
Theorem bucket_invariant rps burst n (c : Clocked unit) :
  0 <= rps <= int64_max -> 0 <= burst <= 2 ^ 53 -> monotone (clk c) ->
  let rl := st (fresh_run rps burst n c).2 in
  f64_ok (tokens rl) /\ f64_leb f64_zero (tokens rl) = true /\
  f64_leb (tokens rl) (f64_of_Z burst) = true /\ maxTokens rl = f64_of_Z burst.
Proof.
  intros Hr Hb Hm rl. unfold rl. rewrite fresh_run_unfold. cbn [st snd].
  destruct (run_allow_ok (readings (next_tick c) n)
    (mkRateLimiter (f64_of_Z burst) (f64_of_Z burst) (f64_of_Z rps) (clk c (tick c)))) as [[Hx Ht Hle _] Hmax].
  { now apply new_bucket_ok. }
  { apply (readings_ascending (next_tick c)); [exact Hm |]. apply Hm. cbn. lia. }
  cbn [maxTokens] in Hmax. rewrite Hmax in *. destruct Ht as [Hok [H0 _]].
  repeat split; try apply Hok.
  - rewrite f64_leb_fnum; [| split; reflexivity | exact Hok]. apply Z.leb_le. exact H0.
  - rewrite f64_leb_fnum; [| exact Hok | exact (proj1 Hx)]. apply Z.leb_le. exact Hle.
Qed.

(** Asked [n] times at the instant of its creation, a limiter of burst
    [b] admits the first [b] requests and denies the others. *)
Theorem burst_exact rps burst n (c : Clocked unit) :
  0 <= rps <= 2 ^ 53 -> 0 <= burst <= 2 ^ 53 ->
  (forall i, clk c (tick c + i)%nat = clk c (tick c)) ->
  (fresh_run rps burst n c).1 =
    Ret (replicate (Nat.min n (Z.to_nat burst)) true ++ replicate (n - Z.to_nat burst) false).
Proof.
  intros Hr Hb Hconst. rewrite fresh_run_unfold. cbn [fst]. f_equal.
  assert (readings (next_tick c) n = (fun s => clk c (tick c) + s * Second) <$> replicate n 0) as ->.
  { unfold readings. cbn [tick next_tick clk].
    apply list_eq. intros i. rewrite !list_lookup_fmap.
    destruct (decide (i < n)%nat) as [Hi | Hi].
    - rewrite lookup_seq_lt, lookup_replicate_2 by lia. cbn. f_equal.
      replace (S (tick c + i))%nat with (tick c + S i)%nat by lia. rewrite Hconst. lia.
    - rewrite !lookup_ge_None_2; [reflexivity | rewrite length_replicate; lia | rewrite length_seq; lia]. }
  rewrite (run_refines (clk c (tick c)) (replicate n 0) _ (mkIBucket burst burst rps 0) 0);
    auto using fresh_refines; cbn [imax irate ilast itokens]; try lia.
  - apply (irun_same_instant n (mkIBucket burst burst rps 0)). unfold ibucket_ok. cbn. lia.
  - unfold ibucket_ok. cbn. lia.
  - induction n; cbn; auto. split; [lia | assumption].
  - apply Forall_replicate. lia.
  - unfold int64_max. lia.
Qed.

(** C12. On any clock that does not run backwards, of [n] calls a limiter
    admits at most its burst plus its rate times the time since its creation,
    up to the rounding of float64: one part in [2 ^ 49] of what the rate
    earns, and one part in [2 ^ 52] of the burst for each call.  Where every
    reading is a whole number of seconds after the creation, and the
    quantities stay within [2 ^ 53], the bound is exact. *)
Theorem admission_bound rps burst (n : nat) (c : Clocked unit) :
  0 <= rps <= 2 ^ 53 -> 0 <= burst <= 2 ^ 53 -> monotone (clk c) ->
  let span := clk c (tick c + n)%nat - clk c (tick c) in
  exists bs, (fresh_run rps burst n c).1 = Ret bs /\ length bs = n /\
    admitted bs * Second * 2 ^ 52 <= burst * Second * (2 ^ 52 + Z.of_nat n) + span * rps * (2 ^ 52 + 8) /\
    (forall sec : nat -> Z, (forall i, (i <= n)%nat -> clk c (tick c + i)%nat = clk c (tick c) + sec i * Second) ->
      burst + sec n * rps <= 2 ^ 53 -> span <= int64_max -> admitted bs <= burst + sec n * rps).
Proof.
  intros Hr Hb Hm span. rewrite fresh_run_unfold. cbn [fst]. set (ts := readings (next_tick c) n).
  assert (ascending (clk c (tick c)) ts) as Ha by (apply (readings_ascending (next_tick c)); [exact Hm |]; apply Hm; cbn; lia).
  assert (length ts = n) as El by (unfold ts, readings; now rewrite length_fmap, length_seq).
  assert (Forall (fun t => t <= clk c (tick c + n)%nat) ts) as Hlast.
  { unfold ts, readings. apply Forall_fmap, Forall_forall. intros i Hi. apply elem_of_seq in Hi. cbn in *. apply Hm. lia. }
  pose proof (Hm (tick c) (tick c + n)%nat ltac:(lia)) as Hspan.
  eexists. split; [reflexivity |]. split; [now rewrite run_allow_length |]. split.
  - pose proof (fresh_admitted rps burst (clk c (tick c)) ts _ Hr Hb Ha Hlast Hspan) as Hf. now rewrite El in Hf.
  - intros sec Hsec Hmax Hint. pose proof (whole_seconds rps burst n c sec Hr Hb Hm Hsec Hmax Hint) as Hw. exact Hw.
Qed.

(** The key of a peer is its host, whatever the port: connections of
    one host from different ports share a bucket. *)
Theorem remote_key_port host port : host <> "" -> graphic (bytes host) = true ->
  graphic (bytes port) = true -> plain (bytes host) = true -> plain (bytes port) = true ->
  defaultHTTPRateLimitKey (Some (host +:+ ":" +:+ port)) = host.
Proof.
  intros Hne Hg Hgp Hp Hpp. unfold defaultHTTPRateLimitKey, remoteAddrKey.
  assert (trim_space (host +:+ ":" +:+ port) = host +:+ ":" +:+ port) as Et.
  { apply trim_space_graphic. rewrite !bytes_app, !graphic_app, Hg, Hgp. reflexivity. }
  rewrite Et, split_host_port_plain by assumption.
  destruct (decide (host +:+ ":" +:+ port = "")) as [E | _].
  - exfalso. apply Hne. destruct host; [reflexivity | discriminate].
  - now destruct (decide (host = "")); [| rewrite decide_False by assumption].
Qed.

(** ** Witnesses *)

(** A clock that reads second 0, then the given seconds, then the last. *)
Definition seconds_clock (ss : list Z) : Clocked unit :=
  mkClocked (fun i => nth i (0 :: ss) (List.last ss 0) * Second) (fun _ => 0) 0 tt.

Lemma bucket_refines_integers_witness :
  (fresh_run 2 3 5 (seconds_clock [0; 0; 1; 4; 4])).1 = Ret [true; true; true; true; true].
Proof.
  etransitivity;
    [apply (bucket_refines_integers 2 3 [0; 0; 1; 4; 4] 4 (seconds_clock [0; 0; 1; 4; 4]));
     try (unfold int64_max, Second; lia) | reflexivity].
  - cbn. lia.
  - repeat constructor; lia.
  - reflexivity.
Defined.

Lemma bucket_invariant_witness :
  f64_leb (tokens (st (fresh_run 2 3 4 (mkClocked (fun i => Z.of_nat i * 1234567) (fun _ => 0) 0 tt)).2))
    (f64_of_Z 3) = true.
Proof.
  apply (bucket_invariant 2 3 4 (mkClocked (fun i => Z.of_nat i * 1234567) (fun _ => 0) 0 tt));
    [unfold int64_max; lia | lia |].
  intros i j Hij. cbn. lia.
Defined.

Lemma burst_exact_witness :
  (fresh_run 7 2 4 (mkClocked (fun _ => 99) (fun _ => 0) 0 tt)).1 = Ret [true; true; false; false].
Proof. rewrite burst_exact; [reflexivity | lia | lia | reflexivity]. Defined.

(** Six calls, half a second apart: two from the burst, then one a second. *)
Lemma admission_bound_witness : exists bs,
  (fresh_run 1 2 6 (mkClocked (fun i => Z.of_nat i * 500 * Millisecond) (fun _ => 0) 0 tt)).1 = Ret bs /\
  admitted bs * Second * 2 ^ 52 <= 2 * Second * (2 ^ 52 + 6) + 3000 * Millisecond * 1 * (2 ^ 52 + 8).
Proof.
  destruct (admission_bound 1 2 6 (mkClocked (fun i => Z.of_nat i * 500 * Millisecond) (fun _ => 0) 0 tt))
    as (bs & E & _ & Hadm & _); [lia | lia | intros i j Hij; cbn; unfold Millisecond; lia | exact (ex_intro _ bs (conj E Hadm))].
Defined.

Lemma remote_key_port_witness : defaultHTTPRateLimitKey (Some ("192.0.2.7" +:+ ":" +:+ "41234")) = "192.0.2.7".
Proof. apply remote_key_port; [discriminate | reflexivity..]. Defined.
