(* ===== verification/Partitioned.v ===== *)
(** * The partitioned in-memory limiter

    [go/middleware/ratelimit_partitioned.go].  The Go map holds pointers to
    entries, and [AllowKey] uses the pointer after the lock is released, so
    the model keeps the entries in a store ([heap]) and the map from keys to
    pointers ([partitions]) apart.

    [pstate] is the specification: a finite map from keys to buckets and one
    overflow bucket, no pointers.  The theorems: the pointer implementation
    refines it ([partitioned_refines]); the number of partitions never
    exceeds the bound, nothing panics and every bucket stays within its
    burst ([partitioned_safe]); tracked keys do not influence each other
    ([partitioned_isolation]); at capacity unseen keys share the overflow
    bucket ([overflow_shared]); cleanup removes exactly the stale keys
    whatever the iteration order ([cleanup_exact]); the configuration is
    normalised ([normalize_ok]). *)

From S2P Require Import Prelude Float64 GoStrings RateLimit.

Definition defaultPartitionEntryTTL : Z := 5 * Minute.
Definition defaultPartitionMaxEntries : Z := 4096.
Definition defaultPartitionCleanupInterval : Z := Minute.

(** ** Configuration *)

Record PartitionedRateLimiterConfig : Type := mkPConfig {
  cfgRequestsPerSecond : Z;
  cfgBurst : Z;
  cfgEntryTTL : Z;
  cfgMaxPartitions : Z;
  cfgCleanupInterval : Z
}.

Definition normalizePartitionedRateLimiterConfig (cfg : PartitionedRateLimiterConfig) : PartitionedRateLimiterConfig :=
  let rps := if cfgRequestsPerSecond cfg <=? 0 then 1 else cfgRequestsPerSecond cfg in
  let burst := if cfgBurst cfg <=? 0 then 1 else cfgBurst cfg in
  let ttl := if cfgEntryTTL cfg <=? 0 then defaultPartitionEntryTTL else cfgEntryTTL cfg in
  let maxp := if cfgMaxPartitions cfg <=? 0 then defaultPartitionMaxEntries else cfgMaxPartitions cfg in
  let ci := cfgCleanupInterval cfg in
  let ci :=
    if ci <=? 0 then
      let ci := defaultPartitionCleanupInterval in
      if ttl <? ci then ttl else ci
    else ci in
  let ci := if ttl <? ci then ttl else ci in
  let ci := if ci <=? 0 then Second else ci in
  mkPConfig rps burst ttl maxp ci.

(** ** State *)

Definition ptr : Type := nat.

Record partitionEntry : Type := mkEntry {
  limiter : RateLimiter;
  lastSeen : Z
}.

Record PartitionedRateLimiter : Type := mkPartitioned {
  requests : Z;
  burst : Z;
  entryTTL : Z;
  maxPartitions : Z;
  cleanupInterval : Z;
  nextCleanup : Z;
  partitions : gmap string ptr;
  overflow : ptr;
  heap : gmap ptr partitionEntry;
  nextPtr : ptr
}.

Definition set_nextCleanup (t : Z) (rl : PartitionedRateLimiter) : PartitionedRateLimiter :=
  mkPartitioned (requests rl) (burst rl) (entryTTL rl) (maxPartitions rl) (cleanupInterval rl)
    t (partitions rl) (overflow rl) (heap rl) (nextPtr rl).
Definition set_partitions (ps : gmap string ptr) (rl : PartitionedRateLimiter) : PartitionedRateLimiter :=
  mkPartitioned (requests rl) (burst rl) (entryTTL rl) (maxPartitions rl) (cleanupInterval rl)
    (nextCleanup rl) ps (overflow rl) (heap rl) (nextPtr rl).
Definition set_heap (h : gmap ptr partitionEntry) (rl : PartitionedRateLimiter) : PartitionedRateLimiter :=
  mkPartitioned (requests rl) (burst rl) (entryTTL rl) (maxPartitions rl) (cleanupInterval rl)
    (nextCleanup rl) (partitions rl) (overflow rl) h (nextPtr rl).

(** Allocation of an entry: [&partitionEntry{...}]. *)
Definition alloc (e : partitionEntry) : M PartitionedRateLimiter ptr :=
  state (fun rl => (nextPtr rl,
    mkPartitioned (requests rl) (burst rl) (entryTTL rl) (maxPartitions rl) (cleanupInterval rl)
      (nextCleanup rl) (partitions rl) (overflow rl) (<[nextPtr rl := e]> (heap rl)) (S (nextPtr rl)))).

(** Reading and writing through a pointer. *)
Definition deref (p : ptr) : M PartitionedRateLimiter partitionEntry :=
  rl ← get;
  match heap rl !! p with
  | Some e => mret e
  | None => panic "invalid memory address or nil pointer dereference"
  end.
Definition store (p : ptr) (e : partitionEntry) : M PartitionedRateLimiter unit :=
  modify (fun rl => set_heap (<[p := e]> (heap rl)) rl).

(** ** Operations *)

Definition newPartitionEntry {S} (requestsPerSecond burst t : Z) : M S partitionEntry :=
  l ← NewRateLimiter requestsPerSecond burst;
  mret (mkEntry l t).

Definition NewPartitionedRateLimiterWithConfig {S} (cfg : PartitionedRateLimiterConfig) :
    M S PartitionedRateLimiter :=
  let cfg := normalizePartitionedRateLimiterConfig cfg in
  t ← now;
  ov ← newPartitionEntry (cfgRequestsPerSecond cfg) (cfgBurst cfg) t;
  mret (mkPartitioned (cfgRequestsPerSecond cfg) (cfgBurst cfg) (cfgEntryTTL cfg) (cfgMaxPartitions cfg)
    (cfgCleanupInterval cfg) (t + cfgCleanupInterval cfg) ∅ 0%nat {[ 0%nat := ov ]} 1%nat).

Definition NewPartitionedRateLimiter {S} (requestsPerSecond burst entryTTL : Z) : M S PartitionedRateLimiter :=
  NewPartitionedRateLimiterWithConfig (mkPConfig requestsPerSecond burst entryTTL 0 0).

(** The stale test of the cleanup loop.  A pointer of the map is never
    dangling; the model keeps an entry it cannot read. *)
Definition is_stale (t ttl : Z) (h : gmap ptr partitionEntry) (p : ptr) : bool :=
  match h !! p with
  | Some e => ttl <=? time_sub t (lastSeen e)
  | None => false
  end.

(** The loop [for key, entry := range rl.partitions]: Go iterates in an
    unspecified order, here the list [l]. *)
Definition cleanup_loop (t ttl : Z) (h : gmap ptr partitionEntry) (l : list (string * ptr))
    (ps : gmap string ptr) : gmap string ptr :=
  foldl (fun ps '(key, p) => if is_stale t ttl h p then delete key ps else ps) ps l.

Definition cleanupStaleLocked (t : Z) : M PartitionedRateLimiter unit :=
  rl ← get;
  if t <? nextCleanup rl then mret ()
  else
    put (set_partitions (cleanup_loop t (entryTTL rl) (heap rl) (map_to_list (partitions rl)) (partitions rl)) rl);;
    modify (set_nextCleanup (t + cleanupInterval rl)).

Definition partitionForKey (t : Z) (key : string) : M PartitionedRateLimiter ptr :=
  cleanupStaleLocked t;;
  rl ← get;
  match partitions rl !! key with
  | Some p =>
      entry ← deref p;
      store p (mkEntry (limiter entry) t);;
      mret p
  | None =>
      if Z.of_nat (size (partitions rl)) <? maxPartitions rl then
        entry ← newPartitionEntry (requests rl) (burst rl) t;
        p ← alloc entry;
        modify (fun rl => set_partitions (<[key := p]> (partitions rl)) rl);;
        mret p
      else
        entry ← deref (overflow rl);
        store (overflow rl) (mkEntry (limiter entry) t);;
        mret (overflow rl)
  end.

(** [entry.limiter.Allow()]. *)
Definition allow_entry (p : ptr) : M PartitionedRateLimiter bool :=
  entry ← deref p;
  t ← now;
  let '(b, l) := allow_at t (limiter entry) in
  store p (mkEntry l (lastSeen entry));;
  mret b.

Definition AllowKey (key : string) : M PartitionedRateLimiter bool :=
  let key := if decide (key = "") then "global" else key in
  t ← now;
  p ← partitionForKey t key;
  allow_entry p.

#[export] Instance Partitioned_keyed : KeyedRateLimiter PartitionedRateLimiter := AllowKey.

(** Calls for a list of keys, in order. *)
Fixpoint allow_keys (keys : list string) : M PartitionedRateLimiter (list bool) :=
  match keys with
  | [] => mret []
  | k :: ks => b ← AllowKey k; bs ← allow_keys ks; mret (b :: bs)
  end.

(** ** The specification: a map of buckets *)

Record pstate : Type := mkPState {
  sp_entries : gmap string partitionEntry;
  sp_overflow : partitionEntry;
  sp_nextCleanup : Z
}.

(** The settings of a limiter, fixed at creation. *)
Record settings : Type := mkSettings {
  set_rps : Z; set_burst : Z; set_ttl : Z; set_max : Z; set_interval : Z
}.

Definition spec_cleanup (s : settings) (t : Z) (ps : pstate) : pstate :=
  if t <? sp_nextCleanup ps then ps
  else mkPState (filter (fun '(_, e) => time_sub t (lastSeen e) < set_ttl s) (sp_entries ps))
    (sp_overflow ps) (t + set_interval s).

(** One [AllowKey] on the specification: [t] is the instant of the call,
    [t1] that of the creation of a bucket, [t2] that of the token test. *)
Definition spec_touch (t : Z) (e : partitionEntry) (t2 : Z) : bool * partitionEntry :=
  ((allow_at t2 (limiter e)).1, mkEntry (allow_at t2 (limiter e)).2 t).

Definition spec_allow (s : settings) (key : string) : M pstate bool :=
  t ← now;
  modify (spec_cleanup s t);;
  ps ← get;
  match sp_entries ps !! key with
  | Some e =>
      t2 ← now;
      put (mkPState (<[key := (spec_touch t e t2).2]> (sp_entries ps)) (sp_overflow ps) (sp_nextCleanup ps));;
      mret (spec_touch t e t2).1
  | None =>
      if Z.of_nat (size (sp_entries ps)) <? set_max s then
        e ← newPartitionEntry (set_rps s) (set_burst s) t;
        t2 ← now;
        put (mkPState (<[key := (spec_touch t e t2).2]> (sp_entries ps)) (sp_overflow ps) (sp_nextCleanup ps));;
        mret (spec_touch t e t2).1
      else
        t2 ← now;
        put (mkPState (sp_entries ps) (spec_touch t (sp_overflow ps) t2).2 (sp_nextCleanup ps));;
        mret (spec_touch t (sp_overflow ps) t2).1
  end.

Definition spec_allow_key (s : settings) (key : string) : M pstate bool :=
  spec_allow s (if decide (key = "") then "global" else key).

Fixpoint spec_allow_keys (s : settings) (keys : list string) : M pstate (list bool) :=
  match keys with
  | [] => mret []
  | k :: ks => b ← spec_allow_key s k; bs ← spec_allow_keys s ks; mret (b :: bs)
  end.

(** ** The cleanup loop *)

Lemma cleanup_loop_lookup t ttl h l ps k :
  cleanup_loop t ttl h l ps !! k =
    if existsb (fun '(k', p) => bool_decide (k' = k) && is_stale t ttl h p) l then None else ps !! k.
Proof.
  unfold cleanup_loop. revert ps. induction l as [| [k' p] l IH]; intros ps; [reflexivity |].
  cbn [foldl existsb]. rewrite IH. destruct (existsb _ l) eqn:E.
  - now rewrite orb_true_r.
  - rewrite orb_false_r. destruct (is_stale t ttl h p); [| now rewrite andb_false_r].
    rewrite andb_true_r. destruct (bool_decide_reflect (k' = k)) as [-> | Hne].
    + apply lookup_delete_eq.
    + now apply lookup_delete_ne.
Qed.

Lemma existsb_perm {A} (f : A -> bool) l l' : l ≡ₚ l' -> existsb f l = existsb f l'.
Proof.
  induction 1 as [| x l l' _ IH | x y l | l l' l'' _ IH1 _ IH2]; cbn.
  - reflexivity.
  - now rewrite IH.
  - now rewrite !orb_assoc, (orb_comm (f x)).
  - congruence.
Qed.

Definition live (t ttl : Z) (h : gmap ptr partitionEntry) (kp : string * ptr) : Prop :=
  is_stale t ttl h kp.2 = false.
#[export] Instance live_dec t ttl h kp : Decision (live t ttl h kp).
Proof. unfold live. apply _. Defined.

Lemma cleanup_loop_filter t ttl h l ps : l ≡ₚ map_to_list ps ->
  cleanup_loop t ttl h l ps = filter (live t ttl h) ps.
Proof.
  intros Hl. apply map_eq. intros k. rewrite cleanup_loop_lookup, (existsb_perm _ _ _ Hl).
  destruct (ps !! k) as [p |] eqn:Hk.
  - destruct (is_stale t ttl h p) eqn:Hs.
    + rewrite (map_lookup_filter_None_2 _ ps k).
      * destruct (existsb _ _) eqn:E; [reflexivity |]. exfalso. apply not_true_iff_false in E. apply E.
        apply existsb_exists. exists (k, p). rewrite <- list_elem_of_In, elem_of_map_to_list. split; [exact Hk |].
        now rewrite bool_decide_eq_true_2.
      * right. intros q Hq. unfold live. cbn. congruence.
    + rewrite (map_lookup_filter_Some_2 _ ps k p Hk Hs).
      destruct (existsb _ _) eqn:E; [| reflexivity]. exfalso.
      apply existsb_exists in E as ([k' q] & Hin & Hq).
      apply list_elem_of_In, elem_of_map_to_list in Hin. apply andb_true_iff in Hq as [->%bool_decide_eq_true Hq].
      congruence.
  - rewrite (map_lookup_filter_None_2 _ ps k) by (now left). now destruct (existsb _ _).
Qed.

(** ** The simulation *)

Record prl_ok (rl : PartitionedRateLimiter) : Prop := {
  ok_ptrs : forall k p, partitions rl !! k = Some p -> is_Some (heap rl !! p) /\ p <> overflow rl;
  ok_inj : forall k k' p, partitions rl !! k = Some p -> partitions rl !! k' = Some p -> k = k';
  ok_alloc : forall p, is_Some (heap rl !! p) -> (p < nextPtr rl)%nat;
  ok_size : Z.of_nat (size (partitions rl)) <= maxPartitions rl
}.

Definition settings_of (rl : PartitionedRateLimiter) : settings :=
  mkSettings (requests rl) (burst rl) (entryTTL rl) (maxPartitions rl) (cleanupInterval rl).

Definition abs_entries (rl : PartitionedRateLimiter) : gmap string partitionEntry :=
  omap (fun p => heap rl !! p) (partitions rl).

Record simulates (rl : PartitionedRateLimiter) (ps : pstate) : Prop := {
  sim_ok : prl_ok rl;
  sim_entries : sp_entries ps = abs_entries rl;
  sim_overflow : heap rl !! overflow rl = Some (sp_overflow ps);
  sim_cleanup : sp_nextCleanup ps = nextCleanup rl
}.

Lemma abs_lookup rl k : abs_entries rl !! k = partitions rl !! k ≫= fun p => heap rl !! p.
Proof. unfold abs_entries. apply lookup_omap. Qed.

Lemma abs_size rl : prl_ok rl -> size (abs_entries rl) = size (partitions rl).
Proof.
  intros Hok. rewrite <- !size_dom. f_equal. apply set_eq. intros k. rewrite !elem_of_dom, abs_lookup.
  destruct (partitions rl !! k) as [p |] eqn:E; cbn; [| split; intros [? [=]]].
  destruct (ok_ptrs _ Hok k p E) as [Hs _]. split; eauto.
Qed.

(** Writing through the pointer of a key changes that key only. *)
Lemma abs_store rl k p e : prl_ok rl -> partitions rl !! k = Some p ->
  abs_entries (set_heap (<[p := e]> (heap rl)) rl) = <[k := e]> (abs_entries rl).
Proof.
  intros Hok Hk. apply map_eq. intros k'. rewrite abs_lookup. cbn [set_heap partitions heap].
  destruct (decide (k' = k)) as [-> | Hne].
  - rewrite Hk, lookup_insert_eq. cbn. apply lookup_insert_eq.
  - rewrite lookup_insert_ne, abs_lookup by congruence. destruct (partitions rl !! k') as [q |] eqn:Eq; [| reflexivity].
    cbn. apply lookup_insert_ne. intros ->. apply Hne. eauto using ok_inj.
Qed.

(** Writing the overflow entry changes no key. *)
Lemma abs_store_overflow rl e : prl_ok rl ->
  abs_entries (set_heap (<[overflow rl := e]> (heap rl)) rl) = abs_entries rl.
Proof.
  intros Hok. apply map_eq. intros k. rewrite !abs_lookup. cbn [set_heap partitions heap].
  destruct (partitions rl !! k) as [q |] eqn:Eq; [| reflexivity]. cbn.
  apply lookup_insert_ne. intros <-. now apply (ok_ptrs _ Hok k _ Eq).
Qed.

Lemma store_ok rl p e : prl_ok rl -> is_Some (heap rl !! p) ->
  prl_ok (set_heap (<[p := e]> (heap rl)) rl).
Proof.
  intros [H1 H2 H3 H4] Hp. split; cbn [set_heap partitions heap overflow nextPtr maxPartitions]; auto.
  - intros k q Hk. destruct (H1 k q Hk) as [Hs Hne]. split; [| exact Hne].
    rewrite lookup_insert. case_decide; eauto.
  - intros q. rewrite lookup_insert. case_decide; subst; eauto.
Qed.

(** The state after [p := &partitionEntry{...}; partitions[key] = p]. *)
Definition alloc_key (key : string) (e : partitionEntry) (rl : PartitionedRateLimiter) : PartitionedRateLimiter :=
  mkPartitioned (requests rl) (burst rl) (entryTTL rl) (maxPartitions rl) (cleanupInterval rl)
    (nextCleanup rl) (<[key := nextPtr rl]> (partitions rl)) (overflow rl)
    (<[nextPtr rl := e]> (heap rl)) (S (nextPtr rl)).

Lemma alloc_fresh rl : prl_ok rl -> heap rl !! nextPtr rl = None.
Proof.
  intros Hok. destruct (heap rl !! nextPtr rl) eqn:E; [| reflexivity].
  pose proof (ok_alloc _ Hok (nextPtr rl) (mk_is_Some _ _ E)). lia.
Qed.

Lemma alloc_key_ok rl key e : prl_ok rl -> is_Some (heap rl !! overflow rl) -> partitions rl !! key = None ->
  Z.of_nat (size (partitions rl)) < maxPartitions rl -> prl_ok (alloc_key key e rl).
Proof.
  intros Hok Hov Hkey Hsize. pose proof (alloc_fresh rl Hok) as Hfresh. destruct Hok as [H1 H2 H3 H4].
  split; cbn [alloc_key partitions heap overflow nextPtr maxPartitions].
  - intros k p. rewrite lookup_insert. case_decide as Hk.
    + intros [= <-]. rewrite lookup_insert_eq. split; [eauto |]. intros E. rewrite <- E, Hfresh in Hov. now destruct Hov.
    + intros Hp. destruct (H1 k p Hp) as [Hs Hne]. split; [| exact Hne]. rewrite lookup_insert. case_decide; eauto.
  - intros k k' p. rewrite !lookup_insert. repeat case_decide; subst; auto; intros Hk Hk'; simplify_eq.
    + destruct (H1 k' _ Hk') as [Hs _]. rewrite Hfresh in Hs. now destruct Hs.
    + destruct (H1 k _ Hk) as [Hs _]. rewrite Hfresh in Hs. now destruct Hs.
    + eauto.
  - intros p. rewrite lookup_insert. case_decide; [lia |]. intros Hp%H3. lia.
  - rewrite map_size_insert_None by assumption. lia.
Qed.

Lemma abs_alloc_key rl key e : prl_ok rl -> abs_entries (alloc_key key e rl) = <[key := e]> (abs_entries rl).
Proof.
  intros Hok. apply map_eq. intros k. rewrite abs_lookup. cbn [alloc_key partitions heap].
  destruct (decide (k = key)) as [-> | Hne].
  - rewrite !lookup_insert_eq. cbn. apply lookup_insert_eq.
  - rewrite !lookup_insert_ne by congruence. rewrite abs_lookup.
    destruct (partitions rl !! k) as [p |] eqn:E; [| reflexivity]. cbn. apply lookup_insert_ne.
    intros <-. destruct (ok_ptrs _ Hok k _ E) as [[? Hs] _]. rewrite alloc_fresh in Hs by assumption. discriminate.
Qed.

Definition cleaned (t : Z) (rl : PartitionedRateLimiter) : PartitionedRateLimiter :=
  if t <? nextCleanup rl then rl
  else set_nextCleanup (t + cleanupInterval rl)
    (set_partitions (filter (live t (entryTTL rl) (heap rl)) (partitions rl)) rl).

Lemma cleanup_run t c : cleanupStaleLocked t c = (Ret (), with_st c (cleaned t (st c))).
Proof.
  unfold cleanupStaleLocked, cleaned. unfold mbind, M_bind, get.
  destruct (t <? nextCleanup (st c)); [now destruct c |].
  unfold put, modify. cbn [st with_st cleanupInterval set_partitions].
  now rewrite cleanup_loop_filter.
Qed.

Lemma cleaned_settings t rl : settings_of (cleaned t rl) = settings_of rl.
Proof. unfold cleaned. now destruct (_ <? _). Qed.

Lemma cleaned_ok t rl : prl_ok rl -> prl_ok (cleaned t rl).
Proof.
  intros Hok. unfold cleaned. destruct (_ <? _); [exact Hok |]. destruct Hok as [H1 H2 H3 H4].
  split; cbn [set_nextCleanup set_partitions partitions heap overflow nextPtr maxPartitions]; auto.
  - intros k p [Hk _]%map_lookup_filter_Some. eauto.
  - intros k k' p [Hk _]%map_lookup_filter_Some [Hk' _]%map_lookup_filter_Some. eauto.
  - assert (size (filter (live t (entryTTL rl) (heap rl)) (partitions rl)) <= size (partitions rl))%nat; [| lia].
    apply map_subseteq_size, map_filter_subseteq.
Qed.

Lemma cleaned_abs t rl : prl_ok rl -> (t <? nextCleanup rl) = false ->
  abs_entries (cleaned t rl) =
    filter (fun '(_, e) => time_sub t (lastSeen e) < entryTTL rl) (abs_entries rl).
Proof.
  intros Hok Ht. apply map_eq. intros k. unfold cleaned. rewrite Ht, abs_lookup.
  cbn [set_nextCleanup set_partitions partitions heap].
  apply option_eq. intros e. rewrite map_lookup_filter_Some, abs_lookup, bind_Some.
  setoid_rewrite map_lookup_filter_Some. unfold live, is_stale. cbn [snd]. split.
  - intros (p & [Hp Hl] & He). rewrite Hp. cbn. rewrite He in Hl. bool_to_prop. auto.
  - intros [He Hl]. apply bind_Some in He as (p & Hp & He). exists p. rewrite He. repeat split; auto.
    now apply Z.leb_gt.
Qed.

Lemma cleaned_simulates t rl ps : simulates rl ps ->
  simulates (cleaned t rl) (spec_cleanup (settings_of rl) t ps).
Proof.
  intros [Hok He Ho Hc]. split; [now apply cleaned_ok | | |].
  - unfold spec_cleanup. rewrite Hc. destruct (t <? nextCleanup rl) eqn:Ht.
    + unfold cleaned. now rewrite Ht.
    + rewrite cleaned_abs by assumption. cbn. now rewrite He.
  - unfold cleaned, spec_cleanup. rewrite Hc. now destruct (t <? nextCleanup rl).
  - unfold cleaned, spec_cleanup. rewrite Hc. now destruct (t <? nextCleanup rl).
Qed.

(** The state after the entry [e] behind [p] was touched at [t] and asked
    at [t2]. *)
Definition touched (p : ptr) (t : Z) (e : partitionEntry) (t2 : Z) (rl : PartitionedRateLimiter) : PartitionedRateLimiter :=
  set_heap (<[p := (spec_touch t e t2).2]> (heap rl)) rl.

Lemma deref_run p e c : heap (st c) !! p = Some e -> deref p c = (Ret e, c).
Proof. intros H. unfold deref, mbind, M_bind, get. now rewrite H. Qed.

Lemma allow_entry_run p e c : heap (st c) !! p = Some e ->
  allow_entry p c =
    (Ret (allow_at (clk c (tick c)) (limiter e)).1,
     with_st (next_tick c) (touched p (lastSeen e) e (clk c (tick c)) (st c))).
Proof.
  intros H. unfold allow_entry. unfold mbind at 1, M_bind at 1. rewrite (deref_run p e c H).
  unfold mbind, M_bind, now. destruct (allow_at (clk c (tick c)) (limiter e)) as [b l] eqn:E.
  unfold store, modify, mret, M_ret, touched, spec_touch. rewrite E. reflexivity.
Qed.

Definition set_key (key : string) : string := if decide (key = "") then "global" else key.

(** [AllowKey] on a key whose entry is in the map. *)
Lemma AllowKey_known key p e c :
  let t := clk c (tick c) in
  let rl := cleaned t (st c) in
  partitions rl !! set_key key = Some p -> heap rl !! p = Some e ->
  AllowKey key c =
    (Ret (spec_touch t e (clk c (S (tick c)))).1,
     with_st (next_tick (next_tick c)) (touched p t e (clk c (S (tick c))) rl)).
Proof.
  intros t rl Hp He. unfold AllowKey. fold (set_key key).
  unfold mbind at 1, M_bind at 1, now. cbv beta iota. unfold mbind at 1, M_bind at 1.
  unfold partitionForKey. unfold mbind at 1, M_bind at 1. rewrite cleanup_run.
  cbn [st next_tick with_st clk wall tick]. fold t. fold rl.
  unfold mbind at 1, M_bind at 1, get. cbn [st with_st]. rewrite Hp.
  unfold mbind at 1, M_bind at 1. rewrite (deref_run p e) by exact He.
  unfold mbind, M_bind, store, modify, mret, M_ret. cbn [st with_st].
  rewrite (allow_entry_run p (mkEntry (limiter e) t)) by apply lookup_insert_eq.
  unfold touched, spec_touch. cbn [limiter lastSeen fst snd].
  cbn [st with_st next_tick clk wall tick set_heap heap]. now rewrite insert_insert_eq.
Qed.

(** [AllowKey] on an unseen key with room in the map. *)
Lemma AllowKey_new key c :
  let t := clk c (tick c) in
  let rl := cleaned t (st c) in
  let e := mkEntry (mkRateLimiter (f64_of_Z (burst rl)) (f64_of_Z (burst rl)) (f64_of_Z (requests rl))
    (clk c (S (tick c)))) t in
  partitions rl !! set_key key = None -> Z.of_nat (size (partitions rl)) < maxPartitions rl ->
  AllowKey key c =
    (Ret (spec_touch t e (clk c (S (S (tick c))))).1,
     with_st (next_tick (next_tick (next_tick c)))
       (alloc_key (set_key key) (spec_touch t e (clk c (S (S (tick c))))).2 rl)).
Proof.
  intros t rl e Hp Hs. unfold AllowKey. fold (set_key key).
  unfold mbind at 1, M_bind at 1, now. cbv beta iota. unfold mbind at 1, M_bind at 1.
  unfold partitionForKey. unfold mbind at 1, M_bind at 1. rewrite cleanup_run.
  cbn [st next_tick with_st clk wall tick]. fold t. fold rl.
  unfold mbind at 1, M_bind at 1, get. cbn [st with_st]. rewrite Hp. apply Z.ltb_lt in Hs. rewrite Hs.
  unfold newPartitionEntry, NewRateLimiter, mbind, M_bind, now, mret, M_ret, alloc, state, modify.
  cbn [st with_st next_tick clk wall tick]. fold e.
  rewrite (allow_entry_run (nextPtr rl) e) by apply lookup_insert_eq.
  unfold touched, spec_touch. cbn [limiter lastSeen fst snd].
  cbn [st with_st next_tick clk wall tick set_heap set_partitions heap partitions]. 
  unfold alloc_key, set_heap, set_partitions. cbn. now rewrite insert_insert_eq.
Qed.

(** [AllowKey] on an unseen key with the map at capacity. *)
Lemma AllowKey_overflow key e c :
  let t := clk c (tick c) in
  let rl := cleaned t (st c) in
  partitions rl !! set_key key = None -> maxPartitions rl <= Z.of_nat (size (partitions rl)) ->
  heap rl !! overflow rl = Some e ->
  AllowKey key c =
    (Ret (spec_touch t e (clk c (S (tick c)))).1,
     with_st (next_tick (next_tick c)) (touched (overflow rl) t e (clk c (S (tick c))) rl)).
Proof.
  intros t rl Hp Hs He. unfold AllowKey. fold (set_key key).
  unfold mbind at 1, M_bind at 1, now. cbv beta iota. unfold mbind at 1, M_bind at 1.
  unfold partitionForKey. unfold mbind at 1, M_bind at 1. rewrite cleanup_run.
  cbn [st next_tick with_st clk wall tick]. fold t. fold rl.
  unfold mbind at 1, M_bind at 1, get. cbn [st with_st]. rewrite Hp. apply Z.ltb_ge in Hs. rewrite Hs.
  unfold mbind at 1, M_bind at 1. rewrite (deref_run (overflow rl) e) by exact He.
  unfold mbind, M_bind, store, modify, mret, M_ret. cbn [st with_st].
  rewrite (allow_entry_run (overflow rl) (mkEntry (limiter e) t)) by apply lookup_insert_eq.
  unfold touched, spec_touch. cbn [limiter lastSeen fst snd].
  cbn [st with_st next_tick clk wall tick set_heap heap]. now rewrite insert_insert_eq.
Qed.

Lemma touched_simulates key p t e t2 rl ps :
  simulates rl ps -> partitions rl !! key = Some p -> heap rl !! p = Some e ->
  simulates (touched p t e t2 rl)
    (mkPState (<[key := (spec_touch t e t2).2]> (sp_entries ps)) (sp_overflow ps) (sp_nextCleanup ps)).
Proof.
  intros [Hok He Ho Hc] Hp Hh. unfold touched. split; cbn [sp_entries sp_overflow sp_nextCleanup].
  - apply store_ok; [exact Hok | eauto].
  - rewrite (abs_store rl key) by assumption. now rewrite He.
  - cbn [set_heap heap overflow]. rewrite lookup_insert_ne; [exact Ho |].
    apply (ok_ptrs _ Hok key p Hp).
  - exact Hc.
Qed.

Lemma overflow_simulates t e t2 rl ps :
  simulates rl ps -> heap rl !! overflow rl = Some e ->
  simulates (touched (overflow rl) t e t2 rl)
    (mkPState (sp_entries ps) (spec_touch t e t2).2 (sp_nextCleanup ps)).
Proof.
  intros [Hok He Ho Hc] Hh. unfold touched. split; cbn [sp_entries sp_overflow sp_nextCleanup].
  - apply store_ok; [exact Hok | eauto].
  - rewrite abs_store_overflow by assumption. exact He.
  - apply lookup_insert_eq.
  - exact Hc.
Qed.

Lemma alloc_simulates key e rl ps :
  simulates rl ps -> partitions rl !! key = None -> Z.of_nat (size (partitions rl)) < maxPartitions rl ->
  simulates (alloc_key key e rl)
    (mkPState (<[key := e]> (sp_entries ps)) (sp_overflow ps) (sp_nextCleanup ps)).
Proof.
  intros [Hok He Ho Hc] Hp Hs. split; cbn [sp_entries sp_overflow sp_nextCleanup].
  - apply alloc_key_ok; eauto.
  - rewrite abs_alloc_key by assumption. now rewrite He.
  - cbn [alloc_key heap overflow]. rewrite lookup_insert_ne; [exact Ho |].
    intros E. pose proof (alloc_fresh rl Hok) as Hf. rewrite E in Hf. congruence.
  - exact Hc.
Qed.

Lemma AllowKey_refines key (c : Clocked PartitionedRateLimiter) ps :
  simulates (st c) ps ->
  exists b n rl ps',
    AllowKey key c = (Ret b, mkClocked (clk c) (wall c) n rl) /\
    spec_allow_key (settings_of (st c)) key (with_st c ps) = (Ret b, mkClocked (clk c) (wall c) n ps') /\
    simulates rl ps' /\ settings_of rl = settings_of (st c) /\ (tick c < n)%nat.
Proof.
  intros Hsim. set (t := clk c (tick c)).
  pose proof (cleaned_simulates t _ _ Hsim) as Hcs. pose proof (cleaned_settings t (st c)) as Hset.
  set (rl := cleaned t (st c)) in *. set (s := settings_of (st c)) in *.
  assert (spec_allow_key s key (with_st c ps) =
    spec_allow s (set_key key) (with_st c ps)) as Es by reflexivity.
  pose proof Hcs as [Hok He Ho Hc].
  unfold spec_allow, now, modify, get, put, mbind, M_bind, mret, M_ret in Es.
  cbn [st with_st next_tick clk wall tick] in Es. fold t in Es.
  destruct (sp_entries (spec_cleanup s t ps) !! set_key key) as [e |] eqn:Ek.
  - rewrite He, abs_lookup in Ek. apply bind_Some in Ek as (p & Hp & Hh).
    rewrite (AllowKey_known key p e c Hp Hh), Es.
    pose proof (touched_simulates (set_key key) p t e (clk c (S (tick c))) rl _ Hcs Hp Hh) as H.
    fold t rl.
    do 4 eexists. split; [reflexivity |]. split; [reflexivity |]. split; [exact H |]. split; [exact Hset | cbn; lia].
  - rewrite He, abs_lookup in Ek.
    assert (partitions rl !! set_key key = None) as Hp.
    { apply bind_None in Ek as [Hn | (p & Hp & Hh)]; [exact Hn |].
      destruct (ok_ptrs _ Hok _ _ Hp) as [[? Hs] _]. congruence. }
    rewrite He, abs_size in Es by assumption.
    assert (set_max s = maxPartitions rl /\ set_burst s = burst rl /\ set_rps s = requests rl) as (Em & Eb & Er)
      by (rewrite <- Hset; auto).
    rewrite Em in Es. destruct (Z.of_nat (size (partitions rl)) <? maxPartitions rl) eqn:Hsz.
    + apply Z.ltb_lt in Hsz. rewrite (AllowKey_new key c Hp Hsz), Es.
      unfold newPartitionEntry, NewRateLimiter, mbind, M_bind, now, mret, M_ret.
      cbn [st with_st next_tick clk wall tick]. rewrite Eb, Er. fold t rl.
      set (e := mkEntry _ t).
      pose proof (alloc_simulates (set_key key) (spec_touch t e (clk c (S (S (tick c))))).2 rl _ Hcs Hp Hsz) as H.
      do 4 eexists. split; [reflexivity |]. split; [reflexivity |]. split; [rewrite He in *; exact H |].
      split; [exact Hset | cbn; lia].
    + apply Z.ltb_ge in Hsz. rewrite (AllowKey_overflow key _ c Hp Hsz Ho), Es. fold t rl.
      pose proof (overflow_simulates t (sp_overflow (spec_cleanup s t ps)) (clk c (S (tick c))) rl _ Hcs Ho) as H.
      do 4 eexists. split; [reflexivity |]. split; [reflexivity |]. split; [rewrite He in *; exact H |].
      split; [exact Hset | cbn; lia].
Qed.

(** ** Runs from the constructor *)

Definition fresh_keys (cfg : PartitionedRateLimiterConfig) (keys : list string) (c : Clocked unit) :
    outcome (list bool) * Clocked (option PartitionedRateLimiter) :=
  match NewPartitionedRateLimiterWithConfig cfg c with
  | (Ret rl, c') =>
      let '(o, c'') := allow_keys keys (with_st c' rl) in (o, with_st c'' (Some (st c'')))
  | (Panic v, c') => (Panic v, with_st c' None)
  end.

(** The specification, started at the same instants. *)
Definition cfg_settings (cfg : PartitionedRateLimiterConfig) : settings :=
  let cfg := normalizePartitionedRateLimiterConfig cfg in
  mkSettings (cfgRequestsPerSecond cfg) (cfgBurst cfg) (cfgEntryTTL cfg) (cfgMaxPartitions cfg)
    (cfgCleanupInterval cfg).

Definition spec_new (s : settings) {T} : M T pstate :=
  t ← now;
  ov ← newPartitionEntry (set_rps s) (set_burst s) t;
  mret (mkPState ∅ ov (t + set_interval s)).

Definition spec_fresh_keys (cfg : PartitionedRateLimiterConfig) (keys : list string) (c : Clocked unit) :
    outcome (list bool) * Clocked (option pstate) :=
  match spec_new (cfg_settings cfg) c with
  | (Ret ps, c') =>
      let '(o, c'') := spec_allow_keys (cfg_settings cfg) keys (with_st c' ps) in (o, with_st c'' (Some (st c'')))
  | (Panic v, c') => (Panic v, with_st c' None)
  end.

Lemma normalize_max_pos cfg : 0 < cfgMaxPartitions (normalizePartitionedRateLimiterConfig cfg).
Proof. cbn. destruct (Z.leb_spec (cfgMaxPartitions cfg) 0); unfold defaultPartitionMaxEntries; lia. Qed.

Lemma new_simulates {T} cfg (c : Clocked T) : exists rl ps,
  NewPartitionedRateLimiterWithConfig cfg c = (Ret rl, next_tick (next_tick c)) /\
  spec_new (cfg_settings cfg) c = (Ret ps, next_tick (next_tick c)) /\
  simulates rl ps /\ settings_of rl = cfg_settings cfg.
Proof.
  do 2 eexists. split; [reflexivity |]. split; [reflexivity |]. split; [| reflexivity].
  split; cbn [sp_entries sp_overflow sp_nextCleanup nextCleanup overflow heap].
  - split; cbn [partitions heap overflow nextPtr maxPartitions].
    + intros k p H. now rewrite lookup_empty in H.
    + intros k k' p H. now rewrite lookup_empty in H.
    + intros p [e He]. apply lookup_singleton_Some in He as [<- _]. lia.
    + rewrite map_size_empty. pose proof (normalize_max_pos cfg). lia.
  - symmetry. apply map_eq. intros k. rewrite abs_lookup. cbn [partitions]. now rewrite !lookup_empty.
  - apply lookup_singleton_eq.
  - reflexivity.
Qed.

Lemma allow_keys_refines keys (c : Clocked PartitionedRateLimiter) ps s :
  simulates (st c) ps -> settings_of (st c) = s ->
  exists bs n rl ps',
    allow_keys keys c = (Ret bs, mkClocked (clk c) (wall c) n rl) /\
    spec_allow_keys s keys (with_st c ps) = (Ret bs, mkClocked (clk c) (wall c) n ps') /\
    simulates rl ps' /\ settings_of rl = s.
Proof.
  revert c ps. induction keys as [| k ks IH]; intros c ps Hsim Hs.
  - destruct c as [ck w n rl]. do 4 eexists. split; [reflexivity |]. split; [reflexivity |]. split; [exact Hsim | exact Hs].
  - destruct (AllowKey_refines k c ps Hsim) as (b & n & rl & ps1 & E1 & E2 & Hsim1 & Hs1 & _).
    rewrite Hs in *. destruct (IH (mkClocked (clk c) (wall c) n rl) ps1 Hsim1 Hs1)
      as (bs & n' & rl' & ps' & F1 & F2 & Hsim' & Hs').
    exists (b :: bs), n', rl', ps'. cbn [clk wall] in *. cbn [allow_keys spec_allow_keys].
    unfold mbind, M_bind. rewrite E1, E2, F1.
    change (mkClocked (clk c) (wall c) n ps1) with (with_st (mkClocked (clk c) (wall c) n rl) ps1).
    rewrite F2. auto.
Qed.

Lemma fresh_refines_spec cfg keys c : exists bs n rl ps,
  fresh_keys cfg keys c = (Ret bs, mkClocked (clk c) (wall c) n (Some rl)) /\
  spec_fresh_keys cfg keys c = (Ret bs, mkClocked (clk c) (wall c) n (Some ps)) /\
  simulates rl ps /\ settings_of rl = cfg_settings cfg.
Proof.
  destruct (new_simulates cfg c) as (rl & ps & E1 & E2 & Hsim & Hs).
  unfold fresh_keys, spec_fresh_keys. rewrite E1, E2.
  destruct (allow_keys_refines keys (with_st (next_tick (next_tick c)) rl) ps _ Hsim Hs)
    as (bs & n & rl' & ps' & F1 & F2 & Hsim' & Hs').
  change (with_st (next_tick (next_tick c)) ps) with (with_st (with_st (next_tick (next_tick c)) rl) ps).
  rewrite F1, F2. do 4 eexists. eauto.
Qed.

(** ** Buckets stay within their burst *)

(** Every bucket of the map, and the overflow bucket, is within its bounds
    and was last refilled at or before the instant [t]. *)
Definition entry_ok (s : settings) (t : Z) (e : partitionEntry) : Prop :=
  bucket_ok (limiter e) /\ lastRefill (limiter e) <= t /\ maxTokens (limiter e) = f64_of_Z (set_burst s) /\
  refillRate (limiter e) = f64_of_Z (set_rps s).

Definition pstate_ok (s : settings) (t : Z) (ps : pstate) : Prop :=
  (forall k e, sp_entries ps !! k = Some e -> entry_ok s t e) /\ entry_ok s t (sp_overflow ps).

Lemma entry_ok_mono s t t' e : t <= t' -> entry_ok s t e -> entry_ok s t' e.
Proof. intros Ht (H1 & H2 & H3). split; [exact H1 |]. split; [lia | exact H3]. Qed.

Lemma spec_touch_ok s t e t2 : entry_ok s t2 e -> entry_ok s t2 (spec_touch t e t2).2.
Proof.
  intros (H1 & H2 & H3 & H4). unfold spec_touch. cbn [snd]. unfold entry_ok. cbn [limiter].
  split; [now apply allow_ok |]. split; [rewrite allow_last; lia |].
  rewrite <- H3, <- H4. apply allow_config.
Qed.

Lemma spec_cleanup_ok s0 t u s ps : pstate_ok s0 t ps -> pstate_ok s0 t (spec_cleanup s u ps).
Proof.
  intros [H1 H2]. unfold spec_cleanup. destruct (u <? sp_nextCleanup ps); [now split |].
  split; [| exact H2]. cbn. intros k e [Hk _]%map_lookup_filter_Some. eauto.
Qed.

Definition good_settings (s : settings) : Prop :=
  0 <= set_rps s <= int64_max /\ 0 <= set_burst s <= 2 ^ 53.

Lemma new_entry_ok s t t1 t2 : good_settings s -> t1 <= t2 ->
  entry_ok s t2
    (mkEntry (mkRateLimiter (f64_of_Z (set_burst s)) (f64_of_Z (set_burst s)) (f64_of_Z (set_rps s)) t1) t).
Proof.
  intros [Hr Hb] Ht. split; [now apply new_bucket_ok |]. split; [exact Ht | now split].
Qed.

Lemma spec_allow_ok s key (c : Clocked pstate) : good_settings s -> monotone (clk c) ->
  pstate_ok s (clk c (tick c)) (st c) ->
  forall o c', spec_allow s key c = (o, c') ->
  clk c' = clk c /\ pstate_ok s (clk c (tick c')) (st c').
Proof.
  intros Hs Hm Hok o c'. unfold spec_allow, now, modify, get, put, mbind, M_bind, mret, M_ret.
  cbn [st with_st next_tick clk wall tick]. set (t := clk c (tick c)) in *.
  assert (forall n, (tick c <= n)%nat -> pstate_ok s (clk c n) (spec_cleanup s t (st c))) as Hmono.
  { intros n Hn. apply spec_cleanup_ok. destruct Hok as [H1 H2].
    split; [intros k e Hk |]; (eapply entry_ok_mono; [apply Hm; exact Hn |]); eauto. }
  destruct (sp_entries (spec_cleanup s t (st c)) !! key) as [e |] eqn:Ek;
    [| destruct (_ <? _)].
  - intros [= <- <-]. cbn [clk st tick with_st next_tick]. split; [reflexivity |].
    destruct (Hmono (S (tick c))) as [H1 _]; [lia |]. destruct (Hmono (S (S (tick c)))) as [H1' H2]; [lia |].
    split; cbn [sp_entries sp_overflow]; [| exact H2].
    intros k e' [[-> <-] | [Hne He']]%lookup_insert_Some; [| eauto].
    eapply entry_ok_mono; [| apply spec_touch_ok; eauto]. apply Hm. lia.
  - unfold newPartitionEntry, NewRateLimiter, now, mbind, M_bind, mret, M_ret.
    cbn [st with_st next_tick clk wall tick].
    intros [= <- <-]. cbn [clk st tick with_st next_tick]. split; [reflexivity |].
    destruct (Hmono (S (S (S (tick c))))) as [H1 H2]; [lia |].
    split; cbn [sp_entries sp_overflow]; [| exact H2].
    intros k e' [[-> <-] | [Hne He']]%lookup_insert_Some; [| eauto].
    eapply entry_ok_mono; [| exact (spec_touch_ok _ t _ _
      (new_entry_ok s t (clk c (S (tick c))) (clk c (S (S (tick c)))) Hs (Hm _ _ (Nat.le_succ_diag_r _))))].
    apply Hm. lia.
  - intros [= <- <-]. cbn [clk st tick with_st next_tick]. split; [reflexivity |].
    destruct (Hmono (S (tick c))) as [_ H2]; [lia |]. destruct (Hmono (S (S (tick c)))) as [H1 _]; [lia |].
    split; cbn [sp_entries sp_overflow]; [exact H1 |].
    eapply entry_ok_mono; [| apply spec_touch_ok; exact H2]. apply Hm. lia.
Qed.

Lemma spec_allow_keys_ok s keys (c : Clocked pstate) : good_settings s -> monotone (clk c) ->
  pstate_ok s (clk c (tick c)) (st c) ->
  forall o c', spec_allow_keys s keys c = (o, c') ->
  exists t, pstate_ok s t (st c').
Proof.
  intros Hs. revert c. induction keys as [| k ks IH]; intros c Hm Hok o c'.
  - intros [= <- <-]. eauto.
  - cbn [spec_allow_keys]. unfold mbind, M_bind, mret, M_ret.
    destruct (spec_allow_key s k c) as [[b | v] c1] eqn:E1.
    + destruct (spec_allow_ok s (set_key k) c Hs Hm Hok _ _ E1) as [Ec Hok1]. rewrite <- Ec in Hok1, Hm.
      destruct (spec_allow_keys s ks c1) as [[bs | v] c2] eqn:E2;
        intros [= <- <-]; exact (IH c1 Hm Hok1 _ _ E2).
    + destruct (spec_allow_ok s (set_key k) c Hs Hm Hok _ _ E1) as [Ec Hok1]. intros [= <- <-]. eauto.
Qed.

(** A bucket of the configuration: it has the configured size and rate, and
    between 0 and [cfgBurst] tokens ([fnum] counts a float in units of
    2^-1074). *)
Definition configured_bucket (cfg : PartitionedRateLimiterConfig) (rl : RateLimiter) : Prop :=
  let cfg := normalizePartitionedRateLimiterConfig cfg in
  bucket_ok rl /\ maxTokens rl = f64_of_Z (cfgBurst cfg) /\ refillRate rl = f64_of_Z (cfgRequestsPerSecond cfg) /\
  0 <= fnum (tokens rl) <= cfgBurst cfg * 2 ^ 1074.

Lemma entry_configured cfg t e : good_settings (cfg_settings cfg) -> entry_ok (cfg_settings cfg) t e ->
  configured_bucket cfg (limiter e).
Proof.
  intros [Hr Hb] (Hok & _ & Hmax & Hrate). split; [exact Hok |]. split; [exact Hmax |]. split; [exact Hrate |].
  destruct Hok as [_ [_ [H0 _]] Hle _]. split; [exact H0 |]. rewrite Hmax in Hle.
  destruct (holds_of_Z (set_burst (cfg_settings cfg))) as [_ E]; [lia |]. rewrite E in Hle. exact Hle.
Qed.

(** ** The configuration *)

Definition config_ok (cfg : PartitionedRateLimiterConfig) : Prop :=
  0 < cfgRequestsPerSecond cfg /\ 0 < cfgBurst cfg /\ 0 < cfgEntryTTL cfg /\ 0 < cfgMaxPartitions cfg /\
  0 < cfgCleanupInterval cfg <= cfgEntryTTL cfg.

Lemma default_pos x d : 0 < d -> 0 < (if x <=? 0 then d else x).
Proof. intros. destruct (Z.leb_spec x 0); lia. Qed.

Lemma cap_pos x ttl : 0 < ttl -> 0 < x -> 0 < (if ttl <? x then ttl else x) <= ttl.
Proof. intros. destruct (Z.ltb_spec ttl x); lia. Qed.

Lemma normalize_config_ok cfg : config_ok (normalizePartitionedRateLimiterConfig cfg).
Proof.
  unfold config_ok, normalizePartitionedRateLimiterConfig.
  cbn [cfgRequestsPerSecond cfgBurst cfgEntryTTL cfgMaxPartitions cfgCleanupInterval].
  do 2 (split; [apply default_pos; lia |]).
  pose proof (default_pos (cfgEntryTTL cfg) defaultPartitionEntryTTL eq_refl) as Ht.
  set (ttl := if cfgEntryTTL cfg <=? 0 then _ else _) in *. clearbody ttl.
  split; [exact Ht |]. split; [apply default_pos; reflexivity |].
  set (ci := if cfgCleanupInterval cfg <=? 0 then _ else _).
  assert (0 < ci) as Hci by (apply default_pos, cap_pos; [exact Ht | reflexivity]). clearbody ci.
  pose proof (cap_pos ci ttl Ht Hci) as Hcap.
  set (ci' := if ttl <? ci then ttl else ci) in *. clearbody ci'.
  destruct (Z.leb_spec ci' 0); lia.
Qed.

Lemma normalize_fixed cfg : config_ok cfg -> normalizePartitionedRateLimiterConfig cfg = cfg.
Proof.
  destruct cfg as [r b ttl m ci]. unfold config_ok, normalizePartitionedRateLimiterConfig.
  cbn [cfgRequestsPerSecond cfgBurst cfgEntryTTL cfgMaxPartitions cfgCleanupInterval].
  intros (H1 & H2 & H3 & H4 & H5 & H6).
  apply Z.leb_gt in H1 as ->, H2 as ->, H3 as ->, H4 as ->.
  pose proof H5 as H5'. apply Z.leb_gt in H5' as ->. apply Z.ltb_ge in H6 as ->.
  now apply Z.leb_gt in H5 as ->.
Qed.

(** ** Theorems *)

(** C3. From the same configuration, for any calls at any instants, the
    limiter with its pointers gives the answers of the map of buckets, and
    ends in a state that represents the map. *)
Theorem partitioned_refines cfg keys (c : Clocked unit) :
  (fresh_keys cfg keys c).1 = (spec_fresh_keys cfg keys c).1 /\
  exists rl ps, st (fresh_keys cfg keys c).2 = Some rl /\ st (spec_fresh_keys cfg keys c).2 = Some ps /\
    abs_entries rl = sp_entries ps /\ heap rl !! overflow rl = Some (sp_overflow ps).
Proof.
  destruct (fresh_refines_spec cfg keys c) as (bs & n & rl & ps & -> & -> & Hsim & _).
  split; [reflexivity |]. exists rl, ps. cbn. destruct Hsim. auto.
Qed.

(** C13. Whatever the configuration and the calls, nothing panics, and the
    number of partitions is at most the normalised bound; on a clock that
    never runs backwards every bucket, the overflow bucket included, has the
    configured burst as its size and the configured rate, and holds between 0
    and burst tokens. *)
Theorem partitioned_safe cfg keys (c : Clocked unit) :
  exists bs rl, (fresh_keys cfg keys c).1 = Ret bs /\ st (fresh_keys cfg keys c).2 = Some rl /\
    Z.of_nat (size (partitions rl)) <= cfgMaxPartitions (normalizePartitionedRateLimiterConfig cfg) /\
    (monotone (clk c) -> good_settings (cfg_settings cfg) ->
      (forall k e, abs_entries rl !! k = Some e -> configured_bucket cfg (limiter e)) /\
      (forall e, heap rl !! overflow rl = Some e -> configured_bucket cfg (limiter e))).
Proof.
  destruct (fresh_refines_spec cfg keys c) as (bs & n & rl & ps & E & E2 & [Hok He Ho Hc] & Hset).
  exists bs, rl. rewrite E. cbn. split; [reflexivity |]. split; [reflexivity |]. split.
  { pose proof (ok_size _ Hok) as Hs. change (maxPartitions rl) with (set_max (settings_of rl)) in Hs.
    rewrite Hset in Hs. exact Hs. }
  intros Hm Hg. unfold spec_fresh_keys in E2.
  destruct (new_simulates cfg c) as (rl0 & ps0 & _ & En & _ & _). rewrite En in E2.
  destruct (spec_allow_keys _ keys _) as [o c''] eqn:Ek. injection E2 as -> Ec Ew Et Est. rewrite <- Est in *. clear Est Ew Et Ec.
  assert (exists t, pstate_ok (cfg_settings cfg) t (st c'')) as (t & Hents & Hover).
  { refine (spec_allow_keys_ok _ keys (with_st (next_tick (next_tick c)) ps0) Hg Hm _ _ _ Ek).
    unfold spec_new, newPartitionEntry, NewRateLimiter, now, mbind, M_bind, mret, M_ret in En.
    cbn [st with_st next_tick clk wall tick] in En. injection En as <-.
    split; cbn [sp_entries sp_overflow st with_st]; [intros k e H; now rewrite lookup_empty in H |].
    apply new_entry_ok; [exact Hg |]. apply Hm. cbn. lia. }
  rewrite <- He. split.
  - intros k e Hk. exact (entry_configured cfg t e Hg (Hents k e Hk)).
  - intros e Hov. rewrite Ho in Hov. injection Hov as <-. exact (entry_configured cfg t _ Hg Hover).
Qed.

(** A call for one key leaves the bucket of every other tracked key as
    it was, unless the cleanup was due and that key was stale. *)
Theorem partitioned_isolation key key' (c : Clocked PartitionedRateLimiter) ps :
  simulates (st c) ps -> key' <> set_key key ->
  let t := clk c (tick c) in
  abs_entries (st (AllowKey key c).2) !! key' =
    (e ← abs_entries (st c) !! key';
     if negb (t <? nextCleanup (st c)) && (entryTTL (st c) <=? time_sub t (lastSeen e)) then None else Some e).
Proof.
  intros Hsim Hne t. destruct (AllowKey_refines key c ps Hsim) as (b & n & rl & ps' & E1 & E2 & Hsim' & _ & _).
  rewrite E1. cbn [snd st]. rewrite <- (sim_entries _ _ Hsim').
  assert (sp_entries ps' !! key' = sp_entries (spec_cleanup (settings_of (st c)) t ps) !! key') as ->.
  { unfold spec_allow_key in E2. fold (set_key key) in E2.
    unfold spec_allow, newPartitionEntry, NewRateLimiter, now, modify, get, put, mbind, M_bind, mret, M_ret in E2.
    cbn [st with_st next_tick clk wall tick] in E2. fold t in E2.
    destruct (sp_entries (spec_cleanup (settings_of (st c)) t ps) !! set_key key) as [e |];
      [| destruct (_ <? _)]; injection E2 as _ _ <-; cbn [sp_entries];
      rewrite ?lookup_insert_ne by congruence; reflexivity. }
  unfold spec_cleanup. rewrite (sim_cleanup _ _ Hsim). destruct (t <? nextCleanup (st c)); cbn [negb andb].
  - rewrite (sim_entries _ _ Hsim). now destruct (abs_entries (st c) !! key').
  - cbn [sp_entries set_ttl settings_of]. rewrite (sim_entries _ _ Hsim). apply option_eq. intros e.
    rewrite map_lookup_filter_Some, bind_Some. split.
    + intros [He Hl]. exists e. split; [exact He |]. now rewrite (proj2 (Z.leb_gt _ _) Hl).
    + intros (e' & He & Hl). destruct (Z.leb_spec (entryTTL (st c)) (time_sub t (lastSeen e'))); [discriminate |].
      injection Hl as <-. auto.
Qed.

(** When the map is full after the cleanup, every unseen key is answered
    from the one overflow bucket, and the map does not change: two unseen
    keys are not told apart. *)
Theorem overflow_shared key1 key2 (c : Clocked PartitionedRateLimiter) ps :
  simulates (st c) ps ->
  let rl := cleaned (clk c (tick c)) (st c) in
  maxPartitions rl <= Z.of_nat (size (partitions rl)) ->
  partitions rl !! set_key key1 = None -> partitions rl !! set_key key2 = None ->
  AllowKey key1 c = AllowKey key2 c /\ partitions (st (AllowKey key1 c).2) = partitions rl.
Proof.
  intros Hsim rl Hfull H1 H2.
  pose proof (sim_overflow _ _ (cleaned_simulates (clk c (tick c)) _ _ Hsim)) as Ho.
  rewrite (AllowKey_overflow key1 _ c H1 Hfull Ho), (AllowKey_overflow key2 _ c H2 Hfull Ho).
  split; reflexivity.
Qed.

(** Cleanup keeps a key exactly when its entry was seen less than the
    TTL ago, whatever order the iteration over the Go map takes. *)
Theorem cleanup_exact t ttl h (ps : gmap string ptr) l k p :
  l ≡ₚ map_to_list ps -> is_Some (h !! p) ->
  cleanup_loop t ttl h l ps !! k = Some p <->
  ps !! k = Some p /\ exists e, h !! p = Some e /\ time_sub t (lastSeen e) < ttl.
Proof.
  intros Hl [e He]. rewrite (cleanup_loop_filter t ttl h l ps Hl), map_lookup_filter_Some.
  unfold live, is_stale. cbn [snd]. rewrite He. split.
  - intros [Hk Hs]. split; [exact Hk |]. exists e. split; [reflexivity |]. now apply Z.leb_gt.
  - intros [Hk (e' & [= <-] & Hs)]. split; [exact Hk |]. now apply Z.leb_gt.
Qed.

(** A normalised configuration has positive limits and a cleanup
    interval of at most the TTL, a configuration that already has them is
    kept, and normalising twice is normalising once. *)
Theorem normalize_ok cfg :
  let cfg' := normalizePartitionedRateLimiterConfig cfg in
  config_ok cfg' /\ normalizePartitionedRateLimiterConfig cfg' = cfg' /\ (config_ok cfg -> cfg' = cfg).
Proof.
  cbn zeta. split; [apply normalize_config_ok |]. split; [| apply normalize_fixed].
  apply normalize_fixed, normalize_config_ok.
Qed.

(** ** Witnesses *)

(** Room for one key, ["a"], which is then tracked. *)
Definition demo_cfg : PartitionedRateLimiterConfig := mkPConfig 1 1 (10 * Second) 1 0.
Definition demo_clock : Clocked unit := mkClocked (fun i => Z.of_nat i) (fun _ => 0) 0 tt.
Definition demo_state : option PartitionedRateLimiter := st (fresh_keys demo_cfg ["a"] demo_clock).2.
Definition demo_call (rl : PartitionedRateLimiter) : Clocked PartitionedRateLimiter :=
  mkClocked (fun i => Z.of_nat i) (fun _ => 0) 10 rl.

Lemma demo_simulates : exists rl ps, demo_state = Some rl /\ simulates rl ps.
Proof.
  destruct (fresh_refines_spec demo_cfg ["a"] demo_clock) as (bs & n & rl & ps & E & _ & Hsim & _).
  exists rl, ps. unfold demo_state. rewrite E. split; [reflexivity | exact Hsim].
Qed.

Lemma partitioned_safe_witness : exists bs rl,
  (fresh_keys demo_cfg ["a"; "b"; "a"] demo_clock).1 = Ret bs /\
  st (fresh_keys demo_cfg ["a"; "b"; "a"] demo_clock).2 = Some rl /\ bs = [true; true; false] /\
  (forall k e, abs_entries rl !! k = Some e -> configured_bucket demo_cfg (limiter e)).
Proof.
  destruct (partitioned_safe demo_cfg ["a"; "b"; "a"] demo_clock) as (bs & rl & E & Es & _ & H).
  exists bs, rl. split; [exact E |]. split; [exact Es |]. split.
  - vm_compute in E. congruence.
  - apply H; [intros i j Hij; cbn; lia | vm_compute; repeat split; discriminate].
Defined.

Lemma partitioned_isolation_witness : exists rl,
  demo_state = Some rl /\
  abs_entries (st (AllowKey "b" (demo_call rl)).2) !! "a" = abs_entries rl !! "a" /\
  is_Some (abs_entries rl !! "a").
Proof.
  destruct demo_simulates as (rl & ps & E & Hsim). exists rl. split; [exact E |].
  rewrite (partitioned_isolation "b" "a" (demo_call rl) ps Hsim) by discriminate.
  vm_compute in E. injection E as <-. split; [vm_compute; reflexivity |]. eexists. vm_compute. reflexivity.
Defined.

Lemma overflow_shared_witness : exists rl, demo_state = Some rl /\
  AllowKey "b" (demo_call rl) = AllowKey "c" (demo_call rl).
Proof.
  destruct demo_simulates as (rl & ps & E & Hsim). exists rl. split; [exact E |].
  apply (overflow_shared "b" "c" (demo_call rl) ps Hsim);
    vm_compute in E; injection E as <-; vm_compute; congruence.
Defined.

Lemma cleanup_exact_witness :
  cleanup_loop 100 50 {[ 0%nat := mkEntry (mkRateLimiter f64_one f64_one f64_one 0) 60 ]}
    [("a", 0%nat)] {[ "a" := 0%nat ]} !! "a" = Some 0%nat.
Proof.
  apply (cleanup_exact 100 50 {[ 0%nat := mkEntry (mkRateLimiter f64_one f64_one f64_one 0) 60 ]}
    {[ "a" := 0%nat ]} [("a", 0%nat)] "a" 0%nat).
  - now rewrite map_to_list_singleton.
  - eexists. apply lookup_singleton_eq.
  - split; [apply lookup_singleton_eq |]. eexists. split; [apply lookup_singleton_eq | vm_compute; reflexivity].
Defined.

Lemma normalize_ok_witness : normalizePartitionedRateLimiterConfig (mkPConfig 2 3 40 5 6) = mkPConfig 2 3 40 5 6.
Proof. apply (normalize_ok (mkPConfig 2 3 40 5 6)). vm_compute. repeat split; discriminate. Defined.
