(* ===== verification/PartitionedConc.v ===== *)
(** * Concurrent calls of the partitioned limiter

    [AllowKey] of [go/middleware/ratelimit_partitioned.go] from any number of
    goroutines.  A call reads the clock before it takes the lock, so the
    instants of the calls reach the map in any order; the critical section
    of [mu] ([partitionForKey]) gives it a pointer, and the test of the
    bucket, under the bucket's own lock, comes later, when the entry may have
    been removed from the map.

    The theorems: in every interleaving the map stays within its bound, no
    call panics, no two keys ever use one bucket beside the overflow bucket,
    and each bucket answers the calls that reach it as a token bucket of its
    own ([buckets_apart]); hence each admits at most the burst and the rate
    times the time passed, up to rounding, and on whole seconds exactly
    ([concurrent_admission]). *)

From stdpp Require Import sorting.
From S2P Require Import Prelude Float64 GoStrings RateLimit Partitioned.

#[local] Open Scope Z_scope.

(** Where a call is: before the clock is read, before the lock of the map,
    with the pointer it was given, or answered. *)
Inductive point : Type :=
| AtClock (key : string)
| AtPartition (key : string) (t : Z)
| AtAllow (key : string) (p : ptr)
| Answered (b : bool).

(** A test of a bucket: which, for which key, when (the number of the
    reading of the clock, and the instant read), and the answer. *)
Record use : Type := mkUse { u_ptr : ptr; u_key : string; u_reading : nat; u_time : Z; u_answer : bool }.

(** [uses] is the history, for the statements. *)
Record pconc : Type := mkPConc { shared : Clocked PartitionedRateLimiter; calls : list point; uses : list use }.

Definition goes (t : nat) (p : point) (c : Clocked PartitionedRateLimiter) (s : pconc) : pconc :=
  mkPConc c (<[t := p]> (calls s)) (uses s).

Definition call_step (t : nat) (s : pconc) : option pconc :=
  match calls s !! t with
  | Some (AtClock key) =>
      match now (shared s) with
      | (Ret n, c) => Some (goes t (AtPartition key n) c s)
      | (Panic _, _) => None
      end
  | Some (AtPartition key n) =>
      match partitionForKey n key (shared s) with
      | (Ret p, c) => Some (goes t (AtAllow key p) c s)
      | (Panic _, _) => None
      end
  | Some (AtAllow key p) =>
      match allow_entry p (shared s) with
      | (Ret b, c) => Some (mkPConc c (<[t := Answered b]> (calls s))
          (uses s ++ [mkUse p key (tick (shared s)) (clk (shared s) (tick (shared s))) b]))
      | (Panic _, _) => None
      end
  | Some (Answered _) | None => None
  end.

Definition begin_call (key : string) (s : pconc) : pconc :=
  mkPConc (shared s) (calls s ++ [AtClock (set_key key)]) (uses s).

Inductive step (s s' : pconc) : Prop :=
| step_call t : call_step t s = Some s' -> step s s'
| step_begin key : s' = begin_call key s -> step s s'.

(** ** One call alone *)

Fixpoint run_call (fuel : nat) (s : pconc) : option pconc :=
  match fuel with
  | O => Some s
  | S fuel' => match call_step 0 s with Some s' => run_call fuel' s' | None => Some s end
  end.

(** Without interleaving the steps are [AllowKey]. *)
Lemma one_partitioned_call key (c c' : Clocked PartitionedRateLimiter) b : AllowKey key c = (Ret b, c') ->
  exists us, run_call 3 (mkPConc c [AtClock (set_key key)] []) = Some (mkPConc c' [Answered b] us).
Proof.
  unfold AllowKey. fold (set_key key). rewrite bind_run. unfold now. rewrite bind_run. intros E. cbn [run_call].
  unfold call_step at 1. cbn [calls lookup list_lookup shared now]. unfold goes. cbn [calls list_insert insert uses].
  unfold call_step at 1. cbn [calls lookup list_lookup shared].
  destruct (partitionForKey _ _ _) as [[p | v] c1]; [| discriminate]. unfold goes. cbn [calls list_insert insert uses].
  cbn [call_step calls lookup list_lookup shared]. rewrite E. cbn. eauto.
Qed.

(** ** The critical section *)

Definition fresh_bucket (s : settings) (t : Z) : RateLimiter :=
  mkRateLimiter (f64_of_Z (set_burst s)) (f64_of_Z (set_burst s)) (f64_of_Z (set_rps s)) t.

(** What it gives: the key's pointer, a new one, or the overflow bucket's. *)
Inductive partitioned (t t1 : Z) (key : string) (rl : PartitionedRateLimiter) : ptr -> PartitionedRateLimiter -> Prop :=
| part_known p e : partitions rl !! key = Some p -> heap rl !! p = Some e ->
    partitioned t t1 key rl p (set_heap (<[p := mkEntry (limiter e) t]> (heap rl)) rl)
| part_new : partitions rl !! key = None -> Z.of_nat (size (partitions rl)) < maxPartitions rl ->
    partitioned t t1 key rl (nextPtr rl) (alloc_key key (mkEntry (fresh_bucket (settings_of rl) t1) t) rl)
| part_overflow e : partitions rl !! key = None -> heap rl !! overflow rl = Some e ->
    partitioned t t1 key rl (overflow rl) (set_heap (<[overflow rl := mkEntry (limiter e) t]> (heap rl)) rl).

Lemma partitionForKey_run t key (c : Clocked PartitionedRateLimiter) : prl_ok (st c) -> is_Some (heap (st c) !! overflow (st c)) ->
  exists p c', partitionForKey t key c = (Ret p, c') /\ (clk c' = clk c /\ (tick c <= tick c')%nat) /\
    partitioned t (clk c (tick c)) key (cleaned t (st c)) p (st c').
Proof.
  intros Hok Hov. pose proof (cleaned_ok t _ Hok) as Hok'. set (rl := cleaned t (st c)) in *.
  assert (is_Some (heap rl !! overflow rl)) as [eo Eo] by (unfold rl, cleaned; now destruct (_ <? _)).
  unfold partitionForKey. rewrite bind_run, cleanup_run. fold rl. rewrite bind_run. unfold get at 1. cbn [st with_st].
  destruct (partitions rl !! key) as [p |] eqn:Ep; [| destruct (Z.ltb_spec (Z.of_nat (size (partitions rl))) (maxPartitions rl)) as [Hs | Hs]].
  - destruct (ok_ptrs _ Hok' key p Ep) as [[e Ee] _]. rewrite bind_run, (deref_run p e) by exact Ee.
    eexists p, _. split; [reflexivity |]. split; [split; [reflexivity | cbn; lia] |]. exact (part_known t _ key rl p e Ep Ee).
  - eexists (nextPtr rl), _. split; [reflexivity |]. split; [split; [reflexivity | cbn; lia] |].
    exact (part_new t (clk c (tick c)) key rl Ep Hs).
  - rewrite bind_run, (deref_run (overflow rl) eo) by exact Eo.
    eexists (overflow rl), _. split; [reflexivity |]. split; [split; [reflexivity | cbn; lia] |]. exact (part_overflow t _ key rl eo Ep Eo).
Qed.

(** ** Buckets and their histories *)

(** A bucket that answers the tests of its history: what is left of it. *)
Fixpoint replay (us : list use) (l : RateLimiter) : option RateLimiter :=
  match us with
  | [] => Some l
  | u :: us' => if Bool.eqb (allow_at (u_time u) l).1 (u_answer u) then replay us' (allow_at (u_time u) l).2 else None
  end.

Definition history (p : ptr) (us : list use) : list use := filter (fun u => u_ptr u = p) us.

Lemma replay_snoc us u l l' : replay us l = Some l' -> (allow_at (u_time u) l').1 = u_answer u ->
  replay (us ++ [u]) l = Some (allow_at (u_time u) l').2.
Proof.
  revert l. induction us as [| v us IH]; intros l; cbn [replay app].
  - intros [= ->] Hu. now rewrite Hu, Bool.eqb_reflx.
  - destruct (Bool.eqb _ _); [apply IH | discriminate].
Qed.

Lemma history_snoc p us u : history p (us ++ [u]) = history p us ++ (if decide (u_ptr u = p) then [u] else []).
Proof. unfold history. rewrite filter_app. cbn. now destruct (decide (u_ptr u = p)). Qed.

Lemma history_empty p us : (forall u, u ∈ us -> u_ptr u <> p) -> history p us = [].
Proof. induction us as [| u us IH]; intros Hu; [reflexivity |]. unfold history. rewrite filter_cons, decide_False.
  - apply IH. intros v Hv. apply Hu. now right.
  - apply Hu. left.
Qed.

(** ** The invariant *)

(** A pointer that a call of [key] may hold. *)
Definition serves_key (owner : gmap ptr string) (ov : ptr) (key : string) (p : ptr) : Prop := p = ov \/ owner !! p = Some key.

(** [owner] has the key each pointer was made for. *)
Record pinv (cfg : settings) (ov : ptr) (owner : gmap ptr string) (s : pconc) : Prop := {
  pi_ok : prl_ok (st (shared s));
  pi_settings : settings_of (st (shared s)) = cfg;
  pi_overflow : overflow (st (shared s)) = ov /\ is_Some (heap (st (shared s)) !! ov);
  pi_owned : forall k p, partitions (st (shared s)) !! k = Some p -> owner !! p = Some k;
  pi_range : forall p k, owner !! p = Some k -> (p < nextPtr (st (shared s)))%nat;
  pi_held : forall t key p, calls s !! t = Some (AtAllow key p) ->
    is_Some (heap (st (shared s)) !! p) /\ serves_key owner ov key p;
  pi_used : forall u, u ∈ uses s -> (u_ptr u < nextPtr (st (shared s)))%nat /\ serves_key owner ov (u_key u) (u_ptr u);
  pi_buckets : forall p e, heap (st (shared s)) !! p = Some e -> exists i, (i <= tick (shared s))%nat /\
    replay (history p (uses s)) (fresh_bucket cfg (clk (shared s) i)) = Some (limiter e) /\
    forall u, u ∈ history p (uses s) -> (i <= u_reading u)%nat;
  pi_timed : Forall (fun u => u_time u = clk (shared s) (u_reading u) /\ (u_reading u < tick (shared s))%nat) (uses s);
  pi_sorted : StronglySorted (fun u v => (u_reading u <= u_reading v)%nat) (uses s)
}.

(** The clock goes on. *)
Definition clock_on (c c' : Clocked PartitionedRateLimiter) : Prop := clk c' = clk c /\ (tick c <= tick c')%nat.

Lemma timed_on c c' us : clock_on c c' -> Forall (fun u => u_time u = clk c (u_reading u) /\ (u_reading u < tick c)%nat) us ->
  Forall (fun u => u_time u = clk c' (u_reading u) /\ (u_reading u < tick c')%nat) us.
Proof. intros [-> Ht] Hu. eapply Forall_impl; [exact Hu |]. cbn. intros u [? ?]. split; [assumption | lia]. Qed.

Lemma bucket_on cfg c c' us l : clock_on c c' ->
  (exists i, (i <= tick c)%nat /\ replay us (fresh_bucket cfg (clk c i)) = Some l /\ forall u, u ∈ us -> (i <= u_reading u)%nat) ->
  exists i, (i <= tick c')%nat /\ replay us (fresh_bucket cfg (clk c' i)) = Some l /\ forall u, u ∈ us -> (i <= u_reading u)%nat.
Proof. intros [-> Ht] (i & Hi & Hr & Hu). exists i. split; [lia | auto]. Qed.

Lemma settings_max rl cfg : settings_of rl = cfg -> maxPartitions rl = set_max cfg.
Proof. now intros <-. Qed.

(** A call goes on, and the shared state is the same. *)
Lemma pinv_goes cfg ov owner s t q c : pinv cfg ov owner s -> st c = st (shared s) -> clock_on (shared s) c ->
  (forall key p, q <> AtAllow key p) -> pinv cfg ov owner (goes t q c s).
Proof.
  intros [I1 I2 I3 I4 I5 I6 I7 I8 I9 I10] Ec Hc Hq. split; cbn [goes shared calls uses]; rewrite ?Ec; auto.
  - intros u key p Hu. apply list_lookup_insert_Some in Hu as [(_ & Hu & _) | (_ & Hu)]; [exfalso; exact (Hq _ _ Hu) | exact (I6 _ _ _ Hu)].
  - eauto using bucket_on.
  - eauto using timed_on.
Qed.

Lemma cleaned_same t rl : heap (cleaned t rl) = heap rl /\ nextPtr (cleaned t rl) = nextPtr rl /\ overflow (cleaned t rl) = overflow rl /\
  forall k p, partitions (cleaned t rl) !! k = Some p -> partitions rl !! k = Some p.
Proof.
  unfold cleaned. destruct (_ <? _); [auto |]. cbn. repeat split; auto. intros k p Hk. now apply map_lookup_filter_Some in Hk as [Hk _].
Qed.

(** What the critical section may do to an entry: its time is set, its bucket
    stays. *)
Lemma pinv_touch cfg ov owner s t key p e n rl c : pinv cfg ov owner s -> clock_on (shared s) c -> st c = set_heap (<[p := mkEntry (limiter e) n]> (heap rl)) rl ->
  prl_ok rl -> settings_of rl = cfg -> heap rl = heap (st (shared s)) -> nextPtr rl = nextPtr (st (shared s)) ->
  overflow rl = overflow (st (shared s)) ->
  (forall k q, partitions rl !! k = Some q -> partitions (st (shared s)) !! k = Some q) ->
  heap rl !! p = Some e -> serves_key owner ov key p -> pinv cfg ov owner (goes t (AtAllow key p) c s).
Proof.
  intros [I1 I2 [I3 I3'] I4 I5 I6 I7 I8 I9 I10] Hc Ec Hok Hset Eh En Eo Hparts Ee Hk.
  assert (forall q, is_Some (heap (st (shared s)) !! q) -> is_Some (<[p := mkEntry (limiter e) n]> (heap rl) !! q)) as Hin.
  { intros q Hq. rewrite lookup_insert. case_decide; [eauto | now rewrite Eh]. }
  split; cbn [goes shared calls uses]; rewrite ?Ec; cbn [set_heap partitions heap overflow nextPtr].
  - apply store_ok; [exact Hok | eauto].
  - exact Hset.
  - split; [congruence | auto].
  - auto.
  - intros q k Hq. rewrite En. eauto.
  - intros u key' q Hu. apply list_lookup_insert_Some in Hu as [(_ & Hu & _) | (_ & Hu)].
    + injection Hu as -> ->. split; [apply Hin; rewrite <- Eh; eauto | exact Hk].
    + destruct (I6 u key' q Hu). auto.
  - rewrite En. exact I7.
  - intros q e' Hq. apply (bucket_on cfg _ _ _ _ Hc).
    apply lookup_insert_Some in Hq as [[<- <-] | [_ Hq]]; rewrite Eh in *; eauto. exact (I8 p e Ee).
  - eauto using timed_on.
  - exact I10.
Qed.

(** A new bucket, for the key it is made for. *)
Lemma pinv_new cfg ov owner s t key n rl c : pinv cfg ov owner s -> clock_on (shared s) c ->
  st c = alloc_key key (mkEntry (fresh_bucket cfg (clk (shared s) (tick (shared s)))) n) rl ->
  prl_ok rl -> settings_of rl = cfg -> heap rl = heap (st (shared s)) -> nextPtr rl = nextPtr (st (shared s)) ->
  overflow rl = overflow (st (shared s)) ->
  (forall k q, partitions rl !! k = Some q -> partitions (st (shared s)) !! k = Some q) ->
  partitions rl !! key = None -> Z.of_nat (size (partitions rl)) < maxPartitions rl ->
  pinv cfg ov (<[nextPtr rl := key]> owner) (goes t (AtAllow key (nextPtr rl)) c s).
Proof.
  intros [I1 I2 [I3 I3'] I4 I5 I6 I7 I8 I9 I10] Hc Ec Hok Hset Eh En Eo Hparts Hnone Hsize.
  set (e := mkEntry _ n) in *. pose proof (alloc_fresh rl Hok) as Hfresh.
  assert (forall q k, owner !! q = Some k -> <[nextPtr rl := key]> owner !! q = Some k) as Hown.
  { intros q k Hq. rewrite lookup_insert_ne; [exact Hq |]. intros E. pose proof (I5 q k Hq). rewrite En in E. unfold ptr in *. lia. }
  assert (forall k q, serves_key owner ov k q -> serves_key (<[nextPtr rl := key]> owner) ov k q) as Hserves
    by (intros k q [Hq | Hq]; [now left | right; auto]).
  assert (forall q, is_Some (heap (st (shared s)) !! q) -> is_Some (<[nextPtr rl := e]> (heap rl) !! q)) as Hin.
  { intros q Hq. rewrite lookup_insert. case_decide; [eauto | now rewrite Eh]. }
  split; cbn [goes shared calls uses]; rewrite ?Ec; cbn [alloc_key partitions heap overflow nextPtr].
  - apply alloc_key_ok; auto. rewrite Eh, Eo, I3. exact I3'.
  - exact Hset.
  - split; [congruence | auto].
  - intros k q Hq. apply lookup_insert_Some in Hq as [[<- <-] | [_ Hq]]; [apply lookup_insert_eq | auto].
  - intros q k Hq. apply lookup_insert_Some in Hq as [[<- _] | [_ Hq]]; [unfold ptr; lia |]. pose proof (I5 q k Hq). rewrite En. unfold ptr in *. lia.
  - intros u key' q Hu. apply list_lookup_insert_Some in Hu as [(_ & Hu & _) | (_ & Hu)].
    + injection Hu as -> ->. split; [rewrite lookup_insert_eq; eauto | right; apply lookup_insert_eq].
    + destruct (I6 u key' q Hu). auto.
  - intros u Hu. destruct (I7 u Hu) as [Hlt Hs]. split; [rewrite En; unfold ptr in *; lia | auto].
  - intros q e' Hq. apply (bucket_on cfg _ _ _ _ Hc).
    apply lookup_insert_Some in Hq as [[<- <-] | [_ Hq]]; [| rewrite Eh in Hq; eauto].
    exists (tick (shared s)). split; [lia |]. rewrite history_empty.
    + split; [reflexivity |]. intros u Hu. now apply not_elem_of_nil in Hu.
    + intros u Hu E. destruct (I7 u Hu) as [Hlt _]. rewrite En in E. unfold ptr in *. lia.
  - eauto using timed_on.
  - exact I10.
Qed.

(** The invariant after the critical section. *)
Lemma pinv_partition cfg ov owner s t key n p c : pinv cfg ov owner s -> clock_on (shared s) c ->
  partitioned n (clk (shared s) (tick (shared s))) key (cleaned n (st (shared s))) p (st c) ->
  exists owner', pinv cfg ov owner' (goes t (AtAllow key p) c s).
Proof.
  intros Hi Hc Hp. destruct (cleaned_same n (st (shared s))) as (Eh & En & Eo & Hparts). pose proof Hi as [I1 I2 [I3 I3'] I4 _ _ _ _ _ _].
  pose proof (cleaned_ok n _ I1) as Hok. pose proof (cleaned_settings n (st (shared s))) as Hset. rewrite I2 in Hset.
  inversion Hp as [q e Ep Ee E1 E2 | Ep Hs E1 E2 | e Ep Ee E1 E2]; subst.
  - exists owner. eapply (pinv_touch _ _ _ _ _ _ _ e n); eauto. right. eauto.
  - eexists. eapply (pinv_new _ _ _ _ _ _ n); eauto. now rewrite <- E2, Hset.
  - exists owner. eapply (pinv_touch _ _ _ _ _ _ _ e n); eauto. now left.
Qed.

Lemma sorted_snoc {A} (R : A -> A -> Prop) l x : StronglySorted R l -> (forall y, y ∈ l -> R y x) -> StronglySorted R (l ++ [x]).
Proof.
  induction l as [| y l IH]; intros Hs Hx; [repeat constructor |]. inversion Hs as [| ? ? Hl Hy]; subst. cbn. constructor.
  - apply IH; [exact Hl |]. intros z Hz. apply Hx. now right.
  - apply Forall_app_2; [exact Hy |]. constructor; [apply Hx; left | constructor].
Qed.

(** The invariant after the test of a bucket. *)
Lemma pinv_allow cfg ov owner s t key p b c : pinv cfg ov owner s -> calls s !! t = Some (AtAllow key p) ->
  allow_entry p (shared s) = (Ret b, c) ->
  pinv cfg ov owner (mkPConc c (<[t := Answered b]> (calls s)) (uses s ++ [mkUse p key (tick (shared s)) (clk (shared s) (tick (shared s))) b])).
Proof.
  intros [I1 I2 [I3 I3'] I4 I5 I6 I7 I8 I9 I10] Et E. destruct (I6 t key p Et) as [[e Ee] Hk].
  rewrite (allow_entry_run p e _ Ee) in E. injection E as Eb <-.
  set (now := clk (shared s) (tick (shared s))) in *.
  assert (forall q, is_Some (heap (st (shared s)) !! q) -> is_Some (<[p := (spec_touch (lastSeen e) e now).2]> (heap (st (shared s))) !! q)) as Hin
    by (intros q Hq; rewrite lookup_insert; case_decide; eauto).
  split; cbn [shared calls uses]; unfold touched; cbn [st with_st set_heap partitions heap overflow nextPtr].
  - apply store_ok; [exact I1 | eauto].
  - exact I2.
  - auto.
  - exact I4.
  - exact I5.
  - intros u key' q Hu. apply list_lookup_insert_Some in Hu as [(_ & Hu & _) | (_ & Hu)]; [discriminate |].
    destruct (I6 u key' q Hu). auto.
  - intros u Hu. apply elem_of_app in Hu as [Hu | Hu]; [auto |]. apply list_elem_of_singleton in Hu as ->. cbn [u_ptr u_key].
    split; [apply (ok_alloc _ I1); eauto | exact Hk].
  - intros q e' Hq. rewrite history_snoc. cbn [u_ptr]. apply lookup_insert_Some in Hq as [[<- <-] | [Hne Hq]].
    + rewrite decide_True by reflexivity. destruct (I8 p e Ee) as (i & Hi & Hr & Hu). exists i. split; [cbn; lia |].
      cbn [clk next_tick]. rewrite (replay_snoc _ _ _ _ Hr); [| exact Eb]. split; [reflexivity |].
      intros u [Hx | Hx]%elem_of_app; [auto |]. apply list_elem_of_singleton in Hx as ->. exact Hi.
    + rewrite decide_False by exact Hne. rewrite app_nil_r. apply (bucket_on cfg (shared s)); [split; [reflexivity | cbn; lia] | eauto].
  - apply Forall_app_2; [apply (timed_on (shared s)); [split; [reflexivity | cbn; lia] | exact I9] |].
    constructor; [| constructor]. cbn. split; [reflexivity | lia].
  - apply sorted_snoc; [exact I10 |]. rewrite Forall_forall in I9. intros u Hu. destruct (I9 u Hu). cbn. lia.
Qed.

Lemma pinv_step cfg ov owner s s' : pinv cfg ov owner s -> step s s' ->
  (exists owner', pinv cfg ov owner' s') /\ clk (shared s') = clk (shared s).
Proof.
  intros Hi [t E | key ->].
  - unfold call_step in E. destruct (calls s !! t) as [[key | key n | key p | b] |] eqn:Et; try discriminate.
    + injection E as <-. split; [exists owner | reflexivity]. apply pinv_goes; [exact Hi | reflexivity | split; [reflexivity | cbn; lia] | discriminate].
    + pose proof Hi as [I1 _ [I3 I3'] _ _ _ _ _ _ _]. rewrite <- I3 in I3'.
      destruct (partitionForKey_run n key (shared s) I1 I3') as (p & c & Ep & Hc & Hp). rewrite Ep in E. injection E as <-.
      split; [exact (pinv_partition cfg ov owner s t key n p c Hi Hc Hp) | apply Hc].
    + destruct (allow_entry p (shared s)) as [[b | v] c] eqn:Ea; [| discriminate]. injection E as <-.
      split; [exists owner; exact (pinv_allow cfg ov owner s t key p b c Hi Et Ea) |].
      destruct (pi_held _ _ _ _ Hi t key p Et) as [[e Ee] _]. rewrite (allow_entry_run p e _ Ee) in Ea. now injection Ea as _ <-.
  - split; [exists owner | reflexivity]. destruct Hi as [I1 I2 I3 I4 I5 I6 I7 I8 I9 I10]. split; cbn [begin_call shared calls uses]; auto.
    intros u key' q Hu. apply lookup_app_Some in Hu as [Hu | [_ Hu]]; [exact (I6 u key' q Hu) |].
    apply list_lookup_singleton_Some in Hu as [_ Hu]. discriminate.
Qed.

(** A limiter just made, before any call. *)
Definition pstarts (cfg : PartitionedRateLimiterConfig) (c : Clocked PartitionedRateLimiter) : Prop :=
  exists c0 : Clocked PartitionedRateLimiter, NewPartitionedRateLimiterWithConfig cfg c0 = (Ret (st c), with_st c (st c0)).

Lemma fresh_ok cfg (c : Clocked PartitionedRateLimiter) : pstarts cfg c -> prl_ok (st c).
Proof.
  intros [c0 E]. destruct (new_simulates cfg c0) as (rl & ps & E' & _ & Hsim & _).
  rewrite E' in E. injection E as -> _. apply Hsim.
Qed.

Lemma pinv_start cfg c : pstarts cfg c -> pinv (cfg_settings cfg) (overflow (st c)) ∅ (mkPConc c [] []).
Proof.
  intros Hc. pose proof (fresh_ok cfg c Hc) as Hok. destruct Hc as [c0 E]. unfold NewPartitionedRateLimiterWithConfig, newPartitionEntry, NewRateLimiter in E.
  pose proof (f_equal (fun x => clk x.2) E) as Eclk. pose proof (f_equal (fun x => tick x.2) E) as Etick.
  mstep. injection E as E _.
  split; cbn [shared calls uses]; [exact Hok | ..]; rewrite <- ?E.
  - reflexivity.
  - split; [reflexivity |]. cbn [heap overflow]. rewrite lookup_singleton_eq. eauto.
  - intros k p Hp. cbn [partitions] in Hp. now rewrite lookup_empty in Hp.
  - intros p k Hp. now rewrite lookup_empty in Hp.
  - intros t key p Ht. now rewrite lookup_nil in Ht.
  - intros u Hu. now apply not_elem_of_nil in Hu.
  - intros p e Hp. cbn [heap] in Hp. apply lookup_singleton_Some in Hp as [<- <-]. exists (S (tick c0)). split; [lia |].
    split; [now rewrite <- Eclk |]. intros u Hu. now apply not_elem_of_nil in Hu.
  - constructor.
  - constructor.
Qed.

Lemma pinv_run cfg c s : pstarts cfg c -> rtc step (mkPConc c [] []) s ->
  exists owner, pinv (cfg_settings cfg) (overflow (st c)) owner s /\ clk (shared s) = clk c.
Proof.
  intros Hc Hrun. pose proof (pinv_start cfg c Hc) as H0. change (clk c) with (clk (shared (mkPConc c [] []))).
  revert H0. generalize (∅ : gmap ptr string) as owner. induction Hrun as [s | s1 s2 s3 Hs _ IH]; intros owner Hi; [eauto |].
  destruct (pinv_step _ _ _ _ _ Hi Hs) as [[owner' Hi'] <-]. exact (IH owner' Hi').
Qed.

(** A call not answered has a step: it never panics. *)
Lemma call_progress cfg ov owner s t q : pinv cfg ov owner s -> calls s !! t = Some q -> (forall b, q <> Answered b) ->
  is_Some (call_step t s).
Proof.
  intros [I1 _ [I3 I3'] _ _ I6 _ _ _ _] Et Hq. unfold call_step. rewrite Et. destruct q as [key | key n | key p | b].
  - cbn. eauto.
  - rewrite <- I3 in I3'. destruct (partitionForKey_run n key (shared s) I1 I3') as (p & c & -> & _). eauto.
  - destruct (I6 t key p Et) as [[e Ee] _]. rewrite (allow_entry_run p e _ Ee). eauto.
  - now destruct (Hq b).
Qed.

(** C10.  Calls of [AllowKey] from any number of goroutines, from a limiter
    just made and in every interleaving of the clock readings, the critical
    sections and the tests: the map holds at most [MaxPartitions] keys; two
    tests of one bucket other than the overflow bucket are for one key; every
    bucket has given exactly the answers of a token bucket of its own, full
    at the start, to the tests that reached it; and a call that is not
    answered has a step, so none panics. *)
Theorem buckets_apart cfg c s : pstarts cfg c -> rtc step (mkPConc c [] []) s ->
  Z.of_nat (size (partitions (st (shared s)))) <= set_max (cfg_settings cfg) /\
  (forall u v, u ∈ uses s -> v ∈ uses s -> u_ptr u = u_ptr v -> u_ptr u <> overflow (st c) -> u_key u = u_key v) /\
  (forall p e, heap (st (shared s)) !! p = Some e ->
    exists i, replay (history p (uses s)) (fresh_bucket (cfg_settings cfg) (clk (shared s) i)) = Some (limiter e)) /\
  (forall t q, calls s !! t = Some q -> (forall b, q <> Answered b) -> is_Some (call_step t s)).
Proof.
  intros Hc Hrun. destruct (pinv_run cfg c s Hc Hrun) as (owner & Hi & _). pose proof Hi as [I1 I2 _ _ _ _ I7 I8 _ _].
  split; [rewrite <- (settings_max _ _ I2); apply I1 |]. split; [| split; [intros p e He; destruct (I8 p e He) as (i & _ & Hr & _); eauto |]].
  - intros u v Hu Hv E Hne. destruct (I7 u Hu) as [_ [Ku | Ku]]; [contradiction |].
    destruct (I7 v Hv) as [_ [Kv | Kv]]; [congruence |]. rewrite E in Ku. congruence.
  - intros t q. apply (call_progress _ _ _ _ _ _ Hi).
Qed.

(** ** What a bucket admits *)

Lemma replay_run us l l' : replay us l = Some l' -> run_allow (u_time <$> us) l = (u_answer <$> us, l').
Proof.
  revert l. induction us as [| u us IH]; intros l; cbn [replay]; [now intros [= ->] |].
  destruct (Bool.eqb _ _) eqn:E; [| discriminate]. intros Hr. apply Bool.eqb_prop in E.
  rewrite !fmap_cons, run_allow_cons, (IH _ Hr), E. reflexivity.
Qed.

Lemma history_sorted p us : StronglySorted (fun u v => (u_reading u <= u_reading v)%nat) us ->
  StronglySorted (fun u v => (u_reading u <= u_reading v)%nat) (history p us).
Proof.
  intros Hs. induction Hs as [| u us Hs IH Hu]; [constructor |]. unfold history. rewrite filter_cons.
  destruct (decide (u_ptr u = p)); [| exact IH]. constructor; [exact IH |].
  apply Forall_forall. intros v Hv. apply list_elem_of_filter in Hv as [_ Hv]. rewrite Forall_forall in Hu. auto.
Qed.

(** Instants that follow the readings are in order. *)
Lemma ascending_reads (f : nat -> Z) us lo : (forall i j, (i <= j)%nat -> f i <= f j) ->
  StronglySorted (fun u v => (u_reading u <= u_reading v)%nat) us -> (forall u, u ∈ us -> lo <= f (u_reading u)) ->
  ascending lo ((fun u => f (u_reading u)) <$> us).
Proof.
  intros Hf Hs. revert lo. induction Hs as [| u us Hs IH Hu]; intros lo Hlo; cbn; [exact I |]. split; [apply Hlo; left |].
  apply IH. intros v Hv. apply Hf. rewrite Forall_forall in Hu. auto.
Qed.

(** The answers of a bucket are those of a token bucket, fresh at a reading
    of the clock, at later readings in order. *)
Lemma bucket_history cfg c s : pstarts cfg c -> rtc step (mkPConc c [] []) s -> monotone (clk c) ->
  forall p e, heap (st (shared s)) !! p = Some e -> exists i, (i <= tick (shared s))%nat /\
    let us := history p (uses s) in
    run_allow ((fun u => clk c (u_reading u)) <$> us) (fresh_bucket (cfg_settings cfg) (clk c i)) = (u_answer <$> us, limiter e) /\
    ascending (clk c i) ((fun u => clk c (u_reading u)) <$> us) /\
    Forall (fun u => (i <= u_reading u <= tick (shared s))%nat) us /\
    StronglySorted (fun u v => (u_reading u <= u_reading v)%nat) us.
Proof.
  intros Hc Hrun Hmono p e He. destruct (pinv_run cfg c s Hc Hrun) as (owner & Hi & Ec).
  pose proof Hi as [_ _ _ _ _ _ _ I8 I9 I10]. rewrite Ec in I8, I9.
  destruct (I8 p e He) as (i & Hit & Hrep & Hfirst). exists i. split; [exact Hit |]. set (us := history p (uses s)) in *. cbn zeta.
  assert (StronglySorted (fun u v => (u_reading u <= u_reading v)%nat) us) as Hsort by now apply history_sorted.
  assert (u_time <$> us = (fun u => clk c (u_reading u)) <$> us) as Et.
  { apply list_fmap_ext. intros n u Hu. apply list_elem_of_lookup_2, list_elem_of_filter in Hu as [_ Hu].
    rewrite Forall_forall in I9. apply (I9 u Hu). }
  split; [rewrite <- Et; now apply replay_run |]. split; [| split; [| exact Hsort]].
  - apply ascending_reads; [exact Hmono | exact Hsort |]. intros u Hu. apply Hmono, Hfirst, Hu.
  - apply Forall_forall. intros u Hu. split; [now apply Hfirst |]. apply list_elem_of_filter in Hu as [_ Hu].
    rewrite Forall_forall in I9. destruct (I9 u Hu). lia.
Qed.

Lemma settings_pos cfg : 0 < set_rps (cfg_settings cfg) /\ 0 < set_burst (cfg_settings cfg).
Proof. cbn. destruct (Z.leb_spec (cfgRequestsPerSecond cfg) 0), (Z.leb_spec (cfgBurst cfg) 0); lia. Qed.

(** On whole seconds, a fresh bucket over readings of the clock. *)
Lemma whole_history {U} (reading : U -> nat) (answer : U -> bool) rps burst (f : nat -> Z) t0 sec i n us l :
  0 <= rps <= 2 ^ 53 -> 0 <= burst <= 2 ^ 53 -> (forall i, f i = t0 + sec i * Second) -> (i <= n)%nat ->
  monotone f -> Forall (fun u => (i <= reading u <= n)%nat) us ->
  StronglySorted (fun u v => (reading u <= reading v)%nat) us ->
  burst + (sec n - sec i) * rps <= 2 ^ 53 -> (sec n - sec i) * Second <= int64_max ->
  run_allow ((fun u => f (reading u)) <$> us) (mkRateLimiter (f64_of_Z burst) (f64_of_Z burst) (f64_of_Z rps) (f i)) =
    (answer <$> us, l) ->
  admitted (answer <$> us) <= burst + (sec n - sec i) * rps.
Proof.
  intros Hr Hb Hf Hin Hm Hus Hsort Hmax Hint Hrun.
  assert (forall i j, (i <= j)%nat -> sec i <= sec j) as Hmono.
  { intros a b Hab. pose proof (Hm a b Hab) as Hc. rewrite !Hf in Hc. unfold Second in *. lia. }
  pose proof (Hmono i n Hin) as Hsn. rewrite Forall_forall in Hus. set (ss := (fun u => sec (reading u) - sec i) <$> us).
  assert ((fun u => f (reading u)) <$> us = (fun x => f i + x * Second) <$> ss) as Et.
  { unfold ss. rewrite <- list_fmap_compose. apply list_fmap_ext. intros k u _. cbn. rewrite !Hf. lia. }
  assert (ascending 0 ss) as Hasc.
  { unfold ss. clear Et Hrun ss. assert (forall lo, (forall u, u ∈ us -> lo <= sec (reading u) - sec i) ->
      ascending lo ((fun u => sec (reading u) - sec i) <$> us)) as Hlo;
      [| apply Hlo; intros u Hu; destruct (Hus u Hu); pose proof (Hmono i (reading u)); lia].
    clear Hus. induction Hsort as [| u us Hs IH Hu]; intros lo Hlo; cbn; [exact I |]. split; [apply Hlo; left |].
    apply IH. intros v Hv. rewrite Forall_forall in Hu. pose proof (Hmono _ _ (Hu v Hv)). lia. }
  assert (Forall (fun x => x <= sec n - sec i) ss) as Hall.
  { apply Forall_fmap, Forall_forall. intros u Hu. destruct (Hus u Hu). pose proof (Hmono (reading u) n). cbn. lia. }
  assert (ibucket_ok (mkIBucket burst burst rps 0)) as Hok by (unfold ibucket_ok; cbn [itokens imax irate]; lia).
  rewrite Et in Hrun. apply (f_equal fst) in Hrun. cbn [fst] in Hrun.
  rewrite (run_refines (f i) ss _ (mkIBucket burst burst rps 0) (sec n - sec i)) in Hrun;
    auto using fresh_refines; cbn [ilast imax irate] in *; try lia.
  rewrite <- Hrun. pose proof (irun_admitted ss (mkIBucket burst burst rps 0) (sec n - sec i) Hok Hasc Hall ltac:(cbn; lia)) as Hadm.
  cbn [itokens ilast irate] in Hadm. lia.
Qed.

(** C2. The promise of the limiter under concurrency.  On any clock that does
    not run backwards, whatever calls run at once and in whatever order their
    steps come, every bucket (that of a key, or the overflow bucket) admits
    at most the burst and the rate times the time since the first reading, up
    to the rounding of float64: one part in [2 ^ 49] of what the rate earns,
    and one part in [2 ^ 52] of the burst for each call answered by the
    bucket.  On a clock that reads whole seconds, and within [2 ^ 53], the
    bound is exact. *)
Theorem concurrent_admission cfg c s : pstarts cfg c -> rtc step (mkPConc c [] []) s -> monotone (clk c) ->
  let rps := set_rps (cfg_settings cfg) in let burst := set_burst (cfg_settings cfg) in
  rps <= 2 ^ 53 -> burst <= 2 ^ 53 ->
  let span := clk c (tick (shared s)) - clk c 0%nat in
  forall p e, heap (st (shared s)) !! p = Some e -> let us := history p (uses s) in
    admitted (u_answer <$> us) * Second * 2 ^ 52 <=
      burst * Second * (2 ^ 52 + Z.of_nat (length us)) + span * rps * (2 ^ 52 + 8) /\
    (forall t0 (sec : nat -> Z), (forall i, clk c i = t0 + sec i * Second) ->
      burst + (sec (tick (shared s)) - sec 0%nat) * rps <= 2 ^ 53 -> span <= int64_max ->
      admitted (u_answer <$> us) <= burst + (sec (tick (shared s)) - sec 0%nat) * rps).
Proof.
  intros Hc Hrun Hmono rps burst Hr Hb span p e He us. destruct (settings_pos cfg) as [Hr0 Hb0]. fold rps in Hr0. fold burst in Hb0.
  destruct (bucket_history cfg c s Hc Hrun Hmono p e He) as (i & Hit & Hrep & Hasc & Hus & Hsort). fold us in Hrep, Hasc, Hus, Hsort.
  pose proof (Hmono 0%nat i ltac:(lia)) as H0i. pose proof (Hmono i _ Hit) as Hin.
  change (fresh_bucket _ _) with (mkRateLimiter (f64_of_Z burst) (f64_of_Z burst) (f64_of_Z rps) (clk c i)) in Hrep. split.
  - assert (Forall (fun t => t <= clk c (tick (shared s))) ((fun u => clk c (u_reading u)) <$> us)) as Hlast.
    { apply Forall_fmap. eapply Forall_impl; [exact Hus |]. intros u [_ Hu]. now apply Hmono. }
    pose proof (fresh_admitted rps burst (clk c i) _ _ ltac:(lia) ltac:(lia) Hasc Hlast Hin) as Hf.
    rewrite Hrep, length_fmap in Hf. cbn [fst] in Hf. etransitivity; [exact Hf |]. apply Z.add_le_mono_l.
    apply Z.mul_le_mono_nonneg_r; [lia |]. apply Z.mul_le_mono_nonneg_r; unfold span; lia.
  - intros t0 sec Hsec Hmax Hint. set (n := tick (shared s)) in *.
    assert (sec 0%nat <= sec i <= sec n) as Hs by (rewrite !Hsec in *; unfold Second in *; lia).
    assert ((sec n - sec i) * rps <= (sec n - sec 0%nat) * rps) by (apply Z.mul_le_mono_nonneg_r; lia).
    pose proof (whole_history u_reading u_answer rps burst (clk c) t0 sec i n us (limiter e) ltac:(lia) ltac:(lia) Hsec Hit Hmono Hus Hsort
      ltac:(lia) ltac:(unfold span in Hint; rewrite !Hsec in Hint; unfold Second in *; lia) Hrep). lia.
Qed.

(** ** Two keys at once *)

Fixpoint schedule (ts : list nat) (s : pconc) : option pconc :=
  match ts with [] => Some s | t :: ts' => match call_step t s with Some s' => schedule ts' s' | None => None end end.

Lemma schedule_run ts s s' : schedule ts s = Some s' -> rtc step s s'.
Proof.
  revert s. induction ts as [| t ts IH]; intros s; cbn [schedule]; [intros [= <-]; constructor |].
  destruct (call_step t s) as [s1 |] eqn:E; [| discriminate]. intros Hs. eapply rtc_l; [exact (step_call _ _ t E) | eauto].
Qed.

(** A limiter of two keys and burst 1, three calls of two keys and one of a
    third, all under way at once. *)
Definition conc_cfg : PartitionedRateLimiterConfig := mkPConfig 1 1 (10 * Second) 2 0.
Definition conc_clock : Clocked unit := mkClocked (fun i => Z.of_nat (i / 16) * Second) (fun _ => 0) 0 tt.
Definition conc_new := NewPartitionedRateLimiterWithConfig conc_cfg conc_clock.
Definition conc_start : option (Clocked PartitionedRateLimiter) :=
  match conc_new with (Ret rl, c) => Some (with_st c rl) | (Panic _, _) => None end.
Definition four_calls (c : Clocked PartitionedRateLimiter) : pconc :=
  begin_call "c" (begin_call "a" (begin_call "b" (begin_call "a" (mkPConc c [] [])))).
Definition conc_order : list nat := [2; 0; 1; 3; 1; 0; 3; 2; 0; 2; 3; 1]%nat.
Definition conc_end : option pconc := conc_start ≫= fun c => schedule conc_order (four_calls c).

(** "b" and "a" have a bucket each, "c" the overflow bucket; the second test
    of "a" is refused. *)
Lemma conc_uses : (fun s => (fun u => (u_ptr u, u_key u, u_answer u)) <$> uses s) <$> conc_end =
  Some [(2%nat, "a", true); (2%nat, "a", false); (0%nat, "c", true); (1%nat, "b", true)].
Proof. vm_compute. reflexivity. Qed.

Lemma conc_run s c : conc_end = Some s -> conc_start = Some c ->
  pstarts conc_cfg c /\ overflow (st c) = 0%nat /\ clk c = clk conc_clock /\ rtc step (mkPConc c [] []) s.
Proof.
  intros Es Ec. unfold conc_end in Es. rewrite Ec in Es. cbn [mbind option_bind] in Es. split; [| split; [| split]].
  - exists (mkClocked (clk conc_clock) (wall conc_clock) 0 (st c)). injection Ec as <-. reflexivity.
  - injection Ec as <-. reflexivity.
  - injection Ec as <-. reflexivity.
  - eapply rtc_l; [exact (step_begin _ _ "a" eq_refl) |]. eapply rtc_l; [exact (step_begin _ _ "b" eq_refl) |].
    eapply rtc_l; [exact (step_begin _ _ "a" eq_refl) |]. eapply rtc_l; [exact (step_begin _ _ "c" eq_refl) |].
    exact (schedule_run conc_order (four_calls c) s Es).
Qed.

Lemma buckets_apart_witness : exists s, conc_end = Some s /\
  (forall u v, u ∈ uses s -> v ∈ uses s -> u_ptr u = u_ptr v -> u_ptr u <> 0%nat -> u_key u = u_key v).
Proof.
  pose proof conc_uses as Hu. destruct conc_end as [s |] eqn:Es; [| discriminate]. exists s. split; [reflexivity |].
  destruct conc_start as [c |] eqn:Ec; [| unfold conc_end in Es; rewrite Ec in Es; discriminate].
  destruct (conc_run s c Es Ec) as (Hc & <- & _ & Hrun). apply (buckets_apart conc_cfg c s Hc Hrun).
Defined.

Lemma conc_facts : (fun s => (tick (shared s), bool_decide (is_Some (heap (st (shared s)) !! 2%nat)))) <$> conc_end = Some (12%nat, true).
Proof. vm_compute. reflexivity. Qed.

(** Two calls of "a", and one is admitted. *)
Lemma concurrent_admission_witness : exists s, conc_end = Some s /\ admitted (u_answer <$> history 2%nat (uses s)) <= 1 + 0 * 1.
Proof.
  pose proof conc_facts as Hf. destruct conc_end as [s |] eqn:Es; [| discriminate]. exists s. split; [reflexivity |].
  injection Hf as Ht Hb. apply bool_decide_eq_true in Hb as [e He].
  destruct conc_start as [c |] eqn:Ec; [| unfold conc_end in Es; rewrite Ec in Es; discriminate].
  destruct (conc_run s c Es Ec) as (Hc & _ & Hclk & Hrun).
  pose proof (fun Hm => concurrent_admission conc_cfg c s Hc Hrun Hm ltac:(cbn; lia) ltac:(cbn; lia) 2%nat e He) as Hadm.
  rewrite Ht, Hclk in Hadm. apply Hadm with (t0 := 0) (sec := fun i => Z.of_nat (i / 16)).
  - intros i j Hij. apply Z.mul_le_mono_nonneg_r; [unfold Second; lia |]. apply Nat2Z.inj_le, Nat.Div0.div_le_mono. exact Hij.
  - intros i. reflexivity.
  - cbn. lia.
  - cbn. unfold int64_max. lia.
Defined.
