(* ===== verification/RedisLimiter.v ===== *)
(** * The Redis limiter and its circuit breaker

    [go/middleware/ratelimit_redis.go]: [AllowKey] with the circuit state of
    [RedisRateLimiter], the Lua script [tokenBucketScript], the settings, and
    the choice between Redis and the in-memory limiter.

    Redis is outside the repository: the Go side sees it as a call that
    returns an integer or an error ([RedisServer]), the script sees it as
    hashes with expiry ([RedisHashes]), whose laws ([RedisHashesLaws]) are
    the documented effect of HMGET, HMSET and EXPIRE.

    The theorems: one call of [AllowKey] on every branch ([redis_allow_key]),
    the breaker opens after exactly [threshold] failures in a row
    ([breaker_threshold]), the script is the integer token bucket on Unix
    seconds ([script_refines_integers]), and the bootstrap always yields a
    limiter ([bootstrap_total]).  [Close] and [HealthCheck] hand on what the
    client answers.  The key's TTL is rounded up to seconds
    ([redis_key_ttl]). *)

From S2P Require Import Prelude Float64 GoStrings GoErrors RateLimit Partitioned.

(** ** The script *)

(** What the script uses of Redis: fields of the hash at a key, and expiry.
    Lua numbers are doubles; a value of a hash is a string, read and
    written by Lua's [tonumber] and by Redis' number formatting. *)
Class RedisHashes (R V : Type) := {
  hget : R -> string -> string -> option V;
  hmset : string -> list (string * V) -> R -> R;
  expire : string -> Z -> R -> R;
  lua_tonumber : V -> option float64;
  lua_tovalue : float64 -> V
}.

Class RedisHashesLaws (R V : Type) `{RedisHashes R V} := {
  tonumber_tovalue : forall x, f64_finite x = true -> lua_tonumber (lua_tovalue x) = Some x;
  hget_hmset : forall k fvs f v r, NoDup fvs.*1 -> (f, v) ∈ fvs -> hget (hmset k fvs r) k f = Some v;
  hget_hmset_ne : forall k k' fvs f r, k <> k' -> hget (hmset k fvs r) k' f = hget r k' f;
  hget_expire : forall k k' ttl f r, 0 < ttl -> hget (expire k ttl r) k' f = hget r k' f
}.

(** Lua's [math.min(a, b)]. *)
Definition math_min (a b : float64) : float64 := if f64_ltb b a then b else a.

Section Script.
Context {R V : Type} `{RedisHashes R V}.

(** [tonumber(x) or d], for a field that may be missing. *)
Definition tonumber_or (x : option V) (d : float64) : float64 :=
  match x ≫= lua_tonumber with Some n => n | None => d end.

(** [tokenBucketScript], with its KEYS and ARGV. *)
Definition tokenBucketScript (key : string) (maxTokens refillRate now : float64) (keyTTL : Z) (r : R) : Z * R :=
  let tokens := tonumber_or (hget r key "tokens") maxTokens in
  let lastRefill := tonumber_or (hget r key "lastRefill") now in
  let elapsed := f64_sub now lastRefill in
  let tokens := math_min maxTokens (f64_add tokens (f64_mul elapsed refillRate)) in
  let '(tokens, allowed) :=
    if f64_leb f64_one tokens then (f64_sub tokens f64_one, 1) else (tokens, 0) in
  let r := hmset key [("tokens", lua_tovalue tokens); ("lastRefill", lua_tovalue now)] r in
  let r := expire key keyTTL r in
  (allowed, r).
End Script.

(** ** The limiter *)

(** [rl.script.Run(ctx, client, keys, args...).Int()]: the result of the
    script, or the error of the command (timeout, connection, parse). *)
Class RedisServer (R : Type) :=
  script_Run : string -> Z -> Z -> float64 -> Z -> R -> (Z + error) * R.

Record RedisRateLimiter (F : Type) : Type := mkRedis {
  fallback : F;
  keyPrefix : string;
  maxTokens : Z;
  refillRate : Z;
  keyTTLSeconds : Z;
  failures : Z;
  lastFailure : Z;
  circuitOpen : bool;
  threshold : Z;
  resetTimeout : Z
}.
Arguments mkRedis {F}.
Arguments fallback {F}. Arguments keyPrefix {F}. Arguments maxTokens {F}. Arguments refillRate {F}.
Arguments keyTTLSeconds {F}. Arguments failures {F}. Arguments lastFailure {F}.
Arguments circuitOpen {F}. Arguments threshold {F}. Arguments resetTimeout {F}.

Definition set_fallback {F} (f : F) (rl : RedisRateLimiter F) : RedisRateLimiter F :=
  mkRedis f (keyPrefix rl) (maxTokens rl) (refillRate rl) (keyTTLSeconds rl) (failures rl)
    (lastFailure rl) (circuitOpen rl) (threshold rl) (resetTimeout rl).
Definition set_circuit {F} (n : Z) (last : Z) (opened : bool) (rl : RedisRateLimiter F) : RedisRateLimiter F :=
  mkRedis (fallback rl) (keyPrefix rl) (maxTokens rl) (refillRate rl) (keyTTLSeconds rl) n last
    opened (threshold rl) (resetTimeout rl).

(** The limiter and the server it talks to. *)
Record redis_world (F R : Type) : Type := mkRedisWorld { rw_limiter : RedisRateLimiter F; rw_server : R }.
Arguments mkRedisWorld {F R}. Arguments rw_limiter {F R}. Arguments rw_server {F R}.

Section Limiter.
Context {F R : Type} `{KeyedRateLimiter F} `{RedisServer R}.

Abbreviation World := (redis_world F R).

Definition on_limiter {A} (m : M (RedisRateLimiter F) A) : M World A :=
  zoom rw_limiter (fun l w => mkRedisWorld l (rw_server w)) m.

Definition on_fallback {A} (m : M F A) : M World A :=
  on_limiter (zoom fallback set_fallback m).

Definition on_server {A} (f : R -> A * R) : M World A :=
  state (fun w => let '(a, r) := f (rw_server w) in (a, mkRedisWorld (rw_limiter w) r)).

Definition isCircuitOpen : M (RedisRateLimiter F) bool :=
  rl ← get;
  if negb (circuitOpen rl) then mret false
  else
    t ← now;
    if resetTimeout rl <? time_sub t (lastFailure rl) then mret false else mret true.

Definition recordFailure : M (RedisRateLimiter F) unit :=
  modify (fun rl => set_circuit (wrap64 (failures rl + 1)) (lastFailure rl) (circuitOpen rl) rl);;
  t ← now;
  modify (fun rl => set_circuit (failures rl) t (circuitOpen rl) rl);;
  rl ← get;
  if threshold rl <=? failures rl then
    modify (fun rl => set_circuit (failures rl) (lastFailure rl) true rl)
  else mret ().

Definition recordSuccess : M (RedisRateLimiter F) unit :=
  modify (fun rl => set_circuit 0 (lastFailure rl) false rl).

Definition AllowKey (key : string) : M World bool :=
  let key := if decide (key = "") then "global" else key in
  opened ← on_limiter isCircuitOpen;
  if (opened : bool) then on_fallback (LAllowKey key)
  else
    n ← now_unix;
    rl ← gets rw_limiter;
    r ← on_server (script_Run (keyPrefix rl +:+ key) (maxTokens rl) (refillRate rl) (f64_of_Z n)
      (keyTTLSeconds rl));
    match r with
    | inr _ => on_limiter recordFailure;; on_fallback (LAllowKey key)
    | inl result => on_limiter recordSuccess;; mret (result =? 1)
    end.

Definition Allow : M World bool := AllowKey "global".
End Limiter.

#[export] Instance Redis_limiter `{KeyedRateLimiter F} `{RedisServer R} :
  RateLimiterInterface (redis_world F R) := Allow.
#[export] Instance Redis_keyed `{KeyedRateLimiter F} `{RedisServer R} :
  KeyedRateLimiter (redis_world F R) := AllowKey.

(** ** Settings and construction *)

Record RedisRateLimiterConfig : Type := mkRedisConfig {
  RedisURL : string;
  RedisPassword : string;
  RedisDB : Z;
  RedisTLS : bool;
  RequestsPerSecond : Z;
  Burst : Z;
  KeyTTL : Z;
  FailureThreshold : Z;
  ResetTimeout : Z
}.

(** [keyTTL + time.Second - 1] wraps around as an int64. *)
Definition normalizeRedisRateLimiterSettings (cfg : RedisRateLimiterConfig) : Z * Z * Z :=
  let threshold := if FailureThreshold cfg <=? 0 then 3 else FailureThreshold cfg in
  let resetTimeout := if ResetTimeout cfg <=? 0 then 30 * Second else ResetTimeout cfg in
  let keyTTL := if KeyTTL cfg <=? 0 then Hour else KeyTTL cfg in
  let keyTTLSeconds := Z.quot (wrap64 (wrap64 (keyTTL + Second) - 1)) Second in
  (threshold, resetTimeout, keyTTLSeconds).

(** The parts of [redis.Options] the source writes. *)
Record redis_options : Type := mkOptions {
  opt_Password : string;
  opt_DB : Z;
  opt_TLS : option Z  (** the [MinVersion] of [TLSConfig], if there is one *)
}.

Definition VersionTLS12 : Z := 771.

Section Construction.
(** [redis.ParseURL], and whether [client.Ping] on a client of the options
    succeeds. *)
Context (ParseURL : string -> redis_options + error) (ping : redis_options -> option error).

Definition redisClientOptions (cfg : RedisRateLimiterConfig) : redis_options + error :=
  match ParseURL (RedisURL cfg) with
  | inr err => inr err
  | inl opts =>
      let opts := if decide (RedisPassword cfg = "") then opts
        else mkOptions (RedisPassword cfg) (opt_DB opts) (opt_TLS opts) in
      let opts := mkOptions (opt_Password opts) (RedisDB cfg) (opt_TLS opts) in
      if RedisTLS cfg then
        let tls := match opt_TLS opts with None => 0 | Some v => v end in
        let tls := if tls =? 0 then VersionTLS12 else tls in
        inl (mkOptions (opt_Password opts) (opt_DB opts) (Some tls))
      else inl opts
  end.

Definition NewRedisRateLimiter {S} (cfg : RedisRateLimiterConfig) :
    M S (RedisRateLimiter PartitionedRateLimiter + error) :=
  match redisClientOptions cfg with
  | inr err => mret (inr err)
  | inl opts =>
      match ping opts with
      | Some err => mret (inr err)
      | None =>
          let '(threshold, resetTimeout, keyTTLSeconds) := normalizeRedisRateLimiterSettings cfg in
          fb ← NewPartitionedRateLimiter (RequestsPerSecond cfg) (Burst cfg) (wrap64 (keyTTLSeconds * Second));
          mret (inl (mkRedis fb "ratelimit:" (Burst cfg) (RequestsPerSecond cfg) keyTTLSeconds
            0 0 false threshold resetTimeout))
      end
  end.

(** The limiter returned is the Redis one or the in-memory one; the error
    is always nil. *)
Definition NewRedisOrPartitionedRateLimiter {S} (cfg : RedisRateLimiterConfig) (entryTTL : Z) :
    M S ((RedisRateLimiter PartitionedRateLimiter + PartitionedRateLimiter) * option error) :=
  if decide (trim_space (RedisURL cfg) = "") then
    l ← NewPartitionedRateLimiter (RequestsPerSecond cfg) (Burst cfg) entryTTL;
    mret (inr l, None)
  else
    r ← NewRedisRateLimiter cfg;
    match r with
    | inr _ =>
        l ← NewPartitionedRateLimiter (RequestsPerSecond cfg) (Burst cfg) entryTTL;
        mret (inr l, None)
    | inl limiter => mret (inl limiter, None)
    end.
End Construction.

(** [Close] and [HealthCheck], on the client's [Close] and [Ping]; a limiter
    that was not constructed has no client, and [nopCloser] closes nothing. *)
Section Client.
Context {S Client : Type} (client_Close client_Ping : Client -> M S (option error)).

Definition Close (client : option Client) : M S (option error) :=
  match client with Some client => client_Close client | None => mret None end.

Definition HealthCheck (client : Client) : M S (option error) := client_Ping client.

Definition nopCloser_Close : M S (option error) := mret None.
End Client.

(** ** The circuit breaker, abstractly *)

Inductive breaker : Type :=
| BClosed (failed : Z)   (** failures since the last success *)
| BOpen (since : Z).     (** the instant of the last failure *)

Definition breaker_tries (reset : Z) (b : breaker) (t : Z) : bool :=
  match b with BClosed _ => true | BOpen since => reset <? time_sub t since end.

Definition breaker_failure (limit : Z) (b : breaker) (t : Z) : breaker :=
  match b with
  | BClosed n => if limit <=? n + 1 then BOpen t else BClosed (n + 1)
  | BOpen _ => BOpen t
  end.

Definition breaker_of {F} (l : RedisRateLimiter F) : breaker :=
  if circuitOpen l then BOpen (lastFailure l) else BClosed (failures l).

(** An open circuit has counted its failures; the counter is far from
    wrapping around. *)
Definition circuit_ok {F} (l : RedisRateLimiter F) : Prop :=
  0 <= failures l < int64_max /\ (circuitOpen l = true -> threshold l <= failures l).

(** The limiter after the failure noted at [t]. *)
Definition failed_at {F} (t : Z) (l : RedisRateLimiter F) : RedisRateLimiter F :=
  set_circuit (failures l + 1) t (circuitOpen l || (threshold l <=? failures l + 1)) l.

Lemma recordFailure_run {F} (c : Clocked (RedisRateLimiter F)) : circuit_ok (st c) ->
  recordFailure c = (Ret (), with_st (next_tick c) (failed_at (clk c (tick c)) (st c))).
Proof.
  intros [Hf Ho]. unfold recordFailure. mstep.
  rewrite wrap64_small by (unfold is_int64, int64_min, int64_max in *; lia).
  unfold failed_at, set_circuit. destruct (Z.leb_spec (threshold (st c)) (failures (st c) + 1)); cbn.
  - now rewrite orb_true_r.
  - now rewrite orb_false_r.
Qed.

Lemma failed_breaker {F} t (l : RedisRateLimiter F) : circuit_ok l ->
  breaker_of (failed_at t l) = breaker_failure (threshold l) (breaker_of l) t.
Proof.
  intros [Hf Ho]. unfold breaker_of, failed_at. cbn. destruct (circuitOpen l); [reflexivity |].
  cbn. now destruct (threshold l <=? failures l + 1).
Qed.

Lemma failed_ok {F} t (l : RedisRateLimiter F) : circuit_ok l -> failures l + 1 < int64_max ->
  circuit_ok (failed_at t l).
Proof.
  intros [Hf Ho] Hn. unfold circuit_ok, failed_at. cbn. split; [lia |].
  destruct (circuitOpen l); cbn; intros E.
  - specialize (Ho eq_refl). lia.
  - apply Z.leb_le in E. lia.
Qed.

(** The clock after the test of the circuit: read only if it is open. *)
Definition after_check {F R} (c : Clocked (redis_world F R)) : Clocked (redis_world F R) :=
  if circuitOpen (rw_limiter (st c)) then next_tick c else c.

Section Calls.
Context {F R : Type} `{KeyedRateLimiter F} `{RedisServer R}.

Lemma isCircuitOpen_run (c : Clocked (redis_world F R)) :
  on_limiter isCircuitOpen c =
    (Ret (negb (breaker_tries (resetTimeout (rw_limiter (st c))) (breaker_of (rw_limiter (st c)))
       (clk c (tick c)))), after_check c).
Proof.
  unfold on_limiter, isCircuitOpen, after_check, breaker_of.
  destruct c as [ck wl tk [l r]]. destruct l as [fb kp mt rr kt fl lf op th rt]. destruct op; mstep.
  - destruct (rt <? time_sub (ck tk) lf); reflexivity.
  - reflexivity.
Qed.

(** What [AllowKey] asks of Redis, at clock [c]. *)
Definition asked (key : string) (c : Clocked (redis_world F R)) : (Z + error) * R :=
  let l := rw_limiter (st c) in
  script_Run (keyPrefix l +:+ set_key key) (maxTokens l) (refillRate l) (f64_of_Z (wall c (tick c) / Second))
    (keyTTLSeconds l) (rw_server (st c)).

Definition tries (c : Clocked (redis_world F R)) : bool :=
  breaker_tries (resetTimeout (rw_limiter (st c))) (breaker_of (rw_limiter (st c))) (clk c (tick c)).

Lemma AllowKey_short key c : tries c = false ->
  AllowKey key c = on_fallback (LAllowKey (set_key key)) (after_check c).
Proof.
  intros E. unfold AllowKey. unfold mbind at 1, M_bind at 1. rewrite isCircuitOpen_run.
  unfold tries in E. now rewrite E.
Qed.

Lemma after_check_st (c : Clocked (redis_world F R)) : st (after_check c) = st c.
Proof. unfold after_check. now destruct (circuitOpen _). Qed.

Lemma AllowKey_success key c z r' : tries c = true -> asked key (after_check c) = (inl z, r') ->
  AllowKey key c =
    (Ret (z =? 1), with_st (next_tick (after_check c))
       (mkRedisWorld (set_circuit 0 (lastFailure (rw_limiter (st c))) false (rw_limiter (st c))) r')).
Proof.
  intros E Ea. unfold AllowKey. unfold mbind at 1, M_bind at 1. rewrite isCircuitOpen_run.
  unfold tries in E. rewrite E. cbn [negb]. unfold asked in Ea. fold (set_key key).
  rewrite <- (after_check_st c). destruct (after_check c) as [ck wl tk [l r]]. mstep.
  unfold on_server, state. cbn [st next_tick rw_limiter rw_server] in *. rewrite Ea. reflexivity.
Qed.

Lemma AllowKey_failure key c e r' : circuit_ok (rw_limiter (st c)) -> tries c = true ->
  asked key (after_check c) = (inr e, r') ->
  AllowKey key c =
    let c1 := next_tick (after_check c) in
    on_fallback (LAllowKey (set_key key))
      (with_st (next_tick c1) (mkRedisWorld (failed_at (clk c1 (tick c1)) (rw_limiter (st c))) r')).
Proof.
  intros Hok E Ea. unfold AllowKey. unfold mbind at 1, M_bind at 1. rewrite isCircuitOpen_run.
  unfold tries in E. rewrite E. cbn [negb]. unfold asked in Ea. fold (set_key key).
  rewrite <- (after_check_st c) in Hok |- *. destruct (after_check c) as [ck wl tk [l r]].
  unfold mbind at 1, M_bind at 1. cbn [now_unix].
  unfold mbind at 1, M_bind at 1. cbn [gets].
  unfold mbind at 1, M_bind at 1. unfold on_server, state. cbn [st next_tick rw_limiter rw_server] in *.
  cbn [wall tick] in *. rewrite Ea.
  unfold mbind at 1, M_bind at 1. unfold on_limiter, zoom. cbn [st with_st rw_limiter].
  rewrite recordFailure_run by exact Hok. reflexivity.
Qed.
End Calls.

(** ** Calls in a row while Redis is down *)

Fixpoint redis_allow_keys {F R} `{KeyedRateLimiter F} `{RedisServer R} (keys : list string) :
    M (redis_world F R) (list bool) :=
  match keys with
  | [] => mret []
  | key :: keys' => b ← AllowKey key; bs ← redis_allow_keys keys'; mret (b :: bs)
  end.

(** A fallback that answers every call, reading the same clock. *)
Definition answers (F : Type) `{KeyedRateLimiter F} : Prop := forall key (c : Clocked F),
  exists b c', LAllowKey key c = (Ret b, c') /\ clk c' = clk c /\ wall c' = wall c /\ (tick c <= tick c')%nat.

(** A server on which every command fails, after the effect [hit]. *)
Definition down (R : Type) `{RedisServer R} (hit : R -> R) : Prop := forall key m rate t ttl r,
  exists e, script_Run key m rate t ttl r = (inr e, hit r).

Section Down.
Context {F R : Type} `{KeyedRateLimiter F} `{RedisServer R} (hit : R -> R).
Context (Hdown : down R hit) (Hfb : answers F).

(** [f] failures since the last success, none of them longer ago than the
    reset timeout. *)
Record counted (t0 : nat) (limit reset : Z) (f : Z) (c : Clocked (redis_world F R)) : Prop := {
  cnt_failures : failures (rw_limiter (st c)) = f;
  cnt_range : 0 <= f <= limit;
  cnt_limit : threshold (rw_limiter (st c)) = limit;
  cnt_reset : resetTimeout (rw_limiter (st c)) = reset;
  cnt_open : circuitOpen (rw_limiter (st c)) = (limit <=? f);
  cnt_last : circuitOpen (rw_limiter (st c)) = true ->
    exists i, (t0 <= i <= tick c)%nat /\ lastFailure (rw_limiter (st c)) = clk c i
}.

Definition within (t0 : nat) (reset : Z) (ck : nat -> Z) : Prop :=
  forall i j, (t0 <= i <= j)%nat -> time_sub (ck j) (ck i) <= reset.

Lemma counted_ok t0 limit reset f c : limit < int64_max -> counted t0 limit reset f c ->
  circuit_ok (rw_limiter (st c)).
Proof.
  intros Hl [E Hr El _ Eo _]. unfold circuit_ok. rewrite E, El, Eo.
  split; [lia |]. intros Hle. apply Z.leb_le in Hle. exact Hle.
Qed.

Lemma counted_tries t0 limit reset f c : (t0 <= tick c)%nat -> within t0 reset (clk c) ->
  counted t0 limit reset f c -> tries c = (f <? limit).
Proof.
  intros Ht Hw [E Hr El Er Eo Hl]. unfold tries, breaker_of. rewrite Er.
  destruct (Z.leb_spec limit f) as [Hle | Hlt]; rewrite Eo; cbn; [| symmetry; now apply Z.ltb_lt].
  destruct (Hl Eo) as (i & Hi & Ei). rewrite Ei.
  transitivity false; [| symmetry; apply Z.ltb_ge; lia]. apply Z.ltb_ge, Hw. lia.
Qed.

(** The fallback call changes the fallback and the tick only. *)
Lemma fallback_call key (c : Clocked (redis_world F R)) : exists b c',
  on_fallback (LAllowKey key) c = (Ret b, c') /\ clk c' = clk c /\ wall c' = wall c /\
  (tick c <= tick c')%nat /\ rw_server (st c') = rw_server (st c) /\
  exists fb, rw_limiter (st c') = set_fallback fb (rw_limiter (st c)).
Proof.
  destruct (Hfb key (with_st c (fallback (rw_limiter (st c))))) as (b & c' & E & Ec & Ew & Et).
  exists b. eexists. unfold on_fallback, on_limiter, zoom. cbn [st with_st]. 
  change (with_st (with_st c (rw_limiter (st c))) (fallback (rw_limiter (st c))))
    with (with_st c (fallback (rw_limiter (st c)))).
  rewrite E. cbn. eauto 10.
Qed.

Lemma down_step key t0 limit reset f c : limit < int64_max -> (t0 <= tick c)%nat ->
  within t0 reset (clk c) -> counted t0 limit reset f c -> exists b c',
  AllowKey key c = (Ret b, c') /\ clk c' = clk c /\ (t0 <= tick c')%nat /\
  counted t0 limit reset (Z.min limit (f + 1)) c' /\
  rw_server (st c') = if f <? limit then hit (rw_server (st c)) else rw_server (st c).
Proof.
  intros Hl Ht Hw Hc. pose proof (counted_ok _ _ _ _ _ Hl Hc) as Hok.
  pose proof (counted_tries _ _ _ _ _ Ht Hw Hc) as Etry.
  destruct Hc as [E Hr El Er Eo Hlast]. destruct (Z.ltb_spec f limit) as [Hlt | Hge].
  - rewrite (proj2 (Z.leb_gt limit f) Hlt) in Eo.
    assert (after_check c = c) as Eac by (unfold after_check; now rewrite Eo).
    destruct (Hdown (keyPrefix (rw_limiter (st c)) +:+ set_key key) (maxTokens (rw_limiter (st c)))
      (refillRate (rw_limiter (st c))) (f64_of_Z (wall c (tick c) / Second))
      (keyTTLSeconds (rw_limiter (st c))) (rw_server (st c))) as [e Ee].
    rewrite (AllowKey_failure key c e _ Hok Etry) by (rewrite Eac; exact Ee).
    rewrite Eac. cbv zeta. match goal with |- context [on_fallback _ ?d] =>
      destruct (fallback_call (set_key key) d) as (b & c' & -> & Ec & _ & Et & Es & fb & Efb) end.
    cbn [tick clk st with_st next_tick rw_server rw_limiter] in *.
    exists b, c'. repeat split; auto; try lia; rewrite ?Efb; cbn; try lia; try assumption.
    + rewrite Eo, El, E. cbn. destruct (Z.leb_spec limit (f + 1)), (Z.leb_spec limit (Z.min limit (f + 1))); auto; lia.
    + intros _. exists (S (tick c)). rewrite Ec. split; [lia | reflexivity].
  - rewrite (AllowKey_short key c Etry).
    assert (f = limit) as Ef by lia.
    destruct (fallback_call (set_key key) (after_check c)) as (b & c' & -> & Ec & _ & Et & Es & fb & Efb).
    rewrite after_check_st in *.
    assert (clk (after_check c) = clk c /\ (tick c <= tick (after_check c))%nat) as [Eck Etk]
      by (unfold after_check; rewrite Eo; destruct (limit <=? f); cbn; split; auto).
    exists b, c'. repeat split; auto; try lia; rewrite ?Efb; cbn; try lia; try congruence.
    + rewrite Eo. destruct (Z.leb_spec limit f), (Z.leb_spec limit (Z.min limit (f + 1))); auto; lia.
    + intros Ho. destruct (Hlast Ho) as (i & Hi & Ei). exists i. rewrite Ec, Eck. split; [lia | exact Ei].
Qed.

Lemma down_run keys t0 limit reset f c : limit < int64_max -> (t0 <= tick c)%nat ->
  within t0 reset (clk c) -> counted t0 limit reset f c -> exists bs c',
  redis_allow_keys keys c = (Ret bs, c') /\ length bs = length keys /\
  counted t0 limit reset (Z.min limit (f + Z.of_nat (length keys))) c' /\
  rw_server (st c') = Nat.iter (Nat.min (length keys) (Z.to_nat (limit - f))) hit (rw_server (st c)).
Proof.
  intros Hl. revert f c. induction keys as [| key keys IH]; intros f c Ht Hw Hc.
  - exists [], c. cbn [length Nat.min Nat.iter]. rewrite Z.add_0_r, Z.min_r by apply Hc. auto.
  - destruct (down_step key t0 limit reset f c Hl Ht Hw Hc) as (b & c1 & E1 & Eck & Ht1 & Hc1 & Es1).
    destruct (IH (Z.min limit (f + 1)) c1 Ht1) as (bs & c' & E & Ebs & Hc' & Es); [now rewrite Eck | exact Hc1 |].
    exists (b :: bs), c'. cbn [redis_allow_keys length]. unfold mbind, M_bind. rewrite E1, E.
    split; [reflexivity |]. split; [now rewrite <- Ebs |]. split.
    + replace (Z.min limit (f + Z.of_nat (S (length keys))))
        with (Z.min limit (Z.min limit (f + 1) + Z.of_nat (length keys))) by lia. exact Hc'.
    + rewrite Es, Es1. pose proof (cnt_range _ _ _ _ _ Hc). destruct (Z.ltb_spec f limit).
      * replace (Z.to_nat (limit - f)) with (S (Z.to_nat (limit - Z.min limit (f + 1)))) by lia.
        cbn [Nat.min]. now rewrite Nat.iter_succ_r.
      * replace (Z.to_nat (limit - f)) with O by lia.
        replace (Z.to_nat (limit - Z.min limit (f + 1))) with O by lia. now rewrite Nat.min_0_r.
Qed.
End Down.

(** ** The script as an integer token bucket *)

Section ScriptRefinement.
Context {R V : Type} `{RedisHashesLaws R V}.

Definition field (r : R) (key f : string) : option float64 := hget r key f ≫= lua_tonumber.

(** The hash at [key] holds the bucket [b]; no hash is no bucket. *)
Definition stores (r : R) (key : string) (b : option IBucket) : Prop :=
  match b with
  | Some b => exists x y, field r key "tokens" = Some x /\ holds x (itokens b) /\
      field r key "lastRefill" = Some y /\ holds y (ilast b)
  | None => field r key "tokens" = None /\ field r key "lastRefill" = None
  end.

(** The bucket a call finds: a missing one is full. *)
Definition found (burst rate s : Z) (b : option IBucket) : IBucket :=
  match b with Some b => b | None => mkIBucket burst burst rate s end.

Lemma math_min_holds x y a b : holds x a -> holds y b -> holds (math_min x y) (Z.min a b).
Proof.
  intros Hx Hy. unfold math_min. rewrite (holds_ltb y x b a) by assumption.
  destruct (Z.ltb_spec b a); [rewrite Z.min_r by lia | rewrite Z.min_l by lia]; assumption.
Qed.

Lemma field_written r key fvs f x : NoDup fvs.*1 -> (f, lua_tovalue x) ∈ fvs -> f64_ok x ->
  forall k ttl, 0 < ttl -> field (expire k ttl (hmset key fvs r)) key f = Some x.
Proof.
  intros Hn Hin Hx k ttl Ht. unfold field. rewrite hget_expire by assumption.
  rewrite (hget_hmset _ _ _ (lua_tovalue x)) by assumption. cbn. apply tonumber_tovalue, Hx.
Qed.

Lemma field_other r key key' fvs f : key <> key' ->
  forall k ttl, 0 < ttl -> field (expire k ttl (hmset key fvs r)) key' f = field r key' f.
Proof. intros Hne k ttl Ht. unfold field. now rewrite hget_expire, hget_hmset_ne. Qed.

(** Values within the range where doubles count exactly. *)
Record in_range (burst rate s : Z) (b : IBucket) : Prop := {
  rng_ok : ibucket_ok b;
  rng_max : imax b = burst;
  rng_rate : irate b = rate;
  rng_last : 0 <= ilast b <= s;
  rng_time : s <= 2 ^ 53;
  rng_sum : burst + (s - ilast b) * rate <= 2 ^ 53
}.

Lemma script_step key burst rate s ttl r ob : 0 < ttl -> 0 <= rate <= 2 ^ 53 -> stores r key ob ->
  in_range burst rate s (found burst rate s ob) ->
  exists r', tokenBucketScript key (f64_of_Z burst) (f64_of_Z rate) (f64_of_Z s) ttl r =
    (Z.b2z (iallow_at s (found burst rate s ob)).1, r') /\
    stores r' key (Some (iallow_at s (found burst rate s ob)).2) /\
    (forall key' f, key' <> key -> field r' key' f = field r key' f).
Proof.
  intros Httl Hrate Hst [Hok Em Er Hl Hs Hsum]. set (b := found burst rate s ob) in *.
  assert (0 <= (s - ilast b) * rate) by (apply Z.mul_nonneg_nonneg; lia).
  destruct Hok as [Ht _].
  assert (holds (f64_of_Z burst) burst) as Hb by (apply holds_of_Z; lia).
  assert (holds (f64_of_Z s) s) as Hnow by (apply holds_of_Z; lia).
  assert (holds (tonumber_or (hget r key "tokens") (f64_of_Z burst)) (itokens b) /\
    holds (tonumber_or (hget r key "lastRefill") (f64_of_Z s)) (ilast b)) as [Htok Hlast].
  { unfold tonumber_or. fold (field r key "tokens"). fold (field r key "lastRefill").
    destruct ob as [b' |]; cbn in Hst.
    - destruct Hst as (x & y & -> & Hx & -> & Hy). now split.
    - destruct Hst as [-> ->]. now split. }
  assert (holds (math_min (f64_of_Z burst) (f64_add (tonumber_or (hget r key "tokens") (f64_of_Z burst))
    (f64_mul (f64_sub (f64_of_Z s) (tonumber_or (hget r key "lastRefill") (f64_of_Z s))) (f64_of_Z rate))))
    (irefill s b)) as Hn.
  { unfold irefill. rewrite Em, Er. apply math_min_holds; [exact Hb |].
    apply holds_add; [exact Htok | | lia].
    apply holds_mul; [apply holds_sub; [exact Hnow | exact Hlast | lia] | apply holds_of_Z; lia | lia..]. }
  unfold tokenBucketScript. cbv zeta.
  rewrite (holds_leb f64_one _ 1 _ (holds_of_Z 1 ltac:(lia)) Hn).
  assert (forall x z, holds x z -> z = itokens (iallow_at s b).2 -> exists r',
    expire key ttl (hmset key [("tokens", lua_tovalue x); ("lastRefill", lua_tovalue (f64_of_Z s))] r) = r' /\
    stores r' key (Some (iallow_at s b).2) /\
    (forall key' f, key' <> key -> field r' key' f = field r key' f)) as Hwrite.
  { intros x z Hx Ez. eexists. split; [reflexivity |]. split.
    - exists x, (f64_of_Z s). subst z.
      assert (NoDup ["tokens"; "lastRefill"]) as Hnd
        by (apply NoDup_cons; split; [apply not_elem_of_cons; split; [discriminate | apply not_elem_of_nil] | apply NoDup_singleton]).
      split; [apply field_written; [exact Hnd | left | apply Hx | assumption] |].
      split; [exact Hx |].
      split; [apply field_written; [exact Hnd | right; left | apply Hnow | assumption] |].
      replace (ilast (iallow_at s b).2) with s; [exact Hnow |].
      unfold iallow_at. now destruct (1 <=? irefill s b).
    - intros key' f Hne. apply field_other; [congruence | assumption]. }
  unfold iallow_at in *. destruct (Z.leb_spec 1 (irefill s b)); cbn [fst snd Z.b2z itokens] in *.
  - destruct (Hwrite (f64_sub (math_min (f64_of_Z burst) (f64_add (tonumber_or (hget r key "tokens") (f64_of_Z burst))
      (f64_mul (f64_sub (f64_of_Z s) (tonumber_or (hget r key "lastRefill") (f64_of_Z s))) (f64_of_Z rate)))) f64_one)
      (irefill s b - 1)) as (r' & -> & Hr').
    + apply holds_sub; [exact Hn | apply holds_of_Z; lia |]. unfold irefill in *. lia.
    + reflexivity.
    + eauto.
  - destruct (Hwrite _ _ Hn eq_refl) as (r' & -> & Hr'). eauto.
Qed.

(** Between two calls Redis may drop the hashes whose last call is at least
    [ttl] seconds old. *)
Definition may_expire (ttl s : Z) (r r' : R) : Prop := forall key,
  (forall f, field r' key f = field r key f) \/
  ((forall f, field r' key f = None) /\
   forall y l, field r key "lastRefill" = Some y -> holds y l -> l + ttl <= s).

(** Calls of the script, each with its key and its Unix second, and what
    they return. *)
Inductive script_trace (burst rate ttl : Z) : list (string * Z) -> R -> list Z -> Prop :=
| trace_nil r : script_trace burst rate ttl [] r []
| trace_call key s calls r r1 z r2 zs :
    may_expire ttl s r r1 ->
    tokenBucketScript key (f64_of_Z burst) (f64_of_Z rate) (f64_of_Z s) ttl r1 = (z, r2) ->
    script_trace burst rate ttl calls r2 zs ->
    script_trace burst rate ttl ((key, s) :: calls) r (z :: zs).

(** The specification: an integer bucket per key, never dropped. *)
Fixpoint ikeys_run (burst rate : Z) (calls : list (string * Z)) (m : gmap string IBucket) : list bool :=
  match calls with
  | [] => []
  | (key, s) :: calls' =>
      let x := iallow_at s (found burst rate s (m !! key)) in
      x.1 :: ikeys_run burst rate calls' (<[key := x.2]> m)
  end.

(** What the hash at a key is to the bucket of the specification at second
    [s]: the same, or dropped after [ttl] seconds. *)
Definition tracks (ttl s : Z) (r : R) (key : string) (b : option IBucket) : Prop :=
  stores r key b \/ (stores r key None /\ exists b', b = Some b' /\ ilast b' + ttl <= s).

Definition bucket_in (burst rate s : Z) (b : IBucket) : Prop :=
  ibucket_ok b /\ imax b = burst /\ irate b = rate /\ 0 <= ilast b <= s.

Lemma stores_same r r' key b : (forall f, field r' key f = field r key f) -> stores r key b -> stores r' key b.
Proof. intros E. destruct b; cbn; now rewrite !E. Qed.

Lemma tracks_expire ttl s s' r r' key b : s <= s' -> may_expire ttl s' r r' -> tracks ttl s r key b ->
  tracks ttl s' r' key b.
Proof.
  intros Hs He Ht. destruct (He key) as [E | [E Hold]].
  - destruct Ht as [Ht | (Ht & b' & Eb & Hb)]; [left | right].
    + now apply (stores_same r).
    + split; [now apply (stores_same r) |]. exists b'. split; [exact Eb | lia].
  - assert (stores r' key None) as Hn by (split; apply E).
    destruct Ht as [Ht | (Ht & b' & Eb & Hb)].
    + destruct b as [b |]; [| now left]. right. split; [exact Hn |]. exists b. split; [reflexivity |].
      destruct Ht as (x & y & _ & _ & Ey & Hy). eapply Hold; eassumption.
    + right. split; [exact Hn |]. exists b'. split; [exact Eb | lia].
Qed.

(** A bucket idle for the time it takes to fill is as good as none. *)
Lemma idle_full burst rate ttl s b : burst <= ttl * rate -> bucket_in burst rate s b -> ilast b + ttl <= s ->
  iallow_at s b = iallow_at s (mkIBucket burst burst rate s).
Proof.
  intros Hfill ([Ht Hr] & Em & Er & Hl) Hidle.
  assert (ttl * rate <= (s - ilast b) * rate) by (apply Z.mul_le_mono_nonneg_r; lia).
  assert (irefill s b = burst) as E1 by (unfold irefill; rewrite Em, Er; lia).
  assert (irefill s (mkIBucket burst burst rate s) = burst) as E2 by (unfold irefill; cbn; lia).
  unfold iallow_at. rewrite E1, E2, Em, Er. reflexivity.
Qed.

Lemma tracked_call burst rate ttl s r key ob : burst <= ttl * rate -> 0 <= burst -> 0 <= rate -> 0 <= s ->
  (forall b, ob = Some b -> bucket_in burst rate s b) -> tracks ttl s r key ob ->
  exists ob', stores r key ob' /\ bucket_in burst rate s (found burst rate s ob') /\
    iallow_at s (found burst rate s ob') = iallow_at s (found burst rate s ob).
Proof.
  intros Hfill Hb Hr Hs Hin [Ht | (Hn & b & -> & Hidle)].
  - exists ob. split; [exact Ht |]. split; [| reflexivity]. destruct ob as [b |]; cbn; [now apply Hin |].
    unfold bucket_in, ibucket_ok. cbn. lia.
  - exists None. split; [exact Hn |]. split; [unfold bucket_in, ibucket_ok; cbn; lia |].
    cbn. symmetry. apply (idle_full burst rate ttl); auto.
Qed.

Lemma bucket_in_call burst rate s b : bucket_in burst rate s b -> bucket_in burst rate s (iallow_at s b).2.
Proof.
  intros (Hok & Em & Er & Hl). destruct (iallow_ok s b Hok) as (Hok' & El & Em' & Er'); [lia |].
  unfold bucket_in. rewrite El, Em', Er'. split; [exact Hok' |]. lia.
Qed.

Lemma trace_refines burst rate ttl last calls s r m zs : 0 < ttl -> 0 <= rate <= 2 ^ 53 -> 0 <= burst <= ttl * rate ->
  ascending s calls.*2 -> Forall (fun x => x <= last) calls.*2 -> 0 <= s -> last <= 2 ^ 53 ->
  burst + last * rate <= 2 ^ 53 ->
  (forall key b, m !! key = Some b -> bucket_in burst rate s b) ->
  (forall key, tracks ttl s r key (m !! key)) ->
  script_trace burst rate ttl calls r zs -> zs = Z.b2z <$> ikeys_run burst rate calls m.
Proof.
  intros Httl Hrate Hfill Ha HF Hs Hlast Hsum. revert s r m zs Ha HF Hs.
  induction calls as [| [key u] calls IH]; intros s r m zs Ha HF Hs Hin Htr Htrace.
  { inversion Htrace. reflexivity. }
  inversion Htrace as [| ? ? ? ? r1 z r2 zs' Hexp Hcall Hrest]; subst. cbn [fmap list_fmap snd] in Ha, HF.
  destruct Ha as [Hu Ha]. inversion HF as [| ? ? Hul HF']; subst.
  assert (forall k b, m !! k = Some b -> bucket_in burst rate u b) as Hin'.
  { intros k b E. destruct (Hin k b E) as (Hk & Hk1 & Hk2 & Hk3). split; [exact Hk | lia]. }
  assert (forall k, tracks ttl u r1 k (m !! k)) as Htr' by (intros k; eapply tracks_expire; eauto).
  destruct (tracked_call burst rate ttl u r1 key (m !! key)) as (ob & Hst & Hbi & E); try lia; eauto.
  destruct Hbi as (Hok & Em & Er & Hl).
  destruct (script_step key burst rate u ttl r1 ob Httl Hrate Hst) as (r2' & Ecall & Hst' & Hother).
  { assert ((u - ilast (found burst rate u ob)) * rate <= last * rate)
      by (apply Z.mul_le_mono_nonneg_r; lia). split; auto; lia. }
  rewrite Hcall in Ecall. injection Ecall as Ez Er2. subst r2' z. rewrite E in Hst' |- *.
  cbn [ikeys_run fmap list_fmap]. f_equal. apply (IH u r2); auto; [lia | |].
  - intros k b. destruct (decide (k = key)) as [-> | Hne].
    + rewrite lookup_insert_eq. intros [= <-]. rewrite <- E. apply bucket_in_call. exact (conj Hok (conj Em (conj Er Hl))).
    + rewrite lookup_insert_ne by congruence. apply Hin'.
  - intros k. destruct (decide (k = key)) as [-> | Hne].
    + rewrite lookup_insert_eq. left. exact Hst'.
    + rewrite lookup_insert_ne by congruence. destruct (Htr' k) as [Ht | (Ht & Ho)]; [left | right; split; auto];
        apply (stores_same r1); auto.
Qed.
End ScriptRefinement.

(** ** Theorems *)

(** C6. However the calls for different keys are interleaved, and whatever
    hashes expire between them, the Lua script answers every call as an
    integer token bucket per key that is never dropped, provided a bucket
    fills up within the expiry time and the numbers stay within [2 ^ 53]. *)
Theorem script_refines_integers {R V} `{RedisHashesLaws R V} burst rate ttl last calls (r : R) zs :
  0 < ttl -> 0 <= rate <= 2 ^ 53 -> 0 <= burst <= ttl * rate ->
  ascending 0 calls.*2 -> Forall (fun s => s <= last) calls.*2 -> last <= 2 ^ 53 ->
  burst + last * rate <= 2 ^ 53 -> (forall key f, hget r key f = None) ->
  script_trace burst rate ttl calls r zs -> zs = Z.b2z <$> ikeys_run burst rate calls ∅.
Proof.
  intros Httl Hr Hb Ha HF Hl Hsum Hempty. apply (trace_refines burst rate ttl last calls 0 r); auto; [lia | |].
  - intros key b. now rewrite lookup_empty.
  - intros key. rewrite lookup_empty. left. unfold stores, field. now rewrite !Hempty.
Qed.

(** C14. One call of [AllowKey]: while the circuit is open and the reset
    timeout has not passed, the fallback answers and Redis is not asked;
    otherwise Redis is asked, its answer is the result and closes the
    circuit, and its failure is counted, perhaps opens the circuit, and
    leaves the answer to the fallback. *)
Theorem redis_allow_key {F R} `{KeyedRateLimiter F} `{RedisServer R} key (c : Clocked (redis_world F R)) :
  circuit_ok (rw_limiter (st c)) ->
  let l := rw_limiter (st c) in
  let c1 := after_check c in
  let c2 := next_tick c1 in
  (tries c = false -> AllowKey key c = on_fallback (LAllowKey (set_key key)) c1) /\
  (tries c = true -> forall z r', asked key c1 = (inl z, r') -> exists l',
    AllowKey key c = (Ret (z =? 1), with_st c2 (mkRedisWorld l' r')) /\
    breaker_of l' = BClosed 0 /\ fallback l' = fallback l) /\
  (tries c = true -> forall e r', asked key c1 = (inr e, r') -> exists l',
    AllowKey key c = on_fallback (LAllowKey (set_key key)) (with_st (next_tick c2) (mkRedisWorld l' r')) /\
    breaker_of l' = breaker_failure (threshold l) (breaker_of l) (clk c2 (tick c2)) /\
    fallback l' = fallback l).
Proof.
  intros Hok l c1 c2. split; [| split].
  - apply AllowKey_short.
  - intros Ht z r' E. eexists. split; [exact (AllowKey_success key c z r' Ht E) |]. now split.
  - intros Ht e r' E. eexists. split; [exact (AllowKey_failure key c e r' Hok Ht E) |].
    split; [now apply failed_breaker | reflexivity].
Qed.

(** C15. While Redis is down, and as long as the readings of the clock stay
    within the reset timeout of each other, calls one after the other of a
    limiter whose circuit starts closed with no failures recorded all get an
    answer, exactly the first [threshold] of them reach Redis, and the circuit
    is open from the [threshold]-th on.  (In a longer outage the calls after a
    reset timeout are trials, [redis_allow_key].) *)
Theorem breaker_threshold {F R} `{KeyedRateLimiter F} `{RedisServer R} hit keys (c : Clocked (redis_world F R)) :
  let l := rw_limiter (st c) in
  down R hit -> answers F -> circuitOpen l = false -> failures l = 0 -> 1 <= threshold l < int64_max ->
  (forall i j, (tick c <= i <= j)%nat -> time_sub (clk c j) (clk c i) <= resetTimeout l) ->
  exists bs c', redis_allow_keys keys c = (Ret bs, c') /\ length bs = length keys /\
    rw_server (st c') = Nat.iter (Nat.min (length keys) (Z.to_nat (threshold l))) hit (rw_server (st c)) /\
    circuitOpen (rw_limiter (st c')) = (threshold l <=? Z.of_nat (length keys)).
Proof.
  intros l Hd Hf Ho Hz Hl Hw.
  destruct (down_run hit Hd Hf keys (tick c) (threshold l) (resetTimeout l) 0 c) as (bs & c' & E & Hlen & Hc & Hs).
  - lia.
  - lia.
  - exact Hw.
  - split; auto; [lia | | ].
    + fold l. rewrite Ho. symmetry. apply Z.leb_gt. lia.
    + fold l. rewrite Ho. discriminate.
  - exists bs, c'. split; [exact E |]. split; [exact Hlen |]. rewrite Z.sub_0_r in Hs. split; [exact Hs |].
    rewrite (cnt_open _ _ _ _ _ Hc). destruct (Z.leb_spec (threshold l) (Z.of_nat (length keys)));
      [apply Z.leb_le | apply Z.leb_gt]; lia.
Qed.

(** The bootstrap never fails: it gives the Redis limiter when the URL
    is not blank, parses and answers a ping, with a closed circuit and the
    normalised settings; in every other case it gives the in-memory limiter
    of the same rate and burst. *)
Theorem bootstrap_total {S} ParseURL ping cfg ttl (c : Clocked S) :
  exists l c', NewRedisOrPartitionedRateLimiter ParseURL ping cfg ttl c = (Ret (l, None), c') /\
  let reachable := trim_space (RedisURL cfg) <> "" /\
    exists opts, redisClientOptions ParseURL cfg = inl opts /\ ping opts = None in
  match l with
  | inl rl => reachable /\ maxTokens rl = Burst cfg /\ refillRate rl = RequestsPerSecond cfg /\
      breaker_of rl = BClosed 0 /\ 1 <= threshold rl /\ 1 <= resetTimeout rl /\
      prl_ok (fallback rl)
  | inr p => ~ reachable /\ prl_ok p /\ NewPartitionedRateLimiter (RequestsPerSecond cfg) (Burst cfg) ttl c = (Ret p, c')
  end.
Proof.
  intros. unfold NewRedisOrPartitionedRateLimiter, NewRedisRateLimiter.
  assert (forall d, exists p, NewPartitionedRateLimiter (RequestsPerSecond cfg) (Burst cfg) d c =
    (Ret p, next_tick (next_tick c)) /\ prl_ok p) as Hnew.
  { intros d. destruct (new_simulates (mkPConfig (RequestsPerSecond cfg) (Burst cfg) d 0 0) c)
      as (p & ps & E & _ & Hsim & _). exists p. split; [exact E | apply Hsim]. }
  destruct (Hnew ttl) as (p & Ep & Hp).
  assert (forall d, 0 < d -> forall x, 1 <= (if x <=? 0 then d else x)) as Hdef
    by (intros d Hd x; destruct (Z.leb_spec x 0); lia).
  destruct (decide (trim_space (RedisURL cfg) = "")) as [Eu | Eu].
  { exists (inr p), (next_tick (next_tick c)). unfold mbind, M_bind. rewrite Ep. tauto. }
  destruct (redisClientOptions ParseURL cfg) as [opts | e] eqn:Eo.
  2: { exists (inr p), (next_tick (next_tick c)). unfold mbind, M_bind. cbn [mret M_ret]. rewrite Ep.
       split; [reflexivity |]. split; [intros (_ & o & E & _); discriminate | now split]. }
  destruct (ping opts) as [e |] eqn:Epg.
  { exists (inr p), (next_tick (next_tick c)). unfold mbind, M_bind. cbn [mret M_ret]. rewrite Ep.
    split; [reflexivity |]. split; [intros (_ & o & [= <-] & E); congruence | now split]. }
  destruct (normalizeRedisRateLimiterSettings cfg) as [[th rt] ks] eqn:En.
  destruct (Hnew (wrap64 (ks * Second))) as (q & Eq & Hq).
  eexists (inl _), (next_tick (next_tick c)). unfold mbind, M_bind. rewrite Eq.
  split; [reflexivity |]. cbn. injection En as <- <- _.
  refine (conj (conj Eu (ex_intro _ opts (conj eq_refl Epg)))
    (conj eq_refl (conj eq_refl (conj eq_refl (conj _ (conj _ Hq)))))); apply Hdef; unfold Second; lia.
Qed.

(** The expiry of a hash is the key TTL rounded up to whole seconds,
    an hour for a TTL that is not positive; beyond the largest int64 less a
    second the sum wraps around and the expiry is negative. *)
Theorem redis_key_ttl cfg : is_int64 (KeyTTL cfg) ->
  let n := (normalizeRedisRateLimiterSettings cfg).2 in
  (KeyTTL cfg <= 0 -> n = 3600) /\
  (0 < KeyTTL cfg <= int64_max - (Second - 1) -> (n - 1) * Second < KeyTTL cfg <= n * Second) /\
  (int64_max - (Second - 1) < KeyTTL cfg -> n < 0).
Proof.
  intros Hr n. unfold n, normalizeRedisRateLimiterSettings, is_int64, int64_min, int64_max, Second in *. clear n.
  cbn [snd]. destruct (Z.leb_spec (KeyTTL cfg) 0).
  { split; [reflexivity | lia]. }
  split; [lia |].
  assert (forall k, is_int64 (KeyTTL cfg + 999999999 + k * 2 ^ 64) ->
    wrap64 (wrap64 (KeyTTL cfg + 1000000000) - 1) = KeyTTL cfg + 999999999 + k * 2 ^ 64) as Hw.
  { unfold is_int64, int64_min, int64_max. intros k Hk.
    destruct (Z.le_gt_cases (KeyTTL cfg + 1000000000) (2 ^ 63 - 1)).
    - rewrite (wrap64_small (KeyTTL cfg + 1000000000)) by (unfold is_int64, int64_min, int64_max; lia).
      rewrite (wrap64_unique _ k) by (unfold is_int64, int64_min, int64_max; lia). lia.
    - rewrite (wrap64_unique (KeyTTL cfg + 1000000000) (-1)) by (unfold is_int64, int64_min, int64_max; lia).
      rewrite (wrap64_unique _ (k + 1)) by (unfold is_int64, int64_min, int64_max; lia). lia. }
  unfold is_int64, int64_min, int64_max in Hw. split; intros Hb.
  - rewrite (Hw 0) by lia. set (x := KeyTTL cfg + 999999999 + 0 * 2 ^ 64).
    assert (x = KeyTTL cfg + 999999999) as Ex by (unfold x; lia). clearbody x.
    rewrite (Z.quot_div_nonneg x 1000000000) by lia. pose proof (Z.div_mod x 1000000000).
    pose proof (Z.mod_pos_bound x 1000000000). lia.
  - rewrite (Hw (-1)) by lia.
    set (x := - (KeyTTL cfg + 999999999 + -1 * 2 ^ 64)).
    replace (KeyTTL cfg + 999999999 + -1 * 2 ^ 64) with (- x) by (unfold x; lia).
    assert (1000000000 <= x) as Hx by (unfold x; lia). clearbody x.
    rewrite (Z.quot_opp_l x 1000000000), (Z.quot_div_nonneg x 1000000000) by lia.
    pose proof (Z.div_str_pos x 1000000000). lia.
Qed.

(** ** Witnesses *)

(** Redis as a map of hashes of doubles that drops nothing. *)
Definition demo_redis : Type := gmap string (gmap string float64).

#[export] Instance demo_hashes : RedisHashes demo_redis float64 := {
  hget r k f := r !! k ≫= fun h => h !! f;
  hmset k fvs r := <[k := list_to_map fvs ∪ default ∅ (r !! k)]> r;
  expire _ _ r := r;
  lua_tonumber := Some;
  lua_tovalue := id
}.

#[export] Instance demo_hashes_laws : RedisHashesLaws demo_redis float64.
Proof.
  unfold demo_redis. split; cbn.
  - reflexivity.
  - intros k fvs f v r Hn Hin.
    rewrite (lookup_insert_eq (M := gmap string) (r : gmap string (gmap string float64)) k
      (list_to_map fvs ∪ default ∅ (r !! k))). cbn.
    apply lookup_union_Some_l. now apply elem_of_list_to_map_1.
  - intros k k' fvs f r Hne.
    now rewrite (lookup_insert_ne (M := gmap string) (r : gmap string (gmap string float64)) k k').
  - reflexivity.
Qed.

(** The calls one after another. *)
Fixpoint script_answers (burst rate ttl : Z) (calls : list (string * Z)) (r : demo_redis) : list Z :=
  match calls with
  | [] => []
  | (key, s) :: calls' =>
      let x := tokenBucketScript key (f64_of_Z burst) (f64_of_Z rate) (f64_of_Z s) ttl r in
      x.1 :: script_answers burst rate ttl calls' x.2
  end.

Lemma script_answers_trace burst rate ttl calls r : script_trace burst rate ttl calls r (script_answers burst rate ttl calls r).
Proof.
  revert r. induction calls as [| [key s] calls IH]; intros r; [constructor |]. cbn [script_answers].
  eapply trace_call; [intros k; left; reflexivity | apply surjective_pairing | apply IH].
Qed.

Definition demo_calls : list (string * Z) := [("a", 100); ("a", 100); ("b", 101); ("a", 103)].

Lemma demo_answers : script_answers 1 1 60 demo_calls ∅ = [1; 0; 1; 1].
Proof. vm_compute. reflexivity. Qed.

Lemma script_refines_integers_witness : script_trace 1 1 60 demo_calls (∅ : demo_redis) [1; 0; 1; 1] /\
  [1; 0; 1; 1] = Z.b2z <$> ikeys_run 1 1 demo_calls ∅.
Proof.
  pose proof (script_answers_trace 1 1 60 demo_calls ∅) as Ht. rewrite demo_answers in Ht. split; [exact Ht |].
  apply (script_refines_integers 1 1 60 200 demo_calls (∅ : demo_redis)); try lia.
  - cbn. lia.
  - cbn. repeat (apply List.Forall_cons; [lia |]). apply List.Forall_nil.
  - reflexivity.
  - exact Ht.
Defined.

(** A server that counts the commands sent to it and answers none. *)
#[export] Instance demo_down : RedisServer nat := fun _ _ _ _ _ n => (inr EDeadlineExceeded, Datatypes.S n).

Definition demo_limiter : RedisRateLimiter RateLimiter :=
  mkRedis (mkRateLimiter (f64_of_Z 1) (f64_of_Z 1) (f64_of_Z 1) 0) "ratelimit:" 1 1 3600 0 0 false 2 (30 * Second).

Definition demo_call : Clocked (redis_world RateLimiter nat) :=
  mkClocked (fun i => Z.min (Z.of_nat i) 9) (fun i => Z.of_nat i) 0 (mkRedisWorld demo_limiter 0%nat).

Lemma redis_allow_key_witness : exists l',
  AllowKey "k" demo_call =
    on_fallback (LAllowKey "k") (mkClocked (clk demo_call) (wall demo_call) 2 (mkRedisWorld l' 1%nat)) /\
  breaker_of l' = BClosed 1.
Proof.
  assert (circuit_ok (rw_limiter (st demo_call))) as Hok
    by (split; [unfold int64_max; cbn; lia | discriminate]).
  destruct (redis_allow_key "k" demo_call Hok) as (_ & _ & Hfail).
  destruct (Hfail eq_refl EDeadlineExceeded 1%nat eq_refl) as (l' & E & Eb & _).
  exists l'. split; [exact E | exact Eb].
Defined.

Lemma breaker_threshold_witness : exists bs c',
  redis_allow_keys ["a"; "b"; "c"] demo_call = (Ret bs, c') /\ rw_server (st c') = 2%nat.
Proof.
  destruct (breaker_threshold Datatypes.S ["a"; "b"; "c"] demo_call) as (bs & c' & E & _ & Es & _).
  - intros key m rate t ttl r. now exists EDeadlineExceeded.
  - intros key c. destruct (allow_at (clk c (tick c)) (st c)) as [b l] eqn:E.
    exists b, (with_st (next_tick c) l). unfold LAllowKey, RateLimiter_keyed, RateLimit.AllowKey, RateLimit.Allow.
    mstep. rewrite E. repeat split. cbn. lia.
  - reflexivity.
  - reflexivity.
  - unfold int64_max. cbn. lia.
  - intros i j Hij. cbn. unfold time_sub, int64_min, int64_max, Second. lia.
  - exists bs, c'. split; [exact E | exact Es].
Defined.

Lemma redis_key_ttl_witness : (normalizeRedisRateLimiterSettings (mkRedisConfig "" "" 0 false 1 1 1500000000 0 0)).2 = 2.
Proof.
  assert (is_int64 1500000000) as Hr by (unfold is_int64, int64_min, int64_max; lia).
  destruct (redis_key_ttl (mkRedisConfig "" "" 0 false 1 1 1500000000 0 0) Hr) as (_ & Hc & _).
  cbn [KeyTTL] in Hc. assert (0 < 1500000000 <= int64_max - (Second - 1)) as Hb by (unfold int64_max, Second; lia).
  specialize (Hc Hb). unfold Second in Hc. lia.
Defined.
