(* ===== verification/RedisConc.v ===== *)
(** * Concurrent calls of the Redis limiter

    [AllowKey] of [go/middleware/ratelimit_redis.go] from any number of
    goroutines: the test of the circuit, the command to Redis, the record of
    its result and the call of the fallback are steps, and [mu] makes the
    test and the record atomic.  The steps are the parts of
    RedisLimiter.v's [AllowKey], which one call alone takes in order
    ([one_call_alone]).  The fallback is a limiter whose call is one step.

    The theorem ([outage_bound]): in an outage within the reset timeout, calls
    that overlap can all pass a closed circuit before it opens, and no more:
    Redis is asked at most [threshold - 1] times more than calls overlap.  After the reset
    timeout an open circuit lets every call through until one is recorded
    ([trial_not_single]). *)

From S2P Require Import Prelude Float64 GoStrings GoErrors RateLimit Partitioned RedisLimiter.

#[local] Open Scope Z_scope.

(** Where a call is: before the test of the circuit, before the clock is
    read for the command, before the command, with its result to record,
    before the fallback, or answered. *)
Inductive point : Type :=
| AtCheck (key : string)
| AtClock (key : string)
| AtScript (key : string) (now : Z)
| AtRecord (key : string) (r : Z + error)
| AtFallback (key : string)
| Answered (b : bool).

Section Conc.
Context {F R : Type} `{KeyedRateLimiter F} `{RedisServer R}.
Abbreviation World := (redis_world F R).

(** [asks] counts the commands sent, for the statements. *)
Record cstate : Type := mkCState { shared : Clocked World; calls : list point; asks : nat }.

Definition goes (t : nat) (p : point) (c : Clocked World) (s : cstate) : cstate :=
  mkCState c (<[t := p]> (calls s)) (asks s).

(** The step of call [t]: none once it is answered, or if it panics. *)
Definition call_step (t : nat) (s : cstate) : option cstate :=
  match calls s !! t with
  | Some (AtCheck key) =>
      match on_limiter isCircuitOpen (shared s) with
      | (Ret opened, c) => Some (goes t (if opened : bool then AtFallback key else AtClock key) c s)
      | (Panic _, _) => None
      end
  | Some (AtClock key) =>
      match now_unix (shared s) with
      | (Ret n, c) => Some (goes t (AtScript key n) c s)
      | (Panic _, _) => None
      end
  | Some (AtScript key n) =>
      let rl := rw_limiter (st (shared s)) in
      match on_server (script_Run (keyPrefix rl +:+ key) (maxTokens rl) (refillRate rl) (f64_of_Z n) (keyTTLSeconds rl)) (shared s) with
      | (Ret r, c) => Some (mkCState c (<[t := AtRecord key r]> (calls s)) (S (asks s)))
      | (Panic _, _) => None
      end
  | Some (AtRecord key (inr _)) =>
      match on_limiter recordFailure (shared s) with
      | (Ret _, c) => Some (goes t (AtFallback key) c s)
      | (Panic _, _) => None
      end
  | Some (AtRecord key (inl result)) =>
      match on_limiter recordSuccess (shared s) with
      | (Ret _, c) => Some (goes t (Answered (result =? 1)) c s)
      | (Panic _, _) => None
      end
  | Some (AtFallback key) =>
      match on_fallback (LAllowKey key) (shared s) with
      | (Ret b, c) => Some (goes t (Answered b) c s)
      | (Panic _, _) => None
      end
  | Some (Answered _) | None => None
  end.

(** A call of [AllowKey] begins. *)
Definition begin_call (key : string) (s : cstate) : cstate :=
  mkCState (shared s) (calls s ++ [AtCheck (set_key key)]) (asks s).

(** Other clients of Redis change what it holds. *)
Definition with_server (r : R) (c : Clocked World) : Clocked World := with_st c (mkRedisWorld (rw_limiter (st c)) r).

Inductive step (s s' : cstate) : Prop :=
| step_call t : call_step t s = Some s' -> step s s'
| step_begin key : s' = begin_call key s -> step s s'
| step_redis r : s' = mkCState (with_server r (shared s)) (calls s) (asks s) -> step s s'.

(** The calls not answered yet, and those that passed the test and have not
    recorded a result. *)
Definition active (p : point) : nat := match p with Answered _ => 0 | _ => 1 end.
Definition passed (p : point) : nat := match p with AtClock _ | AtScript _ _ | AtRecord _ _ => 1 | _ => 0 end.
Definition unasked (p : point) : nat := match p with AtClock _ | AtScript _ _ => 1 | _ => 0 end.

Definition overlapping (s : cstate) : nat := sum_list (active <$> calls s).
Definition in_flight (s : cstate) : nat := sum_list (passed <$> calls s).

(** Runs in which at most [k] calls overlap. *)
Definition crowd (k : nat) (s s' : cstate) : Prop := step s s' /\ (overlapping s' <= k)%nat.

(** ** One call alone *)

(** The points that are left of a call: a run to its end takes fewer. *)
Definition steps_left (p : point) : nat :=
  match p with AtCheck _ => 5 | AtClock _ => 4 | AtScript _ _ => 3 | AtRecord _ _ => 2 | AtFallback _ => 1 | Answered _ => 0 end.

Lemma call_step_left t s s' p : calls s !! t = Some p -> call_step t s = Some s' ->
  exists q, calls s' = <[t := q]> (calls s) /\ (steps_left q < steps_left p)%nat.
Proof.
  intros Ep. unfold call_step. rewrite Ep. destruct p as [key | key | key n | key [z | e] | key | b]; cbv zeta;
    repeat match goal with |- match ?x with _ => _ end = _ -> _ => destruct x as [[? | ?] ?]; try discriminate end;
    try discriminate; intros [= <-]; eexists; (split; [reflexivity |]); cbn; try lia.
  match goal with |- context [if ?b then _ else _] => destruct b end; cbn; lia.
Qed.

(** A call alone. *)
Fixpoint run_call (fuel : nat) (s : cstate) : option cstate :=
  match fuel with
  | O => Some s
  | S fuel' => match call_step 0 s with Some s' => run_call fuel' s' | None => Some s end
  end.

(** Without interleaving the steps are [AllowKey]. *)
Lemma one_call_alone key (c c' : Clocked World) b n : AllowKey key c = (Ret b, c') ->
  exists asked, run_call 5 (mkCState c [AtCheck (set_key key)] n) = Some (mkCState c' [Answered b] asked).
Proof.
  unfold AllowKey. fold (set_key key). rewrite bind_run. intros E. cbn [run_call]. unfold call_step at 1. cbn [calls lookup list_lookup shared].
  rewrite isCircuitOpen_run in *. destruct (negb _) in *.
  - unfold goes. cbn [calls list_insert insert asks]. cbn [call_step calls lookup list_lookup shared]. rewrite E. eexists. reflexivity.
  - unfold goes. cbn [calls list_insert insert asks]. unfold call_step at 1. cbn [calls lookup list_lookup shared].
    rewrite bind_run in E. unfold now_unix in *. cbn [calls list_insert insert asks]. unfold goes.
    rewrite bind_run in E. unfold gets in E. rewrite bind_run in E. unfold call_step at 1. cbn [calls lookup list_lookup shared list_insert insert].
    destruct (on_server _ _) as [[[z | e] | v] c1]; [| | discriminate].
    + cbn [calls list_insert insert asks]. unfold call_step at 1. cbn [calls lookup list_lookup shared].
      rewrite bind_run in E. destruct (on_limiter recordSuccess c1) as [[u | v] c2]; [| discriminate].
      unfold goes. cbn. unfold mret, M_ret in E. injection E as <- <-. eexists. reflexivity.
    + cbn [calls list_insert insert asks]. unfold call_step at 1. cbn [calls lookup list_lookup shared].
      rewrite bind_run in E. destruct (on_limiter recordFailure c1) as [[u | v] c2]; [| discriminate].
      unfold goes. cbn [calls list_insert insert asks]. cbn [call_step calls lookup list_lookup shared]. rewrite E. eexists. reflexivity.
Qed.

(** ** An outage *)

Context (hit : R -> R) (Hdown : down R hit) (Hfb : answers F).
Context (t0 k : nat) (limit reset : Z) (ck : nat -> Z) (Hwithin : within t0 reset ck) (Hsize : limit + Z.of_nat k < int64_max).

(** The state during an outage that began with a closed circuit: every call
    that passed the test is in flight or has recorded a failure. *)
Record outage (s : cstate) : Prop := {
  o_clock : clk (shared s) = ck;
  o_tick : (t0 <= tick (shared s))%nat;
  o_limit : threshold (rw_limiter (st (shared s))) = limit;
  o_reset : resetTimeout (rw_limiter (st (shared s))) = reset;
  o_failures : 0 <= failures (rw_limiter (st (shared s)));
  o_open : circuitOpen (rw_limiter (st (shared s))) = (limit <=? failures (rw_limiter (st (shared s))));
  o_last : circuitOpen (rw_limiter (st (shared s))) = true ->
    exists i, (t0 <= i <= tick (shared s))%nat /\ lastFailure (rw_limiter (st (shared s))) = ck i;
  o_down : forall t key z, calls s !! t <> Some (AtRecord key (inl z));
  o_asks : Z.of_nat (asks s) + Z.of_nat (sum_list (unasked <$> calls s)) =
    failures (rw_limiter (st (shared s))) + Z.of_nat (in_flight s);
  o_bound : failures (rw_limiter (st (shared s))) + Z.of_nat (in_flight s) <= limit - 1 + Z.of_nat k
}.

Lemma in_flight_le s : (in_flight s <= overlapping s)%nat.
Proof.
  unfold in_flight, overlapping. induction (calls s) as [| p l IH]; [reflexivity |].
  rewrite !fmap_cons. cbn [sum_list_with]. unfold id at 1 3. assert (passed p <= active p)%nat by (destruct p; cbn; lia).
  unfold passed, active in *. lia.
Qed.

(** Steps that leave the circuit alone. *)
Lemma outage_moves s t p q c : outage s -> calls s !! t = Some p -> clk c = ck -> (tick (shared s) <= tick c)%nat ->
  (exists fb, rw_limiter (st c) = set_fallback fb (rw_limiter (st (shared s)))) ->
  passed q = passed p -> unasked q = unasked p -> (forall key z, q <> AtRecord key (inl z)) -> outage (goes t q c s).
Proof.
  intros [O1 O2 O3 O4 O5 O6 O7 O8 O9 O10] Ep Hck Htk [fb El] Hp Hu Hq.
  pose proof (sum_moved passed (calls s) t p q Ep) as Sp. pose proof (sum_moved unasked (calls s) t p q Ep) as Su.
  split; cbn [goes shared calls asks]; rewrite ?El; cbn [set_fallback threshold resetTimeout failures circuitOpen lastFailure];
    unfold in_flight in *; cbn [goes calls] in *; try assumption; try lia.
  - intros Ho. destruct (O7 Ho) as (i & Hi & Ei). exists i. split; [lia | exact Ei].
  - intros u key z Hu'. apply list_lookup_insert_Some in Hu' as [(_ & E & _) | (_ & E)]; [exact (Hq _ _ E) | exact (O8 _ _ _ E)].
Qed.

Lemma set_fallback_same (l : RedisRateLimiter F) : l = set_fallback (fallback l) l.
Proof. now destruct l. Qed.

(** The test during an outage: an open circuit stays open. *)
Lemma outage_check s t key s' : outage s -> calls s !! t = Some (AtCheck key) -> call_step t s = Some s' ->
  (overlapping s' <= k)%nat -> outage s'.
Proof.
  intros Ho Ep E Hk. unfold call_step in E. rewrite Ep, isCircuitOpen_run in E. pose proof Ho as [O1 O2 O3 O4 O5 O6 O7 O8 O9 O10].
  assert (clk (after_check (shared s)) = ck /\ (tick (shared s) <= tick (after_check (shared s)))%nat) as [Hck Htk]
    by (unfold after_check; destruct (circuitOpen _); cbn; auto).
  assert (exists fb, rw_limiter (st (after_check (shared s))) = set_fallback fb (rw_limiter (st (shared s)))) as Hl
    by (rewrite after_check_st; eexists; apply set_fallback_same).
  injection E as <-. unfold breaker_of, breaker_tries in *. destruct (circuitOpen (rw_limiter (st (shared s)))) eqn:Eo.
  - destruct (O7 eq_refl) as (i & Hi & Ei).
    assert ((resetTimeout (rw_limiter (st (shared s))) <? time_sub (clk (shared s) (tick (shared s))) (lastFailure (rw_limiter (st (shared s))))) = false)
      as -> by (rewrite O4, Ei, O1; apply Z.ltb_ge, Hwithin; lia).
    cbn [negb]. apply (outage_moves s t (AtCheck key)); auto.
  - cbn [negb] in *. pose proof (sum_moved passed (calls s) t _ (AtClock key) Ep) as Sp.
    pose proof (sum_moved unasked (calls s) t _ (AtClock key) Ep) as Su. cbn [passed unasked] in Sp, Su.
    pose proof (in_flight_le (goes t (AtClock key) (after_check (shared s)) s)) as Hle.
    symmetry in O6. apply Z.leb_gt in O6.
    assert (after_check (shared s) = shared s) as Eac by (unfold after_check; now rewrite Eo).
    split; cbn [goes shared calls asks]; rewrite ?Eac; rewrite ?Eo; unfold in_flight in *; cbn [goes calls] in *; try assumption; try lia.
    intros u key' z Hu. apply list_lookup_insert_Some in Hu as [(_ & E & _) | (_ & E)]; [discriminate | exact (O8 _ _ _ E)].
Qed.

(** A command fails. *)
Lemma outage_script s t key n s' : outage s -> calls s !! t = Some (AtScript key n) -> call_step t s = Some s' -> outage s'.
Proof.
  intros [O1 O2 O3 O4 O5 O6 O7 O8 O9 O10] Ep E. unfold call_step in E. rewrite Ep in E. cbv zeta in E.
  unfold on_server, state in E. set (rl := rw_limiter (st (shared s))) in *.
  destruct (Hdown (keyPrefix rl +:+ key) (maxTokens rl) (refillRate rl) (f64_of_Z n) (keyTTLSeconds rl) (rw_server (st (shared s)))) as [e Ee].
  rewrite Ee in E. injection E as <-.
  pose proof (sum_moved passed (calls s) t _ (AtRecord key (inr e)) Ep) as Sp.
  pose proof (sum_moved unasked (calls s) t _ (AtRecord key (inr e)) Ep) as Su. cbn [passed unasked] in Sp, Su.
  split; cbn [shared calls asks st with_st rw_limiter clk tick]; unfold in_flight in *; cbn [calls] in *; try assumption; try lia.
  intros u key' z Hu. apply list_lookup_insert_Some in Hu as [(_ & E & _) | (_ & E)]; [discriminate | exact (O8 _ _ _ E)].
Qed.

(** A failure is recorded, with the reading of the clock. *)
Lemma outage_record s t key e s' : outage s -> calls s !! t = Some (AtRecord key (inr e)) -> call_step t s = Some s' -> outage s'.
Proof.
  intros [O1 O2 O3 O4 O5 O6 O7 O8 O9 O10] Ep E. unfold call_step in E. rewrite Ep in E.
  unfold on_limiter, zoom in E. rewrite recordFailure_run in E.
  2: { split; cbn [st with_st]; [lia |]. rewrite O3, O6. intros Hle. apply Z.leb_le in Hle. exact Hle. }
  injection E as <-.
  pose proof (sum_moved passed (calls s) t _ (AtFallback key) Ep) as Sp.
  pose proof (sum_moved unasked (calls s) t _ (AtFallback key) Ep) as Su. cbn [passed unasked] in Sp, Su.
  split; cbn [goes shared calls asks st with_st rw_limiter clk tick next_tick]; unfold in_flight in *; cbn [goes calls] in *;
    unfold failed_at; cbn [set_circuit threshold resetTimeout failures circuitOpen lastFailure]; try assumption; try lia.
  - rewrite O6, O3. destruct (Z.leb_spec limit (failures (rw_limiter (st (shared s))))), (Z.leb_spec limit (failures (rw_limiter (st (shared s))) + 1));
      reflexivity || lia.
  - intros _. exists (tick (shared s)). split; [lia |]. now rewrite O1.
  - intros u key' z Hu. apply list_lookup_insert_Some in Hu as [(_ & E & _) | (_ & E)]; [discriminate | exact (O8 _ _ _ E)].
Qed.

Lemma outage_step s s' : outage s -> crowd k s s' -> outage s'.
Proof.
  intros Ho [[t E | key -> | r ->] Hk].
  - destruct (calls s !! t) as [p |] eqn:Ep; [| unfold call_step in E; rewrite Ep in E; discriminate].
    destruct p as [key | key | key n | key [z | e] | key | b].
    + exact (outage_check s t key s' Ho Ep E Hk).
    + unfold call_step in E. rewrite Ep in E. injection E as <-.
      apply (outage_moves s t (AtClock key)); try reflexivity; auto; [apply Ho | cbn; lia | eexists; apply set_fallback_same].
    + exact (outage_script s t key n s' Ho Ep E).
    + exfalso. exact (o_down s Ho t key z Ep).
    + exact (outage_record s t key e s' Ho Ep E).
    + unfold call_step in E. rewrite Ep in E. destruct (fallback_call Hfb key (shared s)) as (b & c' & Ef & Hck & _ & Htk & _ & Hl).
      rewrite Ef in E. injection E as <-.
      apply (outage_moves s t (AtFallback key)); try reflexivity; auto. rewrite Hck. apply Ho.
    + unfold call_step in E. rewrite Ep in E. discriminate.
  - destruct Ho as [O1 O2 O3 O4 O5 O6 O7 O8 O9 O10]. split; cbn [begin_call shared calls asks]; unfold in_flight in *;
      cbn [begin_call calls] in *; rewrite ?sum_added; cbn [passed unasked]; try assumption; try lia.
    intros u key' z Hu. apply lookup_app_Some in Hu as [Hu | [_ Hu]]; [exact (O8 _ _ _ Hu) |].
    apply list_lookup_singleton_Some in Hu as [_ Hu]. discriminate.
  - destruct Ho as [O1 O2 O3 O4 O5 O6 O7 O8 O9 O10]. split; cbn [shared calls asks with_server st with_st rw_limiter clk tick]; assumption.
Qed.

(** C16. While every command to Redis fails, and the readings of the clock stay
    within the reset timeout of each other, calls of which at most [k] overlap,
    of a limiter whose circuit starts closed with no failures recorded, send at most
    [threshold - 1 + k] commands, however they interleave and whatever
    other clients do to Redis: the circuit lets no call pass once
    [threshold] failures are recorded, and only calls that had passed before
    then still ask. *)
Theorem outage_bound c s : clk c = ck -> (t0 <= tick c)%nat ->
  threshold (rw_limiter (st c)) = limit -> 0 < limit -> resetTimeout (rw_limiter (st c)) = reset ->
  failures (rw_limiter (st c)) = 0 -> circuitOpen (rw_limiter (st c)) = false ->
  rtc (crowd k) (mkCState c [] 0) s -> Z.of_nat (asks s) <= limit - 1 + Z.of_nat k.
Proof.
  intros Hck Htk Hlim Hpos Hres Hf Ho Hrun.
  assert (outage (mkCState c [] 0)) as H0'.
  { split; unfold in_flight; cbn [shared calls asks fmap list_fmap sum_list_with]; rewrite ?Hf, ?Ho; try assumption; try lia.
    intros t key z Hu. now rewrite lookup_nil in Hu. }
  assert (outage s) as [O1 O2 O3 O4 O5 O6 O7 O8 O9 O10].
  { clear Hck Htk Hlim Hres Hf Ho. induction Hrun as [| s1 s2 s3 Hs _ IH]; [exact H0' |]. apply IH. exact (outage_step s1 s2 H0' Hs). }
  lia.
Qed.
End Conc.

(** ** Two calls at once *)

(** A run of the calls given by their numbers, in that order. *)
Fixpoint schedule {F R} `{KeyedRateLimiter F} `{RedisServer R} (ts : list nat) (s : @cstate F R) : option cstate :=
  match ts with [] => Some s | t :: ts' => match call_step t s with Some s' => schedule ts' s' | None => None end end.

Lemma schedule_crowd {F R} `{KeyedRateLimiter F} `{RedisServer R} k ts (s s' : @cstate F R) :
  (overlapping s <= k)%nat -> schedule ts s = Some s' -> rtc (crowd k) s s'.
Proof.
  revert s. induction ts as [| t ts IH]; intros s Hk; cbn [schedule]; [intros [= <-]; constructor |].
  destruct (call_step t s) as [s1 |] eqn:E; [| discriminate]. intros Hs.
  assert (overlapping s1 <= k)%nat as Hk1.
  { destruct (calls s !! t) as [p |] eqn:Ep; [| unfold call_step in E; rewrite Ep in E; discriminate].
    destruct (call_step_left t s s1 p Ep E) as (q & Ec & Hq). unfold overlapping in *. rewrite Ec.
    pose proof (sum_moved active (calls s) t p q Ep). destruct p, q; cbn in *; lia. }
  eapply rtc_l; [split; [exact (step_call _ _ t E) | exact Hk1] | now apply IH].
Qed.

(** A limiter of threshold 2, and two calls of it. *)
Definition two_calls : @cstate RateLimiter nat := begin_call "b" (begin_call "a" (mkCState demo_call [] 0)).

Lemma two_calls_ask : asks <$> schedule [0; 1; 0; 1; 0; 1; 0; 1]%nat two_calls = Some 2%nat.
Proof. vm_compute. reflexivity. Qed.

(** Both pass before either fails: one command more than the threshold would
    be the most for two that overlap. *)
Lemma outage_bound_witness : exists s, schedule [0; 1; 0; 1; 0; 1; 0; 1]%nat two_calls = Some s /\
  Z.of_nat (asks s) <= 2 - 1 + Z.of_nat 2.
Proof.
  pose proof two_calls_ask as Hasks. destruct (schedule _ two_calls) as [s |] eqn:Es; [| discriminate].
  exists s. split; [reflexivity |].
  apply (outage_bound (F := RateLimiter) (R := nat) Datatypes.S) with (t0 := 0%nat) (reset := 30 * Second) (ck := clk demo_call) (c := demo_call).
  - intros key m rate t ttl r. now exists EDeadlineExceeded.
  - intros key c. destruct (allow_at (clk c (tick c)) (st c)) as [b l] eqn:E.
    exists b, (with_st (next_tick c) l). unfold LAllowKey, RateLimiter_keyed, RateLimit.AllowKey, RateLimit.Allow.
    mstep. rewrite E. repeat split. cbn. lia.
  - intros i j Hij. cbn. unfold time_sub, int64_min, int64_max, Second. lia.
  - unfold int64_max. cbn. lia.
  - reflexivity.
  - cbn. lia.
  - reflexivity.
  - lia.
  - reflexivity.
  - reflexivity.
  - reflexivity.
  - eapply rtc_l; [split; [exact (step_begin _ _ "a" eq_refl) | cbn; lia] |].
    eapply rtc_l; [split; [exact (step_begin _ _ "b" eq_refl) | cbn; lia] |].
    apply (schedule_crowd 2 [0; 1; 0; 1; 0; 1; 0; 1]%nat two_calls); [cbn; lia | exact Es].
Defined.

(** The bound is reached: a call fails alone, then two pass together. *)
Lemma bound_reached : asks <$> (schedule [0; 0; 0; 0; 0]%nat (begin_call "a" (mkCState demo_call [] 0)) ≫=
  fun s => schedule [1; 2; 1; 2; 1; 2]%nat (begin_call "c" (begin_call "b" s))) = Some 3%nat.
Proof. vm_compute. reflexivity. Qed.

(** An open circuit whose last failure is older than the reset timeout. *)
Definition expired_limiter : RedisRateLimiter RateLimiter := set_circuit 2 (- 31 * Second) true demo_limiter.
Definition expired_call : Clocked (redis_world RateLimiter nat) :=
  mkClocked (clk demo_call) (wall demo_call) 0 (mkRedisWorld expired_limiter 0%nat).

(** Every call that comes before one is recorded is a trial: the circuit is
    open, and as many calls as there are pass the test. *)
Lemma trial_not_single : (fun s => (circuitOpen (rw_limiter (st (shared s))), calls s)) <$>
  schedule [0; 1]%nat (begin_call "b" (begin_call "a" (mkCState expired_call [] 0))) = Some (true, [AtClock "a"; AtClock "b"]).
Proof. vm_compute. reflexivity. Qed.
