(* ===== verification/Health.v ===== *)
(** * The health registry

    [go/server/health.go]: the registry of checks, its lifecycle flags, the
    evaluation of a phase and the answers of the probe endpoints.  A check
    function is known by its identity; what one run of it gives is decided
    in HealthExec.v, where the runs are concurrent.  A check of the list
    [results] is what [runCheck] returned for the check at the same place.

    The theorems: when each phase answers ok and what its report lists
    ([health_truth]), and that no operation after [MarkShuttingDown] makes
    the runtime ready again ([shutdown_final]). *)

From S2P Require Import Prelude GoStrings GoErrors.

(** ** Data *)

Definition HealthPhaseLive : string := "live".
Definition HealthPhaseReady : string := "ready".
Definition HealthPhaseStartup : string := "startup".
Definition DefaultHealthCheckTimeout : Z := 2 * Second.

(** A check function, and the pointer to an execution. *)
Definition check_id : Type := nat.
Definition exec_ptr : Type := nat.

Record healthCheckEntry : Type := mkEntry {
  name : string;
  fn : option check_id;
  execution : option exec_ptr
}.

Record HealthCheckResult : Type := mkResult {
  Name : string;
  ResultStatus : string;
  ResultError : string
}.

Record HealthReport : Type := mkReport {
  Status : string;
  Phase : string;
  Checks : list HealthCheckResult
}.

(** The registry; [nextExecution] is the next pointer to allocate. *)
Record HealthRegistry : Type := mkRegistry {
  liveness : list healthCheckEntry;
  readiness : list healthCheckEntry;
  startup : list healthCheckEntry;
  checkTimeout : Z;
  started : bool;
  shuttingDown : bool;
  nextExecution : exec_ptr
}.

(** ** Construction and flags *)

Definition with_timeout (timeout : Z) (r : HealthRegistry) : HealthRegistry :=
  mkRegistry (liveness r) (readiness r) (startup r) timeout (started r) (shuttingDown r) (nextExecution r).

Definition WithHealthCheckTimeout (timeout : Z) (r : HealthRegistry) : HealthRegistry :=
  if 0 <? timeout then with_timeout timeout r else r.

Definition NewHealthRegistry (options : list (option (HealthRegistry -> HealthRegistry))) : HealthRegistry :=
  foldl (fun r option => match option with Some f => f r | None => r end)
    (mkRegistry [] [] [] DefaultHealthCheckTimeout false false 0%nat) options.

Definition setHealthCheckTimeout (timeout : Z) (r : HealthRegistry) : HealthRegistry :=
  if timeout <=? 0 then r else with_timeout timeout r.

Definition MarkStarted (r : HealthRegistry) : HealthRegistry :=
  mkRegistry (liveness r) (readiness r) (startup r) (checkTimeout r) true (shuttingDown r) (nextExecution r).

Definition MarkShuttingDown (r : HealthRegistry) : HealthRegistry :=
  mkRegistry (liveness r) (readiness r) (startup r) (checkTimeout r) (started r) true (nextExecution r).

(** ** Registration *)

(** [&healthCheckExecution{}]: a new pointer. *)
Definition newHealthCheckEntry (n : string) (f : option check_id) (r : HealthRegistry) :
    healthCheckEntry * HealthRegistry :=
  (mkEntry n f (Some (nextExecution r)),
   mkRegistry (liveness r) (readiness r) (startup r) (checkTimeout r) (started r) (shuttingDown r)
     (S (nextExecution r))).

(** The slice [register] appends to. *)
Inductive target : Type := TLiveness | TReadiness | TStartup.

Definition entries_of (t : target) (r : HealthRegistry) : list healthCheckEntry :=
  match t with TLiveness => liveness r | TReadiness => readiness r | TStartup => startup r end.

Definition set_entries (t : target) (l : list healthCheckEntry) (r : HealthRegistry) : HealthRegistry :=
  match t with
  | TLiveness => mkRegistry l (readiness r) (startup r) (checkTimeout r) (started r) (shuttingDown r) (nextExecution r)
  | TReadiness => mkRegistry (liveness r) l (startup r) (checkTimeout r) (started r) (shuttingDown r) (nextExecution r)
  | TStartup => mkRegistry (liveness r) (readiness r) l (checkTimeout r) (started r) (shuttingDown r) (nextExecution r)
  end.

Definition register (t : target) (entry : healthCheckEntry) (r : HealthRegistry) : HealthRegistry :=
  if decide (name entry = "" \/ fn entry = None) then r
  else set_entries t (entries_of t r ++ [entry]) r.

Definition register_new (t : target) (n : string) (f : option check_id) (r : HealthRegistry) : HealthRegistry :=
  let '(entry, r) := newHealthCheckEntry n f r in register t entry r.

Definition RegisterLiveness : string -> option check_id -> HealthRegistry -> HealthRegistry := register_new TLiveness.
Definition RegisterReadiness : string -> option check_id -> HealthRegistry -> HealthRegistry := register_new TReadiness.
Definition RegisterStartup : string -> option check_id -> HealthRegistry -> HealthRegistry := register_new TStartup.

(** The [switch phase] of [RegisterCheck]: an unknown phase adds nothing. *)
Definition phase_target (phase : string) : option target :=
  if decide (phase = HealthPhaseLive) then Some TLiveness
  else if decide (phase = HealthPhaseReady) then Some TReadiness
  else if decide (phase = HealthPhaseStartup) then Some TStartup
  else None.

Definition RegisterCheck (n : string) (f : option check_id) (phases : list string) (r : HealthRegistry) : HealthRegistry :=
  if decide (f = None \/ n = "") then r
  else
    let phases := match phases with [] => [HealthPhaseReady] | _ => phases end in
    let '(entry, r) := newHealthCheckEntry n f r in
    foldl (fun r phase => match phase_target phase with Some t => register t entry r | None => r end) r phases.

(** [dependency.HealthCheck] of a usable dependency or of a nil pointer is a
    method value, never nil. *)
Definition RegisterDependency (n : string) (dependency : iface check_id) (pointer_check : check_id)
    (phases : list string) (r : HealthRegistry) : HealthRegistry :=
  match dependency with
  | NilInterface => r
  | NilPointer => RegisterCheck n (Some pointer_check) phases r
  | Value check => RegisterCheck n (Some check) phases r
  end.

(** ** Evaluation of a phase *)

Definition check_result (check : healthCheckEntry) (err : option error) : HealthCheckResult :=
  match err with
  | None => mkResult (name check) "ok" ""
  | Some e => mkResult (name check) "unavailable" (error_text e)
  end.

Definition is_nil {A} (x : option A) : bool := match x with None => true | Some _ => false end.

(** [runChecks] from its loop on, with the result of every check. *)
Definition runChecks (checks : list healthCheckEntry) (results : list (option error)) (report : HealthReport) :
    HealthReport * bool :=
  let listed := Checks report ++ zip_with check_result checks results in
  if forallb is_nil results then
    (mkReport (if decide (Status report = "") then "ok" else Status report) (Phase report) listed, true)
  else (mkReport "unavailable" (Phase report) listed, false).

(** [snapshot]: a copy of the entries. *)
Definition snapshot (entries : list healthCheckEntry) : list healthCheckEntry := entries.

Definition refused (status phase check msg : string) : HealthReport :=
  mkReport status phase [mkResult check status msg].

(** [evaluate] up to [runChecks]: a refusal, or the checks to run. *)
Definition evaluate_start (r : HealthRegistry) (phase : string) : HealthReport + list healthCheckEntry :=
  if decide (phase = "live") then inr (snapshot (liveness r))
  else if decide (phase = "ready") then
    if negb (started r) then
      inl (refused "unavailable" phase "runtime_started" "runtime has not completed startup")
    else if shuttingDown r then inl (refused "unavailable" phase "shutdown_state" "runtime is shutting down")
    else inr (snapshot (readiness r))
  else if decide (phase = "startup") then
    if negb (started r) then
      inl (refused "starting" phase "runtime_started" "runtime has not completed startup")
    else inr (snapshot (startup r))
  else inl (refused "unknown" phase "phase" "unsupported health phase").

Definition evaluate (r : HealthRegistry) (phase : string) (results : list (option error)) : HealthReport * bool :=
  match evaluate_start r phase with
  | inl report => (report, false)
  | inr checks => runChecks checks results (mkReport "ok" phase [])
  end.

(** The checks an evaluation runs. *)
Definition checks_run (r : HealthRegistry) (phase : string) : list healthCheckEntry :=
  match evaluate_start r phase with inl _ => [] | inr checks => checks end.

(** ** Answers of the endpoints *)

(** The JSON the handlers encode, as a value: fields in the order encoded,
    an empty [error] or [checks] omitted. *)
#[warnings="-register-all"]
Inductive json : Type :=
| JString (s : string)
| JArray (l : list json)
| JObject (fields : list (string * json)).

Record health_response : Type := mkHealthResponse {
  response_code : Z;
  response_type : string;
  response_body : json
}.

Definition result_json (c : HealthCheckResult) : json :=
  JObject ([("name", JString (Name c)); ("status", JString (ResultStatus c))] ++
    if decide (ResultError c = "") then [] else [("error", JString (ResultError c))]).

Definition report_json (r : HealthReport) : json :=
  JObject ([("status", JString (Status r)); ("phase", JString (Phase r))] ++
    match Checks r with [] => [] | l => [("checks", JArray (result_json <$> l))] end).

Definition writeHealthJSON (status : Z) (payload : json) : health_response :=
  mkHealthResponse status "application/json" payload.

Definition phaseHandler (r : HealthRegistry) (phase : string) (results : list (option error)) : health_response :=
  let '(report, ok) := evaluate r phase results in
  if (ok : bool) then writeHealthJSON 200 (report_json report) else writeHealthJSON 503 (report_json report).

(** The three evaluations see the registry one after the other: [rl], [rr]
    and [rs].  The keys of the map are encoded in order. *)
Definition summaryHandler (rl rr rs : HealthRegistry) (live ready startup : list (option error)) : health_response :=
  let l := (evaluate rl "live" live).1 in
  let d := (evaluate rr "ready" ready).1 in
  let s := (evaluate rs "startup" startup).1 in
  let degraded := decide (Status l <> "ok" \/ Status d <> "ok" \/ Status s <> "ok") in
  writeHealthJSON (if degraded then 503 else 200)
    (JObject [("live", report_json l); ("ready", report_json d); ("startup", report_json s);
      ("status", JString (if degraded then "degraded" else "ok"))]).

(** ** The operations of a registry, and its lifecycle *)

Inductive registry_op : Type :=
| OpStarted
| OpShuttingDown
| OpTimeout (timeout : Z)
| OpLiveness (n : string) (f : option check_id)
| OpReadiness (n : string) (f : option check_id)
| OpStartup (n : string) (f : option check_id)
| OpCheck (n : string) (f : option check_id) (phases : list string)
| OpDependency (n : string) (d : iface check_id) (p : check_id) (phases : list string).

Definition apply_op (r : HealthRegistry) (op : registry_op) : HealthRegistry :=
  match op with
  | OpStarted => MarkStarted r
  | OpShuttingDown => MarkShuttingDown r
  | OpTimeout t => setHealthCheckTimeout t r
  | OpLiveness n f => RegisterLiveness n f r
  | OpReadiness n f => RegisterReadiness n f r
  | OpStartup n f => RegisterStartup n f r
  | OpCheck n f phases => RegisterCheck n f phases r
  | OpDependency n d p phases => RegisterDependency n d p phases r
  end.

(** The phases a registry runs checks for. *)
Definition serves (r : HealthRegistry) (phase : string) : bool :=
  if decide (phase = "live") then true
  else if decide (phase = "ready") then started r && negb (shuttingDown r)
  else if decide (phase = "startup") then started r
  else false.

(** A registered entry has a name, a function, and an execution allocated
    before; the timeout is positive. *)
Definition entry_ok (r : HealthRegistry) (e : healthCheckEntry) : Prop :=
  name e <> "" /\ is_Some (fn e) /\ exists p, execution e = Some p /\ (p < nextExecution r)%nat.

Record registry_ok (r : HealthRegistry) : Prop := {
  ok_entries : forall t, Forall (entry_ok r) (entries_of t r);
  ok_timeout : 0 < checkTimeout r
}.

Lemma health_entry_ok_mono r r' e : (nextExecution r <= nextExecution r')%nat -> entry_ok r e -> entry_ok r' e.
Proof. intros H (Hn & Hf & p & E & Hp). split; [exact Hn |]. split; [exact Hf |]. exists p. split; [exact E | lia]. Qed.

Lemma set_entries_same t l r : entries_of t (set_entries t l r) = l.
Proof. now destruct t. Qed.

Lemma set_entries_other t t' l r : t <> t' -> entries_of t' (set_entries t l r) = entries_of t' r.
Proof. now destruct t, t'. Qed.

Lemma register_next t e r : nextExecution (register t e r) = nextExecution r.
Proof. unfold register. destruct (decide _); [reflexivity | now destruct t]. Qed.

Lemma register_flags t e r : checkTimeout (register t e r) = checkTimeout r /\
  started (register t e r) = started r /\ shuttingDown (register t e r) = shuttingDown r.
Proof. unfold register. destruct (decide _); [auto | now destruct t]. Qed.

Lemma register_ok t e r : registry_ok r -> (forall p, execution e = Some p -> (p < nextExecution r)%nat) ->
  is_Some (execution e) -> registry_ok (register t e r).
Proof.
  intros [He Ht] Hp [p Ep]. split; [| now destruct (register_flags t e r) as (-> & _)].
  intros t'. apply Forall_impl with (P := entry_ok r).
  2: { intros x. apply health_entry_ok_mono. now rewrite register_next. }
  unfold register. destruct (decide _) as [| Hne]; [apply He |].
  assert ({t = t'} + {t <> t'}) as [-> | Hd] by decide equality.
  - rewrite set_entries_same. apply Forall_app. split; [apply He |]. apply List.Forall_cons; [| apply List.Forall_nil].
    split; [tauto |]. split; [destruct (fn e); [eauto | tauto] |]. exists p. auto.
  - rewrite set_entries_other by assumption. apply He.
Qed.

Lemma health_new_entry_ok n f r : registry_ok r -> registry_ok (newHealthCheckEntry n f r).2.
Proof.
  intros [He Ht]. split; [| exact Ht]. intros t. apply Forall_impl with (P := entry_ok r).
  - now destruct t; [specialize (He TLiveness) | specialize (He TReadiness) | specialize (He TStartup)].
  - intros x. apply health_entry_ok_mono. cbn. lia.
Qed.

Lemma register_phases_ok phases e r : registry_ok r -> is_Some (execution e) ->
  (forall p, execution e = Some p -> (p < nextExecution r)%nat) ->
  registry_ok (foldl (fun r phase => match phase_target phase with Some t => register t e r | None => r end) r phases).
Proof.
  revert r. induction phases as [| phase phases IH]; intros r Hok He Hp; [exact Hok |]. cbn [foldl].
  destruct (phase_target phase) as [t |]; [| now apply IH].
  apply IH; [now apply register_ok | exact He |]. rewrite register_next. exact Hp.
Qed.

Lemma register_phases_flags phases e r :
  let r' := foldl (fun r phase => match phase_target phase with Some t => register t e r | None => r end) r phases in
  started r' = started r /\ shuttingDown r' = shuttingDown r.
Proof.
  revert r. induction phases as [| phase phases IH]; intros r; [now split |]. cbn [foldl].
  destruct (phase_target phase) as [t |]; [| apply IH].
  destruct (IH (register t e r)) as [-> ->]. exact (proj2 (register_flags t e r)).
Qed.

Lemma register_new_ok t n f r : registry_ok r -> registry_ok (register_new t n f r).
Proof.
  intros Hok. apply (register_ok t (newHealthCheckEntry n f r).1); [exact (health_new_entry_ok n f r Hok) | | cbn; eauto].
  cbn. intros p [= <-]. lia.
Qed.

Lemma RegisterCheck_ok n f phases r : registry_ok r -> registry_ok (RegisterCheck n f phases r).
Proof.
  intros Hok. unfold RegisterCheck. destruct (decide _); [exact Hok |].
  apply register_phases_ok; [exact (health_new_entry_ok n f r Hok) | cbn; eauto |]. cbn. intros p [= <-]. lia.
Qed.

Lemma RegisterCheck_flags n f phases r :
  started (RegisterCheck n f phases r) = started r /\ shuttingDown (RegisterCheck n f phases r) = shuttingDown r.
Proof. unfold RegisterCheck. destruct (decide _); [now split |]. exact (register_phases_flags _ _ (newHealthCheckEntry n f r).2). Qed.

Lemma apply_op_ok op r : registry_ok r -> registry_ok (apply_op r op).
Proof.
  intros Hok. destruct op; cbn [apply_op].
  - destruct Hok. now split.
  - destruct Hok. now split.
  - unfold setHealthCheckTimeout. destruct (Z.leb_spec timeout 0); [exact Hok |]. destruct Hok. now split.
  - now apply register_new_ok.
  - now apply register_new_ok.
  - now apply register_new_ok.
  - now apply RegisterCheck_ok.
  - unfold RegisterDependency. destruct d; [exact Hok | apply RegisterCheck_ok, Hok..].
Qed.

(** The flags only ever go up. *)
Lemma apply_op_flags op r :
  (started r = true -> started (apply_op r op) = true) /\
  (shuttingDown r = true -> shuttingDown (apply_op r op) = true).
Proof.
  assert (forall t n f, started (register_new t n f r) = started r /\ shuttingDown (register_new t n f r) = shuttingDown r)
    as Hnew by (intros t n f; exact (proj2 (register_flags t (newHealthCheckEntry n f r).1 (newHealthCheckEntry n f r).2))).
  destruct op as [| | t | n f | n f | n f | n f phases | n d p phases]; cbn [apply_op].
  - auto.
  - auto.
  - unfold setHealthCheckTimeout. destruct (t <=? 0); auto.
  - destruct (Hnew TLiveness n f) as [E1 E2]. unfold RegisterLiveness. rewrite E1, E2. auto.
  - destruct (Hnew TReadiness n f) as [E1 E2]. unfold RegisterReadiness. rewrite E1, E2. auto.
  - destruct (Hnew TStartup n f) as [E1 E2]. unfold RegisterStartup. rewrite E1, E2. auto.
  - destruct (RegisterCheck_flags n f phases r) as [E1 E2]. rewrite E1, E2. auto.
  - unfold RegisterDependency. destruct d as [| | a]; [auto |..].
    + destruct (RegisterCheck_flags n (Some p) phases r) as [E1 E2]. rewrite E1, E2. auto.
    + destruct (RegisterCheck_flags n (Some a) phases r) as [E1 E2]. rewrite E1, E2. auto.
Qed.

Lemma apply_ops_shutting ops r : shuttingDown r = true -> shuttingDown (foldl apply_op r ops) = true.
Proof. revert r. induction ops as [| op ops IH]; intros r H; [exact H |]. apply IH. now apply apply_op_flags. Qed.

Lemma apply_ops_ok ops r : registry_ok r -> registry_ok (foldl apply_op r ops).
Proof. revert r. induction ops as [| op ops IH]; intros r H; [exact H |]. apply IH. now apply apply_op_ok. Qed.

Lemma new_registry_ok : registry_ok (NewHealthRegistry []).
Proof. split; [intros []; constructor | reflexivity]. Qed.

Lemma all_nil {A} (l : list (option A)) : forallb is_nil l = true <-> Forall (fun x => x = None) l.
Proof.
  induction l as [| [x |] l IH]; cbn.
  - split; auto using List.Forall_nil.
  - split; [discriminate |]. intros H. inversion H. discriminate.
  - rewrite IH. split; intros H; [now apply List.Forall_cons | now inversion H].
Qed.

Lemma evaluate_serves r phase : match evaluate_start r phase with inl _ => serves r phase = false | inr _ => serves r phase = true end.
Proof.
  unfold evaluate_start, serves.
  repeat destruct (decide _); auto; destruct (started r), (shuttingDown r); reflexivity.
Qed.

Lemma refused_status r phase report : evaluate_start r phase = inl report -> Status report <> "ok" /\ Phase report = phase.
Proof.
  unfold evaluate_start. repeat destruct (decide _); try discriminate; destruct (started r); cbn;
    try destruct (shuttingDown r); cbn; try discriminate; intros [= <-]; now split.
Qed.

Lemma runChecks_status checks results phase :
  let '(report, ok) := runChecks checks results (mkReport "ok" phase []) in
  ok = forallb is_nil results /\ (ok = true <-> Status report = "ok") /\ Phase report = phase /\
  Checks report = zip_with check_result checks results.
Proof. unfold runChecks. destruct (forallb is_nil results); cbn; repeat split; auto; discriminate. Qed.

Lemma evaluate_status r phase results :
  let '(report, ok) := evaluate r phase results in
  ok = serves r phase && forallb is_nil results /\ (ok = true <-> Status report = "ok") /\ Phase report = phase /\
  (serves r phase = true -> Checks report = zip_with check_result (checks_run r phase) results).
Proof.
  unfold evaluate, checks_run. pose proof (evaluate_serves r phase) as Hs.
  destruct (evaluate_start r phase) as [report | checks] eqn:E.
  - destruct (refused_status r phase report E) as [H1 H2]. rewrite Hs. repeat split; auto; discriminate.
  - pose proof (runChecks_status checks results phase) as H. rewrite Hs.
    destruct (runChecks checks results _) as [report ok]. cbn. tauto.
Qed.

(** ** Theorems *)

(** C17. A phase answers ok exactly when the registry serves it (readiness
    needs a started runtime that is not shutting down, startup a started
    one) and every check it ran gave no error; the report then lists every
    check in the order of registration with its own outcome, and the probe
    is answered 200, else 503. *)
Theorem health_truth r phase results : length results = length (checks_run r phase) ->
  let '(report, ok) := evaluate r phase results in
  (ok = true <-> serves r phase = true /\ Forall (fun err => err = None) results) /\
  (Status report = "ok" <-> ok = true) /\
  response_code (phaseHandler r phase results) = (if ok then 200 else 503) /\
  (serves r phase = true -> Name <$> Checks report = name <$> checks_run r phase /\
    forall i check err, checks_run r phase !! i = Some check -> results !! i = Some err ->
      Checks report !! i = Some (check_result check err)).
Proof.
  intros Hlen. pose proof (evaluate_status r phase results) as H. unfold phaseHandler.
  destruct (evaluate r phase results) as [report ok]. destruct H as (Eok & Hst & _ & Hc).
  split; [| split; [tauto | split; [now destruct ok |]]].
  - rewrite Eok, andb_true_iff. now rewrite all_nil.
  - intros Hs. rewrite (Hc Hs). split.
    + apply list_eq. intros i. rewrite !list_lookup_fmap, lookup_zip_with.
      destruct (checks_run r phase !! i) as [check |] eqn:E; [| reflexivity].
      destruct (lookup_lt_is_Some_2 results i) as [err ->]; [rewrite Hlen; now apply lookup_lt_Some in E |].
      cbn. now destruct err.
    + intros i check err E1 E2. now rewrite lookup_zip_with, E1, E2.
Qed.

(** The summary is answered 200 with status ok exactly when the three
    phases are ok, else 503 and degraded. *)
Theorem summary_truth rl rr rs live ready startup :
  let code := response_code (summaryHandler rl rr rs live ready startup) in
  (code = 200 \/ code = 503) /\
  (code = 200 <-> (evaluate rl "live" live).2 = true /\ (evaluate rr "ready" ready).2 = true /\
    (evaluate rs "startup" startup).2 = true).
Proof.
  pose proof (evaluate_status rl "live" live) as Hl. pose proof (evaluate_status rr "ready" ready) as Hr.
  pose proof (evaluate_status rs "startup" startup) as Hs. unfold summaryHandler.
  destruct (evaluate rl "live" live) as [l ok1], (evaluate rr "ready" ready) as [d ok2],
    (evaluate rs "startup" startup) as [s ok3]. cbn [fst snd].
  destruct Hl as (_ & Hl & _), Hr as (_ & Hr & _), Hs as (_ & Hs & _).
  rewrite Hl, Hr, Hs. cbn. destruct (decide _) as [H | H]; cbn; (split; [lia |]); split; try discriminate; try tauto.
  intros _. destruct (decide (Status l = "ok")), (decide (Status d = "ok")), (decide (Status s = "ok")); tauto.
Qed.

(** Whatever is done to a registry after [MarkShuttingDown], the ready
    phase is refused without running a check, and its probe and the summary
    are answered 503. *)
Theorem shutdown_final r ops results : 
  let r' := foldl apply_op (MarkShuttingDown r) ops in
  checks_run r' "ready" = [] /\ (evaluate r' "ready" results).2 = false /\
  response_code (phaseHandler r' "ready" results) = 503 /\
  forall rl rs live startup, response_code (summaryHandler rl r' rs live results startup) = 503.
Proof.
  intros r'. assert (shuttingDown r' = true) as Hd by (now apply apply_ops_shutting).
  assert (serves r' "ready" = false) as Hs by (unfold serves; cbn; rewrite Hd; apply andb_false_r).
  pose proof (evaluate_serves r' "ready") as Hes. pose proof (evaluate_status r' "ready" results) as He.
  unfold checks_run, phaseHandler, summaryHandler.
  destruct (evaluate r' "ready" results) as [report ok]. rewrite Hs in He. destruct He as (-> & Hst & _).
  destruct (evaluate_start r' "ready"); [| congruence]. cbn. repeat split.
  intros rl rs live startup. rewrite decide_True; [reflexivity |].
  right. left. intros E. apply Hst in E. discriminate.
Qed.

(** C40. Registration keeps the registry well formed: every entry has a
    name, a function and an execution that was allocated, and the timeout is
    positive, after any operations on a new registry. *)
Theorem registry_invariant ops : registry_ok (foldl apply_op (NewHealthRegistry []) ops).
Proof. apply apply_ops_ok, new_registry_ok. Qed.

(** ** Witness *)

Lemma health_truth_witness :
  let r := MarkStarted (RegisterReadiness "db" (Some 7%nat) (NewHealthRegistry [])) in
  (evaluate r "ready" [Some EDeadlineExceeded]).2 = false /\
  response_code (phaseHandler r "ready" [Some EDeadlineExceeded]) = 503.
Proof.
  pose proof (health_truth (MarkStarted (RegisterReadiness "db" (Some 7%nat) (NewHealthRegistry []))) "ready"
    [Some EDeadlineExceeded] eq_refl) as (_ & _ & H & _).
  split; [reflexivity | exact H].
Defined.
