(* ===== verification/HealthExec.v ===== *)
(** * Concurrent health checks

    [go/server/health.go]: [startOrJoin], its goroutine, [finish], [runCheck]
    and [normalizeHealthCheckCallError], as a step relation.  A state holds
    the registry, the executions' current calls, every call ever started with
    the point its goroutine is at, and the handlers that evaluate a phase.
    Every critical section, channel close, select and deadline is one step;
    a check function may return anything, panic, or never return.

    The theorems: a check function never runs twice at the same time
    ([single_flight]); a handler that answers ok saw every check's function
    return nil ([health_answer_sound]); a handler can always finish, even if no
    check function ever returns ([handler_finishes]), and takes a bounded
    number of steps ([handler_terminates]). *)

From S2P Require Import Prelude GoStrings GoErrors Health.

(** ** Calls *)

(** A context: live, past its deadline, or cancelled. *)
Inductive ctx_state : Type := CtxLive | CtxDeadline | CtxCanceled.

#[global] Instance ctx_state_eq_dec : EqDecision ctx_state.
Proof. solve_decision. Defined.

Definition ctx_Err (c : ctx_state) : option error :=
  match c with
  | CtxLive => None
  | CtxDeadline => Some EDeadlineExceeded
  | CtxCanceled => Some EContextCanceled
  end.

(** Where the goroutine of a call is: in the check function, before
    [close(call.done)], before [e.finish(call)], before [call.cancel()], at
    its end. *)
Inductive goroutine : Type := InFunction | BeforeClose | BeforeFinish | BeforeCancel | Ended.

#[global] Instance goroutine_eq_dec : EqDecision goroutine.
Proof. solve_decision. Defined.

(** What a check function does when it ends. *)
Inductive fn_outcome : Type := Returned (e : option error) | Panicked (v : panic_value).

Definition outcome_err (o : fn_outcome) : option error :=
  match o with
  | Returned e => e
  | Panicked v => Some (EText ("health check panicked: " +:+ v))
  end.

(** [ran] is not a field of the code: it records what the call's function did,
    whatever the call then keeps in [err], and no step reads it. *)
Record healthCheckCall : Type := mkCall {
  call_execution : exec_ptr;
  call_fn : check_id;
  ctx : ctx_state;
  timeout : Z;
  done : bool;
  err : option error;
  at_ : goroutine;
  ran : option fn_outcome
}.

Definition set_ctx (x : ctx_state) (c : healthCheckCall) : healthCheckCall :=
  mkCall (call_execution c) (call_fn c) x (timeout c) (done c) (err c) (at_ c) (ran c).
Definition set_done (d : bool) (e : option error) (g : goroutine) (c : healthCheckCall) : healthCheckCall :=
  mkCall (call_execution c) (call_fn c) (ctx c) (timeout c) d e g (ran c).
Definition set_ran (o : fn_outcome) (c : healthCheckCall) : healthCheckCall :=
  mkCall (call_execution c) (call_fn c) (ctx c) (timeout c) (done c) (err c) (at_ c) (Some o).

Definition timed_out (t : Z) : error :=
  EWrap ("health check timed out after " +:+ duration_string t +:+ ": context deadline exceeded") EDeadlineExceeded.

Definition normalizeHealthCheckCallError (call : option healthCheckCall) : option error :=
  match call with
  | None => Some (EText "health check execution state is unavailable")
  | Some call =>
      if decide (ctx call = CtxDeadline) then Some (timed_out (timeout call))
      else
        match err call with
        | Some e => if errors_is e SDeadline then Some (timed_out (timeout call)) else Some e
        | None => None
        end
  end.

(** The branches of the [select] of [runCheck] that are ready, with what
    they return; none ready means it blocks. *)
Definition select_results (own : ctx_state) (call : healthCheckCall) : list (option error) :=
  (if done call then [normalizeHealthCheckCallError (Some call)] else []) ++
  (match ctx_Err own with Some e => [Some e] | None => [] end) ++
  (match ctx_Err (ctx call) with
   | Some e =>
       [if done call then normalizeHealthCheckCallError (Some call)
        else
          match ctx_Err own with
          | Some e' => Some e'
          | None => if errors_is e SDeadline then Some (timed_out (timeout call)) else Some e
          end]
   | None => []
   end).

(** ** The state *)

(** A handler evaluating a phase: between two checks, waiting for a call, or
    finished.  An answer keeps the call it comes from, if there was one. *)
Record answer : Type := mkAnswer { ans_check : healthCheckEntry; ans_call : option nat; ans_err : option error }.

Inductive handler : Type :=
| Checking (report : HealthReport) (answers : list answer) (todo : list healthCheckEntry)
| Waiting (report : HealthReport) (answers : list answer) (check : healthCheckEntry) (call : nat)
    (todo : list healthCheckEntry)
| Answered (report : HealthReport) (ok : bool) (answers : list answer).

Record hstate : Type := mkHState {
  registry : HealthRegistry;
  current : gmap exec_ptr nat;
  calls : list healthCheckCall;
  handlers : list (ctx_state * handler)
}.

Definition set_calls (l : list healthCheckCall) (s : hstate) : hstate :=
  mkHState (registry s) (current s) l (handlers s).
Definition set_handler (i : nat) (x : ctx_state) (h : handler) (s : hstate) : hstate :=
  mkHState (registry s) (current s) (calls s) (<[i := (x, h)]> (handlers s)).

(** [startOrJoin] under the execution's mutex. *)
Definition startOrJoin (p : exec_ptr) (f : check_id) (t : Z) (s : hstate) : nat * hstate :=
  match current s !! p with
  | Some call => (call, s)
  | None =>
      let call := length (calls s) in
      (call, mkHState (registry s) (<[p := call]> (current s))
         (calls s ++ [mkCall p f CtxLive t false None InFunction None]) (handlers s))
  end.

(** [finish] under the execution's mutex. *)
Definition finish (p : exec_ptr) (call : nat) (s : hstate) : hstate :=
  if decide (current s !! p = Some call)
  then mkHState (registry s) (delete p (current s)) (calls s) (handlers s)
  else s.

Definition effective_timeout (r : HealthRegistry) : Z :=
  if checkTimeout r <=? 0 then DefaultHealthCheckTimeout else checkTimeout r.

(** A new request for a phase. *)
Definition start_handler (r : HealthRegistry) (phase : string) : handler :=
  match evaluate_start r phase with
  | inl report => Answered report false []
  | inr checks => Checking (mkReport "ok" phase []) [] checks
  end.

(** ** Steps *)

(** Steps of the goroutine of call [i], and the passing of its deadline. *)
Inductive call_step (i : nat) : hstate -> hstate -> Prop :=
| fn_ends s c o : calls s !! i = Some c -> at_ c = InFunction ->
    call_step i s (set_calls (<[i := set_ran o (set_done (done c) (outcome_err o) BeforeClose c)]> (calls s)) s)
| closes s c : calls s !! i = Some c -> at_ c = BeforeClose ->
    call_step i s (set_calls (<[i := set_done true (err c) BeforeFinish c]> (calls s)) s)
| finishes s c : calls s !! i = Some c -> at_ c = BeforeFinish ->
    call_step i s (finish (call_execution c) i
      (set_calls (<[i := set_done (done c) (err c) BeforeCancel c]> (calls s)) s))
| cancels s c : calls s !! i = Some c -> at_ c = BeforeCancel ->
    call_step i s (set_calls (<[i := set_ctx (match ctx c with CtxLive => CtxCanceled | x => x end)
      (set_done (done c) (err c) Ended c)]> (calls s)) s).

Inductive deadline_step (i : nat) : hstate -> hstate -> Prop :=
| deadline s c : calls s !! i = Some c -> ctx c = CtxLive ->
    deadline_step i s (set_calls (<[i := set_ctx CtxDeadline c]> (calls s)) s).

(** Steps of handler [i]. *)
Inductive handler_step (i : nat) : hstate -> hstate -> Prop :=
| no_execution s x report answers check todo :
    handlers s !! i = Some (x, Checking report answers (check :: todo)) -> execution check = None ->
    handler_step i s (set_handler i x (Checking report
      (answers ++ [mkAnswer check None (Some (EText "health check execution state is unavailable"))]) todo) s)
| starts_check s x report answers check todo p f call s' :
    handlers s !! i = Some (x, Checking report answers (check :: todo)) ->
    execution check = Some p -> fn check = Some f ->
    startOrJoin p f (effective_timeout (registry s)) s = (call, s') ->
    handler_step i s (set_handler i x (Waiting report answers check call todo) s')
| gets_answer s x report answers check call todo c e :
    handlers s !! i = Some (x, Waiting report answers check call todo) ->
    calls s !! call = Some c -> e ∈ select_results x c ->
    handler_step i s (set_handler i x (Checking report (answers ++ [mkAnswer check (Some call) e]) todo) s)
| answers_request s x report answers :
    handlers s !! i = Some (x, Checking report answers []) ->
    handler_step i s (set_handler i x (Answered
      (runChecks (ans_check <$> answers) (ans_err <$> answers) report).1
      (runChecks (ans_check <$> answers) (ans_err <$> answers) report).2 answers) s).

(** What the rest of the program does: operations on the registry, new
    requests, requests cancelled. *)
Inductive outside_step : hstate -> hstate -> Prop :=
| registry_changes s op :
    outside_step s (mkHState (apply_op (registry s) op) (current s) (calls s) (handlers s))
| request s x phase :
    outside_step s (mkHState (registry s) (current s) (calls s)
      (handlers s ++ [(x, start_handler (registry s) phase)]))
| request_ends s i x h y : handlers s !! i = Some (x, h) -> x = CtxLive ->
    outside_step s (set_handler i y h s).

Inductive step (s s' : hstate) : Prop :=
| step_call i : call_step i s s' -> step s s'
| step_deadline i : deadline_step i s s' -> step s s'
| step_handler i : handler_step i s s' -> step s s'
| step_outside : outside_step s s' -> step s s'.

Definition initial : hstate := mkHState (NewHealthRegistry []) ∅ [] [].

Definition reachable (s : hstate) : Prop := rtc step initial s.

(** ** The invariant *)

(** The executions with a goroutine that has not passed [finish]. *)
Definition unfinished (g : goroutine) : bool :=
  match g with InFunction | BeforeClose | BeforeFinish => true | BeforeCancel | Ended => false end.

Definition closed (g : goroutine) : bool :=
  match g with InFunction | BeforeClose => false | BeforeFinish | BeforeCancel | Ended => true end.

(** [tbl] gives the check function of every execution ever allocated. *)
Definition entry_known (tbl : gmap exec_ptr check_id) (e : healthCheckEntry) : Prop :=
  exists p f, execution e = Some p /\ fn e = Some f /\ tbl !! p = Some f.

(** A nil answer comes from a call of the check's function that returned
    nil. *)
Definition answer_ok (l : list healthCheckCall) (a : answer) : Prop :=
  ans_err a = None -> exists id c, ans_call a = Some id /\ l !! id = Some c /\
    done c = true /\ ran c = Some (Returned None) /\ err c = None /\ fn (ans_check a) = Some (call_fn c).

Definition report_ok (report : HealthReport) : Prop := Status report = "ok" /\ Checks report = [].

Definition handler_ok (tbl : gmap exec_ptr check_id) (l : list healthCheckCall) (h : handler) : Prop :=
  match h with
  | Checking report answers todo => report_ok report /\ Forall (answer_ok l) answers /\ Forall (entry_known tbl) todo
  | Waiting report answers check id todo =>
      report_ok report /\ Forall (answer_ok l) answers /\ Forall (entry_known tbl) todo /\ entry_known tbl check /\
      exists c, l !! id = Some c /\ execution check = Some (call_execution c)
  | Answered report ok answers =>
      Forall (answer_ok l) answers /\
      (ok = true -> Forall (fun a => ans_err a = None) answers /\
         Name <$> Checks report = (fun a => name (ans_check a)) <$> answers)
  end.

Definition registry_known (tbl : gmap exec_ptr check_id) (r : HealthRegistry) : Prop :=
  (forall t, Forall (entry_known tbl) (entries_of t r)) /\ (forall p, (nextExecution r <= p)%nat -> tbl !! p = None).

Definition call_ok (tbl : gmap exec_ptr check_id) (c : healthCheckCall) : Prop :=
  done c = closed (at_ c) /\ tbl !! call_execution c = Some (call_fn c) /\
  (at_ c <> InFunction -> exists o, ran c = Some o /\ err c = outcome_err o).

Record hinv (tbl : gmap exec_ptr check_id) (s : hstate) : Prop := {
  inv_registry : registry_known tbl (registry s);
  inv_current : forall p id, current s !! p = Some id <->
    exists c, calls s !! id = Some c /\ call_execution c = p /\ unfinished (at_ c) = true;
  inv_calls : forall id c, calls s !! id = Some c -> call_ok tbl c;
  inv_handlers : forall i x h, handlers s !! i = Some (x, h) -> handler_ok tbl (calls s) h
}.

(** A call may only go forward. *)
Definition call_le (c c' : healthCheckCall) : Prop :=
  call_execution c' = call_execution c /\ call_fn c' = call_fn c /\
  (done c = true -> done c' = true /\ err c' = err c /\ ran c' = ran c).

Definition calls_le (l l' : list healthCheckCall) : Prop :=
  forall id c, l !! id = Some c -> exists c', l' !! id = Some c' /\ call_le c c'.

Lemma calls_le_refl l : calls_le l l.
Proof. intros id c E. exists c. repeat split; auto. Qed.

Lemma calls_le_app l c : calls_le l (l ++ [c]).
Proof. intros id c' E. exists c'. split; [now apply lookup_app_l_Some |]. repeat split; auto. Qed.

Lemma calls_le_insert l i c c' : l !! i = Some c -> call_le c c' -> calls_le l (<[i := c']> l).
Proof.
  intros E Hle id d Ed. destruct (decide (id = i)) as [-> | Hne].
  - exists c'. rewrite list_lookup_insert_eq by (now apply lookup_lt_Some in E). split; [reflexivity |]. congruence.
  - exists d. rewrite list_lookup_insert_ne by congruence. split; [exact Ed |]. repeat split; auto.
Qed.

Lemma answer_ok_le l l' a : calls_le l l' -> answer_ok l a -> answer_ok l' a.
Proof.
  intros Hle Ha En. destruct (Ha En) as (id & c & Ei & Ec & Hd & Hn & He & Hf).
  destruct (Hle id c Ec) as (c' & Ec' & Hx & Hf' & Hdone). destruct (Hdone Hd) as (Hd' & He' & Hn').
  exists id, c'. repeat split; auto; congruence.
Qed.

Lemma answers_ok_le l l' answers : calls_le l l' -> Forall (answer_ok l) answers -> Forall (answer_ok l') answers.
Proof. intros Hle H. eapply Forall_impl; [exact H |]. intros a. now apply answer_ok_le. Qed.

Lemma entry_known_le tbl tbl' e : tbl ⊆ tbl' -> entry_known tbl e -> entry_known tbl' e.
Proof. intros Hle (p & f & Ep & Ef & Et). exists p, f. repeat split; auto. eapply lookup_weaken; eassumption. Qed.

Lemma entries_known_le tbl tbl' l : tbl ⊆ tbl' -> Forall (entry_known tbl) l -> Forall (entry_known tbl') l.
Proof. intros Hle H. eapply Forall_impl; [exact H |]. intros e. now apply entry_known_le. Qed.

Lemma handler_ok_le tbl tbl' l l' h : tbl ⊆ tbl' -> calls_le l l' -> handler_ok tbl l h -> handler_ok tbl' l' h.
Proof.
  intros Ht Hl. destruct h as [report answers todo | report answers check id todo | report ok answers]; cbn.
  - intros (Hr & Ha & Hd). eauto using answers_ok_le, entries_known_le.
  - intros (Hr & Ha & Hd & Hc & c & Ec & Ee). destruct (Hl id c Ec) as (c' & Ec' & Ex & _).
    refine (conj Hr (conj _ (conj _ (conj _ _)))); eauto using answers_ok_le, entries_known_le, entry_known_le.
    exists c'. now rewrite Ex.
  - intros (Ha & Hok). eauto using answers_ok_le.
Qed.

(** *** Operations on the registry *)

Lemma register_known tbl t e r : registry_known tbl r -> (fn e <> None -> entry_known tbl e) ->
  registry_known tbl (register t e r).
Proof.
  intros [He Hf] Hk. split; [| now rewrite register_next]. intros t'. unfold register.
  destruct (decide _) as [| Hne]; [apply He |].
  assert ({t = t'} + {t <> t'}) as [-> | Hd] by decide equality.
  - rewrite set_entries_same. apply Forall_app. split; [apply He |].
    apply List.Forall_cons; [apply Hk; tauto | apply List.Forall_nil].
  - rewrite set_entries_other by assumption. apply He.
Qed.

Lemma new_entry_known tbl n f r : registry_known tbl r -> exists tbl', tbl ⊆ tbl' /\
  registry_known tbl' (newHealthCheckEntry n f r).2 /\
  (fn (newHealthCheckEntry n f r).1 <> None -> entry_known tbl' (newHealthCheckEntry n f r).1).
Proof.
  intros [He Hf]. destruct f as [f |].
  - exists (<[nextExecution r := f]> tbl).
    assert (tbl ⊆ <[nextExecution r := f]> tbl) as Hle by (apply insert_subseteq, Hf; lia).
    split; [exact Hle |]. split.
    + split; [intros t; apply (entries_known_le tbl); [exact Hle | now destruct t;
        [apply (He TLiveness) | apply (He TReadiness) | apply (He TStartup)]] |].
      intros p Hp. cbn in Hp. rewrite lookup_insert_ne by lia. apply Hf. lia.
    + intros _. exists (nextExecution r), f. cbn. now rewrite lookup_insert_eq.
  - exists tbl. split; [reflexivity |]. split; [| now intros H].
    split; [intros t; now destruct t; [apply (He TLiveness) | apply (He TReadiness) | apply (He TStartup)] |].
    intros p Hp. apply Hf. cbn in Hp. lia.
Qed.

Lemma register_phases_known tbl phases e r : registry_known tbl r -> (fn e <> None -> entry_known tbl e) ->
  registry_known tbl
    (foldl (fun r phase => match phase_target phase with Some t => register t e r | None => r end) r phases).
Proof.
  revert r. induction phases as [| phase phases IH]; intros r Hr He; [exact Hr |]. cbn [foldl].
  destruct (phase_target phase) as [t |]; apply IH; auto using register_known.
Qed.

Lemma RegisterCheck_known tbl n f phases r : registry_known tbl r -> exists tbl', tbl ⊆ tbl' /\
  registry_known tbl' (RegisterCheck n f phases r).
Proof.
  intros Hr. unfold RegisterCheck. destruct (decide _); [now exists tbl |].
  destruct (new_entry_known tbl n f r Hr) as (tbl' & Hle & Hr' & He). exists tbl'. split; [exact Hle |].
  apply (register_phases_known tbl' _ _ _ Hr' He).
Qed.

Lemma apply_op_known tbl op r : registry_known tbl r -> exists tbl', tbl ⊆ tbl' /\ registry_known tbl' (apply_op r op).
Proof.
  intros Hr. assert (forall t n f, exists tbl', tbl ⊆ tbl' /\ registry_known tbl' (register_new t n f r)) as Hnew.
  { intros t n f. destruct (new_entry_known tbl n f r Hr) as (tbl' & Hle & Hr' & He). exists tbl'.
    split; [exact Hle |]. exact (register_known tbl' t _ _ Hr' He). }
  assert (forall r', (forall t, entries_of t r' = entries_of t r) -> nextExecution r' = nextExecution r ->
    exists tbl', tbl ⊆ tbl' /\ registry_known tbl' r') as Hsame.
  { intros r' Ee En. exists tbl. split; [reflexivity |]. destruct Hr as [He Hf]. split; [| now rewrite En].
    intros t. rewrite Ee. apply He. }
  destruct op as [| | t | n f | n f | n f | n f phases | n d p phases]; cbn [apply_op].
  - apply Hsame; [now intros [] | reflexivity].
  - apply Hsame; [now intros [] | reflexivity].
  - unfold setHealthCheckTimeout. destruct (t <=? 0); (apply Hsame; [now intros [] | reflexivity]).
  - apply Hnew.
  - apply Hnew.
  - apply Hnew.
  - apply RegisterCheck_known, Hr.
  - unfold RegisterDependency. destruct d; [now exists tbl | apply RegisterCheck_known, Hr..].
Qed.

(** *** Every step keeps the invariant *)

Lemma hinv_initial : hinv ∅ initial.
Proof.
  split; cbn.
  - split; [intros []; apply List.Forall_nil | intros; apply lookup_empty].
  - intros p id. rewrite lookup_empty. split; [discriminate |]. intros (c & E & _). discriminate.
  - discriminate.
  - discriminate.
Qed.

Lemma select_nil own c e : e ∈ select_results own c -> e = None -> done c = true /\ err c = None.
Proof.
  assert (normalizeHealthCheckCallError (Some c) = None -> err c = None) as Hn.
  { cbn. destruct (decide _); [discriminate |]. destruct (err c) as [e' |]; [| auto].
    destruct (errors_is e' SDeadline); discriminate. }
  unfold select_results. rewrite !elem_of_app. intros [H | [H | H]] ->.
  - destruct (done c); [| now apply not_elem_of_nil in H]. apply list_elem_of_singleton in H. auto.
  - destruct (ctx_Err own); [apply list_elem_of_singleton in H; discriminate | now apply not_elem_of_nil in H].
  - destruct (ctx_Err (ctx c)) as [e' |]; [| now apply not_elem_of_nil in H]. apply list_elem_of_singleton in H.
    destruct (done c); [auto |]. destruct (ctx_Err own); [discriminate |].
    destruct (errors_is e' SDeadline); discriminate.
Qed.

(** A call changed in place. *)
Lemma hinv_call tbl s i c c' : hinv tbl s -> calls s !! i = Some c -> call_le c c' -> call_ok tbl c' ->
  unfinished (at_ c') = unfinished (at_ c) -> hinv tbl (set_calls (<[i := c']> (calls s)) s).
Proof.
  intros [Hr Hc Hk Hh] E Hle Hok Hu. assert (i < length (calls s))%nat as Hi by (now apply lookup_lt_Some in E).
  split; cbn [registry current calls handlers set_calls].
  - exact Hr.
  - intros p id. rewrite Hc. destruct (decide (id = i)) as [-> | Hne].
    + rewrite list_lookup_insert_eq by exact Hi. destruct Hle as (Ex & _).
      split; intros (d & Ed & Ep & Eu); eexists; repeat split; eauto; congruence.
    + now rewrite list_lookup_insert_ne by congruence.
  - intros id d. destruct (decide (id = i)) as [-> | Hne].
    + rewrite list_lookup_insert_eq by exact Hi. intros [= <-]. exact Hok.
    + rewrite list_lookup_insert_ne by congruence. apply Hk.
  - intros j x h Ej. eapply handler_ok_le; [reflexivity | eapply calls_le_insert; eassumption | eauto].
Qed.

(** A call that passes [finish]. *)
Lemma hinv_finish tbl s i c : hinv tbl s -> calls s !! i = Some c -> at_ c = BeforeFinish ->
  hinv tbl (finish (call_execution c) i (set_calls (<[i := set_done (done c) (err c) BeforeCancel c]> (calls s)) s)).
Proof.
  intros [Hr Hc Hk Hh] E Eat. assert (i < length (calls s))%nat as Hi by (now apply lookup_lt_Some in E).
  assert (current s !! call_execution c = Some i) as Ecur.
  { apply Hc. exists c. rewrite Eat. auto. }
  unfold finish. cbn [current set_calls]. rewrite decide_True by exact Ecur.
  assert (call_le c (set_done (done c) (err c) BeforeCancel c)) as Hle by (repeat split; auto).
  split; cbn [registry current calls handlers set_calls].
  - exact Hr.
  - intros p id. rewrite lookup_delete_Some, Hc. destruct (decide (id = i)) as [-> | Hne].
    + rewrite list_lookup_insert_eq by exact Hi. split.
      * intros (Hp & d & Ed & Ep & _). congruence.
      * intros (d & [= <-] & _ & Hu). discriminate.
    + rewrite list_lookup_insert_ne by congruence. split; [now intros [_ H] |].
      intros H. split; [| exact H]. intros <-. apply Hc in H. congruence.
  - intros id d. destruct (decide (id = i)) as [-> | Hne].
    + rewrite list_lookup_insert_eq by exact Hi. intros [= <-]. destruct (Hk i c E) as (Hd & Ht & Ho).
      rewrite Eat in Hd, Ho. split; [exact Hd |]. split; [exact Ht |]. intros _. now apply Ho.
    + rewrite list_lookup_insert_ne by congruence. apply Hk.
  - intros j x h Ej. eapply handler_ok_le; [reflexivity | eapply calls_le_insert; eassumption | eauto].
Qed.

Lemma hinv_call_step tbl i s s' : hinv tbl s -> call_step i s s' -> hinv tbl s'.
Proof.
  intros Hinv Hstep. destruct Hstep as [s c o E Eat | s c E Eat | s c E Eat | s c E Eat];
    destruct (inv_calls tbl s Hinv i c E) as (Hd & Ht & Ho); rewrite Eat in Hd, Ho; cbn in Hd.
  - apply (hinv_call tbl s i c); auto; [repeat split; congruence | | now rewrite Eat].
    split; [exact Hd |]. split; [exact Ht |]. intros _. now exists o.
  - apply (hinv_call tbl s i c); auto; [repeat split; congruence | | now rewrite Eat].
    split; [reflexivity |]. split; [exact Ht |]. intros _. now apply Ho.
  - now apply hinv_finish.
  - apply (hinv_call tbl s i c); auto; [now repeat split | | now rewrite Eat].
    split; [exact Hd |]. split; [exact Ht |]. intros _. now apply Ho.
Qed.

Lemma hinv_deadline_step tbl i s s' : hinv tbl s -> deadline_step i s s' -> hinv tbl s'.
Proof.
  intros Hinv H. destruct H as [s c E Ec]. apply (hinv_call tbl s i c); auto; [now repeat split |].
  exact (inv_calls tbl s Hinv i c E).
Qed.

Lemma handlers_insert (l : list (ctx_state * handler)) i v j y :
  <[i := v]> l !! j = Some y -> (j = i /\ y = v) \/ (j <> i /\ l !! j = Some y).
Proof. intros H. apply list_lookup_insert_Some in H as [(-> & -> & _) | (Hne & H)]; auto. Qed.

(** A handler changed in place. *)
Lemma hinv_handler tbl s i x h : hinv tbl s -> handler_ok tbl (calls s) h -> hinv tbl (set_handler i x h s).
Proof.
  intros [Hr Hc Hk Hh] Hok. split; auto. cbn. intros j y h' Ej.
  apply handlers_insert in Ej as [(-> & [= -> ->]) | (_ & Ej)]; eauto.
Qed.

Lemma startOrJoin_ok tbl s p f t call s' : hinv tbl s -> tbl !! p = Some f -> startOrJoin p f t s = (call, s') ->
  hinv tbl s' /\ calls_le (calls s) (calls s') /\ handlers s' = handlers s /\
  exists c, calls s' !! call = Some c /\ call_execution c = p.
Proof.
  intros [Hr Hc Hk Hh] Hp. unfold startOrJoin. destruct (current s !! p) as [id |] eqn:E; intros [= <- <-].
  - split; [now split |]. split; [apply calls_le_refl |]. split; [reflexivity |].
    apply Hc in E as (c & Ec & Ep & _). eauto.
  - assert (calls s !! length (calls s) = None) as Hlen by (apply lookup_ge_None_2; lia).
    split; [| split; [apply calls_le_app | split; [reflexivity |]]].
    + split; cbn [registry current calls handlers]; [exact Hr | | |].
      * intros q id. rewrite lookup_insert_Some, Hc. split.
        -- intros [[-> <-] | (Hne & d & Ed & Eq & Eu)].
           ++ eexists. rewrite lookup_app_r, Nat.sub_diag by lia. now split.
           ++ exists d. split; [now apply lookup_app_l_Some | auto].
        -- intros (d & Ed & Eq & Eu). apply lookup_app_Some in Ed as [Ed | (Hle & Ed)].
           ++ right. split; [| eauto]. intros <-. apply eq_None_not_Some in E. apply E.
              exists id. apply Hc. eauto.
           ++ apply list_lookup_singleton_Some in Ed as [Ei <-]. left. cbn in Eq. split; [exact Eq | lia].
      * intros id d Ed. apply lookup_app_Some in Ed as [Ed | (_ & Ed)]; [eauto |].
        apply list_lookup_singleton_Some in Ed as [_ <-]. split; [reflexivity |]. split; [exact Hp |].
        intros []. reflexivity.
      * intros j x h Ej. eapply handler_ok_le; [reflexivity | apply calls_le_app | eauto].
    + eexists. cbn [calls]. rewrite lookup_app_r, Nat.sub_diag by lia. now split.
Qed.

Lemma answers_app l answers a : Forall (answer_ok l) answers -> answer_ok l a -> Forall (answer_ok l) (answers ++ [a]).
Proof. intros H Ha. apply Forall_app. split; [exact H |]. apply List.Forall_cons; [exact Ha | apply List.Forall_nil]. Qed.

Lemma zip_check_names checks results : length results = length checks ->
  Name <$> zip_with check_result checks results = name <$> checks.
Proof.
  revert results. induction checks as [| check checks IH]; intros [| e results]; cbn; try discriminate; [reflexivity |].
  intros [= H]. f_equal; [now destruct e | now apply IH].
Qed.

(** The answer a handler gives once all checks were answered. *)
Lemma answered_ok tbl l report answers : report_ok report -> Forall (answer_ok l) answers ->
  let r := runChecks (ans_check <$> answers) (ans_err <$> answers) report in
  handler_ok tbl l (Answered r.1 r.2 answers).
Proof.
  intros [Hs Hc] Ha. cbn. split; [exact Ha |]. unfold runChecks.
  destruct (forallb is_nil (ans_err <$> answers)) eqn:E; [| discriminate]. intros _. split.
  - apply all_nil in E. now apply Forall_fmap in E.
  - cbn. rewrite Hc. cbn [app]. rewrite zip_check_names by now rewrite !length_fmap.
    rewrite <- list_fmap_compose. reflexivity.
Qed.

Lemma outcome_nil o : outcome_err o = None -> o = Returned None.
Proof. destruct o as [e | v]; cbn; congruence. Qed.

Lemma hinv_handler_step tbl i s s' : hinv tbl s -> handler_step i s s' -> hinv tbl s'.
Proof.
  intros Hinv Hstep. destruct Hstep as [s x report answers check todo E Ee
    | s x report answers check todo p f call s' E Ep Ef Es | s x report answers check call todo c e E Ec Hsel
    | s x report answers E]; pose proof (inv_handlers tbl s Hinv i x _ E) as Hok; cbn in Hok.
  - destruct Hok as (Hr & Ha & Hk). inversion Hk as [| ? ? Hc Hk']; subst.
    apply hinv_handler; [exact Hinv |]. cbn. split; [exact Hr |]. split; [| exact Hk'].
    apply answers_app; [exact Ha |]. intros H. discriminate.
  - destruct Hok as (Hr & Ha & Hk). inversion Hk as [| ? ? Hc Hk']; subst.
    destruct Hc as (p' & f' & Ep' & Ef' & Et). simplify_eq.
    destruct (startOrJoin_ok tbl s p f _ call s' Hinv Et Es) as (Hinv' & Hle & Eh & c & Ecall & Ecp).
    apply hinv_handler; [exact Hinv' |]. cbn. split; [exact Hr |]. split; [eapply answers_ok_le; eassumption |].
    split; [exact Hk' |]. split; [now exists p, f |]. exists c. split; [exact Ecall | congruence].
  - destruct Hok as (Hr & Ha & Hk & (p & f & Ep & Ef & Et) & c' & Ec' & Ex). simplify_eq.
    apply hinv_handler; [exact Hinv |]. cbn. split; [exact Hr |]. split; [| exact Hk].
    apply answers_app; [exact Ha |]. intros He. cbn in He.
    destruct (select_nil x c e Hsel He) as [Hd Herr].
    destruct (inv_calls tbl s Hinv call c Ec) as (Hdc & Htc & Ho).
    exists call, c. repeat split; auto; [| cbn; congruence].
    destruct Ho as (o & Eo & Eerr); [intros Eat; rewrite Eat in Hdc; cbn in Hdc; congruence |].
    rewrite Eo. f_equal. apply outcome_nil. congruence.
  - destruct Hok as (Hr & Ha & _). apply hinv_handler; [exact Hinv |]. now apply answered_ok.
Qed.

Lemma start_handler_ok tbl l r phase : registry_known tbl r -> handler_ok tbl l (start_handler r phase).
Proof.
  intros [He _]. unfold start_handler. destruct (evaluate_start r phase) as [report | checks] eqn:E; cbn.
  - split; [apply List.Forall_nil | discriminate].
  - split; [now split |]. split; [apply List.Forall_nil |].
    revert E. unfold evaluate_start. repeat destruct (decide _); try discriminate;
      repeat match goal with |- context [if ?b then _ else _] => destruct b end; intros [= <-]; try discriminate.
    + apply (He TLiveness).
    + apply (He TReadiness).
    + apply (He TStartup).
Qed.

Lemma hinv_outside tbl s s' : hinv tbl s -> outside_step s s' -> exists tbl', hinv tbl' s'.
Proof.
  intros Hinv Hstep. destruct Hstep as [s op | s x phase | s i x h y E Ex].
  - destruct Hinv as [Hr Hc Hk Hh]. destruct (apply_op_known tbl op _ Hr) as (tbl' & Hle & Hr').
    exists tbl'. split; cbn; auto.
    + intros id c Ec. destruct (Hk id c Ec) as (Hd & Ht & Ho). split; [exact Hd |].
      split; [eapply lookup_weaken; eassumption | exact Ho].
    + intros i x h E. eapply handler_ok_le; [exact Hle | apply calls_le_refl | eauto].
  - exists tbl. destruct Hinv as [Hr Hc Hk Hh]. split; cbn; auto.
    intros i y h E. apply lookup_app_Some in E as [E | (_ & E)]; [eauto |].
    apply list_lookup_singleton_Some in E as [_ [= <- <-]]. now apply start_handler_ok.
  - exists tbl. apply hinv_handler; [exact Hinv |]. exact (inv_handlers tbl s Hinv i x h E).
Qed.

Lemma reachable_inv s : reachable s -> exists tbl, hinv tbl s.
Proof.
  intros H. unfold reachable in H. remember initial as s0 eqn:E. assert (exists tbl, hinv tbl s0) as H0.
  { subst. exists ∅. apply hinv_initial. }
  clear E. induction H as [s0 | s0 s1 s2 Hstep _ IH]; [exact H0 |]. apply IH. destruct H0 as [tbl Hinv].
  destruct Hstep as [i Hs | i Hs | i Hs | Hs].
  - exists tbl. eapply hinv_call_step; eassumption.
  - exists tbl. eapply hinv_deadline_step; eassumption.
  - exists tbl. eapply hinv_handler_step; eassumption.
  - eapply hinv_outside; eassumption.
Qed.

(** *** A handler can always go on *)

(** Steps that need no check function to end: the handler's own, and
    deadlines. *)
Definition own_step (i : nat) (s s' : hstate) : Prop := handler_step i s s' \/ exists k, deadline_step k s s'.

Lemma select_ready own c : ctx c <> CtxLive -> exists e, e ∈ select_results own c.
Proof.
  intros Hc. unfold select_results. destruct (ctx_Err (ctx c)) as [e |] eqn:E; [| now destruct (ctx c)].
  eexists. rewrite !elem_of_app. right. right. apply list_elem_of_singleton. reflexivity.
Qed.

(** A waiting handler gets an answer once the deadline passed. *)
Lemma waiting_answered s i x report answers check call todo c :
  handlers s !! i = Some (x, Waiting report answers check call todo) -> calls s !! call = Some c ->
  exists s' e, rtc (own_step i) s s' /\
    handlers s' !! i = Some (x, Checking report (answers ++ [mkAnswer check (Some call) e]) todo).
Proof.
  intros E Ec. assert (i < length (handlers s))%nat as Hi by (now apply lookup_lt_Some in E).
  destruct (decide (ctx c = CtxLive)) as [Hl | Hl].
  - pose proof (deadline call s c Ec Hl) as Hd.
    set (s1 := set_calls (<[call := set_ctx CtxDeadline c]> (calls s)) s) in *.
    assert (calls s1 !! call = Some (set_ctx CtxDeadline c)) as Ec1.
    { apply list_lookup_insert_eq. now apply lookup_lt_Some in Ec. }
    destruct (select_ready x (set_ctx CtxDeadline c)) as [e He]; [discriminate |].
    eexists _, e. split.
    + eapply rtc_l; [right; exists call; exact Hd |]. eapply rtc_once. left.
      eapply (gets_answer i s1); eassumption.
    + cbn. now apply list_lookup_insert_eq.
  - destruct (select_ready x c Hl) as [e He]. eexists _, e. split.
    + eapply rtc_once. left. eapply (gets_answer i s); eassumption.
    + cbn. now apply list_lookup_insert_eq.
Qed.

Lemma handlers_start_eq p f t s call s' : startOrJoin p f t s = (call, s') -> handlers s' = handlers s.
Proof. unfold startOrJoin. destruct (current s !! p); intros [= <- <-]; reflexivity. Qed.

Lemma own_step_inv tbl i s s' : hinv tbl s -> rtc (own_step i) s s' -> hinv tbl s'.
Proof.
  intros Hinv H. induction H as [| s0 s1 s2 [Hs | [k Hs]] _ IH]; [exact Hinv |..]; apply IH.
  - eapply hinv_handler_step; eassumption.
  - eapply hinv_deadline_step; eassumption.
Qed.

Lemma checking_finishes tbl todo s i x report answers : hinv tbl s ->
  handlers s !! i = Some (x, Checking report answers todo) ->
  exists s' report' ok answers', rtc (own_step i) s s' /\ handlers s' !! i = Some (x, Answered report' ok answers').
Proof.
  revert s answers. induction todo as [| check todo IH]; intros s answers Hinv E.
  - assert (i < length (handlers s))%nat as Hi by (now apply lookup_lt_Some in E).
    do 4 eexists. split; [eapply rtc_once; left; eapply answers_request; eassumption |].
    cbn. now apply list_lookup_insert_eq.
  - destruct (inv_handlers tbl s Hinv i x _ E) as (_ & _ & Hk). inversion Hk as [| ? ? (p & f & Ep & Ef & Et) _]; subst.
    destruct (startOrJoin p f (effective_timeout (registry s)) s) as [call s1] eqn:Es.
    pose proof (starts_check i s x report answers check todo p f call s1 E Ep Ef Es) as Hstep.
    pose proof (hinv_handler_step tbl i s _ Hinv Hstep) as Hinv1.
    set (s2 := set_handler i x (Waiting report answers check call todo) s1) in *.
    assert (handlers s2 !! i = Some (x, Waiting report answers check call todo)) as E2.
    { cbn. apply list_lookup_insert_eq. rewrite (handlers_start_eq _ _ _ _ _ _ Es). now apply lookup_lt_Some in E. }
    destruct (inv_handlers tbl s2 Hinv1 i x _ E2) as (_ & _ & _ & _ & c & Ec & _).
    destruct (waiting_answered s2 i x report answers check call todo c E2 Ec) as (s3 & e & H3 & E3).
    destruct (IH s3 _ (own_step_inv tbl i s2 s3 Hinv1 H3) E3) as (s4 & r4 & ok4 & a4 & H4 & E4).
    exists s4, r4, ok4, a4. split; [| exact E4].
    eapply rtc_l; [left; exact Hstep |]. etransitivity; eassumption.
Qed.

(** *** A handler does not go on for ever *)

(** The steps a handler has left, at most. *)
Definition work (h : handler) : nat :=
  match h with
  | Checking _ _ todo => S (2 * length todo)
  | Waiting _ _ _ _ todo => S (S (2 * length todo))
  | Answered _ _ _ => 0
  end.

(** Runs of the whole program with [n] steps of handler [i]. *)
Inductive runs_of (i : nat) : nat -> hstate -> hstate -> Prop :=
| run_none s : runs_of i 0 s s
| run_own n s s1 s2 : handler_step i s s1 -> runs_of i n s1 s2 -> runs_of i (S n) s s2
| run_other n j s s1 s2 : j <> i -> handler_step j s s1 -> runs_of i n s1 s2 -> runs_of i n s s2
| run_call n j s s1 s2 : call_step j s s1 -> runs_of i n s1 s2 -> runs_of i n s s2
| run_deadline n j s s1 s2 : deadline_step j s s1 -> runs_of i n s1 s2 -> runs_of i n s s2
| run_outside n s s1 s2 : outside_step s s1 -> runs_of i n s1 s2 -> runs_of i n s s2.

Lemma start_handlers p f t s call s' : startOrJoin p f t s = (call, s') -> handlers s' = handlers s.
Proof. exact (handlers_start_eq p f t s call s'). Qed.

Lemma own_step_works i s s1 x h : handlers s !! i = Some (x, h) -> handler_step i s s1 ->
  exists h', handlers s1 !! i = Some (x, h') /\ (S (work h') <= work h)%nat.
Proof.
  intros E Hs. assert (i < length (handlers s))%nat as Hi by (now apply lookup_lt_Some in E).
  inversion Hs as [? y report answers check todo E' | ? y report answers check todo p f call s' E' _ _ Es |
    ? y report answers check call todo c e E' | ? y report answers E']; subst; rewrite E in E'; injection E' as -> ->;
    cbn [handlers set_handler];
    rewrite ?(start_handlers _ _ _ _ _ _ Es), list_lookup_insert_eq by exact Hi;
    (eexists; split; [reflexivity |]; cbn; lia).
Qed.

Lemma other_step_keeps i j s s1 x h : handlers s !! i = Some (x, h) -> j <> i -> handler_step j s s1 ->
  handlers s1 !! i = Some (x, h).
Proof.
  intros E Hj Hs. inversion Hs as [| ? ? ? ? ? ? ? ? ? ? ? ? ? Es | |]; subst; cbn [handlers set_handler];
    rewrite list_lookup_insert_ne by congruence; rewrite ?(start_handlers _ _ _ _ _ _ Es); exact E.
Qed.

Lemma run_works i n s s' x h : handlers s !! i = Some (x, h) -> runs_of i n s s' ->
  exists x' h', handlers s' !! i = Some (x', h') /\ (n + work h' <= work h)%nat.
Proof.
  intros E Hr. revert x h E. induction Hr as [s | n s s1 s2 Hs _ IH | n j s s1 s2 Hj Hs _ IH | n j s s1 s2 Hs _ IH |
    n j s s1 s2 Hs _ IH | n s s1 s2 Hs _ IH]; intros x h E.
  - exists x, h. auto.
  - destruct (own_step_works i s s1 x h E Hs) as (h1 & E1 & H1). destruct (IH x h1 E1) as (x' & h' & E' & H').
    exists x', h'. split; [exact E' | lia].
  - exact (IH x h (other_step_keeps i j s s1 x h E Hj Hs)).
  - apply (IH x h). inversion Hs; subst; try exact E. unfold finish. case_decide; exact E.
  - apply (IH x h). inversion Hs; subst; exact E.
  - inversion Hs as [| ? ? ? | ? k y g z Ek]; subst; [exact (IH x h E) | apply (IH x h); now apply lookup_app_l_Some |].
    destruct (decide (k = i)) as [-> | Hk].
    + rewrite E in Ek. injection Ek as -> ->. eapply (IH z). cbn. apply list_lookup_insert_eq. now apply lookup_lt_Some in E.
    + apply (IH x h). cbn. now rewrite list_lookup_insert_ne.
Qed.

(** ** Theorems *)

(** C4. At no time does the function of a registered check (of its execution;
    one function registered by two calls is two checks) run twice: probes that
    overlap, and phases that share a check, join the run in progress. *)
Theorem single_flight s i j c d : reachable s -> calls s !! i = Some c -> calls s !! j = Some d ->
  call_execution c = call_execution d -> at_ c = InFunction -> at_ d = InFunction -> i = j.
Proof.
  intros Hr Ec Ed Ex Hc Hd. destruct (reachable_inv s Hr) as [tbl Hinv].
  assert (current s !! call_execution c = Some i) as H1
    by (apply (inv_current tbl s Hinv); exists c; rewrite Hc; auto).
  assert (current s !! call_execution c = Some j) as H2
    by (apply (inv_current tbl s Hinv); exists d; rewrite Hd; auto).
  congruence.
Qed.


(** C34. From every state that can occur, a handler in progress reaches its
    answer by its own steps and the passing of deadlines alone: no check
    function has to return. *)
Theorem handler_finishes s i x h : reachable s -> handlers s !! i = Some (x, h) ->
  exists s' report ok answers, rtc (own_step i) s s' /\ handlers s' !! i = Some (x, Answered report ok answers).
Proof.
  intros Hr E. destruct (reachable_inv s Hr) as [tbl Hinv].
  destruct h as [report answers todo | report answers check call todo | report ok answers].
  - eapply checking_finishes; eassumption.
  - destruct (inv_handlers tbl s Hinv i x _ E) as (_ & _ & _ & _ & c & Ec & _).
    destruct (waiting_answered s i x report answers check call todo c E Ec) as (s1 & e & H1 & E1).
    destruct (checking_finishes tbl todo s1 i x report _ (own_step_inv tbl i s s1 Hinv H1) E1)
      as (s2 & r2 & ok2 & a2 & H2 & E2).
    exists s2, r2, ok2, a2. split; [etransitivity; eassumption | exact E2].
  - exists s, report, ok, answers. split; [apply rtc_refl | exact E].
Qed.

(** C20. However a program that can occur goes on, and whatever its checks
    do, a handler takes at most two steps for each check it has left and two
    more, and once the deadlines have passed it always has one to take until
    it has answered. *)
Theorem handler_terminates s i x h : reachable s -> handlers s !! i = Some (x, h) ->
  (forall n s', runs_of i n s s' -> (n <= work h)%nat) /\
  (Forall (fun c => ctx c <> CtxLive) (calls s) ->
    (exists s', handler_step i s s') \/ exists report ok answers, h = Answered report ok answers).
Proof.
  intros Hr E. destruct (reachable_inv s Hr) as [tbl Hinv]. split.
  { intros n s' Hn. destruct (run_works i n s s' x h E Hn) as (_ & h' & _ & H). lia. }
  intros Hc. destruct h as [report answers [| check todo] | report answers check call todo | report ok answers].
  - left. eexists. eapply answers_request. exact E.
  - left. destruct (inv_handlers tbl s Hinv i x _ E) as (_ & _ & Hk).
    inversion Hk as [| ? ? (p & f & Ep & Ef & _) _]; subst.
    destruct (startOrJoin p f (effective_timeout (registry s)) s) as [call s1] eqn:Es.
    eexists. eapply starts_check; eassumption.
  - left. destruct (inv_handlers tbl s Hinv i x _ E) as (_ & _ & _ & _ & c & Ec & _).
    rewrite Forall_forall in Hc. destruct (select_ready x c) as [e He];
      [apply Hc, list_elem_of_lookup; eauto |]. eexists. eapply gets_answer; eassumption.
  - right. eauto.
Qed.

(** ** Witnesses *)

(** One check; two requests for the ready phase, the second joins the run of
    the first. *)
Definition demo_entry : healthCheckEntry := mkEntry "db" (Some 7%nat) (Some 0%nat).
Definition demo_registry : HealthRegistry := MarkStarted (RegisterReadiness "db" (Some 7%nat) (NewHealthRegistry [])).
Definition demo_new : healthCheckCall := mkCall 0%nat 7%nat CtxLive DefaultHealthCheckTimeout false None InFunction None.
Definition demo_wait : handler := Waiting (mkReport "ok" "ready" []) [] demo_entry 0%nat [].
Definition demo_joined : hstate :=
  mkHState demo_registry {[ 0%nat := 0%nat ]} [demo_new] [(CtxLive, demo_wait); (CtxLive, demo_wait)].

Lemma demo_joined_reachable : reachable demo_joined.
Proof.
  eapply rtc_l; [apply step_outside, (registry_changes _ (OpReadiness "db" (Some 7%nat))) |].
  eapply rtc_l; [apply step_outside, (registry_changes _ OpStarted) |].
  eapply rtc_l; [apply step_outside, (request _ CtxLive "ready") |].
  eapply rtc_l; [apply step_outside, (request _ CtxLive "ready") |].
  eapply rtc_l; [eapply (step_handler _ _ 0%nat); eapply starts_check; reflexivity |].
  eapply rtc_l; [eapply (step_handler _ _ 1%nat); eapply starts_check; reflexivity |].
  apply rtc_refl.
Qed.

Definition demo_answer : answer := mkAnswer demo_entry (Some 0%nat) None.
Definition demo_ended : healthCheckCall := mkCall 0%nat 7%nat CtxLive DefaultHealthCheckTimeout true None BeforeFinish
  (Some (Returned None)).
Definition demo_answered : hstate :=
  mkHState demo_registry {[ 0%nat := 0%nat ]} [demo_ended]
    [(CtxLive, Answered (mkReport "ok" "ready" [mkResult "db" "ok" ""]) true [demo_answer]); (CtxLive, demo_wait)].

Lemma demo_answered_reachable : reachable demo_answered.
Proof.
  unfold reachable. etransitivity; [exact demo_joined_reachable |].
  eapply rtc_l; [eapply (step_call _ _ 0%nat); eapply (fn_ends 0%nat _ _ (Returned None)); reflexivity |].
  eapply rtc_l; [eapply (step_call _ _ 0%nat); eapply closes; reflexivity |].
  eapply rtc_l; [eapply (step_handler _ _ 0%nat); eapply (gets_answer 0%nat _ _ _ _ _ _ _ _ None);
    [reflexivity | reflexivity | apply elem_of_app; left; apply list_elem_of_singleton; reflexivity] |].
  eapply rtc_l; [eapply (step_handler _ _ 0%nat); eapply answers_request; reflexivity |].
  apply rtc_refl.
Qed.

Lemma single_flight_witness : reachable demo_joined /\ 0%nat = 0%nat.
Proof.
  split; [exact demo_joined_reachable |].
  apply (single_flight demo_joined 0%nat 0%nat demo_new demo_new demo_joined_reachable); reflexivity.
Defined.


Lemma handler_finishes_witness : exists s' report ok answers,
  rtc (own_step 1%nat) demo_joined s' /\ handlers s' !! 1%nat = Some (CtxLive, Answered report ok answers).
Proof. exact (handler_finishes demo_joined 1%nat CtxLive demo_wait demo_joined_reachable eq_refl). Defined.

(** The two waiting requests once the deadline has passed. *)
Definition demo_past : hstate :=
  mkHState demo_registry {[ 0%nat := 0%nat ]} [set_ctx CtxDeadline demo_new] [(CtxLive, demo_wait); (CtxLive, demo_wait)].

Lemma demo_past_reachable : reachable demo_past.
Proof.
  unfold reachable. etransitivity; [exact demo_joined_reachable |].
  eapply rtc_l; [eapply (step_deadline _ _ 0%nat); eapply (deadline 0%nat); reflexivity |]. apply rtc_refl.
Qed.

Lemma handler_terminates_witness : ((exists s', handler_step 1%nat demo_past s') \/
  exists report ok answers, demo_wait = Answered report ok answers) /\
  exists s' n, runs_of 1%nat n demo_past s' /\ (n <= 2)%nat /\ n <> 0%nat.
Proof.
  destruct (handler_terminates demo_past 1%nat CtxLive demo_wait demo_past_reachable eq_refl) as [Hn Hs].
  split; [apply Hs, List.Forall_cons; [discriminate | apply List.Forall_nil] |].
  do 2 eexists. eassert (runs_of 1%nat 1 demo_past _) as Hr.
  { eapply run_own; [| apply run_none]. eapply (gets_answer 1%nat demo_past); [reflexivity | reflexivity |].
    apply elem_of_app. right. apply elem_of_app. right. apply list_elem_of_singleton. reflexivity. }
  split; [exact Hr |]. split; [exact (Hn _ _ Hr) | discriminate].
Defined.
