(* ===== verification/Runner.v ===== *)
(** * The runner

    [go/server/runner.go]: [NewRunner], [RunBlocking], [Shutdown] and
    [mergeRunAndShutdownError].  The hooks, the [http.Server] and the gRPC
    server are calls on a world [W]; what ends the wait for the servers (the
    context, a signal, or a server) is an event of the world.

    The theorems: [Shutdown] runs every action in order whatever fails before
    and returns the first error ([shutdown_runs_all]); a whole run, with
    the order of its actions and its result on every path ([runner_trace]);
    and when a run counts as clean ([merge_errors]). *)

From S2P Require Import Prelude GoStrings GoErrors.

(** The contexts a run passes on: the caller's, a fresh one, or one with the
    shutdown timeout. *)
Inductive context : Type := CallerContext | Background | ShutdownContext (timeout : Z).

Definition StartupHook (W : Type) : Type := context -> M W (option error).
Definition ShutdownHook (W : Type) : Type := context -> M W (option error).

(** [GRPCServer], and [GracefulStop] if the server has it. *)
Record GRPCServer (W : Type) : Type := mkGRPCServer {
  Start : M W unit;
  Stop : M W unit;
  GracefulStop : option (context -> M W (option error))
}.
Arguments mkGRPCServer {W}. Arguments Start {W}. Arguments Stop {W}. Arguments GracefulStop {W}.

(** What the source uses of [http.Server]: [ListenAndServe] in a goroutine,
    and [Shutdown]. *)
Record HTTPServer (W : Type) : Type := mkHTTPServer {
  ListenAndServe : M W unit;
  http_Shutdown : context -> M W (option error)
}.
Arguments mkHTTPServer {W}. Arguments ListenAndServe {W}. Arguments http_Shutdown {W}.

Record Options (W : Type) : Type := mkOptions {
  opt_HTTPServer : option (HTTPServer W);
  opt_GRPCServer : option (GRPCServer W);
  EnableGRPC : bool;
  ShutdownTimeout : Z;
  StartupHooks : list (option (StartupHook W));
  PreShutdownHooks : list (option (ShutdownHook W));
  ShutdownHooks : list (option (ShutdownHook W))
}.
Arguments mkOptions {W}. Arguments opt_HTTPServer {W}. Arguments opt_GRPCServer {W}. Arguments EnableGRPC {W}.
Arguments ShutdownTimeout {W}. Arguments StartupHooks {W}. Arguments PreShutdownHooks {W}. Arguments ShutdownHooks {W}.

Record Runner (W : Type) : Type := mkRunner { http : HTTPServer W; opts : Options W }.
Arguments mkRunner {W}. Arguments http {W}. Arguments opts {W}.

Definition NewRunner {W} (opts : Options W) : Runner W + error :=
  match opt_HTTPServer opts with
  | None => inr (EText "http server is required")
  | Some h =>
      let timeout := if ShutdownTimeout opts <=? 0 then 30 * Second else ShutdownTimeout opts in
      inl (mkRunner h (mkOptions (opt_HTTPServer opts) (opt_GRPCServer opts) (EnableGRPC opts) timeout
        (StartupHooks opts) (PreShutdownHooks opts) (ShutdownHooks opts)))
  end.

(** What ends the wait: the context, a signal, or a server that returned. *)
Inductive run_event : Type :=
| ContextDone (e : error)
| SignalReceived
| ServerReturned (e : option error).

Section Run.
Context {W : Type}.

(** The loops of [Shutdown] over hooks: every hook runs, the first error is
    kept. *)
Fixpoint run_hooks (hooks : list (option (ShutdownHook W))) (ctx : context) (firstErr : option error) :
    M W (option error) :=
  match hooks with
  | [] => mret firstErr
  | None :: hooks' => run_hooks hooks' ctx firstErr
  | Some hook :: hooks' => e ← hook ctx; run_hooks hooks' ctx (keep_first firstErr e)
  end.

(** [err != nil && err != http.ErrServerClosed]. *)
Definition not_closed (e : option error) : option error :=
  match e with Some e => if is_server_closed e then None else Some e | None => None end.

Definition stop_grpc (g : GRPCServer W) (ctx : context) (firstErr : option error) : M W (option error) :=
  match GracefulStop g with
  | Some graceful =>
      e ← graceful ctx;
      match e with
      | Some _ => Stop g;; mret (keep_first firstErr e)
      | None => mret firstErr
      end
  | None => Stop g;; mret firstErr
  end.

Definition Shutdown (r : Runner W) (ctx : context) : M W (option error) :=
  firstErr ← run_hooks (PreShutdownHooks (opts r)) ctx None;
  e ← http_Shutdown (http r) ctx;
  let firstErr := keep_first firstErr (not_closed e) in
  firstErr ← match EnableGRPC (opts r), opt_GRPCServer (opts r) with
             | true, Some g => stop_grpc g ctx firstErr
             | _, _ => mret firstErr
             end;
  run_hooks (ShutdownHooks (opts r)) ctx firstErr.

Definition mergeRunAndShutdownError (runErr shutdownErr : option error) : option error :=
  if errors_is_opt runErr SCanceled then shutdownErr
  else
    match runErr, shutdownErr with
    | None, _ => shutdownErr
    | Some _, None => runErr
    | Some _, Some _ => errors_join [runErr; shutdownErr]
    end.

(** The startup loop: the error of the first hook that fails. *)
Fixpoint run_startup (hooks : list (option (StartupHook W))) (ctx : context) : M W (option error) :=
  match hooks with
  | [] => mret None
  | None :: hooks' => run_startup hooks' ctx
  | Some hook :: hooks' =>
      e ← hook ctx;
      match e with Some e => mret (Some e) | None => run_startup hooks' ctx end
  end.

Definition event_error (ev : run_event) : option error :=
  match ev with
  | ContextDone e => Some e
  | SignalReceived => None
  | ServerReturned e => not_closed e
  end.

(** [wait] is the [select]; [ctx] is [None] for a nil context. *)
Definition RunBlocking (wait : M W run_event) (r : Runner W) (ctx : option context) : M W (option error) :=
  let ctx := match ctx with None => Background | Some ctx => ctx end in
  startErr ← run_startup (StartupHooks (opts r)) ctx;
  match startErr with
  | Some err =>
      shutdownErr ← Shutdown r (ShutdownContext (ShutdownTimeout (opts r)));
      match shutdownErr with
      | Some _ => mret (errors_join [Some err; shutdownErr])
      | None => mret (Some err)
      end
  | None =>
      ListenAndServe (http r);;
      match EnableGRPC (opts r), opt_GRPCServer (opts r) with
      | true, Some g => Start g
      | _, _ => mret tt
      end;;
      ev ← wait;
      let runErr := event_error ev in
      shutdownErr ← Shutdown r (ShutdownContext (ShutdownTimeout (opts r)));
      mret (mergeRunAndShutdownError runErr shutdownErr)
  end.

(** ** Every action of a shutdown runs *)

(** The actions of [Shutdown], in order; a gRPC server that fails to stop
    gracefully is stopped at once. *)
Definition grpc_action (g : GRPCServer W) (ctx : context) : M W (option error) := stop_grpc g ctx None.

Definition shutdown_actions (r : Runner W) (ctx : context) : list (M W (option error)) :=
  ((fun hook : ShutdownHook W => hook ctx) <$> omap id (PreShutdownHooks (opts r))) ++
  [e ← http_Shutdown (http r) ctx; mret (not_closed e)] ++
  match EnableGRPC (opts r), opt_GRPCServer (opts r) with
  | true, Some g => [grpc_action g ctx]
  | _, _ => []
  end ++
  ((fun hook : ShutdownHook W => hook ctx) <$> omap id (ShutdownHooks (opts r))).

(** Run all, in order, and collect what they return. *)
Fixpoint run_all (actions : list (M W (option error))) : M W (list (option error)) :=
  match actions with
  | [] => mret []
  | a :: actions' => e ← a; es ← run_all actions'; mret (e :: es)
  end.

Definition all_then (actions : list (M W (option error))) (firstErr : option error) : M W (option error) :=
  es ← run_all actions; mret (foldl keep_first firstErr es).

Lemma all_then_cons a actions firstErr c :
  all_then (a :: actions) firstErr c = (e ← a; all_then actions (keep_first firstErr e)) c.
Proof.
  unfold all_then. cbn [run_all]. unfold mbind, M_bind. destruct (a c) as [[e | v] c']; [| reflexivity].
  now destruct (run_all actions c') as [[es | v] c''].
Qed.

Lemma all_then_app xs ys firstErr c :
  all_then (xs ++ ys) firstErr c = (e ← all_then xs firstErr; all_then ys e) c.
Proof.
  revert firstErr c. induction xs as [| x xs IH]; intros firstErr c; [reflexivity |].
  cbn [app]. rewrite all_then_cons. unfold mbind at 2, M_bind at 2. rewrite all_then_cons.
  unfold mbind, M_bind. destruct (x c) as [[e | v] c']; [| reflexivity]. rewrite IH. reflexivity.
Qed.

Lemma run_hooks_all hooks ctx firstErr c :
  run_hooks hooks ctx firstErr c = all_then ((fun hook : ShutdownHook W => hook ctx) <$> omap id hooks) firstErr c.
Proof.
  revert firstErr c. induction hooks as [| [hook |] hooks IH]; intros firstErr c.
  - reflexivity.
  - cbn [omap list_omap id fmap list_fmap]. rewrite all_then_cons. cbn [run_hooks].
    unfold mbind, M_bind. destruct (hook ctx c) as [[e | v] c']; [apply IH | reflexivity].
  - apply IH.
Qed.

Lemma stop_grpc_all g ctx firstErr c :
  stop_grpc g ctx firstErr c = all_then [grpc_action g ctx] firstErr c.
Proof.
  unfold all_then, grpc_action, stop_grpc. cbn [run_all]. unfold mbind, M_bind.
  destruct (GracefulStop g) as [graceful |].
  - destruct (graceful ctx c) as [[[e |] | v] c']; [| | reflexivity].
    + destruct (Stop g c') as [[[] | v] c'']; reflexivity.
    + cbn. now rewrite keep_first_none_r.
  - destruct (Stop g c) as [[[] | v] c']; [| reflexivity]. cbn. now rewrite keep_first_none_r.
Qed.

Lemma all_then_http (h : M W (option error)) firstErr c :
  all_then [e ← h; mret (not_closed e)] firstErr c =
    match h c with
    | (Ret e, c') => (Ret (keep_first firstErr (not_closed e)), c')
    | (Panic v, c') => (Panic v, c')
    end.
Proof. unfold all_then. cbn [run_all]. rewrite !bind_run. now destruct (h c) as [[e | v] c']. Qed.

Lemma Shutdown_all r ctx c : Shutdown r ctx c = all_then (shutdown_actions r ctx) None c.
Proof.
  unfold Shutdown, shutdown_actions. rewrite all_then_app, !bind_run, run_hooks_all.
  destruct (all_then _ None c) as [[f0 | v] c0]; [| reflexivity].
  rewrite all_then_app, !bind_run, all_then_http.
  destruct (http_Shutdown (http r) ctx c0) as [[e | v] c1]; [| reflexivity].
  rewrite all_then_app, !bind_run.
  destruct (EnableGRPC (opts r)), (opt_GRPCServer (opts r)) as [g |]; try apply run_hooks_all.
  rewrite stop_grpc_all. destruct (all_then [grpc_action g ctx] _ c1) as [[f1 | v] c2]; [| reflexivity].
  apply run_hooks_all.
Qed.
End Run.

(** ** Runs that log their actions *)

Inductive event : Type :=
| EStartup (i : nat) (ctx : context)
| EListen
| EGRPCStart
| EWait
| EPreShutdown (i : nat) (ctx : context)
| EHTTPShutdown (ctx : context)
| EGracefulStop (ctx : context)
| EStop
| EShutdown (i : nat) (ctx : context).

(** What every part of a run returns; [None] in a list is a nil hook, and
    the result of a server without [GracefulStop]. *)
Record scenario : Type := mkScenario {
  sc_startup : list (option (option error));
  sc_pre : list (option (option error));
  sc_hooks : list (option (option error));
  sc_http : option error;
  sc_grpc : option (option (option error));
  sc_enable : bool;
  sc_event : run_event;
  sc_timeout : Z
}.

Definition log {A} (e : event) (a : A) : M (list event) A := modify (fun l => l ++ [e]);; mret a.

Fixpoint logged_hooks (mk : nat -> context -> event) (i : nat) (l : list (option (option error))) :
    list (option (context -> M (list event) (option error))) :=
  match l with
  | [] => []
  | r :: l' => (fmap (fun e ctx => log (mk i ctx) e) r) :: logged_hooks mk (S i) l'
  end.

Definition logged_grpc (r : option (option error)) : GRPCServer (list event) :=
  mkGRPCServer (log EGRPCStart tt) (log EStop tt) (fmap (fun e ctx => log (EGracefulStop ctx) e) r).

Definition logged_options (sc : scenario) : Options (list event) :=
  mkOptions (Some (mkHTTPServer (log EListen tt) (fun ctx => log (EHTTPShutdown ctx) (sc_http sc))))
    (logged_grpc <$> sc_grpc sc) (sc_enable sc) (sc_timeout sc)
    (logged_hooks EStartup 0 (sc_startup sc)) (logged_hooks EPreShutdown 0 (sc_pre sc))
    (logged_hooks EShutdown 0 (sc_hooks sc)).

(** The specification: the events of the hooks that are not nil, up to the
    first failure for the startup hooks. *)
Fixpoint hook_events (mk : nat -> context -> event) (ctx : context) (i : nat) (l : list (option (option error))) :
    list event :=
  match l with
  | [] => []
  | None :: l' => hook_events mk ctx (S i) l'
  | Some _ :: l' => mk i ctx :: hook_events mk ctx (S i) l'
  end.

Fixpoint startup_events (ctx : context) (i : nat) (l : list (option (option error))) : list event :=
  match l with
  | [] => []
  | None :: l' => startup_events ctx (S i) l'
  | Some (Some _) :: _ => [EStartup i ctx]
  | Some None :: l' => EStartup i ctx :: startup_events ctx (S i) l'
  end.

Definition results (l : list (option (option error))) : list (option error) := omap id l.

Definition grpc_used (sc : scenario) : option (option (option error)) :=
  if sc_enable sc then sc_grpc sc else None.

Definition serve_events (sc : scenario) : list event :=
  [EListen] ++ (match grpc_used sc with Some _ => [EGRPCStart] | None => [] end) ++ [EWait].

Definition grpc_events (sc : scenario) (ctx : context) : list event :=
  match grpc_used sc with
  | None => []
  | Some None => [EStop]
  | Some (Some None) => [EGracefulStop ctx]
  | Some (Some (Some _)) => [EGracefulStop ctx; EStop]
  end.

Definition grpc_errors (sc : scenario) : list (option error) :=
  match grpc_used sc with Some (Some e) => [e] | _ => [] end.

Definition shutdown_events (sc : scenario) (ctx : context) : list event :=
  hook_events EPreShutdown ctx 0 (sc_pre sc) ++ [EHTTPShutdown ctx] ++ grpc_events sc ctx ++
  hook_events EShutdown ctx 0 (sc_hooks sc).

Definition shutdown_error (sc : scenario) : option error :=
  first_error (results (sc_pre sc) ++ [not_closed (sc_http sc)] ++ grpc_errors sc ++ results (sc_hooks sc)).

Definition run_result (sc : scenario) : option error :=
  match first_error (results (sc_startup sc)) with
  | Some e => match shutdown_error sc with Some s => Some (EJoin [e; s]) | None => Some e end
  | None => mergeRunAndShutdownError (event_error (sc_event sc)) (shutdown_error sc)
  end.

Definition run_trace (sc : scenario) (timeout : Z) : list event :=
  startup_events Background 0 (sc_startup sc) ++
  match first_error (results (sc_startup sc)) with Some _ => [] | None => serve_events sc end ++
  shutdown_events sc (ShutdownContext timeout).

Definition logged_run (sc : scenario) : option (M (list event) (option error)) :=
  match NewRunner (logged_options sc) with
  | inl r => Some (RunBlocking (log EWait (sc_event sc)) r None)
  | inr _ => None
  end.

Lemma log_run {A} e (a : A) c : log e a c = (Ret a, with_st c (st c ++ [e])).
Proof. reflexivity. Qed.

Lemma logged_hooks_run mk i l ctx firstErr c :
  run_hooks (logged_hooks mk i l) ctx firstErr c =
    (Ret (foldl keep_first firstErr (results l)), with_st c (st c ++ hook_events mk ctx i l)).
Proof.
  revert i firstErr c. induction l as [| [e |] l IH]; intros i firstErr c; cbn [logged_hooks run_hooks fmap option_fmap option_map].
  - cbn. rewrite app_nil_r. now destruct c.
  - rewrite bind_run, log_run, IH. cbn. now rewrite <- app_assoc.
  - apply IH.
Qed.

Lemma logged_startup_run i l ctx c :
  run_startup (logged_hooks EStartup i l) ctx c =
    (Ret (first_error (results l)), with_st c (st c ++ startup_events ctx i l)).
Proof.
  revert i c. induction l as [| [[e |] |] l IH]; intros i c; cbn [logged_hooks run_startup fmap option_fmap option_map].
  - cbn. rewrite app_nil_r. now destruct c.
  - reflexivity.
  - rewrite bind_run, log_run, IH. cbn. now rewrite <- app_assoc.
  - apply IH.
Qed.

Lemma logged_stop sc ctx firstErr c :
  (match sc_enable sc, logged_grpc <$> sc_grpc sc with
   | true, Some g => stop_grpc g ctx firstErr
   | _, _ => mret firstErr
   end) c = (Ret (keep_first firstErr (first_error (grpc_errors sc))), with_st c (st c ++ grpc_events sc ctx)).
Proof.
  unfold grpc_errors, grpc_events, grpc_used. destruct (sc_enable sc), (sc_grpc sc) as [[[e |] |] |]; cbn;
    unfold log; mstep; destruct c, firstErr; unfold with_st; cbn; rewrite ?app_nil_r, <- ?app_assoc; reflexivity.
Qed.

Lemma logged_start sc c :
  (match EnableGRPC (logged_options sc), opt_GRPCServer (logged_options sc) with
   | true, Some g => Start g
   | _, _ => mret tt
   end) c = (Ret tt, with_st c (st c ++ match grpc_used sc with Some _ => [EGRPCStart] | None => [] end)).
Proof.
  unfold grpc_used. cbn. destruct (sc_enable sc), (sc_grpc sc); cbn; rewrite ?app_nil_r; now destruct c.
Qed.

Lemma logged_shutdown sc timeout ctx c :
  Shutdown (mkRunner (mkHTTPServer (log EListen tt) (fun ctx => log (EHTTPShutdown ctx) (sc_http sc)))
    (mkOptions (opt_HTTPServer (logged_options sc)) (opt_GRPCServer (logged_options sc)) (sc_enable sc) timeout
      (StartupHooks (logged_options sc)) (PreShutdownHooks (logged_options sc)) (ShutdownHooks (logged_options sc))))
    ctx c =
  (Ret (shutdown_error sc), with_st c (st c ++ shutdown_events sc ctx)).
Proof.
  unfold Shutdown, shutdown_error, shutdown_events.
  cbn [opts http PreShutdownHooks ShutdownHooks EnableGRPC opt_GRPCServer http_Shutdown logged_options].
  rewrite bind_run, logged_hooks_run, bind_run, log_run, bind_run, logged_stop, logged_hooks_run.
  cbn [st with_st]. rewrite !fold_keep_first, !first_error_app, <- !app_assoc. do 2 f_equal.
  rewrite <- !keep_first_assoc. do 2 f_equal. cbn [first_error].
  destruct (not_closed (sc_http sc)); reflexivity.
Qed.

(** ** Theorems *)

(** C23. [Shutdown] runs every hook that is not nil, the HTTP shutdown and
    the stop of an enabled gRPC server, in that order, whatever the earlier
    ones returned, and returns the first error. *)
Theorem shutdown_runs_all {W} (r : Runner W) ctx (c : Clocked W) :
  Shutdown r ctx c = (es ← run_all (shutdown_actions r ctx); mret (first_error es)) c.
Proof.
  rewrite Shutdown_all. unfold all_then. rewrite !bind_run.
  destruct (run_all (shutdown_actions r ctx) c) as [[es | v] c']; [| reflexivity].
  now rewrite fold_keep_first.
Qed.

(** C30. A whole run: the startup hooks in order up to the first failure;
    the servers and the wait only if none failed; then, on every path, one
    full shutdown under the shutdown timeout, and the merged error. *)
Theorem runner_trace sc (c : Clocked (list event)) : exists run,
  logged_run sc = Some run /\
  run c = (Ret (run_result sc),
    with_st c (st c ++ run_trace sc (if sc_timeout sc <=? 0 then 30 * Second else sc_timeout sc))).
Proof.
  eexists. split; [reflexivity |]. unfold RunBlocking, run_result, run_trace.
  cbn [opts StartupHooks logged_options]. rewrite bind_run, logged_startup_run.
  destruct (first_error (results (sc_startup sc))) as [e |].
  - rewrite bind_run, logged_shutdown. cbn [app]. rewrite app_assoc.
    destruct (shutdown_error sc); reflexivity.
  - rewrite bind_run. cbn [ListenAndServe http]. rewrite log_run, bind_run. cbn [opts EnableGRPC opt_GRPCServer].
    rewrite logged_start, bind_run, log_run, bind_run.
    rewrite logged_shutdown. cbn [st with_st]. unfold serve_events. now rewrite <- !app_assoc.
Qed.

(** A run is clean exactly when the shutdown is and the run ended
    without an error or by cancellation; otherwise no error that matters is
    lost: the merged error matches what either part matches, a cancellation
    apart. *)
Theorem merge_errors runErr shutdownErr s :
  let merged := mergeRunAndShutdownError runErr shutdownErr in
  (merged = None <-> shutdownErr = None /\ (runErr = None \/ errors_is_opt runErr SCanceled = true)) /\
  errors_is_opt merged s =
    (negb (errors_is_opt runErr SCanceled) && errors_is_opt runErr s) || errors_is_opt shutdownErr s.
Proof.
  unfold mergeRunAndShutdownError. destruct (errors_is_opt runErr SCanceled) eqn:E; cbn [negb andb orb].
  - split; [tauto | reflexivity].
  - destruct runErr as [a |], shutdownErr as [b |]; cbn [errors_is_opt].
    + split; [split; [discriminate | intros [? _]; discriminate] |]. cbn. now rewrite orb_false_r.
    + split; [split; [discriminate | intros [_ [? | ?]]; discriminate] |]. now rewrite orb_false_r.
    + split; [split; [discriminate | intros [? _]; discriminate] | reflexivity].
    + tauto.
Qed.
