(* ===== verification/GoHTTP.v ===== *)
(** * What the source uses of net/http

    Headers with canonical keys, requests, the server's response writer, the
    writers that wrap it, and handlers.  Wrappers are objects with a state of
    their own, so they live in a store of the world and a writer is a chain
    of references down to the server's writer; [Hijack] and [Push] go down
    it. *)

From S2P Require Import Prelude GoStrings GoErrors Spans.
From Stdlib Require Import Ascii.

(** ** Headers *)

Definition upper_byte (a : ascii) : ascii :=
  let n := nat_of_ascii a in
  if (97 <=? n)%nat && (n <=? 122)%nat then ascii_of_nat (n - 32) else a.

Definition dash : ascii := "-"%char.

(** The bytes of a header name: letters, digits, and [!#$%&'*+-.^_`|~]. *)
Definition is_token (a : ascii) : bool :=
  let n := nat_of_ascii a in
  ((48 <=? n) && (n <=? 57) || (65 <=? n) && (n <=? 90) || (97 <=? n) && (n <=? 122) ||
   existsb (Nat.eqb n) [33; 35; 36; 37; 38; 39; 42; 43; 45; 46; 94; 95; 96; 124; 126])%nat.

Fixpoint canonical_go (upper : bool) (s : list ascii) : list ascii :=
  match s with
  | [] => []
  | a :: s' => (if upper then upper_byte a else lower_byte a) :: canonical_go (Ascii.eqb a dash) s'
  end.

(** [textproto.CanonicalMIMEHeaderKey]. *)
Definition canonical (key : string) : string :=
  if forallb is_token (bytes key) then str (canonical_go true (bytes key)) else key.

Definition header : Type := gmap string (list string).

Definition header_Values (h : header) (key : string) : list string := default [] (h !! canonical key).
Definition header_Get (h : header) (key : string) : string :=
  match header_Values h key with v :: _ => v | [] => "" end.
Definition header_Set (key value : string) (h : header) : header := <[canonical key := [value]]> h.
Definition header_Add (key value : string) (h : header) : header :=
  <[canonical key := header_Values h key ++ [value]]> h.

(** ** Requests *)

Record request : Type := mkRequest {
  Method : string;
  URLPath : string;
  Header : header;
  RemoteAddr : string;
  UserAgent : string;
  ContentLength : Z;
  body_limit : option Z;        (** the limit of [http.MaxBytesReader] *)
  ctx_request_id : option string;  (** the context value of [requestIDKey] *)
  ctx_timeouts : list Z;        (** the timeouts its context was given *)
  ctx_otel : otel_context       (** the OpenTelemetry values of its context *)
}.

Definition with_request_id (id : string) (r : request) : request :=
  mkRequest (Method r) (URLPath r) (Header r) (RemoteAddr r) (UserAgent r) (ContentLength r) (body_limit r)
    (Some id) (ctx_timeouts r) (ctx_otel r).
Definition with_timeout (t : Z) (r : request) : request :=
  mkRequest (Method r) (URLPath r) (Header r) (RemoteAddr r) (UserAgent r) (ContentLength r) (body_limit r)
    (ctx_request_id r) (t :: ctx_timeouts r) (ctx_otel r).
Definition with_body_limit (n : Z) (r : request) : request :=
  mkRequest (Method r) (URLPath r) (Header r) (RemoteAddr r) (UserAgent r) (ContentLength r) (Some n)
    (ctx_request_id r) (ctx_timeouts r) (ctx_otel r).
Definition with_path (p : string) (r : request) : request :=
  mkRequest (Method r) p (Header r) (RemoteAddr r) (UserAgent r) (ContentLength r) (body_limit r)
    (ctx_request_id r) (ctx_timeouts r) (ctx_otel r).

Definition with_otel (ctx : otel_context) (r : request) : request :=
  mkRequest (Method r) (URLPath r) (Header r) (RemoteAddr r) (UserAgent r) (ContentLength r) (body_limit r)
    (ctx_request_id r) (ctx_timeouts r) ctx.

(** ** The response *)

(** [hdr] is the header map; [sent] the status and the headers sent with it;
    [interim] the informational statuses sent before. *)
Record response : Type := mkResponse {
  hdr : header;
  sent : option (Z * header);
  interim : list Z;
  content : string
}.

Definition new_response : response := mkResponse ∅ None [] "".

Definition informational (code : Z) : bool := (100 <=? code) && (code <=? 199) && negb (code =? 101).

(** A second status is ignored, an invalid one panics, an informational one
    is sent at once and is not the status of the response. *)
Definition base_WriteHeader (code : Z) : M response unit :=
  r ← get;
  match sent r with
  | Some _ => mret tt
  | None =>
      if (code <? 100) || (999 <? code) then panic "invalid WriteHeader code"
      else if informational code then put (mkResponse (hdr r) None (interim r ++ [code]) (content r))
      else put (mkResponse (hdr r) (Some (code, hdr r)) (interim r) (content r))
  end.

(** A body is not allowed for 1xx, 204 and 304. *)
Definition body_allowed (code : Z) : bool := negb ((code <=? 199) || (code =? 204) || (code =? 304)).

(** The status 200 is sent if none was. *)
Definition base_ensure : M response unit :=
  r ← get; match sent r with Some _ => mret tt | None => base_WriteHeader 200 end.

Definition base_body (b : string) : M response (Z * option error) :=
  r ← get;
  match sent r with
  | Some (code, _) =>
      if decide (b = "") then mret (0, None)
      else if body_allowed code then
        put (mkResponse (hdr r) (sent r) (interim r) (content r +:+ b));;
        mret (Z.of_nat (String.length b), None)
      else mret (0, Some (EText "http: request method or response status code does not allow body"))
  | None => mret (0, None)
  end.

Definition base_Write (b : string) : M response (Z * option error) := base_ensure;; base_body b.

Definition base_Flush : M response unit := base_ensure.

(** ** Worlds, writers and handlers *)

(** The state of a wrapping writer. *)
Record wrap : Type := mkWrap { statusCode : Z; written : Z; wrote : bool }.

(** [responseWriter] of the middleware and [metricsResponseWriter] of the
    metrics. *)
Inductive wrapper_kind : Type := ResponseWriter | MetricsResponseWriter.

Inductive writer : Type :=
| WBase
| WWrapOf (kind : wrapper_kind) (id : nat) (inner : writer).

Abbreviation WWrap := (WWrapOf ResponseWriter).

(** A handled request: the response, the wrappers made for it, and the state
    [E] of what the handlers use. *)
Record world (E : Type) : Type := mkWorld { resp : response; wraps : list wrap; env : E }.
Arguments mkWorld {E}. Arguments resp {E}. Arguments wraps {E}. Arguments env {E}.

Definition Handler (E : Type) : Type := writer -> request -> M (world E) unit.
Definition Middleware (E : Type) : Type := Handler E -> Handler E.

Section World.
Context {E : Type}.

Definition on_resp {A} (m : M response A) : M (world E) A :=
  zoom resp (fun r w => mkWorld r (wraps w) (env w)) m.
Definition on_env {A} (m : M E A) : M (world E) A :=
  zoom env (fun e w => mkWorld (resp w) (wraps w) e) m.

(** [w.Header()] is the header map of the server's writer, however wrapped. *)
Definition get_header : M (world E) header := gets (fun w => hdr (resp w)).
Definition edit_header (f : header -> header) : M (world E) unit :=
  on_resp (modify (fun r => mkResponse (f (hdr r)) (sent r) (interim r) (content r))).

Definition set_wrap (id : nat) (x : wrap) : M (world E) unit :=
  modify (fun w => mkWorld (resp w) (<[id := x]> (wraps w)) (env w)).
Definition get_wrap (id : nat) : M (world E) wrap :=
  gets (fun w => default (mkWrap 0 0 false) (wraps w !! id)).

Definition new_wrapper (kind : wrapper_kind) (statusCode : Z) (w : writer) : M (world E) (nat * writer) :=
  state (fun s => ((length (wraps s), WWrapOf kind (length (wraps s)) w),
    mkWorld (resp s) (wraps s ++ [mkWrap statusCode 0 false]) (env s))).

(** [&responseWriter{ResponseWriter: w, statusCode: http.StatusOK}]. *)
Definition new_wrap : writer -> M (world E) (nat * writer) := new_wrapper ResponseWriter 200.

Fixpoint WriteHeader (w : writer) (code : Z) : M (world E) unit :=
  match w with
  | WBase => on_resp (base_WriteHeader code)
  | WWrapOf kind id inner =>
      rw ← get_wrap id;
      if wrote rw then mret tt
      else set_wrap id (mkWrap code (written rw) true);; WriteHeader inner code
  end.

Fixpoint Write (w : writer) (b : string) : M (world E) (Z * option error) :=
  match w with
  | WBase => on_resp (base_Write b)
  | WWrapOf kind id inner =>
      rw ← get_wrap id;
      (if wrote rw then mret tt else WriteHeader (WWrapOf kind id inner) 200);;
      x ← Write inner b;
      rw ← get_wrap id;
      set_wrap id (mkWrap (statusCode rw) (wrap64 (written rw + x.1)) (wrote rw));;
      mret x
  end.

Fixpoint Flush (w : writer) : M (world E) unit :=
  match w with
  | WBase => on_resp base_Flush
  | WWrapOf kind id inner => Flush inner
  end.

(** [ReadFrom] of all of [src]: the server's writer writes it, and the
    wrapper of the metrics sends the status first. *)
Fixpoint ReadFrom (w : writer) (src : string) : M (world E) (Z * option error) :=
  match w with
  | WBase => on_resp (base_Write src)
  | WWrapOf kind id inner =>
      match kind with
      | ResponseWriter => mret tt
      | MetricsResponseWriter =>
          rw ← get_wrap id;
          if wrote rw then mret tt else WriteHeader (WWrapOf kind id inner) 200
      end;;
      x ← ReadFrom inner src;
      rw ← get_wrap id;
      set_wrap id (mkWrap (statusCode rw) (wrap64 (written rw + x.1)) (wrote rw));;
      mret x
  end.
End World.

(** [Hijack] and [Push]: a wrapper asks the writer inside whether it has the
    method; the server's may, and every wrapper has it. *)
Section Upgrade.
Context {E Conn : Type} (base_Hijack : option (M response (Conn + error)))
  (base_Push : option (string -> M response (option error))).

Fixpoint Hijack (w : writer) : M (world E) (Conn + error) :=
  match w with
  | WBase => match base_Hijack with Some h => on_resp h | None => mret (inr (EText "hijacker not supported")) end
  | WWrapOf kind id inner => Hijack inner
  end.

Fixpoint Push (w : writer) (target : string) : M (world E) (option error) :=
  match w with
  | WBase => match base_Push with Some p => on_resp (p target) | None => mret (Some (EText "feature not supported")) end
  | WWrapOf kind id inner => Push inner target
  end.

(** Through any wrappers they are the server's, and count as no write. *)
Lemma upgrades_pass w target c : Hijack w c = Hijack WBase c /\ Push w target c = Push WBase target c /\
  wraps (st (Hijack w c).2) = wraps (st c).
Proof.
  assert (Hijack w c = Hijack WBase c) as Hh by (induction w; [reflexivity | exact IHw]).
  assert (Push w target c = Push WBase target c) as Hp by (clear Hh; induction w; [reflexivity | exact IHw]).
  split; [exact Hh |]. split; [exact Hp |]. rewrite Hh. cbn [Hijack].
  destruct base_Hijack as [h |]; [| reflexivity]. unfold on_resp, zoom. now destruct (h _).
Qed.
End Upgrade.

Lemma get_wrap_run {E} i x (c : Clocked (world E)) : wraps (st c) !! i = Some x -> get_wrap i c = (Ret x, c).
Proof. intros E1. unfold get_wrap, gets. now rewrite E1. Qed.

Lemma set_wrap_run {E} i x (c : Clocked (world E)) :
  set_wrap i x c = (Ret tt, with_st c (mkWorld (resp (st c)) (<[i := x]> (wraps (st c))) (env (st c)))).
Proof. reflexivity. Qed.

Lemma edit_header_run {E} f (c : Clocked (world E)) : edit_header f c = (Ret tt, with_st c
  (mkWorld (mkResponse (f (hdr (resp (st c)))) (sent (resp (st c))) (interim (resp (st c))) (content (resp (st c))))
    (wraps (st c)) (env (st c)))).
Proof. reflexivity. Qed.

Lemma header_Values_Set key v h : header_Values (header_Set key v h) key = [v].
Proof. unfold header_Values, header_Set. now rewrite (lookup_insert_eq (M := gmap string) (h : gmap string (list string))). Qed.

Lemma header_Get_Set key v h : header_Get (header_Set key v h) key = v.
Proof. unfold header_Get. now rewrite header_Values_Set. Qed.

Lemma header_Values_Set_ne key key' v h : canonical key <> canonical key' ->
  header_Values (header_Set key v h) key' = header_Values h key'.
Proof. intros H. unfold header_Values, header_Set. now rewrite (lookup_insert_ne (M := gmap string) (h : gmap string (list string))). Qed.

Lemma header_Values_Add key v h : header_Values (header_Add key v h) key = header_Values h key ++ [v].
Proof. unfold header_Values at 1, header_Add. now rewrite (lookup_insert_eq (M := gmap string) (h : gmap string (list string))). Qed.

Lemma header_Values_Add_ne key key' v h : canonical key <> canonical key' ->
  header_Values (header_Add key v h) key' = header_Values h key'.
Proof. intros H. unfold header_Values at 1, header_Add. now rewrite (lookup_insert_ne (M := gmap string) (h : gmap string (list string))). Qed.
