(* ===== verification/Writers.v ===== *)
(** * Writing through wrappers

    What a handler's writes do to the response and to the wrappers between
    it and the server's writer: the first status goes through every wrapper,
    the body follows, and a wrapper that sees all writes knows the status sent
    and the length of the body ([run_ops_wrapped]).  The middleware and the
    metrics use these lemmas. *)

From S2P Require Import Prelude GoStrings GoErrors GoHTTP.
From Stdlib Require Import Ascii.

(** ** Writing through wrappers *)

(** A status that ends the headers. *)
Definition final_code (code : Z) : Prop := (200 <= code <= 999) \/ code = 101.

Lemma final_not_informational code : final_code code ->
  (code <? 100) || (999 <? code) = false /\ informational code = false.
Proof. unfold final_code, informational. intros H. split; lia. Qed.

Fixpoint writer_ids (w : writer) : list nat :=
  match w with WBase => [] | WWrapOf _ id inner => id :: writer_ids inner end.

(** Nothing was sent, and no wrapper of the chain thinks so. *)
Definition unwritten {E} (w : writer) (s : world E) : Prop :=
  sent (resp s) = None /\ NoDup (writer_ids w) /\
  Forall (fun id => exists x, wraps s !! id = Some x /\ wrote x = false) (writer_ids w).

(** The world after the first status went out. *)
Definition headers_sent {E} (code : Z) (l : list wrap) (s : world E) : world E :=
  mkWorld (mkResponse (hdr (resp s)) (Some (code, hdr (resp s))) (interim (resp s)) (content (resp s))) l (env s).

Lemma base_WriteHeader_final {E} code (c : Clocked (world E)) : final_code code -> sent (resp (st c)) = None ->
  on_resp (base_WriteHeader code) c = (Ret tt, with_st c (headers_sent code (wraps (st c)) (st c))).
Proof.
  intros Hf Hs. destruct (final_not_informational code Hf) as [Hv Hi].
  unfold on_resp, zoom, base_WriteHeader. rewrite bind_run. unfold get. cbn [st with_st].
  rewrite Hs, Hv, Hi. reflexivity.
Qed.

Lemma WriteHeader_first {E} w code (c : Clocked (world E)) : final_code code -> unwritten w (st c) ->
  exists l, WriteHeader w code c = (Ret tt, with_st c (headers_sent code l (st c))) /\
    (forall id, id ∈ writer_ids w -> exists x, l !! id = Some x /\ wrote x = true /\ statusCode x = code) /\
    (forall id, id ∉ writer_ids w -> l !! id = wraps (st c) !! id).
Proof.
  intros Hf. revert c. induction w as [| kind id inner IH]; intros c (Hs & Hn & Hw).
  - exists (wraps (st c)). split; [now apply base_WriteHeader_final |]. split; [| auto].
    intros id Hid. now apply not_elem_of_nil in Hid.
  - inversion Hw as [| ? ? (x & Ex & Hx) Hw']; subst. apply NoDup_cons in Hn as [Hni Hn].
    set (c1 := with_st c (mkWorld (resp (st c)) (<[id := mkWrap code (written x) true]> (wraps (st c))) (env (st c)))).
    destruct (IH c1) as (l & El & Hl & Ho).
    { split; [exact Hs |]. split; [exact Hn |]. apply Forall_forall. intros j Hj.
      rewrite Forall_forall in Hw'. destruct (Hw' j Hj) as (y & Ey & Hy). exists y. split; [| exact Hy].
      cbn. rewrite list_lookup_insert_ne; [exact Ey |]. intros ->. contradiction. }
    exists l. split; [| split].
    + cbn [WriteHeader]. rewrite bind_run, (get_wrap_run id x c Ex), Hx, bind_run, set_wrap_run. exact El.
    + intros j Hj. apply elem_of_cons in Hj as [-> | Hj]; [| now apply Hl].
      exists (mkWrap code (written x) true). rewrite Ho by exact Hni. cbn.
      rewrite list_lookup_insert_eq by (now apply lookup_lt_Some in Ex). auto.
    + intros j Hj. apply not_elem_of_cons in Hj as [Hne Hj]. rewrite Ho by exact Hj. cbn.
      now rewrite list_lookup_insert_ne by congruence.
Qed.

(** Writing goes through to the response once the headers are out. *)
Lemma Write_sent {E} w b code h (c : Clocked (world E)) : sent (resp (st c)) = Some (code, h) ->
  body_allowed code = true -> b <> "" ->
  (forall id, id ∈ writer_ids w -> exists x, wraps (st c) !! id = Some x /\ wrote x = true) ->
  exists l, Write w b c = (Ret (Z.of_nat (String.length b), None), with_st c
      (mkWorld (mkResponse (hdr (resp (st c))) (Some (code, h)) (interim (resp (st c))) (content (resp (st c)) +:+ b))
        l (env (st c)))) /\
    (forall id, exists f, l !! id = f <$> wraps (st c) !! id /\ forall x, wrote (f x) = wrote x /\ statusCode (f x) = statusCode x).
Proof.
  intros Hs Hb Hne. revert c Hs. induction w as [| kind id inner IH]; intros c Hs Hw.
  - exists (wraps (st c)). split.
    + cbn [Write]. unfold on_resp, zoom, base_Write. rewrite bind_run. unfold base_ensure. rewrite bind_run.
      unfold get at 1. cbn [st with_st]. rewrite Hs. cbn [mret M_ret]. unfold base_body. rewrite bind_run.
      unfold get at 1. cbn [st with_st]. rewrite Hs, decide_False, Hb by exact Hne. reflexivity.
    + intros id. exists (fun x => x). split; [now destruct (wraps (st c) !! id) | auto].
  - destruct (Hw id) as (x & Ex & Hx); [left |].
    destruct (IH c Hs) as (l & El & Hl); [intros j Hj; apply Hw; now right |].
    destruct (Hl id) as (f & Ef & Hf). rewrite Ex in Ef. cbn in Ef.
    eexists. split.
    + cbn [Write]. rewrite bind_run, (get_wrap_run id x c Ex), Hx, bind_run. cbn [mret M_ret].
      rewrite bind_run, El, bind_run. rewrite (get_wrap_run id (f x)) by exact Ef. rewrite bind_run, set_wrap_run.
      reflexivity.
    + intros j. destruct (decide (j = id)) as [-> | Hj].
      * rewrite list_lookup_insert_eq by (apply lookup_lt_Some in Ef; exact Ef). rewrite Ex. cbn.
        exists (fun y => mkWrap (statusCode y) (wrap64 (written (f x) + Z.of_nat (String.length b))) (wrote y)).
        split; [| auto]. cbn. destruct (Hf x) as [-> ->]. reflexivity.
      * rewrite list_lookup_insert_ne by congruence. apply Hl.
Qed.

(** The first write sends 200. *)
Lemma base_Write_first b (c : Clocked response) : sent (st c) = None -> b <> "" ->
  base_Write b c = (Ret (Z.of_nat (String.length b), None), with_st c
    (mkResponse (hdr (st c)) (Some (200, hdr (st c))) (interim (st c)) (content (st c) +:+ b))).
Proof.
  intros Hs Hne. unfold base_Write, base_ensure. rewrite bind_run, bind_run. unfold get at 1. rewrite Hs.
  unfold base_WriteHeader. rewrite bind_run. unfold get at 1. rewrite Hs. cbn -[bind_run].
  unfold base_body. rewrite bind_run. unfold get at 1. cbn [st with_st sent hdr interim content].
  now rewrite decide_False by exact Hne.
Qed.

(** A wrapper that nothing was written through sends 200 first. *)
Lemma Write_implicit {E} k id inner x b (c : Clocked (world E)) : wraps (st c) !! id = Some x -> wrote x = false ->
  forall c1, WriteHeader (WWrapOf k id inner) 200 c = (Ret tt, c1) -> is_Some (wraps (st c1) !! id) ->
  (forall y, wraps (st c1) !! id = Some y -> wrote y = true) ->
  Write (WWrapOf k id inner) b c = Write (WWrapOf k id inner) b c1.
Proof.
  intros Ex Hx c1 E1 [y Ey] Hw. cbn [Write]. rewrite bind_run, (get_wrap_run id x c Ex), Hx, bind_run, E1.
  rewrite (bind_run (get_wrap id)), (get_wrap_run id y c1 Ey), (Hw y Ey), bind_run. reflexivity.
Qed.

(** The first write of a body through wrappers that nothing was written
    through: 200 goes out with the headers as they are, and the wrappers have
    it. *)
Lemma Write_first {E} w b (c : Clocked (world E)) : unwritten w (st c) -> b <> "" ->
  exists l, Write w b c = (Ret (Z.of_nat (String.length b), None), with_st c
    (mkWorld (mkResponse (hdr (resp (st c))) (Some (200, hdr (resp (st c)))) (interim (resp (st c)))
      (content (resp (st c)) +:+ b)) l (env (st c)))) /\
    forall id, id ∈ writer_ids w -> exists x, l !! id = Some x /\ wrote x = true /\ statusCode x = 200.
Proof.
  intros Hu Hne. destruct w as [| k id inner].
  - exists (wraps (st c)). split; [| intros id Hid; now apply not_elem_of_nil in Hid]. cbn [Write].
    unfold on_resp, zoom. rewrite base_Write_first by (try exact Hne; apply Hu). reflexivity.
  - destruct (WriteHeader_first (WWrapOf k id inner) 200 c) as (l & El & Hl & _); [left; lia | exact Hu |].
    destruct (Write_sent (WWrapOf k id inner) b 200 (hdr (resp (st c))) (with_st c (headers_sent 200 l (st c))))
      as (l' & El' & Hl'); [reflexivity | reflexivity | exact Hne | |].
    { intros j Hj. destruct (Hl j Hj) as (x & Ex & Hx & _). eauto. }
    exists l'. destruct Hu as (_ & _ & Hw). inversion Hw as [| ? ? (x & Ex & Hx) _]; subst.
    destruct (Hl id) as (y & Ey & Hy & _); [left |].
    rewrite (Write_implicit k id inner x b c Ex Hx _ El); [split; [exact El' |] | eauto |].
    + intros j Hj. destruct (Hl j Hj) as (z & Ez & Hz & Hs). destruct (Hl' j) as (f & Ef & Hf). cbn in Ef.
      rewrite Ez in Ef. destruct (Hf z) as [Hf1 Hf2]. exists (f z). rewrite Hf1, Hf2. auto.
    + cbn. intros z Ez. congruence.
Qed.

(** A JSON answer on a response not begun: its status and content type go
    out, its body follows, and the wrappers have its status. *)
Lemma answer_json_wraps {E} w code edit body (c : Clocked (world E)) : final_code code -> body_allowed code = true ->
  body <> "" -> unwritten w (st c) ->
  exists l, (edit_header edit;; WriteHeader w code;; Write w body;; mret tt) c = (Ret tt, with_st c
    (mkWorld (mkResponse (edit (hdr (resp (st c)))) (Some (code, edit (hdr (resp (st c))))) (interim (resp (st c)))
      (content (resp (st c)) +:+ body)) l (env (st c)))) /\
    forall id, id ∈ writer_ids w -> exists x, l !! id = Some x /\ wrote x = true /\ statusCode x = code.
Proof.
  intros Hf Hb Hne (Hs & Hn & Hw). rewrite bind_run, edit_header_run.
  set (c1 := with_st c _).
  assert (unwritten w (st c1)) as Hu by (split; [exact Hs | split; [exact Hn | exact Hw]]).
  destruct (WriteHeader_first w code c1 Hf Hu) as (l & El & Hl & _). rewrite bind_run, El, bind_run.
  destruct (Write_sent w body code (hdr (resp (st c1))) (with_st c1 (headers_sent code l (st c1)))) as (l' & El' & Hl'); auto.
  { intros id Hid. destruct (Hl id Hid) as (x & Ex & Hx & _). eauto. }
  rewrite El'. exists l'. split; [reflexivity |]. intros id Hid. destruct (Hl id Hid) as (x & Ex & Hx & Hc).
  destruct (Hl' id) as (f & Ef & Hff). cbn [st with_st headers_sent wraps] in Ef. rewrite Ex in Ef.
  destruct (Hff x) as [Hw' Hs']. exists (f x). rewrite Hw', Hs'. auto.
Qed.

Lemma answer_json {E} w code edit body (c : Clocked (world E)) : final_code code -> body_allowed code = true ->
  body <> "" -> unwritten w (st c) ->
  exists l, (edit_header edit;; WriteHeader w code;; Write w body;; mret tt) c = (Ret tt, with_st c
    (mkWorld (mkResponse (edit (hdr (resp (st c)))) (Some (code, edit (hdr (resp (st c))))) (interim (resp (st c)))
      (content (resp (st c)) +:+ body)) l (env (st c)))).
Proof. intros Hf Hb Hne Hu. destruct (answer_json_wraps w code edit body c Hf Hb Hne Hu) as (l & El & _). eauto. Qed.

(** ** Answers after the status *)

(** The status [code] went out through every wrapper of the chain. *)
Definition sent_through {E} (w : writer) (code : Z) (s : world E) : Prop :=
  (exists h, sent (resp s) = Some (code, h)) /\
  Forall (fun id => exists x, wraps s !! id = Some x /\ wrote x = true /\ statusCode x = code) (writer_ids w).

(** What of a body goes out under a status. *)
Definition allowed_body (code : Z) (b : string) : string := if body_allowed code then b else "".

(** A body that follows a status leaves it, and the wrappers' status. *)
Lemma Write_late {E} w b code (c : Clocked (world E)) : sent_through w code (st c) -> b <> "" ->
  exists x s, Write w b c = (Ret x, with_st c s) /\ sent_through w code s /\ hdr (resp s) = hdr (resp (st c)) /\
  sent (resp s) = sent (resp (st c)) /\ env s = env (st c) /\
  content (resp s) = content (resp (st c)) +:+ allowed_body code b /\
  (forall id, id ∉ writer_ids w -> wraps s !! id = wraps (st c) !! id).
Proof.
  intros [[h Hs] Hw] Hne. revert c h Hs Hw. induction w as [| kind id inner IH]; intros c h Hs Hw.
  - cbn [Write]. unfold on_resp, zoom, base_Write. rewrite bind_run. unfold base_ensure. rewrite bind_run.
    unfold get at 1. cbn [st with_st]. rewrite Hs. cbn [mret M_ret]. unfold base_body. rewrite bind_run.
    unfold get at 1. cbn [st with_st]. rewrite Hs, decide_False by exact Hne. unfold allowed_body.
    destruct (body_allowed code); do 2 eexists; (split; [reflexivity |]);
      (split; [split; [exists h; first [reflexivity | exact Hs] | constructor] |]); cbn; rewrite ?string_app_nil; auto 8.
  - inversion Hw as [| ? ? (x & Ex & Hx & Hst) Hw']; subst.
    destruct (IH c h Hs Hw') as (y & s & Ey & [Hh Hi] & Hhd & Hse & He & Hc & Ho).
    assert (exists z, wraps s !! id = Some z /\ wrote z = true /\ statusCode z = statusCode x) as (z & Ez & Hz & Hsz).
    { destruct (decide (id ∈ writer_ids inner)) as [Hin | Hni].
      - rewrite Forall_forall in Hi. destruct (Hi id Hin) as (z & Ez & Hz & Hsz). eauto.
      - exists x. rewrite (Ho id Hni). auto. }
    eexists _, _. split.
    { cbn [Write]. rewrite bind_run, (get_wrap_run id x c Ex), Hx, bind_run. cbn [mret M_ret].
      rewrite bind_run, Ey, bind_run. rewrite (get_wrap_run id z) by exact Ez. rewrite bind_run, set_wrap_run. reflexivity. }
    cbn [with_st st resp wraps env]. split; [| repeat split; auto].
    + split; [exact Hh |]. apply Forall_forall. intros j Hj. cbn [writer_ids wraps].
      destruct (decide (j = id)) as [-> | Hne'].
      * rewrite list_lookup_insert_eq by (now apply lookup_lt_Some in Ez). eexists. split; [reflexivity |]. auto.
      * rewrite list_lookup_insert_ne by congruence. apply elem_of_cons in Hj as [| Hj]; [contradiction |].
        rewrite Forall_forall in Hi. auto.
    + intros j [Hne' Hj]%not_elem_of_cons. rewrite list_lookup_insert_ne by congruence. auto.
Qed.

Lemma WriteHeader_late {E} w code code' (c : Clocked (world E)) : sent_through w code (st c) ->
  WriteHeader w code' c = (Ret tt, c).
Proof.
  intros [[h Hs] Hw]. destruct w as [| kind id inner].
  - cbn [WriteHeader]. unfold on_resp, zoom, base_WriteHeader. rewrite bind_run. unfold get. cbn [st with_st]. rewrite Hs.
    now destruct c as [? ? ? []].
  - inversion Hw as [| ? ? (x & Ex & Hx & _) _]; subst. cbn [WriteHeader]. now rewrite bind_run, (get_wrap_run id x c Ex), Hx.
Qed.

(** The answer of a panic: its status if none was sent, else the one sent. *)
Definition answer_status {E} (w : writer) (s : world E) (code status : Z) : Prop :=
  unwritten w s /\ status = code \/ sent_through w status s.

Lemma answer_json_any {E} w code status edit body (c : Clocked (world E)) : final_code code -> body_allowed code = true ->
  body <> "" -> answer_status w (st c) code status ->
  exists s, (edit_header edit;; WriteHeader w code;; Write w body;; mret tt) c = (Ret tt, with_st c s) /\
  sent_through w status s /\ content (resp s) = content (resp (st c)) +:+ allowed_body status body /\ env s = env (st c).
Proof.
  intros Hf Hb Hne [[Hu ->] | Hs].
  - destruct (answer_json_wraps w code edit body c Hf Hb Hne Hu) as (l & El & Hl). eexists. split; [exact El |].
    split; [| unfold allowed_body; now rewrite Hb]. split; [eexists; reflexivity |]. apply Forall_forall. exact Hl.
  - rewrite bind_run, edit_header_run. set (c1 := with_st c _). assert (sent_through w status (st c1)) as H1 by exact Hs.
    rewrite bind_run, (WriteHeader_late w status code c1 H1), bind_run.
    destruct (Write_late w body status c1 H1 Hne) as (x & s & Ex & H2 & _ & _ & He & Hc & _). rewrite Ex.
    exists s. split; [reflexivity |]. split; [exact H2 |]. split; [exact Hc | exact He].
Qed.

(** ** What a wrapper records *)

(** The writes of a handler. *)
Inductive write_op : Type :=
| SetHeader (key value : string)
| SendStatus (code : Z)
| WriteBody (b : string).

Definition run_op {E} (w : writer) (op : write_op) : M (world E) unit :=
  match op with
  | SetHeader key value => edit_header (header_Set key value)
  | SendStatus code => WriteHeader w code
  | WriteBody b => Write w b;; mret tt
  end.

Fixpoint run_ops {E} (w : writer) (ops : list write_op) : M (world E) unit :=
  match ops with
  | [] => mret tt
  | op :: ops' => run_op w op;; run_ops w ops'
  end.

Definition op_ok (op : write_op) : Prop :=
  match op with SendStatus code => final_code code | _ => True end.

(** The status sent, or [d]. *)
Definition status_or (d : Z) (r : response) : Z := match sent r with Some (code, _) => code | None => d end.
Definition sent_code : response -> Z := status_or 200.

(** The wrapper knows the status sent, before which its status is [d], and
    counts the body. *)
Definition records (d : Z) (x : wrap) (r : response) : Prop :=
  wrote x = bool_decide (is_Some (sent r)) /\ statusCode x = status_or d r /\
  written x = wrap64 (Z.of_nat (String.length (content r))).

(** What one write to the response does, whatever the clock. *)
Lemma base_ensure_run r : exists r', (forall c, st c = r -> base_ensure c = (Ret tt, with_st c r')) /\
  is_Some (sent r') /\ sent_code r' = sent_code r /\ content r' = content r.
Proof.
  unfold sent_code, status_or. destruct (sent r) as [[code h] |] eqn:Es.
  - exists r. rewrite Es. split; [| eauto]. intros c <-. unfold base_ensure. rewrite bind_run. unfold get.
    rewrite Es. now destruct c.
  - exists (mkResponse (hdr r) (Some (200, hdr r)) (interim r) (content r)). split; [| cbn; eauto].
    intros c <-. unfold base_ensure. rewrite bind_run. unfold get at 1. rewrite Es. unfold base_WriteHeader.
    rewrite bind_run. unfold get at 1. rewrite Es. reflexivity.
Qed.

Lemma base_body_run b r : is_Some (sent r) -> exists n e r',
  (forall c, st c = r -> base_body b c = (Ret (n, e), with_st c r')) /\ sent r' = sent r /\
  Z.of_nat (String.length (content r')) = Z.of_nat (String.length (content r)) + n.
Proof.
  intros [[code h] Es]. unfold base_body.
  destruct (decide (b = "")) as [Eb | Eb]; [| destruct (body_allowed code) eqn:Ebody].
  - exists 0, None, r. split; [| split; [reflexivity | lia]]. intros c <-. rewrite bind_run. unfold get. rewrite Es.
    now destruct c.
  - exists (Z.of_nat (String.length b)), None, (mkResponse (hdr r) (sent r) (interim r) (content r +:+ b)).
    split; [| split; [reflexivity | cbn; rewrite string_length_app; lia]]. intros c <-. rewrite bind_run.
    unfold get. rewrite Es, Ebody. reflexivity.
  - eexists 0, _, r. split; [| split; [reflexivity | lia]]. intros c <-. rewrite bind_run. unfold get.
    rewrite Es, Ebody. now destruct c.
Qed.

(** One wrapper over the server's writer: the response is the one of the
    bare writer, and the wrapper records it. *)
Definition wrapped_by {E} (df : Z) (i : nat) (s : world E) (r : response) : Prop :=
  resp s = r /\ exists x, wraps s !! i = Some x /\ records df x r.

Lemma records_sent df x r code : records df x r -> sent r = None -> final_code code ->
  records df (mkWrap code (written x) true) (mkResponse (hdr r) (Some (code, hdr r)) (interim r) (content r)).
Proof. intros (_ & _ & Hw) Hs Hf. unfold records, status_or. cbn. auto. Qed.

Lemma on_resp_run {E A} (m : M response A) a r' (c : Clocked (world E)) :
  m (with_st c (resp (st c))) = (Ret a, with_st c r') ->
  on_resp m c = (Ret a, with_st c (mkWorld r' (wraps (st c)) (env (st c)))).
Proof. intros H. unfold on_resp, zoom. now rewrite H. Qed.

Lemma write_wrapped {E} k df i b x (c d : Clocked (world E)) : resp (st c) = resp (st d) -> wraps (st c) !! i = Some x ->
  records df x (resp (st d)) ->
  exists c' d', (Write (WWrapOf k i WBase) b;; mret tt) c = (Ret tt, with_st c c') /\
    (Write WBase b;; mret tt) d = (Ret tt, with_st d d') /\ wrapped_by df i c' (resp d') /\ env c' = env (st c).
Proof.
  intros Er Ex (Hwr & Hst & Hwn).
  destruct (base_ensure_run (resp (st d))) as (r1 & He & Hs1 & Hc1 & Hb1).
  destruct (base_body_run b r1 Hs1) as (n & e & r2 & Hb & Hs2 & Hlen).
  assert (forall z : Clocked response, st z = resp (st d) -> base_Write b z = (Ret (n, e), with_st z r2)) as Hwrite.
  { intros z Ez. unfold base_Write. rewrite bind_run, (He z Ez), (Hb (with_st z r1)) by reflexivity. reflexivity. }
  assert (exists l, (if wrote x then mret tt else WriteHeader (WWrapOf k i WBase) 200) c =
    (Ret tt, with_st c (mkWorld (if wrote x then resp (st d) else r1) l (env (st c)))) /\
    exists y, l !! i = Some y /\ wrote y = true /\ statusCode y = sent_code r1 /\ written y = written x)
    as (l & El & y & Ey & Hwy & Hsy & Hny).
  { rewrite Hwr. destruct (sent (resp (st d))) as [[code h] |] eqn:Es.
    - rewrite bool_decide_eq_true_2 by eauto. exists (wraps (st c)). split.
      + rewrite <- Er. destruct c as [? ? ? []]. reflexivity.
      + exists x. rewrite bool_decide_eq_true_2 in Hwr by eauto. repeat split; auto.
        rewrite Hst, Hc1. unfold sent_code, status_or. now rewrite Es.
    - rewrite bool_decide_eq_false_2 by (intros [? ?]; discriminate).
      rewrite bool_decide_eq_false_2 in Hwr by (intros [? ?]; discriminate).
      exists (<[i := mkWrap 200 (written x) true]> (wraps (st c))). split.
      + cbn [WriteHeader]. rewrite bind_run, (get_wrap_run i x c Ex), Hwr, bind_run, set_wrap_run.
        rewrite (on_resp_run _ tt r1); [reflexivity |].
        cbn [st with_st resp]. rewrite Er.
        specialize (He (with_st c (resp (st d))) eq_refl). unfold base_ensure in He.
        rewrite bind_run in He. unfold get at 1 in He. cbn [st with_st] in He. rewrite Es in He. exact He.
      + eexists. rewrite list_lookup_insert_eq by (now apply lookup_lt_Some in Ex). split; [reflexivity |].
        cbn. rewrite Hc1. unfold sent_code, status_or. now rewrite Es. }
  assert ((Write WBase b;; mret tt) d = (Ret tt, with_st d (mkWorld r2 (wraps (st d)) (env (st d))))) as Hd.
  { rewrite bind_run. cbn [Write]. rewrite (on_resp_run _ (n, e) r2); [reflexivity |]. now apply Hwrite. }
  assert (forall z : Clocked (world E), resp (st z) = (if wrote x then resp (st d) else r1) ->
    base_Write b (with_st z (resp (st z))) = (Ret (n, e), with_st z r2)) as Hw2.
  { intros z Ez. rewrite Ez. destruct (wrote x); [now apply Hwrite |].
    unfold base_Write. rewrite bind_run. destruct Hs1 as [v Ev]. unfold base_ensure. rewrite bind_run.
    unfold get at 1. cbn [st with_st]. rewrite Ev. cbn [mret M_ret]. now apply Hb. }
  eexists _, _. split; [| split; [exact Hd |]].
  - rewrite bind_run. cbn [Write]. rewrite bind_run, (get_wrap_run i x c Ex), bind_run, El, bind_run.
    rewrite (on_resp_run _ (n, e) r2) by (now apply Hw2). rewrite bind_run, (get_wrap_run i y) by exact Ey.
    rewrite bind_run, set_wrap_run. reflexivity.
  - split; [| reflexivity]. split; [reflexivity |]. cbn.
    rewrite list_lookup_insert_eq by (now apply lookup_lt_Some in Ey). eexists. split; [reflexivity |].
    unfold records. cbn. rewrite Hwy, Hsy, Hny, Hwn, wrap64_add. unfold sent_code, status_or. rewrite Hs2, Hlen, Hb1.
    destruct Hs1 as [[code h] Ev]. rewrite Ev. repeat split.
Qed.

Lemma run_op_wrapped {E} k df i op (c d : Clocked (world E)) : op_ok op -> wrapped_by df i (st c) (resp (st d)) ->
  exists c' d', run_op (WWrapOf k i WBase) op c = (Ret tt, with_st c c') /\ run_op WBase op d = (Ret tt, with_st d d') /\
    wrapped_by df i c' (resp d') /\ env c' = env (st c).
Proof.
  intros Hok (Er & x & Ex & Hrec). pose proof Hrec as (Hwr & Hst & Hwn).
  destruct op as [key value | code | b]; cbn [run_op].
  - do 2 eexists. rewrite !edit_header_run. split; [reflexivity |]. split; [reflexivity |].
    rewrite Er. split; [| reflexivity]. split; [reflexivity |]. exists x. auto.
  - cbn in Hok. cbn [WriteHeader]. rewrite bind_run, (get_wrap_run i x c Ex), Hwr.
    destruct (sent (resp (st d))) as [[code' h] |] eqn:Es.
    + rewrite bool_decide_eq_true_2 by eauto. exists (st c), (st d).
      split; [now destruct c |]. split.
      { unfold on_resp, zoom, base_WriteHeader. rewrite bind_run. unfold get. cbn [st with_st]. rewrite Es.
        now destruct d as [? ? ? [? ? ?]]. }
      split; [| reflexivity]. split; [exact Er |]. eauto.
    + rewrite bool_decide_eq_false_2 by (intros [? ?]; discriminate). rewrite bind_run, set_wrap_run.
      rewrite base_WriteHeader_final; [| exact Hok | cbn; now rewrite Er].
      rewrite base_WriteHeader_final by assumption.
      do 2 eexists. split; [reflexivity |]. split; [reflexivity |]. split; [| reflexivity].
      unfold wrapped_by, headers_sent. cbn. rewrite Er. split; [reflexivity |].
      eexists. rewrite list_lookup_insert_eq by (now apply lookup_lt_Some in Ex).
      split; [reflexivity |]. now apply records_sent.
  - now apply write_wrapped with (x := x).
Qed.

Lemma run_ops_wrapped {E} k df i ops (c d : Clocked (world E)) : Forall op_ok ops -> wrapped_by df i (st c) (resp (st d)) ->
  exists c' d', run_ops (WWrapOf k i WBase) ops c = (Ret tt, with_st c c') /\ run_ops WBase ops d = (Ret tt, with_st d d') /\
    wrapped_by df i c' (resp d') /\ env c' = env (st c).
Proof.
  intros Hok. revert c d. induction Hok as [| op ops Hop _ IH]; intros c d Hw.
  - exists (st c), (st d). destruct c, d. auto.
  - destruct (run_op_wrapped k df i op c d Hop Hw) as (c1 & d1 & E1 & E2 & Hw1 & Henv).
    destruct (IH (with_st c c1) (with_st d d1) Hw1) as (c2 & d2 & F1 & F2 & Hw2 & Henv2).
    exists c2, d2. cbn [run_ops]. rewrite !bind_run, E1, E2, F1, F2. repeat split; auto; [apply Hw2..|].
    cbn in Henv2. congruence.
Qed.

Lemma new_wrapper_run {E} k code w (c : Clocked (world E)) : new_wrapper k code w c =
  (Ret (length (wraps (st c)), WWrapOf k (length (wraps (st c))) w),
   with_st c (mkWorld (resp (st c)) (wraps (st c) ++ [mkWrap code 0 false]) (env (st c)))).
Proof. reflexivity. Qed.

Lemma new_wrap_run {E} w (c : Clocked (world E)) : new_wrap w c =
  (Ret (length (wraps (st c)), WWrap (length (wraps (st c))) w),
   with_st c (mkWorld (resp (st c)) (wraps (st c) ++ [mkWrap 200 0 false]) (env (st c)))).
Proof. reflexivity. Qed.
