(* ===== verification/Metrics.v ===== *)
(** * Metrics

    [go/telemetry/metrics.go] without the middleware, and
    [grpc_metrics.go]: the counters and histograms of the HTTP and gRPC
    metrics, what an observation does to them, and the Prometheus text they
    are rendered to.

    The duration values are reached through the pointers of one map only, so
    a map holds them directly, and the copies [renderPrometheus] makes under
    the lock are the values themselves; MetricsConc has the pointers, the
    copies and their interleaving with observations.

    The theorems: the state after any observations is the one counted from
    their log ([observe_refines_log], [rpc_refines_log]); the buckets of a
    histogram with ascending bounds count the observations up to each bound
    ([histogram_cumulative]); the keys are rendered in one order whatever the
    order Go iterates the maps in ([render_order]); a scraper reads every
    bound back ([bucket_text_reads]), and in [Exposition] every sample. *)

From stdpp Require Import sorting.
From Stdlib Require Import Ascii.
From S2P Require Import Prelude Float64 GoStrings FloatText GoHTTP.

#[local] Open Scope Z_scope.

(** ** Order of strings and keys *)

(** A strict order on [A], lifted to lists: the order of Go's strings (on
    bytes), and of keys compared field by field. *)
Class StrictTotal {A} (ltb : A -> A -> bool) := {
  ltb_irrefl : forall a, ltb a a = false;
  ltb_trans : forall a b c, ltb a b = true -> ltb b c = true -> ltb a c = true;
  ltb_connected : forall a b, ltb a b = false -> ltb b a = false -> a = b
}.

Fixpoint lexb {A} (ltb : A -> A -> bool) (l k : list A) : bool :=
  match l, k with
  | [], _ :: _ => true
  | _, [] => false
  | a :: l', b :: k' => if ltb a b then true else if ltb b a then false else lexb ltb l' k'
  end.

Definition byte_ltb (a b : ascii) : bool := (nat_of_ascii a <? nat_of_ascii b)%nat.
Definition string_ltb (s t : string) : bool := lexb byte_ltb (bytes s) (bytes t).

(** ** Labels *)

Definition backslash : ascii := byte 92.

(** One byte of [strings.NewReplacer]. *)
Definition escape_byte (a : ascii) : list ascii :=
  if Ascii.eqb a backslash then [backslash; backslash]
  else if Ascii.eqb a (byte 10) then [backslash; "n"%char]
  else if Ascii.eqb a (byte 34) then [backslash; byte 34]
  else [a].

Definition escapePrometheusLabelValue (value : string) : string := str (flat_map escape_byte (bytes value)).

Definition label_pair (name value : string) : string :=
  name +:+ "=" +:+ quote +:+ escapePrometheusLabelValue value +:+ quote.

(** The loop [for i := 0; i+1 < len(kv); i += 2]. *)
Fixpoint label_pairs (kv : list string) : list string :=
  match kv with
  | k :: v :: kv' => label_pair k v :: label_pairs kv'
  | _ => []
  end.

Definition serviceLabel (serviceName : string) : string :=
  if decide (serviceName = "") then "" else "{" +:+ label_pair "service" serviceName +:+ "}".

Definition labels (serviceName : string) (kv : list string) : string :=
  let pairs := if decide (serviceName = "") then [] else [label_pair "service" serviceName] in
  "{" +:+ join "," (pairs ++ label_pairs kv) +:+ "}".

Definition formatBucket (value : float64) : string := FormatFloat value.

(** ** Histograms *)

Record durationMetricValue : Type := mkDuration {
  buckets : list Z;
  sum : float64;
  count : Z
}.

Definition defaultHTTPMetricsBuckets : list float64 :=
  [f64_lit 5 3; f64_lit 1 2; f64_lit 25 3; f64_lit 5 2; f64_lit 1 1; f64_lit 25 2; f64_lit 5 1; f64_of_Z 1;
   f64_lit 25 1; f64_of_Z 5; f64_of_Z 10].

(** The loop that finds the bucket: the first bound not below. *)
Fixpoint bucket_index (bounds : list float64) (seconds : float64) : nat :=
  match bounds with
  | [] => 0%nat
  | b :: bounds' => if f64_leb seconds b then 0%nat else S (bucket_index bounds' seconds)
  end.

Definition new_duration (bounds : list float64) : durationMetricValue :=
  mkDuration (replicate (S (length bounds)) 0) f64_zero 0.

Definition incr (n : Z) : Z := wrapu64 (n + 1).

(** [value.buckets[idx]++; value.sum += seconds; value.count++]. *)
Definition observe_value (bounds : list float64) (seconds : float64) (value : durationMetricValue) : durationMetricValue :=
  mkDuration (alter incr (bucket_index bounds seconds) (buckets value)) (f64_add (sum value) seconds)
    (incr (count value)).

Definition observe_duration `{Countable K} (bounds : list float64) (key : K) (seconds : float64)
    (durations : gmap K durationMetricValue) : gmap K durationMetricValue :=
  <[key := observe_value bounds seconds (default (new_duration bounds) (durations !! key))]> durations.

(** [m[key]++] on a map of counters. *)
Definition count_up `{Countable K} (key : K) (counters : gmap K Z) : gmap K Z :=
  <[key := incr (default 0 (counters !! key))]> counters.

(** ** HTTP metrics *)

Record requestMetricKey : Type := mkRequestKey { rk_Method : string; rk_Path : string; rk_StatusClass : string }.
Record durationMetricKey : Type := mkDurationKey { dk_Method : string; dk_Path : string }.

#[export] Instance requestMetricKey_eq_dec : EqDecision requestMetricKey.
Proof. solve_decision. Defined.
#[export] Instance durationMetricKey_eq_dec : EqDecision durationMetricKey.
Proof. solve_decision. Defined.

#[export] Instance requestMetricKey_countable : Countable requestMetricKey.
Proof.
  refine (inj_countable' (fun k => (rk_Method k, rk_Path k, rk_StatusClass k))
    (fun x => mkRequestKey x.1.1 x.1.2 x.2) _). now intros [].
Defined.
#[export] Instance durationMetricKey_countable : Countable durationMetricKey.
Proof. refine (inj_countable' (fun k => (dk_Method k, dk_Path k)) (fun x => mkDurationKey x.1 x.2) _). now intros []. Defined.

(** What appends to the text: an implementation of [PrometheusCollector]. *)
Class PrometheusCollector (C : Type) := AppendPrometheus : C -> string.

Section HTTPMetrics.
Context {C : Type} `{PrometheusCollector C}.

Record HTTPMetricsConfig : Type := mkMetricsConfig {
  cfg_ServiceName : string;
  cfg_Buckets : list float64;
  cfg_IgnorePaths : list string;
  cfg_PathLabeler : option (option request -> string);
  cfg_Collectors : list (option C)
}.

Record HTTPMetrics : Type := mkMetrics {
  serviceName : string;
  bounds : list float64;
  pathLabeler : option request -> string;
  ignored : gset string;
  collectors : list (option C);
  inFlight : Z;
  requests : gmap requestMetricKey Z;
  errors : gmap requestMetricKey Z;
  durations : gmap durationMetricKey durationMetricValue
}.

Definition default_labeler (r : option request) : string :=
  match r with
  | None => "/"
  | Some r => if decide (URLPath r = "") then "/" else URLPath r
  end.

Definition NewHTTPMetrics (cfg : HTTPMetricsConfig) : HTTPMetrics :=
  mkMetrics (cfg_ServiceName cfg)
    (match cfg_Buckets cfg with [] => defaultHTTPMetricsBuckets | l => l end)
    (default default_labeler (cfg_PathLabeler cfg))
    (list_to_set (filter (fun path => path <> "") (cfg_IgnorePaths cfg)))
    (cfg_Collectors cfg) 0 ∅ ∅ ∅.

Definition status_class (statusCode : Z) : string := format_int (Z.quot statusCode 100) +:+ "xx".

Definition observe (method path : string) (statusCode : Z) (seconds : float64) (m : HTTPMetrics) : HTTPMetrics :=
  let reqKey := mkRequestKey method path (status_class statusCode) in
  let durKey := mkDurationKey method path in
  mkMetrics (serviceName m) (bounds m) (pathLabeler m) (ignored m) (collectors m) (inFlight m)
    (count_up reqKey (requests m))
    (if 400 <=? statusCode then count_up reqKey (errors m) else errors m)
    (observe_duration (bounds m) durKey seconds (durations m)).

(** [m.inFlight.Add(n)]. *)
Definition add_in_flight (n : Z) (m : HTTPMetrics) : HTTPMetrics :=
  mkMetrics (serviceName m) (bounds m) (pathLabeler m) (ignored m) (collectors m) (wrap64 (inFlight m + n))
    (requests m) (errors m) (durations m).

(** *** Rendering *)

(** The comparison of [sort.Slice]; the keys come in the order of the map's
    iteration. *)
Definition request_less (a b : requestMetricKey) : bool :=
  if decide (rk_Method a <> rk_Method b) then string_ltb (rk_Method a) (rk_Method b)
  else if decide (rk_Path a <> rk_Path b) then string_ltb (rk_Path a) (rk_Path b)
  else string_ltb (rk_StatusClass a) (rk_StatusClass b).

Definition duration_less (a b : durationMetricKey) : bool :=
  if decide (dk_Method a <> dk_Method b) then string_ltb (dk_Method a) (dk_Method b)
  else string_ltb (dk_Path a) (dk_Path b).
End HTTPMetrics.

(** Not after: [less b a] does not hold. *)
Definition not_after {K} (less : K -> K -> bool) (a b : K) : Prop := less b a = false.
#[export] Instance not_after_dec {K} (less : K -> K -> bool) a b : Decision (not_after less a b).
Proof. unfold not_after. apply _. Defined.

(** [sort.Slice(keys, less)]. *)
Definition sort_slice {K} (less : K -> K -> bool) (keys : list K) : list K := merge_sort (not_after less) keys.

Definition sortedRequestMetricKeys (keys : list requestMetricKey) : list requestMetricKey := sort_slice request_less keys.
Definition sortedDurationMetricKeys (keys : list durationMetricKey) : list durationMetricKey := sort_slice duration_less keys.

(** One line of the text: a name, its labels, and a value. *)
Definition sample_line (name lbls value : string) : string := name +:+ lbls +:+ " " +:+ value +:+ newline.

Definition help_line (name text : string) : string := "# HELP " +:+ name +:+ " " +:+ text +:+ newline.
Definition type_line (name kind : string) : string := "# TYPE " +:+ name +:+ " " +:+ kind +:+ newline.

Definition concat_all (l : list string) : string := foldr (fun s t => s +:+ t) "" l.

(** The loop over the buckets of one histogram, and its last bucket.  There
    is one count more than bounds; Go panics where one is missing. *)
Fixpoint bucket_lines (name service : string) (kv : list string) (bounds : list float64) (counts : list Z)
    (cumulative : Z) : string :=
  match bounds, counts with
  | upperBound :: bounds', n :: counts' =>
      let cumulative := wrapu64 (cumulative + n) in
      sample_line (name +:+ "_bucket") (labels service (kv ++ ["le"; formatBucket upperBound])) (format_int cumulative) +:+
      bucket_lines name service kv bounds' counts' cumulative
  | [], n :: _ =>
      let cumulative := wrapu64 (cumulative + n) in
      sample_line (name +:+ "_bucket") (labels service (kv ++ ["le"; "+Inf"])) (format_int cumulative)
  | _, [] => ""
  end.

Definition histogram_lines (name service : string) (kv : list string) (bounds : list float64)
    (value : durationMetricValue) : string :=
  bucket_lines name service kv bounds (buckets value) 0 +:+
  sample_line (name +:+ "_sum") (labels service kv) (FormatFloat (sum value)) +:+
  sample_line (name +:+ "_count") (labels service kv) (format_int (count value)).

Definition counter_lines `{Countable K} (name service : string) (kv : K -> list string) (keys : list K)
    (counters : gmap K Z) : string :=
  concat_all ((fun key => sample_line name (labels service (kv key)) (format_int (default 0 (counters !! key)))) <$> keys).

Definition duration_lines `{Countable K} (name service : string) (kv : K -> list string) (bounds : list float64)
    (keys : list K) (durations : gmap K durationMetricValue) : string :=
  concat_all ((fun key => histogram_lines name service (kv key) bounds
    (default (new_duration bounds) (durations !! key))) <$> keys).

Definition request_kv (key : requestMetricKey) : list string :=
  ["method"; rk_Method key; "path"; rk_Path key; "status_class"; rk_StatusClass key].
Definition duration_kv (key : durationMetricKey) : list string := ["method"; dk_Method key; "path"; dk_Path key].

(** The keys of a map in the order of its iteration. *)
Definition map_keys `{Countable K} {V} (m : gmap K V) : list K := (map_to_list m).*1.

Section Render.
Context {C : Type} `{PrometheusCollector C}.

(** The text of the metrics themselves. *)
Definition render_own (m : @HTTPMetrics C) : string :=
  help_line "densecloud_http_in_flight_requests" "Current number of in-flight HTTP requests." +:+
  type_line "densecloud_http_in_flight_requests" "gauge" +:+
  sample_line "densecloud_http_in_flight_requests" (serviceLabel (serviceName m)) (format_int (inFlight m)) +:+
  help_line "densecloud_http_requests_total" "Total number of HTTP requests completed by the DenseCloud runtime." +:+
  type_line "densecloud_http_requests_total" "counter" +:+
  counter_lines "densecloud_http_requests_total" (serviceName m) request_kv
    (sortedRequestMetricKeys (map_keys (requests m))) (requests m) +:+
  help_line "densecloud_http_request_errors_total" "Total number of HTTP requests that completed with client/server errors." +:+
  type_line "densecloud_http_request_errors_total" "counter" +:+
  counter_lines "densecloud_http_request_errors_total" (serviceName m) request_kv
    (sortedRequestMetricKeys (map_keys (errors m))) (errors m) +:+
  help_line "densecloud_http_request_duration_seconds" "HTTP request latency in seconds." +:+
  type_line "densecloud_http_request_duration_seconds" "histogram" +:+
  duration_lines "densecloud_http_request_duration_seconds" (serviceName m) duration_kv (bounds m)
    (sortedDurationMetricKeys (map_keys (durations m))) (durations m).

Definition ends_in_newline (text : string) : bool :=
  bool_decide (last (bytes text) = Some (byte 10)).

(** The loop over the collectors: each starts on a line of its own. *)
Definition append_collectors (cs : list (option C)) (text : string) : string :=
  foldl (fun text c =>
    match c with
    | None => text
    | Some c =>
        (if negb (bool_decide (text = "")) && negb (ends_in_newline text) then text +:+ newline else text) +:+
        AppendPrometheus c
    end) text cs.

Definition renderPrometheus (m : @HTTPMetrics C) : string := append_collectors (collectors m) (render_own m).
End Render.

(** ** gRPC metrics *)

Record grpcRequestMetricKey : Type := mkGRPCRequestKey { gk_Method : string; gk_RPCType : string; gk_Code : string }.
Record grpcDurationMetricKey : Type := mkGRPCDurationKey { gd_Method : string; gd_RPCType : string }.

#[export] Instance grpcRequestMetricKey_eq_dec : EqDecision grpcRequestMetricKey.
Proof. solve_decision. Defined.
#[export] Instance grpcDurationMetricKey_eq_dec : EqDecision grpcDurationMetricKey.
Proof. solve_decision. Defined.

#[export] Instance grpcRequestMetricKey_countable : Countable grpcRequestMetricKey.
Proof.
  refine (inj_countable' (fun k => (gk_Method k, gk_RPCType k, gk_Code k))
    (fun x => mkGRPCRequestKey x.1.1 x.1.2 x.2) _). now intros [].
Defined.
#[export] Instance grpcDurationMetricKey_countable : Countable grpcDurationMetricKey.
Proof.
  refine (inj_countable' (fun k => (gd_Method k, gd_RPCType k)) (fun x => mkGRPCDurationKey x.1 x.2) _). now intros [].
Defined.

Record GRPCMetricsConfig : Type := mkGRPCMetricsConfig { gcfg_ServiceName : string; gcfg_Buckets : list float64 }.

Record GRPCMetrics : Type := mkGRPCMetrics {
  g_serviceName : string;
  g_bounds : list float64;
  g_inFlight : Z;
  g_requests : gmap grpcRequestMetricKey Z;
  g_errors : gmap grpcRequestMetricKey Z;
  g_durations : gmap grpcDurationMetricKey durationMetricValue
}.

Definition NewGRPCMetrics (cfg : GRPCMetricsConfig) : GRPCMetrics :=
  mkGRPCMetrics (gcfg_ServiceName cfg) (match gcfg_Buckets cfg with [] => defaultHTTPMetricsBuckets | l => l end)
    0 ∅ ∅ ∅.

(** The methods of [*GRPCMetrics], on a pointer that may be nil. *)
Definition BeginRPC (m : option GRPCMetrics) : option GRPCMetrics :=
  match m with
  | None => None
  | Some m => Some (mkGRPCMetrics (g_serviceName m) (g_bounds m) (wrap64 (g_inFlight m + 1)) (g_requests m) (g_errors m)
      (g_durations m))
  end.

Definition ObserveRPC (method rpcType code : string) (seconds : float64) (m : option GRPCMetrics) : option GRPCMetrics :=
  match m with
  | None => None
  | Some m =>
      let reqKey := mkGRPCRequestKey method rpcType code in
      let durKey := mkGRPCDurationKey method rpcType in
      Some (mkGRPCMetrics (g_serviceName m) (g_bounds m) (wrap64 (g_inFlight m - 1))
        (count_up reqKey (g_requests m))
        (if decide (code = "OK") then g_errors m else count_up reqKey (g_errors m))
        (observe_duration (g_bounds m) durKey seconds (g_durations m)))
  end.

Definition grpc_request_less (a b : grpcRequestMetricKey) : bool :=
  if decide (gk_Method a <> gk_Method b) then string_ltb (gk_Method a) (gk_Method b)
  else if decide (gk_RPCType a <> gk_RPCType b) then string_ltb (gk_RPCType a) (gk_RPCType b)
  else string_ltb (gk_Code a) (gk_Code b).

Definition grpc_duration_less (a b : grpcDurationMetricKey) : bool :=
  if decide (gd_Method a <> gd_Method b) then string_ltb (gd_Method a) (gd_Method b)
  else string_ltb (gd_RPCType a) (gd_RPCType b).

Definition sortedGRPCRequestMetricKeys (keys : list grpcRequestMetricKey) : list grpcRequestMetricKey :=
  sort_slice grpc_request_less keys.
Definition sortedGRPCDurationMetricKeys (keys : list grpcDurationMetricKey) : list grpcDurationMetricKey :=
  sort_slice grpc_duration_less keys.

Definition grpc_request_kv (key : grpcRequestMetricKey) : list string :=
  ["method"; gk_Method key; "rpc_type"; gk_RPCType key; "code"; gk_Code key].
Definition grpc_duration_kv (key : grpcDurationMetricKey) : list string :=
  ["method"; gd_Method key; "rpc_type"; gd_RPCType key].

Definition AppendPrometheus_grpc (m : option GRPCMetrics) : string :=
  match m with
  | None => ""
  | Some m =>
      help_line "densecloud_grpc_in_flight_requests" "Current number of in-flight gRPC requests." +:+
      type_line "densecloud_grpc_in_flight_requests" "gauge" +:+
      sample_line "densecloud_grpc_in_flight_requests" (serviceLabel (g_serviceName m)) (format_int (g_inFlight m)) +:+
      help_line "densecloud_grpc_requests_total" "Total number of gRPC requests completed by the DenseCloud runtime." +:+
      type_line "densecloud_grpc_requests_total" "counter" +:+
      counter_lines "densecloud_grpc_requests_total" (g_serviceName m) grpc_request_kv
        (sortedGRPCRequestMetricKeys (map_keys (g_requests m))) (g_requests m) +:+
      help_line "densecloud_grpc_request_errors_total" "Total number of gRPC requests that completed with non-OK status." +:+
      type_line "densecloud_grpc_request_errors_total" "counter" +:+
      counter_lines "densecloud_grpc_request_errors_total" (g_serviceName m) grpc_request_kv
        (sortedGRPCRequestMetricKeys (map_keys (g_errors m))) (g_errors m) +:+
      help_line "densecloud_grpc_request_duration_seconds" "gRPC request latency in seconds." +:+
      type_line "densecloud_grpc_request_duration_seconds" "histogram" +:+
      duration_lines "densecloud_grpc_request_duration_seconds" (g_serviceName m) grpc_duration_kv (g_bounds m)
        (sortedGRPCDurationMetricKeys (map_keys (g_durations m))) (g_durations m)
  end.

#[export] Instance GRPCMetrics_collector : PrometheusCollector (option GRPCMetrics) := AppendPrometheus_grpc.

(** ** The order of the keys *)

#[export] Instance lexb_total {A} (ltb : A -> A -> bool) `{!StrictTotal ltb} : StrictTotal (lexb ltb).
Proof.
  split.
  - intros l. induction l as [| a l IH]; [reflexivity |]. cbn. now rewrite ltb_irrefl.
  - intros l. induction l as [| a l IH]; intros [| b k] [| c m]; cbn; try easy.
    destruct (ltb a b) eqn:Hab, (ltb b c) eqn:Hbc.
    + now rewrite (ltb_trans (ltb := ltb) a b c).
    + destruct (ltb c b) eqn:Hcb; [discriminate |]. rewrite (ltb_connected (ltb := ltb) b c Hbc Hcb) in Hab. now rewrite Hab.
    + destruct (ltb b a) eqn:Hba; [discriminate |]. rewrite (ltb_connected (ltb := ltb) a b Hab Hba). now rewrite Hbc.
    + destruct (ltb b a) eqn:Hba; [discriminate |]. destruct (ltb c b) eqn:Hcb; [discriminate |].
      rewrite (ltb_connected (ltb := ltb) a b Hab Hba), (ltb_connected (ltb := ltb) b c Hbc Hcb), ltb_irrefl. apply IH.
  - intros l. induction l as [| a l IH]; intros [| b k]; cbn; try easy.
    destruct (ltb a b) eqn:Hab; [discriminate |]. destruct (ltb b a) eqn:Hba; [discriminate |].
    intros H1 H2. f_equal; [now apply ltb_connected | now apply IH].
Qed.

#[export] Instance byte_ltb_total : StrictTotal byte_ltb.
Proof.
  unfold byte_ltb. split; intros a; [apply Nat.ltb_irrefl | |].
  - intros b c Hab Hbc. apply Nat.ltb_lt in Hab, Hbc. apply Nat.ltb_lt. lia.
  - intros b Hab Hba. apply Nat.ltb_ge in Hab, Hba.
    rewrite <- (ascii_nat_embedding a), <- (ascii_nat_embedding b). f_equal. lia.
Qed.

(** An order pulled back along an injection. *)
Lemma pulled_total {K A} (f : K -> A) (less : K -> K -> bool) (ltb : A -> A -> bool) `{!StrictTotal ltb} :
  (forall a b, f a = f b -> a = b) -> (forall a b, less a b = ltb (f a) (f b)) -> StrictTotal less.
Proof.
  intros Hinj Hf. split; intros a; intros *; rewrite ?Hf; [apply ltb_irrefl | apply ltb_trans |].
  intros H1 H2. now apply Hinj, ltb_connected.
Qed.

#[export] Instance string_ltb_total : StrictTotal string_ltb.
Proof. apply (pulled_total (fun s => bytes s) _ (lexb byte_ltb)); [apply bytes_inj | reflexivity]. Qed.

(** One field of a comparison. *)
Lemma lexb_field s t l k :
  lexb string_ltb (s :: l) (t :: k) = if decide (s <> t) then string_ltb s t else lexb string_ltb l k.
Proof.
  cbn. destruct (decide (s <> t)) as [Hne | He].
  - destruct (string_ltb s t) eqn:Hst; [reflexivity |]. destruct (string_ltb t s) eqn:Hts; [reflexivity |].
    exfalso. now apply Hne, ltb_connected.
  - assert (s = t) as -> by (destruct (decide (s = t)); tauto). now rewrite ltb_irrefl.
Qed.

Lemma lexb_last s t : lexb string_ltb [s] [t] = string_ltb s t.
Proof.
  rewrite lexb_field. case_decide as Hst; [reflexivity |].
  assert (s = t) as -> by (destruct (decide (s = t)); tauto). symmetry. apply (ltb_irrefl (ltb := string_ltb)).
Qed.

Ltac key_order fields less := apply (pulled_total fields _ (lexb string_ltb));
  [intros [] []; cbn; congruence
  | intros [] []; unfold less; cbn -[string_ltb lexb]; repeat first [rewrite lexb_last | rewrite lexb_field]; reflexivity].

#[export] Instance request_less_total : StrictTotal request_less.
Proof. key_order (fun k => [rk_Method k; rk_Path k; rk_StatusClass k]) request_less. Qed.
#[export] Instance duration_less_total : StrictTotal duration_less.
Proof. key_order (fun k => [dk_Method k; dk_Path k]) duration_less. Qed.
#[export] Instance grpc_request_less_total : StrictTotal grpc_request_less.
Proof. key_order (fun k => [gk_Method k; gk_RPCType k; gk_Code k]) grpc_request_less. Qed.
#[export] Instance grpc_duration_less_total : StrictTotal grpc_duration_less.
Proof. key_order (fun k => [gd_Method k; gd_RPCType k]) grpc_duration_less. Qed.

Section Sorting.
Context {K : Type} (less : K -> K -> bool) `{!StrictTotal less}.

#[local] Instance not_after_total : Total (not_after less).
Proof.
  intros a b. unfold not_after. destruct (less b a) eqn:E1; [right | now left]. destruct (less a b) eqn:E2; [| reflexivity].
  pose proof (ltb_trans (ltb := less) a b a E2 E1) as H1. now rewrite (ltb_irrefl (ltb := less)) in H1.
Qed.

#[local] Instance not_after_trans : Transitive (not_after less).
Proof.
  unfold not_after. intros a b c Hab Hbc. destruct (less c a) eqn:Hca; [| reflexivity].
  destruct (less a b) eqn:E1.
  - pose proof (ltb_trans (ltb := less) c a b Hca E1). congruence.
  - rewrite (ltb_connected (ltb := less) a b E1 Hab) in Hca. congruence.
Qed.

#[local] Instance not_after_antisymm : AntiSymm (=) (not_after less).
Proof. intros a b H1 H2. now apply (ltb_connected (ltb := less)). Qed.

Lemma sort_slice_perm keys : sort_slice less keys ≡ₚ keys.
Proof. apply merge_sort_Permutation. Qed.

(** The result does not depend on the order the keys come in. *)
Lemma sort_slice_unique keys keys' : keys ≡ₚ keys' -> sort_slice less keys = sort_slice less keys'.
Proof.
  intros Hp. apply (Sorted_unique (not_after less)); [apply Sorted_merge_sort, _ .. |].
  now rewrite !sort_slice_perm.
Qed.

Lemma sort_slice_ascending keys : NoDup keys -> StronglySorted (fun a b => less a b = true) (sort_slice less keys).
Proof.
  intros Hn. assert (NoDup (sort_slice less keys)) as Hn' by (now rewrite sort_slice_perm).
  pose proof (StronglySorted_merge_sort (not_after less) keys) as Hs. fold (sort_slice less keys) in Hs.
  induction Hs as [| a l Hs IH Hl]; [constructor |]. apply NoDup_cons in Hn' as [Ha Hn'].
  constructor; [now apply IH |]. apply Forall_forall. intros b Hb. rewrite Forall_forall in Hl. specialize (Hl b Hb).
  destruct (less a b) eqn:E1; [reflexivity |]. rewrite (ltb_connected (ltb := less) a b E1 Hl) in Ha. contradiction.
Qed.
End Sorting.

(** ** The counters of a log *)

(** What a counter holds after the keys of the log: nothing, or their number
    on 64 bits. *)
Definition tally (n : nat) : option Z := match n with O => None | _ => Some (wrapu64 (Z.of_nat n)) end.
Definition counted `{EqDecision K} (k : K) (keys : list K) : option Z := tally (length (filter (fun k' => k' = k) keys)).

(** The bucket counts: the observations up to the first bound, and the rest. *)
Fixpoint bucket_counts (bounds : list float64) (ss : list float64) : list Z :=
  match bounds with
  | [] => [wrapu64 (Z.of_nat (length ss))]
  | b :: bounds' =>
      wrapu64 (Z.of_nat (length (filter (fun s => f64_leb s b = true) ss))) ::
      bucket_counts bounds' (filter (fun s => f64_leb s b = false) ss)
  end.

(** The histogram of the durations observed. *)
Definition histogram (bounds ss : list float64) : durationMetricValue :=
  mkDuration (bucket_counts bounds ss) (foldl f64_add f64_zero ss) (wrapu64 (Z.of_nat (length ss))).

Definition observed_histogram (bounds ss : list float64) : option durationMetricValue :=
  match ss with [] => None | _ => Some (histogram bounds ss) end.

Lemma incr_wrap n : incr (wrapu64 (Z.of_nat n)) = wrapu64 (Z.of_nat (S n)).
Proof. unfold incr. rewrite wrapu64_add. f_equal. lia. Qed.

Lemma count_up_run `{Countable K} (keys : list K) k : foldl (fun m x => count_up x m) ∅ keys !! k = counted k keys.
Proof.
  induction keys as [| x keys IH] using rev_ind; [apply lookup_empty |].
  rewrite foldl_app. cbn [foldl]. unfold count_up at 1, counted. rewrite filter_app, length_app.
  destruct (decide (x = k)) as [-> | Hne].
  - rewrite lookup_insert_eq, IH, filter_cons_True by reflexivity. unfold counted, tally. cbn.
    rewrite Nat.add_1_r, <- incr_wrap. now destruct (length _).
  - rewrite lookup_insert_ne, IH, filter_cons_False by assumption. cbn. now rewrite Nat.add_0_r.
Qed.

Lemma bucket_counts_snoc bounds ss s :
  bucket_counts bounds (ss ++ [s]) = alter incr (bucket_index bounds s) (bucket_counts bounds ss).
Proof.
  revert ss. induction bounds as [| b bounds IH]; intros ss; cbn [bucket_counts bucket_index].
  - rewrite length_app, Nat.add_1_r, <- incr_wrap. reflexivity.
  - rewrite !filter_app. destruct (f64_leb s b) eqn:Hs.
    + rewrite filter_cons_True, filter_cons_False by congruence. rewrite !filter_nil, app_nil_r, length_app, Nat.add_1_r.
      rewrite <- incr_wrap. reflexivity.
    + rewrite filter_cons_False, filter_cons_True by congruence. rewrite !filter_nil, app_nil_r, IH. reflexivity.
Qed.

Lemma bucket_counts_nil bounds : bucket_counts bounds [] = replicate (S (length bounds)) 0.
Proof. induction bounds as [| b bounds IH]; [reflexivity |]. cbn [bucket_counts]. rewrite !filter_nil, IH. reflexivity. Qed.

Lemma histogram_nil bounds : histogram bounds [] = new_duration bounds.
Proof. unfold histogram. rewrite bucket_counts_nil. reflexivity. Qed.

Lemma observe_value_histogram bounds ss s : observe_value bounds s (histogram bounds ss) = histogram bounds (ss ++ [s]).
Proof.
  unfold observe_value, histogram. cbn [buckets sum count].
  rewrite bucket_counts_snoc, foldl_app, length_app, Nat.add_1_r, <- incr_wrap. reflexivity.
Qed.

Lemma observe_duration_run `{Countable K} bounds (l : list (K * float64)) k :
  foldl (fun m x => observe_duration bounds x.1 x.2 m) ∅ l !! k =
  observed_histogram bounds (filter (fun x => x.1 = k) l).*2.
Proof.
  induction l as [| [x s] l IH] using rev_ind; [apply lookup_empty |].
  rewrite foldl_app. cbn [foldl fst snd]. unfold observe_duration at 1. rewrite filter_app, fmap_app.
  destruct (decide (x = k)) as [-> | Hne].
  - rewrite lookup_insert_eq, IH, filter_cons_True by reflexivity. rewrite filter_nil. cbn [fmap list_fmap snd].
    assert (default (new_duration bounds) (observed_histogram bounds (filter (fun x => x.1 = k) l).*2) =
      histogram bounds (filter (fun x => x.1 = k) l).*2) as ->.
    { destruct (filter (fun x => x.1 = k) l).*2 eqn:El; [symmetry; apply histogram_nil | reflexivity]. }
    rewrite observe_value_histogram. unfold observed_histogram.
    now destruct ((filter (fun x => x.1 = k) l).*2).
  - rewrite lookup_insert_ne, IH, filter_cons_False by assumption. rewrite filter_nil. cbn. now rewrite app_nil_r.
Qed.

(** An observation of the HTTP metrics. *)
Record observation : Type := mkObservation { o_method : string; o_path : string; o_status : Z; o_seconds : float64 }.

Definition req_key (o : observation) : requestMetricKey := mkRequestKey (o_method o) (o_path o) (status_class (o_status o)).
Definition dur_key (o : observation) : durationMetricKey := mkDurationKey (o_method o) (o_path o).
Definition failed (o : observation) : Prop := 400 <= o_status o.

Definition observe_all {C} (obs : list observation) (m : @HTTPMetrics C) : @HTTPMetrics C :=
  foldl (fun m o => observe (o_method o) (o_path o) (o_status o) (o_seconds o) m) m obs.

Lemma observe_all_fields {C} obs (m : @HTTPMetrics C) : let m' := observe_all obs m in
  bounds m' = bounds m /\ inFlight m' = inFlight m /\
  requests m' = foldl (fun c k => count_up k c) (requests m) (req_key <$> obs) /\
  errors m' = foldl (fun c k => count_up k c) (errors m) (req_key <$> filter failed obs) /\
  durations m' = foldl (fun d x => observe_duration (bounds m) x.1 x.2 d) (durations m)
    ((fun o => (dur_key o, o_seconds o)) <$> obs).
Proof.
  cbv zeta. unfold observe_all. revert m. induction obs as [| o obs IH]; intros m; [auto |].
  cbn [foldl]. destruct (IH (observe (o_method o) (o_path o) (o_status o) (o_seconds o) m)) as (H1 & H2 & H3 & H4 & H5).
  rewrite H1, H2, H3, H4, H5. repeat split; try reflexivity. cbn [errors observe].
  destruct (decide (failed o)) as [Hf | Hf].
  - rewrite filter_cons_True by exact Hf. rewrite (proj2 (Z.leb_le _ _)) by exact Hf. reflexivity.
  - rewrite filter_cons_False by exact Hf. rewrite (proj2 (Z.leb_gt _ _)); [reflexivity |]. unfold failed in Hf. lia.
Qed.

Lemma filter_pairs {A} `{EqDecision K} (f : A -> K) (g : A -> float64) l k :
  (filter (fun x : K * float64 => x.1 = k) ((fun o => (f o, g o)) <$> l)).*2 = g <$> filter (fun o => f o = k) l.
Proof.
  induction l as [| o l IH]; [reflexivity |]. cbn [fmap list_fmap]. destruct (decide (f o = k)) as [Hk | Hk].
  - rewrite !filter_cons_True by exact Hk. cbn. now rewrite IH.
  - rewrite !filter_cons_False by exact Hk. exact IH.
Qed.

(** An event of a gRPC call. *)
Inductive rpc_event : Type :=
| RPCBegins
| RPCEnds (method rpcType code : string) (seconds : float64).

Definition run_rpc (m : option GRPCMetrics) (ev : rpc_event) : option GRPCMetrics :=
  match ev with
  | RPCBegins => BeginRPC m
  | RPCEnds method rpcType code seconds => ObserveRPC method rpcType code seconds m
  end.

Definition rpc_key (ev : rpc_event) : option (grpcRequestMetricKey * float64) :=
  match ev with RPCBegins => None | RPCEnds m t c s => Some (mkGRPCRequestKey m t c, s) end.

(** The calls ended, and their failures. *)
Definition ended (evs : list rpc_event) : list (grpcRequestMetricKey * float64) := omap rpc_key evs.
Definition rpc_failed (x : grpcRequestMetricKey * float64) : Prop := gk_Code x.1 <> "OK".
#[export] Instance rpc_failed_dec x : Decision (rpc_failed x).
Proof. unfold rpc_failed. apply _. Defined.

Definition rpc_duration_key (k : grpcRequestMetricKey) : grpcDurationMetricKey :=
  mkGRPCDurationKey (gk_Method k) (gk_RPCType k).

(** Calls begun less calls ended. *)
Definition in_flight_after (evs : list rpc_event) : Z :=
  Z.of_nat (length evs) - 2 * Z.of_nat (length (ended evs)).

Lemma run_rpc_fields evs m : exists m', foldl run_rpc (Some m) evs = Some m' /\
  g_bounds m' = g_bounds m /\ g_serviceName m' = g_serviceName m /\
  (g_inFlight m = wrap64 (g_inFlight m) -> g_inFlight m' = wrap64 (g_inFlight m + in_flight_after evs)) /\
  g_requests m' = foldl (fun c k => count_up k c) (g_requests m) (ended evs).*1 /\
  g_errors m' = foldl (fun c k => count_up k c) (g_errors m) (filter rpc_failed (ended evs)).*1 /\
  g_durations m' = foldl (fun d x => observe_duration (g_bounds m) x.1 x.2 d) (g_durations m)
    ((fun x => (rpc_duration_key x.1, x.2)) <$> ended evs).
Proof.
  revert m. induction evs as [| ev evs IH]; intros m.
  - exists m. repeat split. unfold in_flight_after. cbn. rewrite Z.add_0_r. auto.
  - cbn [foldl]. destruct ev as [| method rpcType code seconds].
    + cbn [run_rpc BeginRPC].
      destruct (IH (mkGRPCMetrics (g_serviceName m) (g_bounds m) (wrap64 (g_inFlight m + 1)) (g_requests m) (g_errors m)
        (g_durations m))) as (m' & E & H1 & H2 & H3 & H4 & H5 & H6).
      exists m'. cbn [g_inFlight g_serviceName g_bounds g_requests g_errors g_durations] in *.
      repeat split; auto. intros _. rewrite H3 by (rewrite (wrap64_small (wrap64 _)); [reflexivity | apply wrap64_range]).
      rewrite wrap64_add. f_equal. unfold in_flight_after. cbn [ended omap list_omap rpc_key length]. fold (ended evs). lia.
    + cbn [run_rpc ObserveRPC].
      match goal with |- context [foldl run_rpc (Some ?x) evs] => destruct (IH x) as (m' & E & H1 & H2 & H3 & H4 & H5 & H6) end.
      exists m'. cbn [g_inFlight g_serviceName g_bounds g_requests g_errors g_durations] in *.
      change (ended (RPCEnds method rpcType code seconds :: evs))
        with ((mkGRPCRequestKey method rpcType code, seconds) :: ended evs).
      repeat split; auto.
      * intros _. rewrite H3 by (rewrite (wrap64_small (wrap64 _)); [reflexivity | apply wrap64_range]).
        rewrite wrap64_add. f_equal. unfold in_flight_after.
        change (ended (RPCEnds method rpcType code seconds :: evs))
          with ((mkGRPCRequestKey method rpcType code, seconds) :: ended evs). cbn [length]. lia.
      * rewrite H5. destruct (decide (code = "OK")) as [-> | Hc].
        -- rewrite filter_cons_False; [reflexivity | intros H; now apply H].
        -- rewrite filter_cons_True by exact Hc. reflexivity.
Qed.

(** ** Rendered histograms *)

Lemma wrapu64_both a b : wrapu64 (wrapu64 a + wrapu64 b) = wrapu64 (a + b).
Proof. rewrite wrapu64_add, (Z.add_comm a), wrapu64_add. f_equal. lia. Qed.

Definition up_to (b : float64) (ss : list float64) : Z := Z.of_nat (length (filter (fun s => f64_leb s b = true) ss)).

(** Each bound is below the next one. *)
Definition ascending_bounds (bounds : list float64) : Prop :=
  Forall f64_ok bounds /\ StronglySorted (fun a b => f64_leb a b = true) bounds.

Lemma f64_leb_trans a b c : f64_ok a -> f64_ok b -> f64_ok c -> f64_leb a b = true -> f64_leb b c = true -> f64_leb a c = true.
Proof. intros Ha Hb Hc. rewrite !f64_leb_fnum, !Z.leb_le by assumption. lia. Qed.

Lemma filter_split (b b' : float64) ss : f64_ok b -> f64_ok b' -> f64_leb b b' = true -> Forall f64_ok ss ->
  up_to b ss + up_to b' (filter (fun s => f64_leb s b = false) ss) = up_to b' ss.
Proof.
  intros Hb Hb' Hbb Hss. unfold up_to. induction Hss as [| s ss Hs Hss IH]; [reflexivity |].
  destruct (f64_leb s b) eqn:Hsb.
  - rewrite filter_cons_True by exact Hsb. rewrite (filter_cons_False (fun s => f64_leb s b = false)) by congruence.
    rewrite (filter_cons_True (fun s => f64_leb s b' = true)) by (now apply (f64_leb_trans s b b')). cbn [length]. lia.
  - rewrite filter_cons_False by congruence. rewrite (filter_cons_True (fun s => f64_leb s b = false)) by exact Hsb.
    destruct (f64_leb s b') eqn:Hsb'.
    + rewrite !(filter_cons_True (fun s => f64_leb s b' = true)) by exact Hsb'. cbn [length]. lia.
    + rewrite !(filter_cons_False (fun s => f64_leb s b' = true)) by congruence. exact IH.
Qed.

Lemma length_split (b : float64) ss : up_to b ss + Z.of_nat (length (filter (fun s => f64_leb s b = false) ss)) = Z.of_nat (length ss).
Proof.
  unfold up_to. induction ss as [| s ss IH]; [reflexivity |]. destruct (f64_leb s b) eqn:Hsb.
  - rewrite filter_cons_True, filter_cons_False by congruence. cbn [length]. lia.
  - rewrite filter_cons_False, filter_cons_True by congruence. cbn [length]. lia.
Qed.

(** The line of a bound, and of the last bucket. *)
Definition bucket_line (name service : string) (kv : list string) (le : string) (n : Z) : string :=
  sample_line (name +:+ "_bucket") (labels service (kv ++ ["le"; le])) (format_int (wrapu64 n)).

Lemma bucket_lines_run name service kv bounds ss c : ascending_bounds bounds -> Forall f64_ok ss ->
  bucket_lines name service kv bounds (bucket_counts bounds ss) (wrapu64 c) =
  concat_all ((fun b => bucket_line name service kv (formatBucket b) (c + up_to b ss)) <$> bounds) +:+
  bucket_line name service kv "+Inf" (c + Z.of_nat (length ss)).
Proof.
  intros [Hok Hs] Hss. revert c ss Hss. induction bounds as [| b bounds IH]; intros c ss Hss.
  - cbn [bucket_lines bucket_counts]. unfold bucket_line. now rewrite wrapu64_both.
  - inversion Hok as [| ? ? Hb Hok']; subst. inversion Hs as [| ? ? Hs' Hle]; subst.
    assert (Forall f64_ok (filter (fun s => f64_leb s b = false) ss)) as Hss'.
    { apply Forall_forall. intros s Hin. apply list_elem_of_filter in Hin as [_ Hin]. rewrite Forall_forall in Hss. auto. }
    cbn [bucket_lines bucket_counts fmap list_fmap concat_all foldr]. fold (up_to b ss). fold (concat_all).
    rewrite wrapu64_both, (IH Hok' Hs') by exact Hss'.
    rewrite <- string_app_assoc. f_equal; f_equal.
    + f_equal. apply list_fmap_ext. intros j b' Hj. f_equal. rewrite <- Z.add_assoc. f_equal. apply filter_split; auto.
      * rewrite Forall_forall in Hok'. apply Hok'. now apply list_elem_of_lookup_2 in Hj.
      * rewrite Forall_forall in Hle. apply Hle. now apply list_elem_of_lookup_2 in Hj.
    + f_equal. rewrite <- Z.add_assoc. f_equal. apply length_split.
Qed.

(** ** Theorems *)

(** C26. After any observations the counters, the error counters and the
    histograms are those counted from their log: every key has the number of
    its observations (on 64 bits), the errors those with a status from 400
    on, and a key that was not observed is absent. *)
Theorem observe_refines_log {C} (cfg : @HTTPMetricsConfig C) obs :
  let m := observe_all obs (NewHTTPMetrics cfg) in
  (forall k, requests m !! k = counted k (req_key <$> obs)) /\
  (forall k, errors m !! k = counted k (req_key <$> filter failed obs)) /\
  (forall k, durations m !! k =
    observed_histogram (bounds m) (o_seconds <$> filter (fun o => dur_key o = k) obs)).
Proof.
  cbv zeta. destruct (observe_all_fields obs (NewHTTPMetrics cfg)) as (H1 & _ & H3 & H4 & H5).
  rewrite H1, H3, H4, H5. split; [| split]; intros k; [apply count_up_run | apply count_up_run |].
  etransitivity; [apply (observe_duration_run (bounds (NewHTTPMetrics cfg))) |]. f_equal. apply filter_pairs.
Qed.

(** After any calls begun and ended, the gRPC metrics are those
    counted from them, and the gauge holds the calls begun less those
    ended. *)
Theorem rpc_refines_log cfg evs : exists m, foldl run_rpc (Some (NewGRPCMetrics cfg)) evs = Some m /\
  g_inFlight m = wrap64 (in_flight_after evs) /\
  (forall k, g_requests m !! k = counted k (ended evs).*1) /\
  (forall k, g_errors m !! k = counted k (filter rpc_failed (ended evs)).*1) /\
  (forall k, g_durations m !! k =
    observed_histogram (g_bounds m) (snd <$> filter (fun x => rpc_duration_key x.1 = k) (ended evs))).
Proof.
  destruct (run_rpc_fields evs (NewGRPCMetrics cfg)) as (m & E & H1 & _ & H3 & H4 & H5 & H6).
  exists m. split; [exact E |]. split; [exact (H3 eq_refl) |]. rewrite H1, H4, H5, H6.
  split; [| split]; intros k; [apply count_up_run | apply count_up_run |].
  etransitivity; [apply (observe_duration_run (g_bounds (NewGRPCMetrics cfg))) |]. f_equal. apply filter_pairs.
Qed.

(** With ascending bounds, the line of a bound in the rendered
    histogram has the number of observations up to that bound, and the last
    one the number of all observations. *)
Theorem histogram_cumulative name service kv bounds ss : ascending_bounds bounds -> Forall f64_ok ss ->
  bucket_lines name service kv bounds (buckets (foldl (fun v s => observe_value bounds s v) (new_duration bounds) ss)) 0 =
  concat_all ((fun b => bucket_line name service kv (formatBucket b) (up_to b ss)) <$> bounds) +:+
  bucket_line name service kv "+Inf" (Z.of_nat (length ss)).
Proof.
  intros Hb Hss. assert (foldl (fun v s => observe_value bounds s v) (new_duration bounds) ss = histogram bounds ss) as ->.
  { clear. rewrite <- histogram_nil. change ss with ([] ++ ss) at 2. generalize (@nil float64) as l.
    induction ss as [| s ss IH]; intros l; [now rewrite app_nil_r |]. cbn [foldl].
    rewrite observe_value_histogram, IH, <- app_assoc. reflexivity. }
  exact (bucket_lines_run name service kv bounds ss 0 Hb Hss).
Qed.

(** In whatever order Go iterates a map, its keys are rendered in one
    order, ascending by their fields. *)
Theorem render_order {C} (m : @HTTPMetrics C) (g : GRPCMetrics) :
  (forall keys, keys ≡ₚ map_keys (requests m) ->
    sortedRequestMetricKeys keys = sortedRequestMetricKeys (map_keys (requests m)) /\
    StronglySorted (fun a b => request_less a b = true) (sortedRequestMetricKeys keys)) /\
  (forall keys, keys ≡ₚ map_keys (durations m) ->
    sortedDurationMetricKeys keys = sortedDurationMetricKeys (map_keys (durations m)) /\
    StronglySorted (fun a b => duration_less a b = true) (sortedDurationMetricKeys keys)) /\
  (forall keys, keys ≡ₚ map_keys (g_requests g) ->
    sortedGRPCRequestMetricKeys keys = sortedGRPCRequestMetricKeys (map_keys (g_requests g)) /\
    StronglySorted (fun a b => grpc_request_less a b = true) (sortedGRPCRequestMetricKeys keys)) /\
  (forall keys, keys ≡ₚ map_keys (g_durations g) ->
    sortedGRPCDurationMetricKeys keys = sortedGRPCDurationMetricKeys (map_keys (g_durations g)) /\
    StronglySorted (fun a b => grpc_duration_less a b = true) (sortedGRPCDurationMetricKeys keys)).
Proof.
  refine (conj _ (conj _ (conj _ _))); intros keys Hp; (split; [now apply sort_slice_unique, _ || apply (sort_slice_unique _); exact Hp |]);
    apply (sort_slice_ascending _); rewrite Hp; apply NoDup_fst_map_to_list.
Qed.

(** The text of a bound reads back as the bound. *)
Theorem bucket_text_reads x : f64_valid x = true -> ParseFloat (formatBucket x) = Some x.
Proof. apply format_float_reads. Qed.

(** ** Witnesses *)

Lemma demo_ok n d : f64_valid (f64_lit n d) && f64_finite (f64_lit n d) = true -> f64_ok (f64_lit n d).
Proof. intros H. apply andb_true_iff in H. exact H. Qed.

Definition demo_bounds : list float64 := [f64_lit 1 1; f64_lit 25 1].
Definition demo_seconds : list float64 := [f64_lit 2 0; f64_lit 1 1; f64_lit 30 1; f64_lit 5 2].

Lemma histogram_cumulative_witness :
  bucket_lines "m" "" [] demo_bounds (buckets (foldl (fun v s => observe_value demo_bounds s v) (new_duration demo_bounds) demo_seconds)) 0 =
  bucket_line "m" "" [] "0.1" 2 +:+ bucket_line "m" "" [] "2.5" 3 +:+ bucket_line "m" "" [] "+Inf" 4.
Proof.
  assert (ascending_bounds demo_bounds) as Hb.
  { split; [repeat (apply List.Forall_cons || apply List.Forall_nil); now apply demo_ok |].
    repeat constructor. }
  assert (Forall f64_ok demo_seconds) as Hs by (repeat (apply List.Forall_cons || apply List.Forall_nil); now apply demo_ok).
  refine (eq_trans (histogram_cumulative "m" "" [] demo_bounds demo_seconds Hb Hs) _). vm_compute. reflexivity.
Defined.

Definition demo_http_metrics : @HTTPMetrics (option GRPCMetrics) :=
  observe_all [mkObservation "POST" "/a" 503 (f64_lit 1 1); mkObservation "GET" "/b" 200 (f64_lit 2 0);
    mkObservation "GET" "/a" 200 (f64_lit 5 2)] (NewHTTPMetrics (mkMetricsConfig "svc" demo_bounds ["/health"] None [])).

Lemma render_order_witness :
  sortedRequestMetricKeys [mkRequestKey "POST" "/a" "5xx"; mkRequestKey "GET" "/b" "2xx"; mkRequestKey "GET" "/a" "2xx"] =
  [mkRequestKey "GET" "/a" "2xx"; mkRequestKey "GET" "/b" "2xx"; mkRequestKey "POST" "/a" "5xx"].
Proof.
  refine (eq_trans (proj1 (proj1 (render_order demo_http_metrics (NewGRPCMetrics (mkGRPCMetricsConfig "" [])))
    [mkRequestKey "POST" "/a" "5xx"; mkRequestKey "GET" "/b" "2xx"; mkRequestKey "GET" "/a" "2xx"] _)) _).
  - match goal with |- ?l ≡ₚ ?k => let k' := eval vm_compute in k in change k with k'; exact (Permutation_rev l) end.
  - vm_compute. reflexivity.
Defined.

Lemma bucket_text_reads_witness : ParseFloat "0.005" = Some (f64_lit 5 3).
Proof. exact (bucket_text_reads (f64_lit 5 3) eq_refl). Defined.
