(* ===== verification/Exposition.v ===== *)
(** * The exposition format, read back

    A reader of the Prometheus text format as a scraper has it: lines that
    start with [#] are skipped, every other line is a metric name, label
    pairs with escaped values, and a value.  The theorem
    ([exposition_roundtrip]): reading what [renderPrometheus] prints gives
    back every sample of the HTTP metrics and of the gRPC collectors, each
    label with the bytes it was observed with. *)

From stdpp Require Import sorting.
From Stdlib Require Import Ascii.
From S2P Require Import Prelude Float64 GoStrings FloatText GoHTTP Metrics.

#[local] Open Scope Z_scope.

(** ** The reader *)

Record sample : Type := mkSample { s_name : string; s_labels : list (string * string); s_value : string }.

Definition dquote : ascii := byte 34.
Definition lbrace : ascii := "{"%char.
Definition rbrace : ascii := "}"%char.
Definition equals : ascii := "="%char.
Definition space : ascii := byte 32.
Definition hash : ascii := "#"%char.

(** A quoted value, after its opening quote. *)
Fixpoint read_quoted (l : list ascii) : option (list ascii * list ascii) :=
  match l with
  | [] => None
  | a :: l' =>
      if Ascii.eqb a dquote then Some ([], l')
      else if Ascii.eqb a backslash then
        match l' with
        | [] => None
        | b :: l'' =>
            '(v, rest) ← read_quoted l'';
            Some ((if Ascii.eqb b "n"%char then byte 10 else b) :: v, rest)
        end
      else '(v, rest) ← read_quoted l'; Some (a :: v, rest)
  end.

(** Up to a byte, which is dropped. *)
Definition read_until (c : ascii) (l : list ascii) : option (list ascii * list ascii) :=
  i ← index_byte l c; Some (take i l, drop (S i) l).

(** The pairs after the opening brace.  Every pair takes at least one byte,
    so the length of the line is fuel enough. *)
Fixpoint read_pairs (fuel : nat) (l : list ascii) : option (list (string * string) * list ascii) :=
  match fuel with
  | O => None
  | S fuel' =>
      '(name, l) ← read_until equals l;
      match l with
      | q :: l =>
          if Ascii.eqb q dquote then
            '(v, l) ← read_quoted l;
            match l with
            | c :: l =>
                if Ascii.eqb c rbrace then Some ([(str name, str v)], l)
                else if Ascii.eqb c comma then '(ps, l) ← read_pairs fuel' l; Some ((str name, str v) :: ps, l)
                else None
            | [] => None
            end
          else None
      | [] => None
      end
  end.

(** The name goes up to a brace or a space. *)
Fixpoint read_name (l : list ascii) : list ascii * list ascii :=
  match l with
  | [] => ([], [])
  | a :: l' => if Ascii.eqb a lbrace || Ascii.eqb a space then ([], l) else let '(n, rest) := read_name l' in (a :: n, rest)
  end.

Definition read_value (name : list ascii) (labels : list (string * string)) (l : list ascii) : option sample :=
  match l with
  | c :: v => if Ascii.eqb c space then Some (mkSample (str name) labels (str v)) else None
  | [] => None
  end.

Definition read_sample (line : list ascii) : option sample :=
  let '(name, l) := read_name line in
  match l with
  | c :: l' =>
      if Ascii.eqb c lbrace then '(ps, rest) ← read_pairs (length line) l'; read_value name ps rest
      else read_value name [] l
  | [] => None
  end.

(** Comments and empty lines hold no sample. *)
Definition is_comment (line : list ascii) : bool :=
  match line with [] => true | a :: _ => Ascii.eqb a hash end.

Fixpoint read_lines (lines : list string) : option (list sample) :=
  match lines with
  | [] => Some []
  | line :: lines' =>
      if is_comment (bytes line) then read_lines lines'
      else s ← read_sample (bytes line); ss ← read_lines lines'; Some (s :: ss)
  end.

Definition read_exposition (text : string) : option (list sample) := read_lines (split text (byte 10)).

(** ** The samples of the metrics *)

Fixpoint pairs_of (kv : list string) : list (string * string) :=
  match kv with
  | k :: v :: kv' => (k, v) :: pairs_of kv'
  | _ => []
  end.

Definition service_pairs (serviceName : string) : list (string * string) :=
  if decide (serviceName = "") then [] else [("service", serviceName)].

Definition labelled (name service : string) (kv : list string) (value : string) : sample :=
  mkSample name (service_pairs service ++ pairs_of kv) value.

Fixpoint bucket_samples (name service : string) (kv : list string) (bounds : list float64) (counts : list Z)
    (cumulative : Z) : list sample :=
  match bounds, counts with
  | b :: bounds', n :: counts' =>
      labelled (name +:+ "_bucket") service (kv ++ ["le"; formatBucket b]) (format_int (wrapu64 (cumulative + n))) ::
      bucket_samples name service kv bounds' counts' (wrapu64 (cumulative + n))
  | [], n :: _ => [labelled (name +:+ "_bucket") service (kv ++ ["le"; "+Inf"]) (format_int (wrapu64 (cumulative + n)))]
  | _, [] => []
  end.

Definition histogram_samples (name service : string) (kv : list string) (bounds : list float64)
    (value : durationMetricValue) : list sample :=
  bucket_samples name service kv bounds (buckets value) 0 ++
  [labelled (name +:+ "_sum") service kv (FormatFloat (sum value));
   labelled (name +:+ "_count") service kv (format_int (count value))].

Definition counter_samples `{Countable K} (name service : string) (kv : K -> list string) (keys : list K)
    (counters : gmap K Z) : list sample :=
  (fun key => labelled name service (kv key) (format_int (default 0 (counters !! key)))) <$> keys.

Definition duration_samples `{Countable K} (name service : string) (kv : K -> list string) (bounds : list float64)
    (keys : list K) (durations : gmap K durationMetricValue) : list sample :=
  keys ≫= fun key => histogram_samples name service (kv key) bounds (default (new_duration bounds) (durations !! key)).

Definition http_samples {C} (m : @HTTPMetrics C) : list sample :=
  [labelled "densecloud_http_in_flight_requests" (serviceName m) [] (format_int (inFlight m))] ++
  counter_samples "densecloud_http_requests_total" (serviceName m) request_kv
    (sortedRequestMetricKeys (map_keys (requests m))) (requests m) ++
  counter_samples "densecloud_http_request_errors_total" (serviceName m) request_kv
    (sortedRequestMetricKeys (map_keys (errors m))) (errors m) ++
  duration_samples "densecloud_http_request_duration_seconds" (serviceName m) duration_kv (bounds m)
    (sortedDurationMetricKeys (map_keys (durations m))) (durations m).

Definition grpc_samples (m : option GRPCMetrics) : list sample :=
  match m with
  | None => []
  | Some m =>
      [labelled "densecloud_grpc_in_flight_requests" (g_serviceName m) [] (format_int (g_inFlight m))] ++
      counter_samples "densecloud_grpc_requests_total" (g_serviceName m) grpc_request_kv
        (sortedGRPCRequestMetricKeys (map_keys (g_requests m))) (g_requests m) ++
      counter_samples "densecloud_grpc_request_errors_total" (g_serviceName m) grpc_request_kv
        (sortedGRPCRequestMetricKeys (map_keys (g_errors m))) (g_errors m) ++
      duration_samples "densecloud_grpc_request_duration_seconds" (g_serviceName m) grpc_duration_kv (g_bounds m)
        (sortedGRPCDurationMetricKeys (map_keys (g_durations m))) (g_durations m)
  end.

(** ** Labels read back *)

Lemma read_quoted_escaped v rest : read_quoted (flat_map escape_byte v ++ dquote :: rest) = Some (v, rest).
Proof.
  induction v as [| a v IH]; [reflexivity |]. cbn [flat_map]. rewrite <- app_assoc. unfold escape_byte at 1.
  destruct (Ascii.eqb_spec a backslash) as [-> | H1]; [cbn; now rewrite IH |].
  destruct (Ascii.eqb_spec a (byte 10)) as [-> | H2]; [cbn; now rewrite IH |].
  destruct (Ascii.eqb_spec a (byte 34)) as [-> | H3]; [cbn; now rewrite IH |].
  cbn [app read_quoted]. rewrite (proj2 (Ascii.eqb_neq a dquote)), (proj2 (Ascii.eqb_neq a backslash)) by assumption.
  now rewrite IH.
Qed.

Lemma read_until_app c l rest : has_byte l c = false -> read_until c (l ++ c :: rest) = Some (l, rest).
Proof.
  intros H. unfold read_until. rewrite index_byte_app by exact H. cbn [mbind option_bind].
  now rewrite take_app_length, drop_past.
Qed.

Definition pair_text (p : string * string) : string := label_pair p.1 p.2.

(** The name of a label: no [=] in it. *)
Definition name_ok (p : string * string) : Prop := has_byte (bytes p.1) equals = false.

Lemma pair_bytes p rest : bytes (pair_text p) ++ rest =
  bytes p.1 ++ equals :: dquote :: flat_map escape_byte (bytes p.2) ++ dquote :: rest.
Proof.
  unfold pair_text, label_pair, escapePrometheusLabelValue. rewrite !bytes_app, bytes_str. rewrite <- !app_assoc. reflexivity.
Qed.

Lemma read_pairs_joined ps rest fuel : ps <> [] -> Forall name_ok ps -> (length ps <= fuel)%nat ->
  read_pairs fuel (bytes (join "," (pair_text <$> ps)) ++ rbrace :: rest) = Some (ps, rest).
Proof.
  intros Hne Hok. revert fuel. induction Hok as [| p ps Hp Hok IH]; intros fuel Hf; [contradiction |].
  destruct fuel as [| fuel]; [cbn in Hf; lia |]. destruct ps as [| p' ps].
  - cbn [fmap list_fmap join]. rewrite pair_bytes. cbn [read_pairs]. rewrite read_until_app by exact Hp.
    cbn [mbind option_bind]. rewrite Ascii.eqb_refl, read_quoted_escaped. cbn [mbind option_bind].
    rewrite Ascii.eqb_refl, !str_bytes. now destruct p.
  - change (join "," (pair_text <$> p :: p' :: ps)) with (pair_text p +:+ "," +:+ join "," (pair_text <$> p' :: ps)).
    rewrite bytes_app, <- app_assoc, pair_bytes. cbn [read_pairs]. rewrite read_until_app by exact Hp.
    cbn [mbind option_bind]. rewrite Ascii.eqb_refl, read_quoted_escaped. cbn [mbind option_bind].
    rewrite bytes_app. cbn [bytes app].
    change (("," =? rbrace)%char) with false. change (("," =? comma)%char) with true. cbn iota.
    rewrite IH by (try easy; cbn in *; lia). cbn [mbind option_bind]. rewrite !str_bytes. now destruct p.
Qed.

Lemma label_pairs_of kv : label_pairs kv = pair_text <$> pairs_of kv.
Proof.
  assert (forall n kv, (length kv <= n)%nat -> label_pairs kv = pair_text <$> pairs_of kv) as H; [| now apply (H (length kv))].
  clear kv. induction n as [| n IH]; intros [| k [| v kv]] Hn; try reflexivity; [cbn in Hn; lia |].
  cbn [label_pairs pairs_of fmap list_fmap]. rewrite IH by (cbn in Hn; lia). reflexivity.
Qed.

(** ** Lines *)

(** No newline. *)
Definition clean (s : string) : Prop := has_byte (bytes s) (byte 10) = false.

Lemma clean_app s t : clean s -> clean t -> clean (s +:+ t).
Proof. unfold clean. rewrite bytes_app, has_byte_app. intros -> ->. reflexivity. Qed.

Lemma clean_digits s v : digits_value 0 (bytes s) = Some v -> clean s.
Proof. intros H. now apply (digits_value_none _ _ _ _ H). Qed.

Lemma clean_int z : clean (format_int z).
Proof.
  destruct (Z.le_gt_cases 0 z) as [Hz | Hz]; [apply (clean_digits _ z), format_int_value, Hz |].
  destruct z as [| p | p]; [lia | lia |]. change (format_int (Z.neg p)) with ("-" +:+ format_int (Z.pos p)).
  apply clean_app; [reflexivity |]. apply (clean_digits _ (Z.pos p)), format_int_value. lia.
Qed.

Lemma clean_fraction n v b : clean (fraction_digits n v b).
Proof.
  revert v b. induction n as [| n IH]; intros v b; [reflexivity |]. cbn [fraction_digits]. apply clean_app; [apply IH |].
  destruct (_ || _); [apply clean_int | reflexivity].
Qed.

Lemma clean_float x : clean (FormatFloat x).
Proof.
  destruct x as [s | s | | s m e]; [now destruct s | now destruct s | reflexivity |].
  apply clean_app; [now destruct s |]. unfold decimal_text. destruct (_ <=? 0); [apply clean_int |].
  apply clean_app; [apply clean_int |]. unfold fraction. case_decide; [reflexivity |].
  apply clean_app; [reflexivity | apply clean_fraction].
Qed.

Lemma clean_escaped v : clean (escapePrometheusLabelValue v).
Proof.
  unfold clean, escapePrometheusLabelValue. rewrite bytes_str. generalize (bytes v) as l. intros l.
  induction l as [| a l IH]; [reflexivity |]. cbn [flat_map]. rewrite has_byte_app, IH, orb_false_r. unfold escape_byte.
  destruct (Ascii.eqb a backslash); [reflexivity |]. destruct (Ascii.eqb_spec a (byte 10)) as [-> | Hne]; [reflexivity |].
  destruct (Ascii.eqb a (byte 34)); [reflexivity |]. rewrite has_byte_cons, orb_false_r. now apply Ascii.eqb_neq.
Qed.

Definition label_ok (p : string * string) : Prop := name_ok p /\ clean p.1.

Lemma clean_pair p : clean p.1 -> clean (pair_text p).
Proof. intros H. unfold pair_text, label_pair. repeat (apply clean_app; [first [exact H | reflexivity | apply clean_escaped] |]). reflexivity. Qed.

Lemma clean_join ps : Forall label_ok ps -> clean (join "," (pair_text <$> ps)).
Proof.
  intros H. induction H as [| p ps [_ Hp] _ IH]; [reflexivity |]. destruct ps as [| p' ps]; [now apply clean_pair |].
  change (join "," (pair_text <$> p :: p' :: ps)) with (pair_text p +:+ "," +:+ join "," (pair_text <$> p' :: ps)).
  apply clean_app; [now apply clean_pair |]. now apply clean_app.
Qed.

Lemma length_join ps : Forall label_ok ps -> (length ps <= length (bytes (join "," (pair_text <$> ps))))%nat.
Proof.
  intros H. induction H as [| p ps _ _ IH]; [cbn; lia |].
  assert (1 <= length (bytes (pair_text p)))%nat as Hp.
  { pose proof (pair_bytes p []) as E. rewrite app_nil_r in E. rewrite E, length_app. cbn. lia. }
  destruct ps as [| p' ps]; [exact Hp |].
  change (join "," (pair_text <$> p :: p' :: ps)) with (pair_text p +:+ "," +:+ join "," (pair_text <$> p' :: ps)).
  rewrite !bytes_app, !length_app. cbn [length] in *. lia.
Qed.

(** A metric name: not empty, without braces, spaces, newlines or a hash in
    front. *)
Definition metric_name (s : string) : bool :=
  match bytes s with
  | [] => false
  | a :: _ => negb (Ascii.eqb a hash) && forallb (fun a => negb (Ascii.eqb a lbrace || Ascii.eqb a space || Ascii.eqb a (byte 10))) (bytes s)
  end.

Lemma metric_name_clean s : metric_name s = true -> clean s.
Proof.
  unfold metric_name, clean. destruct (bytes s) as [| a l]; [discriminate |]. intros [_ H]%andb_true_iff.
  revert H. generalize (a :: l) as k. intros k. induction k as [| b k IH]; [reflexivity |]. cbn [forallb].
  intros [Hb Hk]%andb_true_iff. rewrite has_byte_cons, (IH Hk), orb_false_r.
  apply negb_true_iff, orb_false_iff in Hb. apply Hb.
Qed.

Lemma read_name_app n c rest : forallb (fun a => negb (Ascii.eqb a lbrace || Ascii.eqb a space || Ascii.eqb a (byte 10))) n = true ->
  Ascii.eqb c lbrace || Ascii.eqb c space = true -> read_name (n ++ c :: rest) = (n, c :: rest).
Proof.
  intros Hn Hc. induction n as [| a n IH]; cbn [app read_name]; [now rewrite Hc |].
  cbn [forallb] in Hn. apply andb_true_iff in Hn as [Ha Hn]. apply negb_true_iff, orb_false_iff in Ha as [Ha _].
  now rewrite Ha, (IH Hn).
Qed.

(** The text of a sample without its newline. *)
Definition braces (ps : list (string * string)) : string :=
  match ps with [] => "" | _ => "{" +:+ join "," (pair_text <$> ps) +:+ "}" end.
Definition sample_text (x : sample) : string := s_name x +:+ braces (s_labels x) +:+ " " +:+ s_value x.

Definition sample_ok (x : sample) : Prop :=
  metric_name (s_name x) = true /\ Forall label_ok (s_labels x) /\ clean (s_value x).

Lemma sample_text_clean x : sample_ok x -> clean (sample_text x).
Proof.
  intros (Hn & Hl & Hv). unfold sample_text. apply clean_app; [now apply metric_name_clean |].
  apply clean_app; [| now apply clean_app]. unfold braces. destruct (s_labels x) as [| p ps] eqn:El; [reflexivity |].
  rewrite <- El in *. apply clean_app; [reflexivity |]. apply clean_app; [now apply clean_join | reflexivity].
Qed.

Lemma read_sample_text x : sample_ok x -> is_comment (bytes (sample_text x)) = false /\
  read_sample (bytes (sample_text x)) = Some x.
Proof.
  intros (Hn & Hl & Hv). destruct x as [name ps value]. unfold sample_text. cbn [s_name s_labels s_value] in *.
  rewrite bytes_app. unfold metric_name in Hn. destruct (bytes name) as [| a n] eqn:En; [discriminate |].
  apply andb_true_iff in Hn as [Ha Hn]. split; [cbn [app is_comment]; now apply negb_true_iff in Ha |].
  set (rest := bytes (braces ps +:+ " " +:+ value)).
  assert (str (a :: n) = name) as Es by (rewrite <- En; apply str_bytes).
  unfold read_sample. destruct ps as [| p ps].
  - change rest with (space :: bytes value). rewrite read_name_app by auto. cbn [Ascii.eqb].
    change (Ascii.eqb space lbrace) with false. cbn iota. unfold read_value.
    change (Ascii.eqb space space) with true. cbn iota. rewrite Es, str_bytes. reflexivity.
  - assert (rest = lbrace :: bytes (join "," (pair_text <$> p :: ps)) ++ rbrace :: space :: bytes value) as Er.
    { unfold rest, braces. rewrite !bytes_app. rewrite <- !app_assoc. reflexivity. }
    rewrite Er, read_name_app by auto. change (Ascii.eqb lbrace lbrace) with true. cbn iota.
    rewrite read_pairs_joined; [| discriminate | eapply Forall_impl; [exact Hl | intros ? [? _]; assumption] |].
    + cbn [mbind option_bind]. unfold read_value. change (Ascii.eqb space space) with true. cbn iota.
      rewrite Es, str_bytes. reflexivity.
    + pose proof (length_join _ Hl). rewrite length_app. cbn [length]. rewrite length_app. cbn [length] in *. lia.
Qed.

(** ** Texts of whole lines *)

(** A text of whole lines that hold the samples: reading it in front of any
    other text gives them, and then what the other text gives. *)
Definition reads (text : string) (ss : list sample) : Prop := forall rest,
  read_exposition (text +:+ rest) = ss' ← read_exposition rest; Some (ss ++ ss').

Lemma split_go_line line cur rest : has_byte line (byte 10) = false ->
  split_go (line ++ byte 10 :: rest) cur (byte 10) = str (rev cur ++ line) :: split_go rest [] (byte 10).
Proof.
  revert cur. induction line as [| a line IH]; intros cur H; cbn [app split_go].
  - rewrite Ascii.eqb_refl, app_nil_r. reflexivity.
  - rewrite has_byte_cons in H. apply orb_false_iff in H as [Ha H]. rewrite Ha, IH by exact H.
    cbn [rev]. now rewrite <- app_assoc.
Qed.

Lemma read_line line rest : clean line -> read_exposition ((line +:+ newline) +:+ rest) =
  if is_comment (bytes line) then read_exposition rest
  else s ← read_sample (bytes line); ss ← read_exposition rest; Some (s :: ss).
Proof.
  intros Hc. unfold read_exposition, split. rewrite !bytes_app, <- app_assoc.
  change (bytes newline ++ bytes rest) with (byte 10 :: bytes rest). rewrite split_go_line by exact Hc.
  cbn [rev app read_lines]. rewrite bytes_str. reflexivity.
Qed.

Lemma reads_nil : reads "" [].
Proof. intros rest. cbn [app]. change ("" +:+ rest) with rest. now destruct (read_exposition rest). Qed.

Lemma reads_app a b ss ts : reads a ss -> reads b ts -> reads (a +:+ b) (ss ++ ts).
Proof.
  intros Ha Hb rest. rewrite <- string_app_assoc, Ha, Hb. destruct (read_exposition rest); [| reflexivity].
  cbn. now rewrite <- app_assoc.
Qed.

Lemma reads_comment line : clean line -> is_comment (bytes line) = true -> reads (line +:+ newline) [].
Proof. intros Hc Hl rest. rewrite read_line, Hl by exact Hc. now destruct (read_exposition rest). Qed.

Lemma reads_sample x : sample_ok x -> reads (sample_text x +:+ newline) [x].
Proof.
  intros Hx rest. destruct (read_sample_text x Hx) as [H1 H2].
  rewrite read_line, H1, H2 by (now apply sample_text_clean). reflexivity.
Qed.

Lemma reads_concat {A} (f : A -> string) (g : A -> list sample) l : (forall a, reads (f a) (g a)) ->
  reads (concat_all (f <$> l)) (l ≫= g).
Proof.
  intros H. induction l as [| a l IH]; [apply reads_nil |]. cbn. now apply reads_app.
Qed.

Lemma reads_help name text : clean name -> clean text -> reads (help_line name text) [].
Proof.
  intros Hn Ht. unfold help_line. rewrite !string_app_assoc. apply reads_comment; [| reflexivity].
  repeat (apply clean_app; try assumption); reflexivity.
Qed.

Lemma reads_type name kind : clean name -> clean kind -> reads (type_line name kind) [].
Proof.
  intros Hn Ht. unfold type_line. rewrite !string_app_assoc. apply reads_comment; [| reflexivity].
  repeat (apply clean_app; try assumption); reflexivity.
Qed.

(** *** The lines of the metrics *)

Definition kv_ok (kv : list string) : Prop := Forall label_ok (pairs_of kv) /\ pairs_of kv <> [].

Lemma service_ok service : Forall label_ok (service_pairs service).
Proof.
  unfold service_pairs. case_decide; [apply List.Forall_nil |]. apply List.Forall_cons; [| apply List.Forall_nil].
  split; reflexivity.
Qed.

Lemma labels_braces service kv : pairs_of kv <> [] -> labels service kv = braces (service_pairs service ++ pairs_of kv).
Proof.
  intros Hne. unfold labels, braces, service_pairs. rewrite label_pairs_of. case_decide.
  - cbn [app]. destruct (pairs_of kv); [contradiction | reflexivity].
  - reflexivity.
Qed.

Lemma service_braces service : serviceLabel service = braces (service_pairs service ++ []).
Proof. unfold serviceLabel, braces, service_pairs. case_decide; reflexivity. Qed.

Lemma sample_line_text name ps value : sample_line name (braces ps) value = sample_text (mkSample name ps value) +:+ newline.
Proof. unfold sample_line, sample_text. cbn [s_name s_labels s_value]. apply bytes_inj. rewrite !bytes_app. now rewrite <- !app_assoc. Qed.

Lemma reads_line name service kv value : metric_name name = true -> kv_ok kv -> clean value ->
  reads (sample_line name (labels service kv) value) [labelled name service kv value].
Proof.
  intros Hn [Hk Hne] Hv. rewrite labels_braces, sample_line_text by exact Hne. apply reads_sample.
  split; [exact Hn |]. split; [| exact Hv]. apply Forall_app. split; [apply service_ok | exact Hk].
Qed.

Lemma reads_gauge name service value : metric_name name = true -> clean value ->
  reads (sample_line name (serviceLabel service) value) [labelled name service [] value].
Proof.
  intros Hn Hv. rewrite service_braces, sample_line_text. apply reads_sample.
  split; [exact Hn |]. split; [| exact Hv]. apply Forall_app. split; [apply service_ok | apply List.Forall_nil].
Qed.

(** A suffix of the name of a histogram. *)
Definition histogram_name (name : string) : Prop :=
  metric_name (name +:+ "_bucket") = true /\ metric_name (name +:+ "_sum") = true /\ metric_name (name +:+ "_count") = true.

(** The keys' labels, and the bound after them. *)
Definition kv_even (kv : list string) : Prop := kv_ok kv /\ forall v, kv_ok (kv ++ ["le"; v]).

Lemma reads_buckets name service kv bounds counts c : histogram_name name -> kv_even kv ->
  reads (bucket_lines name service kv bounds counts c) (bucket_samples name service kv bounds counts c).
Proof.
  intros (Hn & _) [_ Hk]. revert counts c. induction bounds as [| b bounds IH]; intros [| n counts] c;
    cbn [bucket_lines bucket_samples]; try apply reads_nil.
  - apply reads_line; [exact Hn | apply Hk | apply clean_int].
  - apply (reads_app _ _ [_] _); [| apply IH]. apply reads_line; [exact Hn | apply Hk | apply clean_int].
Qed.

Lemma reads_histogram name service kv bounds value : histogram_name name -> kv_even kv ->
  reads (histogram_lines name service kv bounds value) (histogram_samples name service kv bounds value).
Proof.
  intros Hn Hk. unfold histogram_lines, histogram_samples. apply reads_app; [now apply reads_buckets |].
  destruct Hn as (_ & Hs & Hc). destruct Hk as [Hk _].
  apply (reads_app _ _ [_] [_]); apply reads_line; auto using clean_float, clean_int.
Qed.

Lemma reads_counters `{Countable K} name service (kv : K -> list string) keys counters :
  metric_name name = true -> (forall k, kv_ok (kv k)) ->
  reads (counter_lines name service kv keys counters) (counter_samples name service kv keys counters).
Proof.
  intros Hn Hk. unfold counter_lines, counter_samples. induction keys as [| k keys IH]; [apply reads_nil |].
  apply (reads_app _ _ [_] _); [apply reads_line; auto using clean_int | exact IH].
Qed.

Lemma reads_durations `{Countable K} name service (kv : K -> list string) bounds keys durations :
  histogram_name name -> (forall k, kv_even (kv k)) ->
  reads (duration_lines name service kv bounds keys durations) (duration_samples name service kv bounds keys durations).
Proof. intros Hn Hk. apply reads_concat. intros k. now apply reads_histogram. Qed.

Lemma kv_even_intro kv : Forall label_ok (pairs_of kv) -> pairs_of kv <> [] ->
  (forall v, pairs_of (kv ++ ["le"; v]) = pairs_of kv ++ [("le", v)]) -> kv_even kv.
Proof.
  intros Hk Hne Happ. split; [now split |]. intros v. unfold kv_ok. rewrite Happ. split.
  - apply Forall_app. split; [exact Hk |]. apply List.Forall_cons; [split; reflexivity | apply List.Forall_nil].
  - destruct (pairs_of kv); discriminate.
Qed.

Ltac kv_shape := intros []; cbn; repeat (apply List.Forall_cons; [split; reflexivity |]); apply List.Forall_nil.

Lemma request_kv_ok k : kv_ok (request_kv k).
Proof. split; [revert k; kv_shape | discriminate]. Qed.
Lemma duration_kv_even k : kv_even (duration_kv k).
Proof. apply kv_even_intro; [revert k; kv_shape | discriminate | reflexivity]. Qed.
Lemma grpc_request_kv_ok k : kv_ok (grpc_request_kv k).
Proof. split; [revert k; kv_shape | discriminate]. Qed.
Lemma grpc_duration_kv_even k : kv_even (grpc_duration_kv k).
Proof. apply kv_even_intro; [revert k; kv_shape | discriminate | reflexivity]. Qed.

(** A family of metrics: its two comments, and its lines. *)
Lemma reads_family name text kind lines rest ss ts : clean name -> clean text -> clean kind ->
  reads lines ss -> reads rest ts -> reads (help_line name text +:+ type_line name kind +:+ lines +:+ rest) (ss ++ ts).
Proof.
  intros Hn Ht Hk Hl Hr. apply (reads_app _ _ [] _); [now apply reads_help |].
  apply (reads_app _ _ [] _); [now apply reads_type |]. now apply reads_app.
Qed.

Lemma reads_own {C} `{PrometheusCollector C} (m : @HTTPMetrics C) : reads (render_own m) (http_samples m).
Proof.
  unfold render_own, http_samples.
  repeat (apply reads_family; [reflexivity | reflexivity | reflexivity | |]).
  - apply reads_gauge; [reflexivity | apply clean_int].
  - apply reads_counters; [reflexivity | apply request_kv_ok].
  - apply reads_counters; [reflexivity | apply request_kv_ok].
  - apply (reads_app _ _ [] _); [apply reads_help; reflexivity |]. apply (reads_app _ _ [] _); [apply reads_type; reflexivity |].
    apply reads_durations; [repeat split; reflexivity | apply duration_kv_even].
Qed.

Lemma reads_grpc m : reads (AppendPrometheus_grpc m) (grpc_samples m).
Proof.
  destruct m as [m |]; [| apply reads_nil]. unfold AppendPrometheus_grpc, grpc_samples.
  repeat (apply reads_family; [reflexivity | reflexivity | reflexivity | |]).
  - apply reads_gauge; [reflexivity | apply clean_int].
  - apply reads_counters; [reflexivity | apply grpc_request_kv_ok].
  - apply reads_counters; [reflexivity | apply grpc_request_kv_ok].
  - apply (reads_app _ _ [] _); [apply reads_help; reflexivity |]. apply (reads_app _ _ [] _); [apply reads_type; reflexivity |].
    apply reads_durations; [repeat split; reflexivity | apply grpc_duration_kv_even].
Qed.

Lemma reads_newline text ss : reads text ss -> reads (text +:+ newline) ss.
Proof.
  intros H. rewrite <- (app_nil_r ss). apply reads_app; [exact H |].
  apply (reads_comment ""); reflexivity.
Qed.

Lemma reads_collectors cs text ss : reads text ss ->
  reads (append_collectors cs text) (ss ++ (omap id cs ≫= grpc_samples)).
Proof.
  unfold append_collectors. revert text ss. induction cs as [| c cs IH]; intros text ss H.
  - cbn. now rewrite app_nil_r.
  - cbn [foldl]. destruct c as [g |]; [| exact (IH text ss H)].
    change (omap id (Some g :: cs)) with (g :: omap id cs). cbn [mbind list_bind]. rewrite app_assoc. apply IH.
    apply reads_app; [| exact (reads_grpc g)]. destruct (_ && _); [now apply reads_newline | exact H].
Qed.

(** ** The round trip *)

(** C11. A scraper that reads the rendered text gets every sample of the
    HTTP metrics and then those of the gRPC collectors, in order, each label
    with the bytes it was observed with, whatever they are. *)
Theorem exposition_roundtrip (m : @HTTPMetrics (option GRPCMetrics)) :
  read_exposition (renderPrometheus m) = Some (http_samples m ++ (omap id (collectors m) ≫= grpc_samples)).
Proof.
  pose proof (reads_collectors (collectors m) _ _ (reads_own m) "") as H.
  rewrite string_app_nil in H. unfold renderPrometheus. rewrite H. cbn. now rewrite app_nil_r.
Qed.

(** A label with a quote, a backslash and a newline in it. *)
Example odd_label : read_exposition (sample_line "m" (labels "" ["path"; str [byte 34; backslash; byte 10; "n"%char]]) "1") =
  Some [mkSample "m" [("path", str [byte 34; backslash; byte 10; "n"%char])] "1"].
Proof. vm_compute. reflexivity. Qed.
