(* ===== verification/MetricsConc.v ===== *)
(** * Scrapes of the HTTP metrics among requests

    [observe] and [renderPrometheus] of [go/telemetry/metrics.go] from any
    number of goroutines.  [durations] maps keys to pointers, and a histogram
    holds its counts in an array of its own, so both live in a store;
    [observe] changes them in place under [mu].  A scrape copies the maps,
    the histograms and their arrays under [mu], releases it, loads the gauge,
    reads the copies, and lets the collectors append their text one after the
    other, while observations go on and the collectors' states change.  A
    collector renders one state it has at the time, in one step.

    The theorem ([scrape_consistent]): in every interleaving, no goroutine
    panics, and the text of a scrape is what [renderPrometheus] gives, alone,
    for the observations made up to one moment between its start and its end
    and, for each collector, a state it had between them. *)

From S2P Require Import Prelude Float64 GoStrings FloatText GoHTTP Metrics.

#[local] Open Scope Z_scope.

(** ** The store *)

Definition ref : Type := nat.

(** [*durationMetricValue]: [buckets] is a slice of an array. *)
Record histogram : Type := mkHistogram { h_buckets : ref; h_sum : float64; h_count : Z }.

Record memory : Type := mkMemory { histograms : gmap ref histogram; arrays : gmap ref (list Z); fresh : ref }.

(** The fields of [HTTPMetrics] that change. *)
Record shared : Type := mkShared {
  gauge : Z;
  s_requests : gmap requestMetricKey Z;
  s_errors : gmap requestMetricKey Z;
  s_durations : gmap durationMetricKey ref;
  mem : memory
}.

(** [&durationMetricValue{...}] with an array of its own. *)
Definition alloc (v : durationMetricValue) (m : memory) : ref * memory :=
  (fresh m, mkMemory (<[fresh m := mkHistogram (fresh m) (sum v) (count v)]> (histograms m))
    (<[fresh m := buckets v]> (arrays m)) (S (fresh m))).

(** A histogram read through its pointer; [None] where Go would panic. *)
Definition deref (p : ref) (m : memory) : option durationMetricValue :=
  h ← histograms m !! p; a ← arrays m !! h_buckets h; Some (mkDuration a (h_sum h) (h_count h)).

(** [value.buckets[idx]++; value.sum += seconds; value.count++]. *)
Definition observe_in_place (bounds : list float64) (seconds : float64) (p : ref) (m : memory) : option memory :=
  h ← histograms m !! p; a ← arrays m !! h_buckets h;
  Some (mkMemory (<[p := mkHistogram (h_buckets h) (f64_add (h_sum h) seconds) (incr (h_count h))]> (histograms m))
    (<[h_buckets h := alter incr (bucket_index bounds seconds) a]> (arrays m)) (fresh m)).

(** The critical section of [observe]. *)
Definition store_observe (bounds : list float64) (o : observation) (s : shared) : option shared :=
  let requests := count_up (req_key o) (s_requests s) in
  let errors := if 400 <=? o_status o then count_up (req_key o) (s_errors s) else s_errors s in
  let '(p, durations, m) :=
    match s_durations s !! dur_key o with
    | Some p => (p, s_durations s, mem s)
    | None => let '(p, m) := alloc (new_duration bounds) (mem s) in (p, <[dur_key o := p]> (s_durations s), m)
    end in
  m ← observe_in_place bounds (o_seconds o) p m;
  Some (mkShared (gauge s) requests errors durations m).

(** [cloneDurationMetrics]: the histograms of the entries, in the order of
    the iteration, and their arrays are copied; no entry is nil. *)
Fixpoint clone_list (l : list (durationMetricKey * ref)) (m : memory) : option (list (durationMetricKey * ref) * memory) :=
  match l with
  | [] => Some ([], m)
  | (key, p) :: l =>
      v ← deref p m;
      let '(q, m) := alloc v m in
      x ← clone_list l m;
      Some ((key, q) :: x.1, x.2)
  end.

Definition cloneDurationMetrics (source : gmap durationMetricKey ref) (m : memory) :
    option (gmap durationMetricKey ref * memory) :=
  x ← clone_list (map_to_list source) m; Some (list_to_map x.1, x.2).

(** ** Goroutines *)

(** Where one is: a request before it is counted in, in its handler, with its
    observation made, or counted out; a scrape before its copies, with them,
    with a part of the text and the keys left to render, with the text of the
    first [i] collectors, or done.  [since] is what had happened when the
    scrape started, for the statements: the number of observations made, and
    of states the collectors had had. *)
Record mark : Type := mkMark { observations : nat; epoch : nat }.

Inductive point : Type :=
| Arriving (o : observation)
| InHandler (o : observation)
| Leaving
| Gone
| AtCopy (since : mark)
| AtGauge (since : mark) (requests errors : gmap requestMetricKey Z) (durations : gmap durationMetricKey ref)
| AtHistograms (since : mark) (text : string) (durations : gmap durationMetricKey ref) (keys : list durationMetricKey)
| AtCollectors (since : mark) (text : string) (i : nat)
| Scraped (since : mark) (text : string).

(** [current] are the collectors as they now are.  For the statements,
    [made] is the log of the observations, and [past] the states of the
    collectors so far, the last of them [current]. *)
Record mstate (C : Type) : Type := mkMState {
  store : shared;
  points : list point;
  current : list (option C);
  made : list observation;
  past : list (list (option C))
}.
Arguments mkMState {C}. Arguments store {C}. Arguments points {C}. Arguments current {C}. Arguments made {C}. Arguments past {C}.

Section Runs.
Context {C : Type} `{PrometheusCollector C} (m0 : @HTTPMetrics C).

(** What is written before the histograms. *)
Definition render_counters (n : Z) (requests errors : gmap requestMetricKey Z) : string :=
  help_line "densecloud_http_in_flight_requests" "Current number of in-flight HTTP requests." +:+
  type_line "densecloud_http_in_flight_requests" "gauge" +:+
  sample_line "densecloud_http_in_flight_requests" (serviceLabel (serviceName m0)) (format_int n) +:+
  help_line "densecloud_http_requests_total" "Total number of HTTP requests completed by the DenseCloud runtime." +:+
  type_line "densecloud_http_requests_total" "counter" +:+
  counter_lines "densecloud_http_requests_total" (serviceName m0) request_kv
    (sortedRequestMetricKeys (map_keys requests)) requests +:+
  help_line "densecloud_http_request_errors_total" "Total number of HTTP requests that completed with client/server errors." +:+
  type_line "densecloud_http_request_errors_total" "counter" +:+
  counter_lines "densecloud_http_request_errors_total" (serviceName m0) request_kv
    (sortedRequestMetricKeys (map_keys errors)) errors +:+
  help_line "densecloud_http_request_duration_seconds" "HTTP request latency in seconds." +:+
  type_line "densecloud_http_request_duration_seconds" "histogram".

Definition goes (t : nat) (p : point) (s : shared) (x : mstate C) : mstate C := mkMState s (<[t := p]> (points x)) (current x) (made x) (past x).

Definition add_gauge (n : Z) (s : shared) : shared :=
  mkShared (wrap64 (gauge s + n)) (s_requests s) (s_errors s) (s_durations s) (mem s).

Definition set_mem (m : memory) (s : shared) : shared :=
  mkShared (gauge s) (s_requests s) (s_errors s) (s_durations s) m.

Definition point_step (t : nat) (x : mstate C) : option (mstate C) :=
  match points x !! t with
  | Some (Arriving o) => Some (goes t (InHandler o) (add_gauge 1 (store x)) x)
  | Some (InHandler o) =>
      s ← store_observe (bounds m0) o (store x);
      Some (mkMState s (<[t := Leaving]> (points x)) (current x) (made x ++ [o]) (past x))
  | Some Leaving => Some (goes t Gone (add_gauge (-1) (store x)) x)
  | Some (AtCopy since) =>
      y ← cloneDurationMetrics (s_durations (store x)) (mem (store x));
      Some (goes t (AtGauge since (s_requests (store x)) (s_errors (store x)) y.1) (set_mem y.2 (store x)) x)
  | Some (AtGauge since requests errors durations) =>
      Some (goes t (AtHistograms since (render_counters (gauge (store x)) requests errors) durations
        (sortedDurationMetricKeys (map_keys durations))) (store x) x)
  | Some (AtHistograms since text durations (key :: keys)) =>
      p ← durations !! key;
      v ← deref p (mem (store x));
      Some (goes t (AtHistograms since (text +:+ histogram_lines "densecloud_http_request_duration_seconds" (serviceName m0)
        (duration_kv key) (bounds m0) v) durations keys) (store x) x)
  | Some (AtHistograms since text durations []) => Some (goes t (AtCollectors since text 0) (store x) x)
  | Some (AtCollectors since text i) =>
      match current x !! i with
      | Some c => Some (goes t (AtCollectors since (append_collectors [c] text) (S i)) (store x) x)
      | None => Some (goes t (Scraped since text) (store x) x)
      end
  | Some Gone | Some (Scraped _ _) | None => None
  end.

Inductive step (x x' : mstate C) : Prop :=
| step_point t : point_step t x = Some x' -> step x x'
| step_request o : x' = mkMState (store x) (points x ++ [Arriving o]) (current x) (made x) (past x) -> step x x'
| step_scrape : x' = mkMState (store x) (points x ++ [AtCopy (mkMark (length (made x)) (length (past x)))]) (current x)
    (made x) (past x) -> step x x'
| step_collectors cs : Forall2 (fun c c' : option C => is_Some c <-> is_Some c') (current x) cs ->
    x' = mkMState (store x) (points x) cs (made x) (past x ++ [cs]) -> step x x'.

(** The metrics [NewHTTPMetrics] makes have empty maps. *)
Definition started : mstate C :=
  mkMState (mkShared 0 ∅ ∅ ∅ (mkMemory ∅ ∅ 0%nat)) [] (collectors m0) [] [collectors m0].
End Runs.

(** ** The store keeps histograms apart *)

(** Each histogram has the array of its own number. *)
Definition mem_ok (m : memory) : Prop := forall p h, histograms m !! p = Some h ->
  h_buckets h = p /\ is_Some (arrays m !! p) /\ (p < fresh m)%nat.

Lemma deref_lt p m v : mem_ok m -> deref p m = Some v -> (p < fresh m)%nat.
Proof. intros Hm E. unfold deref in E. apply bind_Some in E as (h & Eh & _). now destruct (Hm p h Eh) as (_ & _ & ?). Qed.

(** A pointer reads the same where its histogram and array are the same. *)
Lemma deref_frame p m m' : mem_ok m -> histograms m' !! p = histograms m !! p -> arrays m' !! p = arrays m !! p ->
  deref p m' = deref p m.
Proof.
  intros Hm Eh Ea. unfold deref. rewrite Eh. destruct (histograms m !! p) as [h |] eqn:E; [| reflexivity]. cbn.
  destruct (Hm p h E) as (-> & _). now rewrite Ea.
Qed.

Lemma alloc_ok v m : mem_ok m -> let m' := (alloc v m).2 in
  mem_ok m' /\ deref (fresh m) m' = Some v /\ fresh m' = S (fresh m) /\ forall q, q <> fresh m -> deref q m' = deref q m.
Proof.
  intros Hm. cbn. split; [| split; [| split; [reflexivity |]]].
  - intros p h. cbn. intros [[<- <-] | [Hne Hp]]%lookup_insert_Some.
    + rewrite lookup_insert_eq. cbn. eauto.
    + rewrite lookup_insert_ne by exact Hne. destruct (Hm p h Hp) as (? & ? & ?). split; [assumption |]. split; [assumption | unfold ref in *; lia].
  - unfold deref. cbn. rewrite lookup_insert_eq. cbn. rewrite lookup_insert_eq. now destruct v.
  - intros q Hq. apply deref_frame; [exact Hm | |]; cbn; now rewrite lookup_insert_ne by congruence.
Qed.

Lemma in_place_ok bounds seconds p m v : mem_ok m -> deref p m = Some v ->
  exists m', observe_in_place bounds seconds p m = Some m' /\ mem_ok m' /\ deref p m' = Some (observe_value bounds seconds v) /\
    fresh m' = fresh m /\ forall q, q <> p -> deref q m' = deref q m.
Proof.
  intros Hm E. unfold deref in E. apply bind_Some in E as (h & Eh & E). apply bind_Some in E as (a & Ea & [= <-]).
  destruct (Hm p h Eh) as (Ep & _ & Hlt). rewrite Ep in Ea.
  unfold observe_in_place. rewrite Eh. cbn. rewrite Ep, Ea. cbn. eexists. split; [reflexivity |].
  split; [| split; [| split; [reflexivity |]]].
  - intros q k. cbn. intros [[<- <-] | [Hne Hq]]%lookup_insert_Some.
    + cbn. rewrite lookup_insert_eq. eauto.
    + rewrite lookup_insert_ne by exact Hne. exact (Hm q k Hq).
  - unfold deref. cbn. rewrite lookup_insert_eq. cbn. now rewrite lookup_insert_eq.
  - intros q Hq. apply deref_frame; [exact Hm | |]; cbn; now rewrite lookup_insert_ne by congruence.
Qed.

(** What a map of pointers stands for. *)
Record reps (durs : gmap durationMetricKey ref) (m : memory) (d : gmap durationMetricKey durationMetricValue) : Prop := {
  rp_val : forall k, d !! k = durs !! k ≫= fun p => deref p m;
  rp_some : forall k p, durs !! k = Some p -> is_Some (deref p m)
}.

Lemma reps_frame durs m m' d : reps durs m d -> (forall k p, durs !! k = Some p -> deref p m' = deref p m) -> reps durs m' d.
Proof.
  intros [H1 H2] Hf. split.
  - intros k. rewrite H1. destruct (durs !! k) as [p |] eqn:E; [| reflexivity]. cbn. now rewrite (Hf k p E).
  - intros k p E. rewrite (Hf k p E). exact (H2 k p E).
Qed.

Lemma clone_list_ok l m : mem_ok m -> (forall k p, (k, p) ∈ l -> is_Some (deref p m)) ->
  exists l' m', clone_list l m = Some (l', m') /\ mem_ok m' /\ l'.*1 = l.*1 /\ (fresh m <= fresh m')%nat /\
    (forall q, (q < fresh m)%nat -> deref q m' = deref q m) /\
    (forall k q, (k, q) ∈ l' -> (fresh m <= q)%nat /\ exists p, (k, p) ∈ l /\ deref q m' = deref p m /\ is_Some (deref p m)).
Proof.
  revert m. induction l as [| [k p] l IH]; intros m Hm Hl.
  - exists [], m. do 5 (split; [auto |]). intros k q Hq. now apply not_elem_of_nil in Hq.
  - destruct (Hl k p) as [v Ev]; [left |]. destruct (alloc_ok v m Hm) as (Hm1 & E1 & Ef & Hfr). cbv zeta in *.
    set (m1 := (alloc v m).2) in *.
    assert (forall q, (q < fresh m)%nat -> deref q m1 = deref q m) as Hold by (intros q Hq; apply Hfr; unfold ref in *; lia).
    destruct (IH m1 Hm1) as (l' & m' & E' & Hm' & Hk' & Hle & Hsame & Hnew).
    { intros k' p' Hin. destruct (Hl k' p') as [v' Ev']; [now right |]. rewrite Hold by exact (deref_lt _ _ _ Hm Ev'). eauto. }
    exists ((k, fresh m) :: l'), m'. cbn [clone_list]. rewrite Ev. cbn [mbind option_bind]. change (alloc v m) with (fresh m, m1). cbv beta iota.
    rewrite E'. cbn. split; [reflexivity |]. split; [exact Hm' |]. split; [now rewrite Hk' |].
    rewrite Ef in *. split; [unfold ref in *; lia |]. split.
    { intros q Hq. rewrite Hsame by (unfold ref in *; lia). now apply Hold. }
    intros k' q [[= -> ->] | Hin]%elem_of_cons.
    + split; [lia |]. exists p. split; [left |]. rewrite Hsame by (unfold ref in *; lia). rewrite E1, Ev. eauto.
    + destruct (Hnew k' q Hin) as (Hq & p' & Hp' & Ep' & [v' Ev']). split; [unfold ref in *; lia |]. exists p'. split; [now right |].
      destruct (Hl k' p') as [v2 Ev2]; [now right |]. rewrite Ep', Hold by exact (deref_lt _ _ _ Hm Ev2). eauto.
Qed.

(** The copies stand for the same values, at fresh pointers. *)
Lemma clone_ok durs m d : mem_ok m -> reps durs m d -> exists durs' m', cloneDurationMetrics durs m = Some (durs', m') /\
  mem_ok m' /\ reps durs' m' d /\ (fresh m <= fresh m')%nat /\ (forall q, (q < fresh m)%nat -> deref q m' = deref q m) /\
  forall k q, durs' !! k = Some q -> (fresh m <= q)%nat.
Proof.
  intros Hm [H1 H2]. destruct (clone_list_ok (map_to_list durs) m Hm) as (l' & m' & E & Hm' & Hk & Hle & Hsame & Hnew).
  { intros k p Hin. apply elem_of_map_to_list in Hin. eauto. }
  unfold cloneDurationMetrics. rewrite E. cbn. exists (list_to_map l'), m'. split; [reflexivity |].
  assert (NoDup l'.*1) as Hnd by (rewrite Hk; apply NoDup_fst_map_to_list).
  assert (forall k q, (list_to_map l' : gmap _ _) !! k = Some q -> (fresh m <= q)%nat /\ exists p, durs !! k = Some p /\
    deref q m' = deref p m /\ is_Some (deref p m)) as Hl.
  { intros k q Hq. apply elem_of_list_to_map in Hq; [| exact Hnd]. destruct (Hnew k q Hq) as (Hf & p & Hp & Hd).
    split; [exact Hf |]. exists p. apply elem_of_map_to_list in Hp. auto. }
  split; [exact Hm' |]. split; [| split; [exact Hle | split; [exact Hsame | intros k q Hq; apply (Hl k q Hq)]]].
  split.
  - intros k. rewrite H1. destruct ((list_to_map l' : gmap _ _) !! k) as [q |] eqn:Eq.
    + destruct (Hl k q Eq) as (_ & p & -> & Hd & _). cbn. now rewrite Hd.
    + apply not_elem_of_list_to_map in Eq. rewrite Hk in Eq. destruct (durs !! k) as [p |] eqn:Ep; [| reflexivity].
      destruct Eq. apply list_elem_of_fmap. exists (k, p). split; [reflexivity |]. now apply elem_of_map_to_list.
  - intros k q Hq. destruct (Hl k q Hq) as (_ & p & _ & -> & Hs). exact Hs.
Qed.

(** The map's pointers are apart. *)
Definition apart (durs : gmap durationMetricKey ref) : Prop :=
  forall k k' p, durs !! k = Some p -> durs !! k' = Some p -> k = k'.

(** The store that results has kept every pointer that the map does not
    have. *)
Definition keeps (s s' : shared) : Prop :=
  (fresh (mem s) <= fresh (mem s'))%nat /\
  forall q, (q < fresh (mem s))%nat -> (forall k, s_durations s !! k <> Some q) ->
    deref q (mem s') = deref q (mem s) /\ forall k, s_durations s' !! k <> Some q.

(** [m.durations[durKey]], made if it is nil. *)
Lemma find_or_alloc bounds key s d : mem_ok (mem s) -> reps (s_durations s) (mem s) d -> apart (s_durations s) ->
  exists p durs m, match s_durations s !! key with
    | Some p => (p, s_durations s, mem s)
    | None => let '(p, m) := alloc (new_duration bounds) (mem s) in (p, <[key := p]> (s_durations s), m)
    end = (p, durs, m) /\ mem_ok m /\ durs = <[key := p]> (s_durations s) /\
    deref p m = Some (default (new_duration bounds) (d !! key)) /\ (forall k, k <> key -> s_durations s !! k <> Some p) /\
    (fresh (mem s) <= fresh m)%nat /\ (forall q, q <> p -> deref q m = deref q (mem s)) /\ (p < fresh m)%nat /\
    (forall q, (q < fresh (mem s))%nat -> (forall k, s_durations s !! k <> Some q) -> q <> p).
Proof.
  intros Hm [H1 H2] Ha. specialize (H1 key). destruct (s_durations s !! key) as [p |] eqn:Ep.
  - exists p, (s_durations s), (mem s). destruct (H2 key p Ep) as [v Ev]. rewrite H1. cbn. rewrite Ev.
    split; [reflexivity |]. split; [exact Hm |]. split; [now rewrite insert_id |]. split; [reflexivity |].
    split; [intros k Hk E; exact (Hk (Ha _ _ _ E Ep)) |]. do 2 (split; [auto |]). split; [exact (deref_lt _ _ _ Hm Ev) |].
    intros q _ Hq ->. exact (Hq key Ep).
  - destruct (alloc_ok (new_duration bounds) (mem s) Hm) as (Hm' & E & Ef & Hfr). cbv zeta in *.
    exists (fresh (mem s)), (<[key := fresh (mem s)]> (s_durations s)), (alloc (new_duration bounds) (mem s)).2.
    split; [reflexivity |]. split; [exact Hm' |]. split; [reflexivity |]. split; [rewrite H1; exact E |]. split.
    { intros k _ Hk. destruct (H2 k _ Hk) as [v Ev]. pose proof (deref_lt _ _ _ Hm Ev). unfold ref in *. lia. }
    rewrite Ef. unfold ref in *. repeat split; auto; try lia.
Qed.

Lemma store_observe_ok {C} (M : @HTTPMetrics C) o s : mem_ok (mem s) -> reps (s_durations s) (mem s) (durations M) ->
  apart (s_durations s) -> s_requests s = requests M -> s_errors s = errors M ->
  let M' := observe (o_method o) (o_path o) (o_status o) (o_seconds o) M in
  exists s', store_observe (bounds M) o s = Some s' /\ gauge s' = gauge s /\ mem_ok (mem s') /\
    reps (s_durations s') (mem s') (durations M') /\ apart (s_durations s') /\ s_requests s' = requests M' /\
    s_errors s' = errors M' /\ keeps s s'.
Proof.
  intros Hm Hr Ha Hreq Herr M'. destruct (find_or_alloc (bounds M) (dur_key o) s (durations M) Hm Hr Ha)
    as (p & durs & m & E & Hm1 & -> & Ep & Hne & Hle & Hsame & Hlt & Hother).
  destruct (in_place_ok (bounds M) (o_seconds o) p m _ Hm1 Ep) as (m' & E' & Hm' & Ep' & Ef & Hsame').
  unfold store_observe. rewrite E, E'. cbn. eexists. split; [reflexivity |]. cbn [gauge mem s_durations s_requests s_errors].
  split; [reflexivity |]. split; [exact Hm' |]. split; [| split; [| split; [now rewrite Hreq | split; [now rewrite Herr |]]]].
  - destruct Hr as [H1 H2]. split.
    + intros k. unfold M'. cbn [durations observe]. unfold observe_duration. change (mkDurationKey (o_method o) (o_path o)) with (dur_key o).
      destruct (decide (k = dur_key o)) as [-> | Hk].
      * rewrite !lookup_insert_eq. cbn. now rewrite Ep'.
      * rewrite !lookup_insert_ne by congruence. rewrite H1. destruct (s_durations s !! k) as [q |] eqn:Eq; [| reflexivity].
        cbn. assert (q <> p) as Hqp by (intros ->; exact (Hne k Hk Eq)). now rewrite Hsame', Hsame.
    + intros k q [[<- <-] | [Hk Hq]]%lookup_insert_Some; [rewrite Ep'; eauto |].
      assert (q <> p) as Hqp by (intros ->; refine (Hne k _ Hq); congruence). rewrite Hsame', Hsame by exact Hqp. exact (H2 k q Hq).
  - intros k k' q Hk Hk'. apply lookup_insert_Some in Hk as [[<- <-] | [Hk Eq]]; apply lookup_insert_Some in Hk' as [[Hk' Eq'] | [Hk' Eq']].
    + exact Hk'.
    + destruct (Hne k'); [congruence | exact Eq'].
    + subst. destruct (Hne k); [congruence | exact Eq].
    + exact (Ha _ _ _ Eq Eq').
  - split; cbn; [rewrite Ef; exact Hle |]. intros q Hq Hfree. pose proof (Hother q Hq Hfree) as Hqp.
    rewrite Hsame', Hsame by exact Hqp. split; [reflexivity |]. intros k [[_ ->] | [_ Hk]]%lookup_insert_Some; [now apply Hqp | exact (Hfree k Hk)].
Qed.

(** ** The invariant of a run *)

Section Invariant.
Context {C : Type} `{PrometheusCollector C} (cfg : @HTTPMetricsConfig C).
Abbreviation m0 := (NewHTTPMetrics cfg).

(** The metrics after a log, with a gauge, and with collectors. *)
Definition observed (obs : list observation) : @HTTPMetrics C := observe_all obs m0.
Definition with_gauge (n : Z) (m : @HTTPMetrics C) : @HTTPMetrics C :=
  mkMetrics (serviceName m) (bounds m) (pathLabeler m) (ignored m) (collectors m) n (requests m) (errors m) (durations m).

Definition with_collectors (cs : list (option C)) (m : @HTTPMetrics C) : @HTTPMetrics C :=
  mkMetrics (serviceName m) (bounds m) (pathLabeler m) (ignored m) cs (inFlight m) (requests m) (errors m) (durations m).

(** The loop over the collectors, one more round. *)
Lemma append_collectors_snoc cs c text : append_collectors (cs ++ [c]) text = append_collectors [c] (append_collectors cs text).
Proof. unfold append_collectors. now rewrite foldl_app. Qed.

Lemma observed_snoc obs o : observed (obs ++ [o]) = observe (o_method o) (o_path o) (o_status o) (o_seconds o) (observed obs).
Proof. unfold observed, observe_all. now rewrite foldl_snoc. Qed.

Lemma observed_config obs : serviceName (observed obs) = serviceName m0 /\ bounds (observed obs) = bounds m0.
Proof. induction obs as [| o obs IH] using rev_ind; [auto |]. rewrite observed_snoc. exact IH. Qed.

Definition histogram_text (d : gmap durationMetricKey durationMetricValue) (key : durationMetricKey) : string :=
  histogram_lines "densecloud_http_request_duration_seconds" (serviceName m0) (duration_kv key) (bounds m0)
    (default (new_duration (bounds m0)) (d !! key)).

(** The text of a scrape that runs alone. *)
Lemma render_own_split n obs : render_own (with_gauge n (observed obs)) =
  render_counters m0 n (requests (observed obs)) (errors (observed obs)) +:+
  concat_all (histogram_text (durations (observed obs)) <$> sortedDurationMetricKeys (map_keys (durations (observed obs)))).
Proof.
  destruct (observed_config obs) as [Es Eb]. unfold render_own, render_counters, duration_lines, histogram_text.
  cbn [with_gauge serviceName bounds inFlight requests errors durations]. rewrite Es, Eb, !string_app_assoc. reflexivity.
Qed.

(** A request that is counted in the gauge. *)
Definition counted_in (p : point) : nat := match p with InHandler _ | Leaving => 1%nat | _ => 0%nat end.

(** A scrape's copies: no entry of the map points to them, and they stand for
    the histograms of a log. *)
Definition copies (x : mstate C) (durs : gmap durationMetricKey ref) (d : gmap durationMetricKey durationMetricValue) : Prop :=
  reps durs (mem (store x)) d /\ forall k p, durs !! k = Some p ->
    (p < fresh (mem (store x)))%nat /\ forall k', s_durations (store x) !! k' <> Some p.

(** A moment of the run since the scrape started, a gauge, and a state that
    collector [i] had since then. *)
Definition moment (x : mstate C) (since : mark) (k : nat) : Prop :=
  (observations since <= k <= length (made x))%nat /\ (epoch since <= length (past x))%nat.
Definition seen (x : mstate C) (since : mark) (i : nat) (c : option C) : Prop :=
  exists e cs, (epoch since <= S e)%nat /\ past x !! e = Some cs /\ cs !! i = Some c.
Definition some_gauge (x : mstate C) (n : Z) : Prop := exists g, (g <= length (points x))%nat /\ n = wrap64 (Z.of_nat g).

Definition point_ok (x : mstate C) (p : point) : Prop :=
  match p with
  | Arriving _ | InHandler _ | Leaving | Gone => True
  | AtCopy since => moment x since (observations since)
  | AtGauge since r e durs => exists k, moment x since k /\ r = requests (observed (take k (made x))) /\
      e = errors (observed (take k (made x))) /\ copies x durs (durations (observed (take k (made x))))
  | AtHistograms since text durs keys => exists k n, moment x since k /\ some_gauge x n /\
      copies x durs (durations (observed (take k (made x)))) /\ (forall key, key ∈ keys -> is_Some (durs !! key)) /\
      text +:+ concat_all (histogram_text (durations (observed (take k (made x)))) <$> keys) =
        render_own (with_gauge n (observed (take k (made x))))
  | AtCollectors since text i => exists k n cs, moment x since k /\ some_gauge x n /\ length cs = i /\
      (forall j c, cs !! j = Some c -> seen x since j c) /\ (i <= length (collectors m0))%nat /\
      text = append_collectors cs (render_own (with_gauge n (observed (take k (made x)))))
  | Scraped since text => exists k n cs, moment x since k /\ some_gauge x n /\ length cs = length (collectors m0) /\
      (forall j c, cs !! j = Some c -> seen x since j c) /\
      text = renderPrometheus (with_collectors cs (with_gauge n (observed (take k (made x)))))
  end.

Record minv (x : mstate C) : Prop := {
  mi_mem : mem_ok (mem (store x));
  mi_durations : reps (s_durations (store x)) (mem (store x)) (durations (observed (made x)));
  mi_apart : apart (s_durations (store x));
  mi_requests : s_requests (store x) = requests (observed (made x));
  mi_errors : s_errors (store x) = errors (observed (made x));
  mi_gauge : gauge (store x) = wrap64 (Z.of_nat (sum_list (counted_in <$> points x)));
  mi_current : last (past x) = Some (current x);
  mi_collectors : length (current x) = length (collectors m0);
  mi_points : forall t p, points x !! t = Some p -> point_ok x p
}.

(** A later state: the log and the past have grown, and the copies are
    kept. *)
Definition later (x x' : mstate C) : Prop :=
  (exists l, made x' = made x ++ l) /\ (exists l, past x' = past x ++ l) /\ (length (points x) <= length (points x'))%nat /\ keeps (store x) (store x').

Lemma keeps_refl s : keeps s s.
Proof. split; auto. Qed.

Lemma copies_later x x' durs d : later x x' -> copies x durs d -> copies x' durs d.
Proof.
  intros (_ & _ & _ & Hle & Hk) [Hr Hp]. split.
  - apply (reps_frame _ _ _ _ Hr). intros k p E. destruct (Hp k p E) as [Hlt Hf]. now destruct (Hk p Hlt Hf).
  - intros k p E. destruct (Hp k p E) as [Hlt Hf]. split; [unfold ref in *; lia |]. now destruct (Hk p Hlt Hf).
Qed.

Lemma seen_later x x' since i c : later x x' -> seen x since i c -> seen x' since i c.
Proof.
  intros (_ & [l El] & _) (e & cs & He & Ecs & Ec). exists e, cs. split; [exact He |]. split; [| exact Ec].
  rewrite El. now apply lookup_app_l_Some.
Qed.

Lemma point_later x x' p : later x x' -> point_ok x p -> point_ok x' p.
Proof.
  intros Hl. destruct Hl as ([l El] & [l' El'] & Hlen & Hkeep) eqn:Hl'. clear Hl'.
  assert (forall since k, moment x since k -> moment x' since k /\ take k (made x') = take k (made x)) as Hm.
  { intros since k [[H1 H2] H3]. unfold moment. rewrite El, El', !length_app. split; [split; lia |].
    rewrite take_app_le by exact H2. reflexivity. }
  assert (forall n, some_gauge x n -> some_gauge x' n) as Hg by (intros n (g & Hg & En); exists g; split; [lia | exact En]).
  destruct p; cbn [point_ok]; auto.
  - intros Hk. now apply Hm.
  - intros (k & Hk & Hr & He & Hc). destruct (Hm _ _ Hk) as [Hk' Et]. exists k. rewrite Et. eauto using copies_later.
  - intros (k & n & Hk & Hn & Hc & Hrest). destruct (Hm _ _ Hk) as [Hk' Et]. exists k, n. rewrite Et. eauto 6 using copies_later.
  - intros (k & n & cs & Hk & Hn & Hi & Hs & Ht). destruct (Hm _ _ Hk) as [Hk' Et]. exists k, n, cs. rewrite Et. eauto 8 using seen_later.
  - intros (k & n & cs & Hk & Hn & Hi & Hs & Ht). destruct (Hm _ _ Hk) as [Hk' Et]. exists k, n, cs. rewrite Et. eauto 8 using seen_later.
Qed.

(** What is left to show of a step of one goroutine. *)
Lemma points_later x x' t q : later x x' -> points x' = <[t := q]> (points x) -> point_ok x' q ->
  (forall u p, points x !! u = Some p -> point_ok x p) -> forall u p, points x' !! u = Some p -> point_ok x' p.
Proof.
  intros Hl Ep Hq Hall u p Hu. rewrite Ep in Hu. apply list_lookup_insert_Some in Hu as [(_ & <- & _) | (_ & Hu)]; [exact Hq |].
  exact (point_later x x' p Hl (Hall u p Hu)).
Qed.
End Invariant.

Section Steps.
Context {C : Type} `{PrometheusCollector C} (cfg : @HTTPMetricsConfig C).
Abbreviation m0 := (NewHTTPMetrics cfg).
Abbreviation inv := (minv cfg).
Implicit Type x : mstate C.

Lemma counted_le x : (sum_list (counted_in <$> points x) <= length (points x))%nat.
Proof. induction (points x) as [| p l IH]; [cbn; lia |]. cbn in *. unfold id in *. destruct p; cbn; lia. Qed.

Lemma goes_later t p s x : keeps (store x) s -> later x (goes t p s x).
Proof.
  intros Hk. split; [exists []; cbn; now rewrite app_nil_r |]. split; [exists []; cbn; now rewrite app_nil_r |].
  split; [cbn; now rewrite length_insert | exact Hk].
Qed.

(** A request is counted in or out. *)
Lemma minv_gauge x t p q n : inv x -> points x !! t = Some p -> Z.of_nat (counted_in q) = Z.of_nat (counted_in p) + n ->
  (forall y, point_ok cfg y q) -> inv (goes t q (add_gauge n (store x)) x).
Proof.
  intros [I1 I2 I3 I4 I5 I6 Ic Il I7] Et Hn Hq. assert (later x (goes t q (add_gauge n (store x)) x)) as Hl by (apply goes_later; split; auto).
  split; cbn [goes store points made add_gauge mem s_durations s_requests s_errors gauge]; auto.
  - pose proof (sum_moved counted_in (points x) t p q Et) as Hs. rewrite I6, wrap64_add. f_equal. lia.
  - exact (points_later cfg x _ t q Hl eq_refl (Hq _) I7).
Qed.

(** A scrape goes on, in a store that keeps what the others have. *)
Lemma minv_scrape x t p q s : inv x -> points x !! t = Some p -> counted_in p = 0%nat -> counted_in q = 0%nat ->
  keeps (store x) s -> mem_ok (mem s) -> gauge s = gauge (store x) -> s_requests s = s_requests (store x) ->
  s_errors s = s_errors (store x) -> s_durations s = s_durations (store x) ->
  reps (s_durations s) (mem s) (durations (observed cfg (made x))) -> point_ok cfg (goes t q s x) q -> inv (goes t q s x).
Proof.
  intros [I1 I2 I3 I4 I5 I6 Ic Il I7] Et Hp Hq Hk Hm Eg Er Ee Ed Hr Hok. pose proof (goes_later t q s x Hk) as Hl.
  split; cbn [goes store points made]; rewrite ?Eg, ?Er, ?Ee, ?Ed; auto.
  - now rewrite <- Ed.
  - pose proof (sum_moved counted_in (points x) t p q Et) as Hs. rewrite I6. do 2 f_equal. lia.
  - exact (points_later cfg x _ t q Hl eq_refl Hok I7).
Qed.

(** An observation. *)
Lemma minv_observe x t o : inv x -> points x !! t = Some (InHandler o) -> exists s,
  store_observe (bounds m0) o (store x) = Some s /\ inv (mkMState s (<[t := Leaving]> (points x)) (current x) (made x ++ [o]) (past x)).
Proof.
  intros [I1 I2 I3 I4 I5 I6 Ic Il I7] Et.
  destruct (store_observe_ok (observed cfg (made x)) o (store x) I1 I2 I3 I4 I5) as (s & E & Eg & Hm & Hr & Ha & Er & Ee & Hk).
  rewrite (proj2 (observed_config cfg (made x))) in E. exists s. split; [exact E |]. rewrite <- (observed_snoc cfg) in Hr, Er, Ee.
  set (x' := mkMState _ _ _ _ _). assert (later x x') as Hl.
  { split; [now exists [o] |]. split; [exists []; cbn; now rewrite app_nil_r |]. split; [cbn; now rewrite length_insert | exact Hk]. }
  split; cbn [x' store points made]; auto.
  - pose proof (sum_moved counted_in (points x) t (InHandler o) Leaving Et) as Hs. rewrite Eg, I6. do 2 f_equal. cbn in Hs. lia.
  - exact (points_later cfg x x' t Leaving Hl eq_refl I I7).
Qed.

(** The copies. *)
Lemma minv_copy x t since : inv x -> points x !! t = Some (AtCopy since) -> exists durs m,
  cloneDurationMetrics (s_durations (store x)) (mem (store x)) = Some (durs, m) /\
  inv (goes t (AtGauge since (s_requests (store x)) (s_errors (store x)) durs) (set_mem m (store x)) x).
Proof.
  intros Hi Et. pose proof Hi as [I1 I2 I3 I4 I5 I6 Ic Il I7].
  destruct (clone_ok _ _ _ I1 I2) as (durs & m & E & Hm & Hr & Hle & Hsame & Hnew). exists durs, m. split; [exact E |].
  assert (forall k p, s_durations (store x) !! k = Some p -> (p < fresh (mem (store x)))%nat) as Hold.
  { intros k p Hp. destruct (rp_some _ _ _ I2 k p Hp) as [v Ev]. exact (deref_lt _ _ _ I1 Ev). }
  apply (minv_scrape x t _ _ _ Hi Et); try reflexivity; auto.
  - split; [exact Hle |]. intros q Hq Hf. cbn. split; [now apply Hsame | exact Hf].
  - apply (reps_frame _ _ _ _ I2). intros k p Hp. cbn. apply Hsame. eauto.
  - exists (length (made x)). unfold moment. cbn [goes made store past]. rewrite firstn_all. pose proof (I7 t _ Et) as [Hs He].
    split; [split; [lia | exact He] |]. split; [exact I4 |]. split; [exact I5 |]. split; [exact Hr |]. cbn. intros k p Hp. split.
    + destruct (rp_some _ _ _ Hr k p Hp) as [v Ev]. exact (deref_lt _ _ _ Hm Ev).
    + intros k' Hk'. pose proof (Hold k' p Hk'). pose proof (Hnew k p Hp). unfold ref in *. lia.
Qed.

Lemma elem_of_map_keys {V} (m : gmap durationMetricKey V) k : k ∈ map_keys m <-> is_Some (m !! k).
Proof.
  unfold map_keys. rewrite list_elem_of_fmap. split.
  - intros ([k' v] & -> & Hin). apply elem_of_map_to_list in Hin. eauto.
  - intros [v Hv]. exists (k, v). split; [reflexivity |]. now apply elem_of_map_to_list.
Qed.

(** The keys of the copies are rendered in the order of the map's. *)
Lemma sorted_reps durs m d : reps durs m d -> sortedDurationMetricKeys (map_keys durs) = sortedDurationMetricKeys (map_keys d).
Proof.
  intros [H1 H2]. apply (sort_slice_unique duration_less). apply NoDup_Permutation; [apply NoDup_fst_map_to_list.. |].
  intros k. rewrite !elem_of_map_keys, H1. destruct (durs !! k) as [p |] eqn:E; cbn; [| split; intros [? [=]]].
  destruct (H2 k p E) as [v ->]. split; eauto.
Qed.

(** The gauge is loaded, and the counters rendered. *)
Lemma minv_load x t since r e durs : inv x -> points x !! t = Some (AtGauge since r e durs) ->
  inv (goes t (AtHistograms since (render_counters m0 (gauge (store x)) r e) durs (sortedDurationMetricKeys (map_keys durs))) (store x) x).
Proof.
  intros Hi Et. pose proof Hi as [I1 I2 I3 I4 I5 I6 Ic Il I7]. destruct (I7 t _ Et) as (k & Hk & -> & -> & Hc).
  apply (minv_scrape x t _ _ _ Hi Et); try reflexivity; auto using keeps_refl.
  exists k, (gauge (store x)). split; [exact Hk |]. split.
  { eexists. cbn [goes points]. rewrite length_insert. split; [apply counted_le | exact I6]. }
  split; [exact Hc |]. cbn [goes made]. rewrite (sorted_reps _ _ _ (proj1 Hc)). split; [| symmetry; apply render_own_split].
  intros key Hkey. rewrite <- (sorted_reps _ _ _ (proj1 Hc)) in Hkey.
  rewrite (sort_slice_perm duration_less) in Hkey. now apply elem_of_map_keys in Hkey.
Qed.

(** The histogram of a key is rendered. *)
Lemma minv_histogram x t since text durs key keys : inv x -> points x !! t = Some (AtHistograms since text durs (key :: keys)) ->
  exists p v, durs !! key = Some p /\ deref p (mem (store x)) = Some v /\
  inv (goes t (AtHistograms since (text +:+ histogram_lines "densecloud_http_request_duration_seconds" (serviceName m0)
    (duration_kv key) (bounds m0) v) durs keys) (store x) x).
Proof.
  intros Hi Et. pose proof Hi as [I1 I2 I3 I4 I5 I6 Ic Il I7]. destruct (I7 t _ Et) as (k & n & Hk & (g & Hg & En) & Hc & Hkeys & Ht).
  destruct (Hkeys key) as [p Ep]; [left |]. destruct Hc as [Hr Hp]. destruct (rp_some _ _ _ Hr key p Ep) as [v Ev].
  exists p, v. split; [exact Ep |]. split; [exact Ev |]. apply (minv_scrape x t _ _ _ Hi Et); try reflexivity; auto using keeps_refl.
  exists k, n. split; [exact Hk |]. split; [exists g; cbn [goes points]; rewrite length_insert; auto |].
  split; [split; auto |]. split; [intros key' Hkey; apply Hkeys; now right |]. cbn [goes made].
  rewrite <- Ht. cbn [fmap list_fmap concat_all foldr]. rewrite string_app_assoc. do 2 f_equal.
  unfold histogram_text at 1. rewrite (rp_val _ _ _ Hr), Ep. cbn. now rewrite Ev.
Qed.

Lemma minv_rendered x t since text durs : inv x -> points x !! t = Some (AtHistograms since text durs []) ->
  inv (goes t (AtCollectors since text 0) (store x) x).
Proof.
  intros Hi Et. pose proof Hi as [I1 I2 I3 I4 I5 I6 Ic Il I7]. destruct (I7 t _ Et) as (k & n & Hk & (g & Hg & En) & _ & _ & Ht).
  apply (minv_scrape x t _ _ _ Hi Et); try reflexivity; auto using keeps_refl.
  exists k, n, []. split; [exact Hk |]. split; [exists g; cbn [goes points]; rewrite length_insert; auto |].
  split; [reflexivity |]. split; [intros j c Hj; now rewrite lookup_nil in Hj |]. split; [lia |].
  cbn [goes made]. rewrite <- Ht. cbn. now rewrite string_app_nil.
Qed.

(** A collector appends its text. *)
Lemma minv_collector x t since text i c : inv x -> points x !! t = Some (AtCollectors since text i) -> current x !! i = Some c ->
  inv (goes t (AtCollectors since (append_collectors [c] text) (S i)) (store x) x).
Proof.
  intros Hi Et Ei. pose proof Hi as [I1 I2 I3 I4 I5 I6 Ic Il I7].
  destruct (I7 t _ Et) as (k & n & cs & Hk & (g & Hg & En) & Hlen & Hseen & _ & Ht).
  apply (minv_scrape x t _ _ _ Hi Et); try reflexivity; auto using keeps_refl.
  exists k, n, (cs ++ [c]). split; [exact Hk |]. split; [exists g; cbn [goes points]; rewrite length_insert; auto |].
  split; [rewrite length_app, Hlen; cbn; lia |]. split.
  - intros j d [Hj | (Hle & Hj)]%lookup_app_Some; [exact (Hseen j d Hj) |].
    apply list_lookup_singleton_Some in Hj as [Ej <-]. replace j with i by lia.
    destruct Hk as [_ He]. exists (pred (length (past x))), (current x). cbn [goes past].
    rewrite <- last_lookup. split; [lia |]. now split.
  - split; [apply lookup_lt_Some in Ei; lia |]. cbn [goes made]. now rewrite append_collectors_snoc, <- Ht.
Qed.

Lemma minv_done x t since text i : inv x -> points x !! t = Some (AtCollectors since text i) -> current x !! i = None ->
  inv (goes t (Scraped since text) (store x) x).
Proof.
  intros Hi Et Ei. pose proof Hi as [I1 I2 I3 I4 I5 I6 Ic Il I7].
  destruct (I7 t _ Et) as (k & n & cs & Hk & (g & Hg & En) & Hlen & Hseen & Hle & Ht).
  apply (minv_scrape x t _ _ _ Hi Et); try reflexivity; auto using keeps_refl.
  exists k, n, cs. split; [exact Hk |]. split; [exists g; cbn [goes points]; rewrite length_insert; auto |].
  apply lookup_ge_None in Ei. split; [lia |]. split; [exact Hseen | exact Ht].
Qed.

(** A goroutine that is not done has a step, which keeps the invariant. *)
Lemma minv_point x t q : inv x -> points x !! t = Some q -> q <> Gone -> (forall since text, q <> Scraped since text) ->
  exists x', point_step m0 t x = Some x' /\ inv x'.
Proof.
  intros Hi Et Hg Hs. unfold point_step. rewrite Et. destruct q as [o | o | | | since | since r e durs | since text durs [| key keys] | since text i | since text].
  - eexists. split; [reflexivity |]. exact (minv_gauge x t _ (InHandler o) 1 Hi Et eq_refl (fun _ => I)).
  - destruct (minv_observe x t o Hi Et) as (s & -> & Hx). cbn. eauto.
  - eexists. split; [reflexivity |]. exact (minv_gauge x t _ Gone (-1) Hi Et eq_refl (fun _ => I)).
  - contradiction.
  - destruct (minv_copy x t since Hi Et) as (durs & m & -> & Hx). cbn. eauto.
  - eexists. split; [reflexivity |]. exact (minv_load x t since r e durs Hi Et).
  - eexists. split; [reflexivity |]. exact (minv_rendered x t since text durs Hi Et).
  - destruct (minv_histogram x t since text durs key keys Hi Et) as (p & v & -> & Ev & Hx). cbn. rewrite Ev. cbn. eauto.
  - destruct (current x !! i) as [c |] eqn:Ei; (eexists; split; [reflexivity |]).
    + exact (minv_collector x t since text i c Hi Et Ei).
    + exact (minv_done x t since text i Hi Et Ei).
  - destruct (Hs since text). reflexivity.
Qed.

(** A goroutine more. *)
Lemma minv_new x q : inv x -> counted_in q = 0%nat -> (forall y, made y = made x -> past y = past x -> point_ok cfg y q) ->
  inv (mkMState (store x) (points x ++ [q]) (current x) (made x) (past x)).
Proof.
  intros [I1 I2 I3 I4 I5 I6 Ic Il I7] Hq Hok. set (x' := mkMState _ _ _ _ _). assert (later x x') as Hl.
  { do 2 (split; [exists []; cbn; now rewrite app_nil_r |]). split; [cbn; rewrite length_app; lia | apply keeps_refl]. }
  split; cbn [x' store points made]; auto.
  - rewrite I6, sum_added, Hq. do 2 f_equal. lia.
  - intros t p [Hp | [_ Hp]]%lookup_app_Some; [exact (point_later cfg x x' p Hl (I7 t p Hp)) |].
    apply list_lookup_singleton_Some in Hp as [_ <-]. now apply Hok.
Qed.

(** The collectors change. *)
Lemma minv_collectors x cs : inv x -> length cs = length (current x) ->
  inv (mkMState (store x) (points x) cs (made x) (past x ++ [cs])).
Proof.
  intros [I1 I2 I3 I4 I5 I6 Ic Il I7] Hcs. set (x' := mkMState _ _ _ _ _). assert (later x x') as Hl.
  { split; [exists []; cbn; now rewrite app_nil_r |]. split; [now exists [cs] |]. split; [reflexivity | apply keeps_refl]. }
  split; cbn [x' store points made current past]; auto.
  - apply last_snoc.
  - congruence.
  - intros t p Hp. exact (point_later cfg x x' p Hl (I7 t p Hp)).
Qed.

Lemma minv_step x x' : inv x -> step m0 x x' -> inv x'.
Proof.
  intros Hi [t E | o -> | -> | cs Hcs ->].
  - destruct (points x !! t) as [q |] eqn:Et; [| unfold point_step in E; rewrite Et in E; discriminate].
    destruct (minv_point x t q Hi Et) as (x2 & E2 & Hx); [| | congruence];
      intros; intros ->; unfold point_step in E; rewrite Et in E; discriminate.
  - now apply minv_new.
  - apply minv_new; [exact Hi | reflexivity |]. intros y Ey Ep. unfold point_ok, moment. cbn. rewrite Ey, Ep. lia.
  - apply minv_collectors; [exact Hi |]. symmetry. exact (Forall2_length _ _ _ Hcs).
Qed.

Lemma minv_started : inv (started m0).
Proof.
  split; try reflexivity.
  - intros p h Hp. cbn in Hp. now rewrite lookup_empty in Hp.
  - split; cbn; [intros k; now rewrite !lookup_empty | intros k p Hp; now rewrite lookup_empty in Hp].
  - intros k k' p Hp. cbn in Hp. now rewrite lookup_empty in Hp.
  - intros t p Hp. cbn in Hp. now rewrite lookup_nil in Hp.
Qed.

Lemma minv_run x : rtc (step m0) (started m0) x -> inv x.
Proof. intros Hrun. pose proof minv_started as Hi. revert Hi. induction Hrun as [| x1 x2 x3 Hs _ IH]; eauto using minv_step. Qed.

End Steps.

(** ** A scrape between two observations of one key *)

Fixpoint schedule {C} `{PrometheusCollector C} (m0 : @HTTPMetrics C) (ts : list nat) (x : mstate C) : option (mstate C) :=
  match ts with [] => Some x | t :: ts' => x' ← point_step m0 t x; schedule m0 ts' x' end.

Lemma points_schedule_run {C} `{PrometheusCollector C} (m0 : @HTTPMetrics C) ts x x' : schedule m0 ts x = Some x' -> rtc (step m0) x x'.
Proof.
  revert x. induction ts as [| t ts IH]; intros x; cbn [schedule]; [intros [= <-]; constructor |].
  intros (x1 & E & Hs)%bind_Some. eapply rtc_l; [exact (step_point _ _ _ t E) | eauto].
Qed.

Definition slow : observation := mkObservation "GET" "/a" 200 (f64_of_Z 3).
Definition fast : observation := mkObservation "GET" "/a" 404 (f64_lit 1 3).

(** The metrics of a service with its gRPC metrics as a collector, and a nil
    one; a call ends while the scrape goes on. *)
Definition grpc_before : option GRPCMetrics := Some (NewGRPCMetrics (mkGRPCMetricsConfig "svc" demo_bounds)).
Definition grpc_after : option GRPCMetrics := ObserveRPC "/svc/Get" "unary" "OK" (f64_of_Z 3) (BeginRPC grpc_before).
Definition conc_config : @HTTPMetricsConfig (option GRPCMetrics) := mkMetricsConfig "svc" demo_bounds [] None [Some grpc_before; None].
Abbreviation conc_metrics := (NewHTTPMetrics conc_config).

(** Two requests and a scrape; the second observation comes after the copies
    and before they are rendered, the end of the call before the collector. *)
Definition conc_middle : option (mstate (option GRPCMetrics)) :=
  schedule conc_metrics [0; 0; 2; 1; 1; 2; 2; 2]%nat
    (mkMState (store (started conc_metrics)) [Arriving slow; Arriving fast; AtCopy (mkMark 0 1)]
      (current (started conc_metrics)) [] (past (started conc_metrics))).

Definition call_ends (x : mstate (option GRPCMetrics)) : mstate (option GRPCMetrics) :=
  mkMState (store x) (points x) [Some grpc_after; None] (made x) (past x ++ [[Some grpc_after; None]]).

Definition conc_end : option (mstate (option GRPCMetrics)) :=
  x ← conc_middle; schedule conc_metrics [2; 2; 2]%nat (call_ends x).

(** The text has the first observation alone, a gauge of 2, and the call. *)
Lemma conc_text : (fun x => (made x, points x !! 2%nat)) <$> conc_end =
  Some ([slow; fast], Some (Scraped (mkMark 0 1)
    (renderPrometheus (with_collectors [Some grpc_after; None] (with_gauge 2 (observed conc_config [slow])))))).
Proof. vm_compute. reflexivity. Qed.

Lemma conc_collectors : current <$> conc_middle = Some [Some grpc_before; None].
Proof. vm_compute. reflexivity. Qed.

