(* ===== verification/MetricsHTTP.v ===== *)
(** * Serving with metrics

    The HTTP side of [go/telemetry/metrics.go]: the middleware that observes
    every request, panics included, and the handler that serves the text.
    The metrics live in the state [E] of the handlers ([MetricsState]), where
    other requests and the handlers themselves may change them.

    The theorems: around any handler the middleware adds one observation and
    returns the gauge it took, passes the panic on and leaves the response
    alone ([metrics_run]); for a handler that is a sequence of header sets,
    final statuses and body writes and perhaps panics, the observation has the status sent ([metrics_faithful]). *)

From S2P Require Import Prelude Float64 GoStrings GoErrors Spans GoHTTP Writers Metrics.

#[local] Open Scope Z_scope.

(** ** The metrics in the state of the handlers *)

Class MetricsState (C E : Type) := {
  env_metrics : E -> @HTTPMetrics C;
  set_env_metrics : @HTTPMetrics C -> E -> E
}.

Class MetricsStateLaws (C E : Type) `{MetricsState C E} := {
  env_metrics_set : forall m e, env_metrics (set_env_metrics m e) = m
}.

Section Middleware.
Context {C E : Type} `{PrometheusCollector C} `{MetricsState C E}.

Definition get_metrics : M (world E) (@HTTPMetrics C) := gets (fun w => env_metrics (env w)).
Definition edit_metrics (f : @HTTPMetrics C -> @HTTPMetrics C) : M (world E) unit :=
  on_env (modify (fun e => set_env_metrics (f (env_metrics e)) e)).

(** The methods of [metricsResponseWriter]. *)
Definition StatusCode (rw : wrap) : Z := if wrote rw then statusCode rw else 200.
Definition WroteHeader (rw : wrap) : bool := wrote rw.

(** The deferred function of the middleware. *)
Definition observe_request (method path : string) (id : nat) (start : Z) (o : outcome unit) : M (world E) unit :=
  wrapped ← get_wrap id;
  let statusCode := StatusCode wrapped in
  let statusCode := match o with
                    | Panic _ => if WroteHeader wrapped then statusCode else 500
                    | Ret _ => statusCode
                    end in
  t ← now;
  edit_metrics (observe method path statusCode (duration_seconds (time_sub t start)));;
  edit_metrics (add_in_flight (-1)).

(** [m] is [None] for a nil pointer. *)
Definition metrics_Middleware (m : option unit) : Middleware E := fun next w r =>
  match m with
  | None => next w r
  | Some _ =>
      m ← get_metrics;
      let path := pathLabeler m (Some r) in
      if decide (path ∈ ignored m) then next w r
      else
        start ← now;
        edit_metrics (add_in_flight 1);;
        x ← new_wrapper MetricsResponseWriter 0 w;
        deferring (next x.2 r) (observe_request (Method r) path x.1 start)
  end.

Definition metrics_Handler (m : option unit) : Handler E := fun w _ =>
  match m with
  | None => WriteHeader w 404
  | Some _ =>
      edit_header (header_Set "Content-Type" "text/plain; version=0.0.4; charset=utf-8");;
      m ← get_metrics;
      Write w (renderPrometheus m);;
      mret tt
  end.

(** ** Around any handler *)

Definition with_metrics (m : @HTTPMetrics C) (w : world E) : world E :=
  mkWorld (resp w) (wraps w) (set_env_metrics m (env w)).

Lemma edit_metrics_run f (c : Clocked (world E)) :
  edit_metrics f c = (Ret tt, with_st c (with_metrics (f (env_metrics (env (st c)))) (st c))).
Proof. reflexivity. Qed.

(** The world in which the handler starts. *)
Definition entered (w : world E) : world E :=
  mkWorld (resp w) (wraps w ++ [mkWrap 0 0 false]) (set_env_metrics (add_in_flight 1 (env_metrics (env w))) (env w)).

(** The status observed of a handler that ended with [o]. *)
Definition observed_status (rw : wrap) (o : outcome unit) : Z :=
  match o with Panic _ => if wrote rw then StatusCode rw else 500 | Ret _ => StatusCode rw end.

(** What is not the metrics stays. *)
Definition beside_metrics (e e' : E) : Prop :=
  forall A (g : E -> A), (forall m e, g (set_env_metrics m e) = g e) -> g e' = g e.

Lemma observe_request_run `{!MetricsStateLaws C E} method path id start o x (c : Clocked (world E)) :
  wraps (st c) !! id = Some x -> exists c', observe_request method path id start o c = (Ret tt, c') /\
  resp (st c') = resp (st c) /\ clk c' = clk c /\ tick c' = S (tick c) /\
  env_metrics (env (st c')) = add_in_flight (-1)
    (observe method path (observed_status x o) (duration_seconds (time_sub (clk c (tick c)) start)) (env_metrics (env (st c)))) /\
  beside_metrics (env (st c)) (env (st c')).
Proof.
  intros Ex. unfold observe_request. rewrite bind_run, (get_wrap_run id x c Ex). cbv zeta. rewrite bind_run.
  unfold now. rewrite bind_run, edit_metrics_run, edit_metrics_run. eexists. split; [reflexivity |].
  cbn [resp with_metrics with_st st clk tick next_tick env]. repeat split; [now rewrite !env_metrics_set |].
  intros A g Hg. now rewrite !Hg.
Qed.

(** One request through the middleware, whatever the handler does, as long
    as it does not drop the wrapper it was given. *)
Lemma metrics_run `{!MetricsStateLaws C E} (next : Handler E) w r (c : Clocked (world E)) :
  let m := env_metrics (env (st c)) in
  let i := length (wraps (st c)) in
  let c1 := with_st (next_tick c) (entered (st c)) in
  pathLabeler m (Some r) ∉ ignored m ->
  forall o c2 x, next (WWrapOf MetricsResponseWriter i w) r c1 = (o, c2) -> wraps (st c2) !! i = Some x ->
  exists c3, metrics_Middleware (Some tt) next w r c = (o, c3) /\ resp (st c3) = resp (st c2) /\
  env_metrics (env (st c3)) = add_in_flight (-1) (observe (Method r) (pathLabeler m (Some r)) (observed_status x o)
    (duration_seconds (time_sub (clk c2 (tick c2)) (clk c (tick c)))) (env_metrics (env (st c2)))) /\
  beside_metrics (env (st c2)) (env (st c3)).
Proof.
  intros m i c1 Hp o c2 x Enext Ex.
  destruct (observe_request_run (Method r) (pathLabeler m (Some r)) i (clk c (tick c)) o x c2 Ex) as (c3 & E3 & Hr & _ & _ & Hm).
  exists c3. split; [| split; [exact Hr | exact Hm]].
  unfold metrics_Middleware, get_metrics. rewrite bind_run. unfold gets. fold m. rewrite decide_False by exact Hp.
  rewrite bind_run. unfold now at 1. rewrite bind_run, edit_metrics_run, bind_run, new_wrapper_run. cbn [fst snd].
  unfold deferring. change (length (wraps _)) with i at 1.
  match goal with |- context [next ?w' r ?c'] => change (next w' r c') with (next (WWrapOf MetricsResponseWriter i w) r c1) end.
  rewrite Enext. match goal with |- context [observe_request ?a ?b ?d ?e ?f ?g] =>
    change (observe_request a b d e f g) with (observe_request (Method r) (pathLabeler m (Some r)) i (clk c (tick c)) o c2) end.
  rewrite E3. reflexivity.
Qed.

(** ** Handlers that write, and may panic *)

Definition writing (ops : list write_op) (p : option panic_value) : Handler E := fun w _ =>
  run_ops w ops;; match p with Some v => panic v | None => mret tt end.

Lemma in_flight_back (m : @HTTPMetrics C) method path status seconds : is_int64 (inFlight m) ->
  add_in_flight (-1) (observe method path status seconds (add_in_flight 1 m)) = observe method path status seconds m.
Proof.
  intros Hi. unfold add_in_flight, observe. cbn. rewrite wrap64_add. replace (inFlight m + 1 + -1) with (inFlight m) by lia.
  now rewrite wrap64_small.
Qed.

(** The status the metrics count: the one sent, 200 if none was, 500 if the
    handler panicked before any. *)
Definition counted_status (p : option panic_value) (r : response) : Z :=
  match p, sent r with Some _, None => 500 | _, _ => sent_code r end.

Lemma records_status x r (p : option panic_value) : records 0 x r ->
  observed_status x (match p with Some v => Panic v | None => Ret tt end) = counted_status p r.
Proof.
  intros (Hw & Hs & _). unfold observed_status, StatusCode, counted_status, sent_code, status_or in *.
  destruct (sent r) as [[code h] |] eqn:Es.
  - rewrite bool_decide_eq_true_2 in Hw by eauto. rewrite Hw, Hs. now destruct p.
  - rewrite bool_decide_eq_false_2 in Hw by (intros [? ?]; discriminate). rewrite Hw. now destruct p.
Qed.

(** C31. For a handler that sets headers, sends final statuses (none of 1xx)
    and writes bodies, in any order and without [Flush], and then returns or
    panics, the metrics middleware returns what the handler returns, its panic
    included, leaves the response as it is, and counts one request with the
    status sent (500 if it panicked before one) and the time between its two
    readings of the clock; the gauge is back where it was.  (A 1xx status or a
    flush hides the final status: [informational_hides_status],
    [flush_hides_status].) *)
Theorem metrics_faithful `{!MetricsStateLaws C E} ops (p : option panic_value) r (c : Clocked (world E)) :
  let m := env_metrics (env (st c)) in
  let path := pathLabeler m (Some r) in
  Forall op_ok ops -> sent (resp (st c)) = None -> content (resp (st c)) = "" -> path ∉ ignored m ->
  is_int64 (inFlight m) ->
  exists o c' d', writing ops p WBase r c = (o, d') /\
    metrics_Middleware (Some tt) (writing ops p) WBase r c = (o, c') /\ resp (st c') = resp (st d') /\
    env_metrics (env (st c')) = observe (Method r) path (counted_status p (resp (st d')))
      (duration_seconds (time_sub (clk c (S (tick c))) (clk c (tick c)))) m.
Proof.
  intros m path Hok Hs Hc Hp Hi. set (i := length (wraps (st c))).
  set (c1 := with_st (next_tick c) (entered (st c))).
  destruct (run_ops_wrapped MetricsResponseWriter 0 i ops c1 c Hok) as (s1 & d1 & E1 & E2 & (Er & x & Ex & Hrec) & Henv).
  { split; [reflexivity |]. exists (mkWrap 0 0 false). split.
    - cbn. rewrite lookup_app_r by (unfold i; lia). unfold i. now rewrite Nat.sub_diag.
    - unfold records, status_or. rewrite Hs, Hc. repeat split. }
  set (o := match p with Some v => Panic v | None => Ret tt end : outcome unit).
  assert (writing ops p WBase r c = (o, with_st c d1)) as Hbare.
  { unfold writing. rewrite bind_run, E2. unfold o. now destruct p. }
  assert (writing ops p (WWrapOf MetricsResponseWriter i WBase) r c1 = (o, with_st c1 s1)) as Hnext.
  { unfold writing. rewrite bind_run, E1. unfold o. now destruct p. }
  destruct (metrics_run (writing ops p) WBase r c Hp o (with_st c1 s1) x Hnext Ex) as (c3 & E3 & Hr3 & Hm3 & _).
  do 3 eexists. split; [exact Hbare |]. split; [exact E3 |]. split; [rewrite Hr3; exact Er |].
  assert (env_metrics (env s1) = add_in_flight 1 m) as Hm1 by (rewrite Henv; apply env_metrics_set).
  rewrite Hm3. cbn [st with_st]. rewrite Hm1, in_flight_back by exact Hi. fold m path. f_equal.
  apply records_status. exact Hrec.
Qed.
End Middleware.

(** *** A concrete instance: handlers whose only state is the metrics. *)

#[local] Instance own_metrics : MetricsState (option GRPCMetrics) (@HTTPMetrics (option GRPCMetrics)) :=
  {| env_metrics := id; set_env_metrics := fun m _ => m |}.
#[local] Instance own_metrics_laws : MetricsStateLaws (option GRPCMetrics) (@HTTPMetrics (option GRPCMetrics)).
Proof. split. reflexivity. Qed.

Definition scraped : request := mkRequest "GET" "/items" ∅ "10.0.0.1:4000" "curl" 0 None None [] Background.
Definition at_metrics (m : @HTTPMetrics (option GRPCMetrics)) : Clocked (world (@HTTPMetrics (option GRPCMetrics))) :=
  mkClocked (fun n => Z.of_nat n * Second) (fun n => Z.of_nat n * Second) 0 (mkWorld new_response [] m).

(** A handler that answers 201 and then panics is counted as 2xx. *)
Lemma metrics_faithful_witness : exists o c' d',
  writing [SendStatus 201] (Some "boom") WBase scraped (at_metrics demo_http_metrics) = (o, d') /\
  metrics_Middleware (Some tt) (writing [SendStatus 201] (Some "boom")) WBase scraped (at_metrics demo_http_metrics) = (o, c') /\
  resp (st c') = resp (st d') /\
  env_metrics (env (st c')) =
    observe "GET" "/items" (counted_status (Some "boom") (resp (st d'))) (duration_seconds Second) demo_http_metrics.
Proof.
  destruct (metrics_faithful [SendStatus 201] (Some "boom") scraped (at_metrics demo_http_metrics))
    as (o & c' & d' & H1 & H2 & H3 & H4).
  - repeat constructor; lia.
  - reflexivity.
  - reflexivity.
  - vm_compute. intros H. inversion H.
  - split; vm_compute; discriminate.
  - exists o, c', d'. split; [exact H1 |]. split; [exact H2 |]. split; [exact H3 |]. refine (eq_trans H4 _). f_equal.
Defined.
