(* ===== verification/HTTPMiddleware.v ===== *)
(** * HTTP middleware

    [go/middleware/http.go] and the handlers of [ratelimit.go]: request IDs,
    recovery, timeouts, CORS, body limits, default content types, access
    logs, rate limits, and their composition.

    The theorems: a panic is answered 500 ([recovery_contains]); the access
    log has the status sent and the bytes written ([logging_faithful]); what
    CORS grants ([cors_grants]) and puts in the Vary header
    ([vary_idempotent]); rate limits refuse a request or serve
    it unchanged ([rate_limit_denies]); and an informational status or a flush hides the final one
    ([informational_hides_status], [flush_hides_status]). *)

From S2P Require Import Prelude Float64 GoStrings GoErrors Spans GoHTTP Writers RateLimit.
From Stdlib Require Import Ascii.

(** A line of the access log. *)
Record access : Type := mkAccess {
  log_level : string;
  log_request_id : string;
  log_method : string;
  log_path : string;
  log_status : Z;
  log_latency_ms : float64;
  log_peer_ip : string;
  log_user_agent : string;
  log_bytes : Z;
  log_forwarded_for : option string
}.

(** What the middleware keeps besides the response: the access log and the
    state [L] of a limiter or breaker. *)
Record menv (L : Type) : Type := mkMEnv { access_log : list access; limiter_state : L }.
Arguments mkMEnv {L}. Arguments access_log {L}. Arguments limiter_state {L}.

(** The loop of [Chain], from the last middleware to the first. *)
Definition Chain {E} (middlewares : list (Middleware E)) : Middleware E := fun final =>
  foldl (fun final m => m final) final (rev middlewares).

Definition quoted (s : string) : string := quote +:+ s +:+ quote.

(** The encoding of the error objects; their texts need no escape. *)
Fixpoint json_fields (fields : list (string * string)) : string :=
  match fields with
  | [] => ""
  | [(k, v)] => quoted k +:+ ":" +:+ quoted v
  | (k, v) :: fields' => quoted k +:+ ":" +:+ quoted v +:+ "," +:+ json_fields fields'
  end.

Definition error_body (fields : list (string * string)) : string :=
  "{" +:+ quoted "error" +:+ ":{" +:+ json_fields fields +:+ "}}" +:+ newline.

Section Middleware.
Context {L : Type}.
Abbreviation World := (world (menv L)).
Abbreviation handler := (Handler (menv L)).
Abbreviation middleware := (Middleware (menv L)).

Definition writeJSONError (w : writer) (status : Z) (code message : string) : M World unit :=
  edit_header (header_Set "Content-Type" "application/json");;
  WriteHeader w status;;
  Write w (error_body [("code", code); ("message", message)]);;
  mret tt.

(** ** Request IDs *)

Definition hex_digit (n : nat) : ascii :=
  if (n <? 10)%nat then ascii_of_nat (48 + n) else ascii_of_nat (87 + n).
Definition hex_encode (b : list ascii) : string :=
  str (flat_map (fun a => [hex_digit (nat_of_ascii a / 16); hex_digit (nat_of_ascii a mod 16)]) b).

(** [rand.Read]: sixteen bytes, or [None] for an error. *)
Definition newRequestID {S} (rand_Read : M S (option (list ascii))) : M S string :=
  b ← rand_Read;
  match b with
  | Some b => mret (hex_encode b)
  | None => fun c => (Ret ("req-" +:+ format_int (wall c (tick c))), next_tick c)
  end.

Definition RequestID (rand_Read : M World (option (list ascii))) : middleware := fun next w r =>
  let requestID := header_Get (Header r) "X-Request-ID" in
  requestID ← (if decide (requestID = "") then newRequestID rand_Read else mret requestID);
  edit_header (header_Set "X-Request-ID" requestID);;
  next w (with_request_id requestID r).

Definition GetRequestID (r : request) : string := default "" (ctx_request_id r).

Definition requestIDForLog (r : request) (h : header) : string :=
  if decide (GetRequestID r <> "") then GetRequestID r
  else if decide (header_Get (Header r) "X-Request-ID" <> "") then header_Get (Header r) "X-Request-ID"
  else header_Get h "X-Request-ID".

(** ** Timeouts, recovery, body limits, content types *)

Definition RequestTimeout (timeout : Z) : middleware := fun next w r =>
  if timeout <=? 0 then next w r else next w (with_timeout timeout r).

Definition Recovery : middleware := fun next w r =>
  recovering (next w r) (fun _ =>
    writeJSONError w 500 "internal_server_error" "internal server error").

Definition MaxBodySize (maxBytes : Z) : middleware := fun next w r =>
  if (0 <? maxBytes) && (maxBytes <? ContentLength r) then
    writeJSONError w 413 "request_too_large" "request body too large"
  else if 0 <? maxBytes then next w (with_body_limit maxBytes r)
  else next w r.

Definition normalizeContentTypePrefix (prefix : string) : string :=
  let prefix := trim_space prefix in
  if decide (prefix = "") then "/v1"
  else
    let prefix := if has_prefix prefix "/" then prefix else "/" +:+ prefix in
    trim_suffix prefix "/".

Definition pathHasPrefix (path prefix : string) : bool :=
  if decide (prefix = "" \/ prefix = "/") then true
  else bool_decide (path = prefix) || has_prefix path (prefix +:+ "/").

Definition ContentTypeForPrefix (prefix contentType : string) : middleware :=
  let prefix := normalizeContentTypePrefix prefix in
  fun next w r =>
    h ← get_header;
    (if decide (pathHasPrefix (URLPath r) prefix = true /\ header_Get h "Content-Type" = "")
     then edit_header (header_Set "Content-Type" contentType) else mret tt);;
    next w r.

Definition ContentType (contentType : string) : middleware := ContentTypeForPrefix "/v1" contentType.

(** ** CORS *)

(** The tokens of the Vary header, in lower case. *)
Definition vary_tokens (values : list string) : list string :=
  to_lower <$> filter (fun t => t <> "") (trim_space <$> (values ≫= fun v => split v comma)).

Fixpoint add_tokens (fields : list string) (existing : list string) (h : header) : header :=
  match fields with
  | [] => h
  | field :: fields' =>
      let token := trim_space field in
      if decide (token = "" \/ to_lower token ∈ existing) then add_tokens fields' existing h
      else add_tokens fields' (to_lower token :: existing) (header_Add "Vary" token h)
  end.

Definition addVaryHeader (fields : list string) (h : header) : header :=
  add_tokens fields (vary_tokens (header_Values h "Vary")) h.

Definition isAllowed (allowedOrigins : list string) (origin : string) : bool :=
  match allowedOrigins with
  | ["*"] => true
  | _ => existsb (fun allowed => bool_decide (origin = trim_space allowed)) allowedOrigins
  end.

Definition cors_headers (origin : string) (h : header) : header :=
  header_Set "Access-Control-Max-Age" "86400"
    (header_Set "Access-Control-Expose-Headers" "X-Request-ID"
      (header_Set "Access-Control-Allow-Headers" "Content-Type, Authorization, X-Request-ID"
        (header_Set "Access-Control-Allow-Methods" "GET, POST, PUT, DELETE, OPTIONS"
          (header_Set "Access-Control-Allow-Origin" origin h)))).

Definition CORS (allowedOrigins : list string) : middleware := fun next w r =>
  edit_header (addVaryHeader ["Origin"]);;
  (if decide (Method r = "OPTIONS")
   then edit_header (addVaryHeader ["Access-Control-Request-Method"; "Access-Control-Request-Headers"])
   else mret tt);;
  let origin := header_Get (Header r) "Origin" in
  let isPreflight := bool_decide (Method r = "OPTIONS") && bool_decide (origin <> "") &&
    bool_decide (header_Get (Header r) "Access-Control-Request-Method" <> "") in
  let originAllowed := bool_decide (origin <> "") && isAllowed allowedOrigins origin in
  (if originAllowed then edit_header (cors_headers origin) else mret tt);;
  if isPreflight && originAllowed then WriteHeader w 204 else next w r.

(** ** Access log *)

Definition log_access (a : access) : M World unit :=
  on_env (modify (fun e => mkMEnv (access_log e ++ [a]) (limiter_state e))).

Definition level_of (status : Z) : string :=
  if 500 <=? status then "ERROR" else if 400 <=? status then "WARN" else "INFO".

Definition Logging : middleware := fun next w r =>
  start ← now;
  x ← new_wrap w;
  next x.2 r;;
  t ← now;
  let latencyMs := f64_div (f64_of_Z (Z.quot (time_sub t start) 1000)) (f64_of_Z 1000) in
  let peerIP := remoteAddrKey (RemoteAddr r) in
  let forwardedFor := forwardedIPKey (header_Get (Header r) "X-Forwarded-For") in
  wrapped ← get_wrap x.1;
  log_access (mkAccess (level_of (statusCode wrapped)) (GetRequestID r) (Method r) (URLPath r) (statusCode wrapped)
    latencyMs peerIP (UserAgent r) (written wrapped)
    (if decide (forwardedFor = "") then None else Some forwardedFor)).

(** ** Rate limits *)

Definition rate_limited (w : writer) : M World unit :=
  edit_header (header_Set "Content-Type" "application/json");;
  edit_header (header_Set "Retry-After" "1");;
  WriteHeader w 429;;
  Write w (error_body [("code", "rate_limit_exceeded"); ("message", "Rate limit exceeded"); ("type", "rate_limit_error")]);;
  mret tt.

Definition on_limiter {A} (m : M L A) : M World A :=
  on_env (zoom limiter_state (fun l e => mkMEnv (access_log e) l) m).

(** The limiter the middleware was given; its state is in the world. *)
Definition RateLimitWithInterface `{RateLimiterInterface L} (limiter : iface unit) : middleware := fun next w r =>
  if isNilRateLimiter limiter then next w r
  else
    allowed ← on_limiter LAllow;
    if (allowed : bool) then next w r else rate_limited w.

Definition RateLimitWithKey `{KeyedRateLimiter L} (limiter : iface unit) (extractor : option (request -> string)) :
    middleware :=
  let extractor := default (fun r => defaultHTTPRateLimitKey (Some (RemoteAddr r))) extractor in
  fun next w r =>
    if isNilRateLimiter limiter then next w r
    else
      let key := extractor r in
      let key := if decide (key = "") then "global" else key in
      allowed ← on_limiter (LAllowKey key);
      if (allowed : bool) then next w r else rate_limited w.
End Middleware.

(** [RateLimit] takes a pointer to the in-memory limiter, perhaps nil. *)
Definition RateLimit (limiter : option unit) : Middleware (menv RateLimiter) :=
  RateLimitWithInterface (match limiter with None => NilPointer | Some x => Value x end).

(** Random bytes are read without a panic, and change no state. *)
Definition reads_random {S} (rand_Read : M S (option (list ascii))) : Prop :=
  forall c, exists b c', rand_Read c = (Ret b, c') /\ st c' = st c.

Lemma newRequestID_run {S} (rand_Read : M S (option (list ascii))) (c : Clocked S) : reads_random rand_Read ->
  exists id c', newRequestID rand_Read c = (Ret id, c') /\ st c' = st c.
Proof.
  intros Hr. unfold newRequestID. rewrite (bind_run rand_Read). destruct (Hr c) as (b & c' & -> & Es).
  destruct b as [b |]; do 2 eexists; (split; [reflexivity | exact Es]).
Qed.

(** ** What the middleware answers *)

Lemma writeJSONError_run {L} w code err msg (c : Clocked (world (menv L))) : final_code code ->
  body_allowed code = true -> unwritten w (st c) -> exists l,
  writeJSONError w code err msg c = (Ret tt, with_st c
    (let h := header_Set "Content-Type" "application/json" (hdr (resp (st c))) in
     mkWorld (mkResponse h (Some (code, h)) (interim (resp (st c)))
       (content (resp (st c)) +:+ error_body [("code", err); ("message", msg)])) l (env (st c)))).
Proof.
  intros Hf Hb Hu. unfold writeJSONError. cbv zeta. apply answer_json; try assumption. discriminate.
Qed.

Lemma rate_limited_run {L} w (c : Clocked (world (menv L))) : unwritten w (st c) -> exists l,
  rate_limited w c = (Ret tt, with_st c
    (let h := header_Set "Retry-After" "1" (header_Set "Content-Type" "application/json" (hdr (resp (st c)))) in
     mkWorld (mkResponse h (Some (429, h)) (interim (resp (st c))) (content (resp (st c)) +:+
       error_body [("code", "rate_limit_exceeded"); ("message", "Rate limit exceeded"); ("type", "rate_limit_error")]))
       l (env (st c)))).
Proof.
  intros Hu. unfold rate_limited. rewrite bind_run, edit_header_run.
  edestruct (fun h1 h2 h3 h4 => @answer_json (menv L) w 429 (header_Set "Retry-After" "1") (error_body
    [("code", "rate_limit_exceeded"); ("message", "Rate limit exceeded"); ("type", "rate_limit_error")])
    (with_st c (mkWorld (mkResponse (header_Set "Content-Type" "application/json" (hdr (resp (st c))))
      (sent (resp (st c))) (interim (resp (st c))) (content (resp (st c)))) (wraps (st c)) (env (st c)))) h1 h2 h3 h4)
    as (l & El).
  - left. lia.
  - reflexivity.
  - discriminate.
  - exact Hu.
  - exists l. exact El.
Qed.

(** The access log's line for a request whose wrapper is [x]. *)
Definition access_line (r : request) (x : wrap) (latency : Z) : access :=
  let forwardedFor := forwardedIPKey (header_Get (Header r) "X-Forwarded-For") in
  mkAccess (level_of (statusCode x)) (GetRequestID r) (Method r) (URLPath r) (statusCode x)
    (f64_div (f64_of_Z (Z.quot latency 1000)) (f64_of_Z 1000)) (remoteAddrKey (RemoteAddr r)) (UserAgent r) (written x)
    (if decide (forwardedFor = "") then None else Some forwardedFor).

(** [Logging] around any handler: a line when it returns, and none when it
    panics. *)
Lemma http_logging_run {L} (next : Handler (menv L)) w r (c : Clocked (world (menv L))) :
  let i := length (wraps (st c)) in
  let c1 := with_st (next_tick c) (mkWorld (resp (st c)) (wraps (st c) ++ [mkWrap 200 0 false]) (env (st c))) in
  forall o c2, next (WWrap i w) r c1 = (o, c2) ->
  match o with
  | Panic v => Logging next w r c = (Panic v, c2)
  | Ret _ => forall x, wraps (st c2) !! i = Some x -> exists latency c3, Logging next w r c = (Ret tt, c3) /\
      st c3 = mkWorld (resp (st c2)) (wraps (st c2))
        (mkMEnv (access_log (env (st c2)) ++ [access_line r x latency]) (limiter_state (env (st c2))))
  end.
Proof.
  intros i c1 o c2 E. unfold Logging. rewrite bind_run. cbn [now]. rewrite bind_run, new_wrap_run. cbn [fst snd].
  rewrite (bind_run (next _ r)). change (next (WWrap (length (wraps (st (next_tick c)))) w) r (with_st (next_tick c) _))
    with (next (WWrap i w) r c1). rewrite E. destruct o as [[] | v]; [| reflexivity].
  intros x Ex. exists (time_sub (clk c2 (tick c2)) (clk c (tick c))). eexists. split.
  - rewrite bind_run. cbn [now]. rewrite bind_run. change (length (wraps (st (next_tick c)))) with i.
    rewrite (get_wrap_run i x) by exact Ex. reflexivity.
  - reflexivity.
Qed.

(** *** The Vary header *)

(** A field name: not empty, of graphic characters, without a comma. *)
Definition vary_field (f : string) : Prop :=
  f <> "" /\ graphic (bytes f) = true /\ has_byte (bytes f) comma = false.

Lemma vary_field_trim f : vary_field f -> trim_space f = f.
Proof. intros (_ & Hg & _). now apply trim_space_graphic. Qed.

Lemma split_go_plain s cur c : has_byte s c = false -> split_go s cur c = [str (rev cur ++ s)].
Proof.
  revert cur. induction s as [| a s IH]; intros cur H; cbn.
  - now rewrite app_nil_r.
  - rewrite has_byte_cons in H. apply orb_false_iff in H as [Ha Hs].
    rewrite Ha. rewrite IH by exact Hs. cbn. now rewrite <- app_assoc.
Qed.

Lemma vary_tokens_app u v : vary_tokens (u ++ v) = vary_tokens u ++ vary_tokens v.
Proof. unfold vary_tokens. now rewrite bind_app, fmap_app, filter_app, fmap_app. Qed.

Lemma vary_tokens_field f : vary_field f -> vary_tokens [f] = [to_lower f].
Proof.
  intros Hf. pose proof Hf as (Hne & Hg & Hc). unfold vary_tokens. cbn [mbind list_bind app].
  unfold split. rewrite split_go_plain by exact Hc. cbn [rev app]. rewrite str_bytes. cbn [app fmap list_fmap].
  rewrite (vary_field_trim f Hf), filter_cons_True by exact Hne. reflexivity.
Qed.

Lemma add_tokens_known fields existing h : Forall (fun f => to_lower (trim_space f) ∈ existing) fields ->
  add_tokens fields existing h = h.
Proof. induction 1 as [| f fields Hf _ IH]; [reflexivity |]. cbn. now rewrite decide_True by auto. Qed.

Lemma add_tokens_spec fields existing h : Forall vary_field fields ->
  (forall t, t ∈ existing <-> t ∈ vary_tokens (header_Values h "Vary")) ->
  let h' := add_tokens fields existing h in
  header_Values h "Vary" `prefix_of` header_Values h' "Vary" /\
  (forall f, f ∈ fields -> to_lower f ∈ vary_tokens (header_Values h' "Vary")) /\
  (NoDup (vary_tokens (header_Values h "Vary")) -> NoDup (vary_tokens (header_Values h' "Vary"))).
Proof.
  intros Hf. revert existing h. induction Hf as [| f fields Hvf Hf IH]; intros existing h He; cbn.
  - split; [reflexivity |]. split; [| auto]. intros f H. now apply not_elem_of_nil in H.
  - rewrite (vary_field_trim f Hvf). destruct (decide (f = "" \/ to_lower f ∈ existing)) as [Hd | Hd].
    + destruct (IH existing h He) as (Hp & Hall & Hnd). split; [exact Hp |]. split; [| exact Hnd].
      intros g Hg. apply elem_of_cons in Hg as [-> | Hg]; [| now apply Hall].
      destruct Hd as [-> | Hd]; [now destruct Hvf |]. apply He in Hd. destruct Hp as [k ->].
      rewrite vary_tokens_app. apply elem_of_app. now left.
    + assert (vary_tokens (header_Values (header_Add "Vary" f h) "Vary") =
        vary_tokens (header_Values h "Vary") ++ [to_lower f]) as Et.
      { rewrite header_Values_Add, vary_tokens_app. now rewrite (vary_tokens_field f Hvf). }
      destruct (IH (to_lower f :: existing) (header_Add "Vary" f h)) as (Hp & Hall & Hnd).
      { intros t. rewrite Et, elem_of_cons, elem_of_app, list_elem_of_singleton, He. tauto. }
      rewrite Et in Hnd. split; [| split].
      * etransitivity; [| exact Hp]. rewrite header_Values_Add. now exists [f].
      * intros g Hg. apply elem_of_cons in Hg as [-> | Hg]; [| now apply Hall].
        destruct Hp as [k ->]. rewrite vary_tokens_app, Et, !elem_of_app, list_elem_of_singleton. auto.
      * intros H. apply Hnd, NoDup_app. split; [exact H |]. split; [| apply NoDup_singleton].
        intros t Ht Ht'. apply list_elem_of_singleton in Ht' as ->. apply Hd. right. now apply He.
Qed.

Lemma addVary_other fields h key : canonical "Vary" <> canonical key ->
  header_Values (addVaryHeader fields h) key = header_Values h key.
Proof.
  intros Hne. unfold addVaryHeader. generalize (vary_tokens (header_Values h "Vary")) as existing.
  revert h. induction fields as [| f fields IH]; intros h existing; [reflexivity |]. cbn.
  destruct (decide _); rewrite IH; [reflexivity |]. now apply header_Values_Add_ne.
Qed.

(** ** Theorems *)

(** [Recovery] lets a handler that returns do what it does; a handler
    that panics before it wrote anything is answered 500 with the JSON error,
    and the panic goes no further. *)
Theorem recovery_contains {L} (next : Handler (menv L)) w r (c c' : Clocked (world (menv L))) :
  (next w r c = (Ret tt, c') -> Recovery next w r c = (Ret tt, c')) /\
  (forall v, next w r c = (Panic v, c') -> unwritten w (st c') -> exists c'',
    Recovery next w r c = (Ret tt, c'') /\ sent_code (resp (st c'')) = 500 /\
    header_Get (hdr (resp (st c''))) "Content-Type" = "application/json" /\
    content (resp (st c'')) = content (resp (st c')) +:+
      error_body [("code", "internal_server_error"); ("message", "internal server error")] /\
    env (st c'') = env (st c')).
Proof.
  unfold Recovery, recovering. split.
  - intros ->. reflexivity.
  - intros v -> Hu. destruct (writeJSONError_run w 500 "internal_server_error" "internal server error" c')
      as (l & El); [left; lia | reflexivity | exact Hu |].
    eexists. split; [exact El |]. split; [reflexivity |]. split; [apply header_Get_Set |]. now split.
Qed.

(** Seen through [Logging], a handler writes the same response, and the
    access line holds the status that was sent (200 if none was), the size
    of the body, and the level of that status. *)
Theorem logging_faithful {L} ops r (c : Clocked (world (menv L))) : Forall op_ok ops ->
  sent (resp (st c)) = None -> content (resp (st c)) = "" -> exists c' d' entry,
  run_ops WBase ops c = (Ret tt, d') /\ Logging (fun w _ => run_ops w ops) WBase r c = (Ret tt, c') /\
  resp (st c') = resp (st d') /\ access_log (env (st c')) = access_log (env (st c)) ++ [entry] /\
  log_status entry = sent_code (resp (st d')) /\
  log_bytes entry = wrap64 (Z.of_nat (String.length (content (resp (st d'))))) /\
  log_level entry = level_of (log_status entry) /\ log_path entry = URLPath r /\ log_method entry = Method r.
Proof.
  intros Hok Hs Hc. unfold Logging. rewrite bind_run. cbn [now]. rewrite bind_run, new_wrap_run.
  set (c1 := next_tick c). set (i := length (wraps (st c1))).
  set (c2 := with_st c1 _).
  destruct (run_ops_wrapped ResponseWriter 200 i ops c2 c Hok) as (s1 & d1 & E1 & E2 & (Er & x & Ex & Hw & Hst & Hwn) & Henv).
  { split; [reflexivity |]. exists (mkWrap 200 0 false). split.
    - unfold c2, i. cbn [st with_st wraps]. rewrite lookup_app_r by lia. now rewrite Nat.sub_diag.
    - unfold records, status_or. rewrite Hs, Hc. cbn. repeat split. }
  do 3 eexists. split; [exact E2 |]. split.
  - cbn [snd]. rewrite bind_run, E1, bind_run. cbn [now]. rewrite bind_run. cbn [fst].
    rewrite (get_wrap_run i x) by exact Ex. reflexivity.
  - cbn. rewrite Henv. repeat split; auto.
Qed.

(** Adding fields to Vary keeps the values that were there, lists no
    field twice whatever its case, and adding them again changes nothing. *)
Theorem vary_idempotent fields h : Forall vary_field fields ->
  let h' := addVaryHeader fields h in
  addVaryHeader fields h' = h' /\
  header_Values h "Vary" `prefix_of` header_Values h' "Vary" /\
  (forall f, f ∈ fields -> to_lower f ∈ vary_tokens (header_Values h' "Vary")) /\
  (NoDup (vary_tokens (header_Values h "Vary")) -> NoDup (vary_tokens (header_Values h' "Vary"))).
Proof.
  intros Hf h'. destruct (add_tokens_spec fields (vary_tokens (header_Values h "Vary")) h Hf) as (Hp & Hall & Hnd).
  { reflexivity. }
  change (add_tokens fields (vary_tokens (header_Values h "Vary")) h) with h' in Hp, Hall, Hnd. split; [| auto].
  apply add_tokens_known. rewrite Forall_forall in *. intros f Hin.
  rewrite (vary_field_trim f) by auto. auto.
Qed.

(** CORS names an origin only if it is configured: whatever the next
    handler, with an origin that is absent or not allowed no header of a CORS
    grant is added and the request goes on; with an allowed one the grant
    names that origin, and a preflight is answered 204 without the handler. *)
Theorem cors_grants {L} origins (next : Handler (menv L)) w r (c : Clocked (world (menv L))) :
  let origin := header_Get (Header r) "Origin" in
  let granted := bool_decide (origin <> "") && isAllowed origins origin in
  let preflight := bool_decide (Method r = "OPTIONS") &&
    bool_decide (header_Get (Header r) "Access-Control-Request-Method" <> "") in
  exists h, 
    let c1 := with_st c (mkWorld (mkResponse h (sent (resp (st c))) (interim (resp (st c))) (content (resp (st c))))
      (wraps (st c)) (env (st c))) in
    CORS origins next w r c = (if granted && preflight then WriteHeader w 204 else next w r) c1 /\
    (forall key, canonical key <> "Vary" -> granted = false -> header_Values h key = header_Values (hdr (resp (st c))) key) /\
    (granted = true -> header_Values h "Access-Control-Allow-Origin" = [origin]).
Proof.
  intros origin granted preflight.
  set (h0 := addVaryHeader ["Origin"] (hdr (resp (st c)))).
  set (h1 := if decide (Method r = "OPTIONS")
    then addVaryHeader ["Access-Control-Request-Method"; "Access-Control-Request-Headers"] h0 else h0).
  exists (if granted then cors_headers origin h1 else h1). cbv zeta. split; [| split].
  - assert (bool_decide (Method r = "OPTIONS") && bool_decide (origin <> "") &&
      bool_decide (header_Get (Header r) "Access-Control-Request-Method" <> "") &&
      (bool_decide (origin <> "") && isAllowed origins origin) = granted && preflight) as Ep.
    { unfold granted, preflight. destruct (bool_decide (Method r = "OPTIONS")), (bool_decide (origin <> "")),
        (isAllowed origins origin); cbn; now rewrite ?andb_true_r, ?andb_false_r. }
    unfold CORS. fold origin. rewrite bind_run, edit_header_run. fold h0. cbv zeta. rewrite Ep. fold granted. clear Ep.
    unfold h1. destruct (decide (Method r = "OPTIONS")); rewrite bind_run, ?edit_header_run; cbn [mret M_ret];
      destruct granted; rewrite bind_run, ?edit_header_run; reflexivity.
  - intros key Hk ->. assert (canonical "Vary" <> canonical key) as Hne by (intros E; apply Hk; rewrite <- E; reflexivity).
    unfold h1, h0. destruct (decide (Method r = "OPTIONS")); now rewrite !addVary_other.
  - intros ->. unfold cors_headers. rewrite !header_Values_Set_ne by discriminate. apply header_Values_Set.
Qed.

(** A denied request is answered 429 with Retry-After and the JSON
    error, and the handler does not run; an allowed one, and every one when
    the limiter is nil, goes on. *)
Theorem rate_limit_denies `{KeyedRateLimiter L} extractor (next : Handler (menv L)) w r (c : Clocked (world (menv L))) :
  let key := match default (fun r => defaultHTTPRateLimitKey (Some (RemoteAddr r))) extractor r with
             | "" => "global" | k => k end in
  RateLimitWithKey NilInterface extractor next w r c = next w r c /\
  RateLimitWithKey NilPointer extractor next w r c = next w r c /\
  (forall c1, on_limiter (LAllowKey key) c = (Ret true, c1) ->
    RateLimitWithKey (Value tt) extractor next w r c = next w r c1) /\
  (forall c1, on_limiter (LAllowKey key) c = (Ret false, c1) -> unwritten w (st c1) -> exists c2,
    RateLimitWithKey (Value tt) extractor next w r c = (Ret tt, c2) /\ sent_code (resp (st c2)) = 429 /\
    header_Get (hdr (resp (st c2))) "Retry-After" = "1" /\ env (st c2) = env (st c1)).
Proof.
  intros key. assert (forall m, RateLimitWithKey (Value tt) extractor m w r c =
    (allowed ← on_limiter (LAllowKey key); if (allowed : bool) then m w r else rate_limited w) c) as Hrun.
  { intros m. unfold RateLimitWithKey. cbn [isNilRateLimiter]. unfold key.
    destruct (default _ extractor r) as [| a s]; [now rewrite decide_True | now rewrite decide_False]. }
  split; [reflexivity |]. split; [reflexivity |]. split; intros c1 E; rewrite Hrun, bind_run, E; [reflexivity |].
  intros Hu. destruct (rate_limited_run w c1 Hu) as (l & El). eexists. split; [exact El |].
  split; [reflexivity |]. split; [apply header_Get_Set | reflexivity].
Qed.

(** An informational status sent through a wrapper hides the final one:
    whatever status the handler sends after it, none goes out. *)
Theorem informational_hides_status {E} i early final x (c : Clocked (world E)) : informational early = true ->
  final_code final -> wraps (st c) !! i = Some x -> wrote x = false -> sent (resp (st c)) = None -> exists c',
  run_ops (WWrap i WBase) [SendStatus early; SendStatus final] c = (Ret tt, c') /\
  sent (resp (st c')) = None /\ interim (resp (st c')) = interim (resp (st c)) ++ [early].
Proof.
  intros Hi Hf Ex Hx Hs. cbn [run_ops run_op WriteHeader].
  rewrite bind_run, bind_run, (get_wrap_run i x c Ex), Hx, bind_run, set_wrap_run.
  assert ((early <? 100) || (999 <? early) = false) as Hv.
  { unfold informational in Hi. lia. }
  rewrite (on_resp_run _ tt (mkResponse (hdr (resp (st c))) None (interim (resp (st c)) ++ [early]) (content (resp (st c))))).
  2: { unfold base_WriteHeader. rewrite bind_run. unfold get at 1. cbn [st with_st resp]. rewrite Hs, Hv, Hi. reflexivity. }
  rewrite bind_run, bind_run.
  rewrite (get_wrap_run i (mkWrap early (written x) true))
    by (cbn; apply list_lookup_insert_eq; now apply lookup_lt_Some in Ex).
  eexists. split; [reflexivity |]. split; reflexivity.
Qed.

(** A flush before the first status sends 200, which the wrapper does not
    know: a status the handler sends later is dropped by the server, and kept
    by the wrapper for the log and the metrics. *)
Theorem flush_hides_status {E} k i code x (c : Clocked (world E)) : final_code code ->
  wraps (st c) !! i = Some x -> wrote x = false -> sent (resp (st c)) = None -> exists c' y,
  (Flush (WWrapOf k i WBase);; WriteHeader (WWrapOf k i WBase) code) c = (Ret tt, c') /\
  sent_code (resp (st c')) = 200 /\ wraps (st c') !! i = Some y /\ wrote y = true /\ statusCode y = code.
Proof.
  intros Hf Ex Hx Hs. rewrite bind_run. cbn [Flush].
  rewrite (on_resp_run _ tt (mkResponse (hdr (resp (st c))) (Some (200, hdr (resp (st c)))) (interim (resp (st c))) (content (resp (st c))))).
  2: { unfold base_Flush, base_ensure. rewrite bind_run. unfold get at 1. cbn [st with_st]. rewrite Hs.
       unfold base_WriteHeader. rewrite bind_run. unfold get at 1. cbn [st with_st]. rewrite Hs. reflexivity. }
  cbn [WriteHeader]. rewrite bind_run, (get_wrap_run i x) by exact Ex. rewrite Hx, bind_run, set_wrap_run.
  eexists _, (mkWrap code (written x) true). unfold on_resp, zoom, base_WriteHeader. rewrite bind_run. unfold get. cbn.
  split; [reflexivity |]. split; [reflexivity |]. split; [| auto]. apply list_lookup_insert_eq. now apply lookup_lt_Some in Ex.
Qed.

(** ** Witnesses *)

Definition demo_clocked {S} (s : S) : Clocked S := mkClocked (fun _ => 0) (fun _ => 0) 0 s.
Definition demo_world {L} (l : L) : world (menv L) := mkWorld new_response [] (mkMEnv [] l).
Definition demo_request : request := mkRequest "GET" "/v1/items" ∅ "192.0.2.7:41234" "curl" 0 None None [] Background.

Definition unreached {L} : Handler (menv L) := fun _ _ => panic "not reached".

Lemma demo_unwritten {L} (l : L) : unwritten WBase (demo_world l).
Proof. split; [reflexivity |]. split; [apply NoDup_nil_2 | apply List.Forall_nil]. Qed.

Lemma recovery_contains_witness : exists c'',
  Recovery unreached WBase demo_request (demo_clocked (demo_world tt)) = (Ret tt, c'') /\
  sent_code (resp (st c'')) = 500.
Proof.
  destruct (proj2 (recovery_contains unreached WBase demo_request (demo_clocked (demo_world tt))
    (demo_clocked (demo_world tt))) "not reached" eq_refl (demo_unwritten tt)) as (c'' & E & H & _).
  exists c''. split; [exact E | exact H].
Defined.

Lemma logging_faithful_witness : exists c' entry,
  Logging (fun w _ => run_ops w [SendStatus 404; WriteBody "missing"]) WBase demo_request
    (demo_clocked (demo_world tt)) = (Ret tt, c') /\
  access_log (env (st c')) = [entry] /\ log_status entry = 404 /\ log_bytes entry = 7.
Proof.
  destruct (logging_faithful [SendStatus 404; WriteBody "missing"] demo_request (demo_clocked (demo_world tt)))
    as (c' & d' & entry & Ed & El & _ & Ea & Es & Eb & _).
  - repeat (apply List.Forall_cons || apply List.Forall_nil); [left; lia | exact I].
  - reflexivity.
  - reflexivity.
  - assert (d' = (run_ops WBase [SendStatus 404; WriteBody "missing"] (demo_clocked (demo_world tt))).2) as ->
      by (now rewrite Ed).
    exists c', entry. split; [exact El |]. split; [exact Ea |]. split; [exact Es | exact Eb].
Defined.

Lemma vary_idempotent_witness :
  let h := addVaryHeader ["Origin"] (header_Add "Vary" "Accept, ORIGIN" ∅) in
  addVaryHeader ["Origin"] h = h.
Proof.
  apply (vary_idempotent ["Origin"] (header_Add "Vary" "Accept, ORIGIN" ∅)).
  apply List.Forall_cons; [| apply List.Forall_nil]. split; [discriminate |]. split; reflexivity.
Defined.

Lemma cors_grants_witness : exists h,
  CORS ["https://app.example"] unreached WBase
    (mkRequest "OPTIONS" "/v1/items" {[ "Origin" := ["https://app.example"];
       "Access-Control-Request-Method" := ["PUT"] ]} "" "" 0 None None [] Background) (demo_clocked (demo_world tt)) =
    WriteHeader WBase 204 (demo_clocked (mkWorld (mkResponse h None [] "") [] (mkMEnv [] tt))) /\
  header_Values h "Access-Control-Allow-Origin" = ["https://app.example"].
Proof.
  destruct (cors_grants ["https://app.example"] unreached WBase
    (mkRequest "OPTIONS" "/v1/items" {[ "Origin" := ["https://app.example"];
       "Access-Control-Request-Method" := ["PUT"] ]} "" "" 0 None None [] Background) (demo_clocked (demo_world tt)))
    as (h & E & _ & Hg).
  exists h. split; [exact E | exact (Hg eq_refl)].
Defined.

Definition demo_empty : RateLimiter := mkRateLimiter f64_zero f64_one f64_one 0.

Lemma rate_limit_denies_witness : exists c2,
  RateLimitWithKey (Value tt) None unreached WBase demo_request
    (demo_clocked (demo_world demo_empty)) = (Ret tt, c2) /\ sent_code (resp (st c2)) = 429.
Proof.
  destruct (rate_limit_denies None unreached WBase demo_request
    (demo_clocked (demo_world demo_empty))) as (_ & _ & _ & Hd).
  edestruct (fun c1 E => Hd c1 E) as (c2 & E & H & _);
    [vm_compute; reflexivity | exact (demo_unwritten demo_empty) | exists c2; split; [exact E | exact H]].
Defined.

Lemma informational_hides_status_witness : exists c',
  run_ops (WWrap 0%nat WBase) [SendStatus 103; SendStatus 404]
    (demo_clocked (mkWorld new_response [mkWrap 200 0 false] tt)) = (Ret tt, c') /\
  sent (resp (st c')) = None /\ interim (resp (st c')) = [103].
Proof.
  assert (final_code 404) as Hf by (left; lia).
  exact (informational_hides_status 0%nat 103 404 (mkWrap 200 0 false)
    (demo_clocked (mkWorld new_response [mkWrap 200 0 false] tt)) eq_refl Hf eq_refl eq_refl eq_refl).
Defined.
