(* ===== verification/CircuitBreaker.v ===== *)
(** * The circuit breaker of HTTP requests

    [go/middleware/circuitbreaker.go]: the configuration, which gRPC shares,
    and the middleware around a breaker of gobreaker whose state is in the
    world.  The lines logged at a change of its state are left out.

    The theorem ([http_breaker_outcomes]): what a request behind it is
    answered and what the breaker is told, on every outcome of the handler. *)

From S2P Require Import Prelude Float64 GoStrings GoErrors Gobreaker Spans GoHTTP Writers RateLimit HTTPMiddleware.

#[local] Open Scope Z_scope.

Record CircuitBreakerConfig : Type := mkCBConfig {
  cb_Name : string;
  MaxRequests : Z;
  Interval : Z;
  Timeout : Z;
  ReadyToTrip : Z
}.

Definition DefaultCircuitBreakerConfig : CircuitBreakerConfig := mkCBConfig "http" 1 (60 * Second) (30 * Second) 5.

Definition normalizeCircuitBreakerConfig (cfg : CircuitBreakerConfig) (fallbackName : string) : CircuitBreakerConfig :=
  let defaults := DefaultCircuitBreakerConfig in
  mkCBConfig
    (if decide (cb_Name cfg = "") then fallbackName else cb_Name cfg)
    (if MaxRequests cfg =? 0 then MaxRequests defaults else MaxRequests cfg)
    (if Interval cfg <=? 0 then Interval defaults else Interval cfg)
    (if Timeout cfg <=? 0 then Timeout defaults else Timeout cfg)
    (if ReadyToTrip cfg =? 0 then ReadyToTrip defaults else ReadyToTrip cfg).

(** The errors [Execute] returns: the middleware's own, or the breaker's. *)
Inductive cb_error : Type := circuitError (code : Z) | gate_error (e : error).

Definition newHTTPCircuitBreaker (cfg : CircuitBreakerConfig) : Settings :=
  let cfg := normalizeCircuitBreakerConfig cfg "http" in
  mkSettings (cb_Name cfg) (MaxRequests cfg) (Interval cfg) (Timeout cfg)
    (fun ConsecutiveFailures => ReadyToTrip cfg <=? ConsecutiveFailures).

Section Middleware.
Context {L : Type} `{BreakerLaws L}.
Abbreviation World := (world (menv L)).

Definition http_breaker (w : World) : L := limiter_state (env w).
Definition with_http_breaker (b : L) (w : World) : World := mkWorld (resp w) (wraps w) (mkMEnv (access_log (env w)) b).
Abbreviation on_http_breaker := (on_breaker http_breaker with_http_breaker).

Definition CircuitBreaker (cfg : CircuitBreakerConfig) : Middleware (menv L) :=
  let cb := newHTTPCircuitBreaker cfg in
  fun next w r =>
  x ← new_wrap w;
  res ← Execute gate_error http_breaker with_http_breaker cb (
    next x.2 r;;
    wrapped ← get_wrap x.1;
    if 500 <=? statusCode wrapped then mret (statusCode wrapped, Some (circuitError (statusCode wrapped)))
    else mret (statusCode wrapped, None));
  match res.2 with
  | Some (circuitError _) | None => mret tt
  | Some (gate_error _) => writeJSONError w 503 "service_unavailable" "service temporarily unavailable"
  end.

(** The status the wrapper [i] has recorded. *)
Definition recorded (i : nat) (w : World) : Z := statusCode (default (mkWrap 0 0 false) (wraps w !! i)).

(** What the breaker is told of a request. *)
Definition request_ok (i : nat) (o : outcome unit) (w : World) : bool :=
  match o with Ret _ => recorded i w <? 500 | Panic _ => false end.
End Middleware.

(** ** Outcomes *)

Section Outcomes.
Context {L : Type} `{BreakerLaws L}.
Abbreviation World := (world (menv L)).
Abbreviation on_http_breaker := (on_breaker (@http_breaker L) with_http_breaker).

(** The breaker touches its own state alone. *)
Lemma breaker_apart {A} (m : M L A) (c c' : Clocked World) o : on_http_breaker m c = (o, c') ->
  resp (st c') = resp (st c) /\ wraps (st c') = wraps (st c) /\ access_log (env (st c')) = access_log (env (st c)).
Proof. unfold on_breaker, zoom. destruct (m _) as [o' c1]. intros [= <- <-]. auto. Qed.

(** C27. A request behind the circuit breaker, with the breaker's answer
    [a].  Refused, its handler is not run, and it is answered 503 with a JSON
    error after what the response had.  Admitted, the handler runs once on a
    wrapper of the writer; the breaker is told success unless the handler
    panicked or recorded a status of 500 or more; and the response and the
    panic are the handler's. *)
Theorem http_breaker_outcomes cfg (next : Handler (menv L)) w r (c c1 : Clocked World) a :
  let cb := newHTTPCircuitBreaker cfg in let i := length (wraps (st c)) in
  let c0 := with_st c (mkWorld (resp (st c)) (wraps (st c) ++ [mkWrap 200 0 false]) (env (st c))) in
  on_http_breaker (accept cb) c0 = (Ret a, c1) ->
  match a with
  | inr _ => unwritten w (st c) -> exists c', CircuitBreaker cfg next w r c = (Ret tt, c') /\
      sent_code (resp (st c')) = 503 /\ env (st c') = env (st c1) /\ content (resp (st c')) = content (resp (st c)) +:+
        error_body [("code", "service_unavailable"); ("message", "service temporarily unavailable")]
  | inl tok => forall o c2, next (WWrap i w) r c1 = (o, c2) -> exists c3,
      on_http_breaker (report cb tok (request_ok i o (st c2))) c2 = (Ret tt, c3) /\
      CircuitBreaker cfg next w r c = (o, c3) /\ resp (st c3) = resp (st c2)
  end.
Proof.
  intros cb i c0 Ea. destruct (breaker_apart _ _ _ _ Ea) as (Hr & Hw & _). destruct a as [tok | e].
  - intros o c2 En. unfold CircuitBreaker. cbv zeta. rewrite bind_run, new_wrap_run. cbn [fst snd]. fold i cb c0. rewrite bind_run.
    match goal with |- context [Execute _ _ _ cb ?b c0] => set (call := b) end.
    set (code := recorded i (st c2)).
    assert (call c1 = (outcome_map (fun _ => (code, if 500 <=? code then Some (circuitError code) else None)) o, c2)) as Ec.
    { unfold call. rewrite bind_run. change (length (wraps (st c))) with i. rewrite En. destruct o as [[] | v]; [| reflexivity].
      rewrite bind_run. unfold get_wrap, gets. fold (recorded i (st c2)). fold code. now destruct (500 <=? code). }
    destruct (Execute_run gate_error http_breaker with_http_breaker cb call c0 c1 tok Ea _ _ Ec) as (c3 & E3 & Ex).
    exists c3. rewrite Ex. destruct (breaker_apart _ _ _ _ E3) as (Hr3 & _). split; [| split; [| exact Hr3]].
    + rewrite <- E3. f_equal. f_equal. unfold request_ok. fold code. destruct o as [[] | v]; [| reflexivity]. cbn.
      destruct (Z.leb_spec 500 code), (Z.ltb_spec code 500); reflexivity || lia.
    + destruct o as [[] | v]; [| reflexivity]. cbn [outcome_map snd]. now destruct (500 <=? code).
  - intros Hu. unfold CircuitBreaker. cbv zeta. rewrite bind_run, new_wrap_run. cbn [fst snd]. fold i cb c0. rewrite bind_run.
    rewrite (Execute_refused gate_error http_breaker with_http_breaker cb _ _ _ e Ea). cbn [snd].
    destruct (writeJSONError_run w 503 "service_unavailable" "service temporarily unavailable" c1) as (l & El); [left; lia | reflexivity | |].
    { destruct Hu as (Hs & Hn & Hf). split; [now rewrite Hr |]. split; [exact Hn |]. rewrite Hw.
      eapply Forall_impl; [exact Hf |]. intros k (x & Ex & Hx). exists x. split; [| exact Hx]. now apply lookup_app_l_Some. }
    eexists. split; [exact El |]. cbn. split; [reflexivity |]. split; [reflexivity |]. now rewrite Hr.
Qed.
End Outcomes.

(** ** A breaker that counts *)

(** It counts consecutive failures and stays open. *)
#[export] Instance demo_breaker : Breaker Z := {
  token := unit;
  NewCircuitBreaker := fun _ => 0;
  accept := fun cb => gets (fun n => if gb_ReadyToTrip cb n then inr (EText "circuit breaker is open") else inl tt);
  report := fun _ _ ok => modify (fun n => if ok : bool then 0 else n + 1)
}.

#[export] Instance demo_breaker_laws : BreakerLaws Z.
Proof.
  split; [intros; eexists; reflexivity |]. intros cb c e c'. cbn. unfold gets.
  destruct (gb_ReadyToTrip cb (st c)); [now intros [= <- <-] | discriminate].
Qed.

(** The fifth failure in a row, of a handler that answers 502, and the
    request after it. *)
Definition bad_gateway : Handler (menv Z) := fun w _ => WriteHeader w 502.

Lemma http_breaker_outcomes_witness : exists c3 c',
  CircuitBreaker (mkCBConfig "" 0 0 0 0) bad_gateway WBase demo_request (demo_clocked (demo_world 4)) = (Ret tt, c3) /\
  http_breaker (st c3) = 5 /\
  CircuitBreaker (mkCBConfig "" 0 0 0 0) bad_gateway WBase demo_request (demo_clocked (demo_world 5)) = (Ret tt, c') /\
  sent_code (resp (st c')) = 503.
Proof.
  destruct (http_breaker_outcomes (mkCBConfig "" 0 0 0 0) bad_gateway WBase demo_request (demo_clocked (demo_world 4)) _ (inl (tt : @token Z demo_breaker)) eq_refl
    (Ret tt) _ eq_refl) as (c3 & E3 & Ec & _).
  destruct (http_breaker_outcomes (mkCBConfig "" 0 0 0 0) bad_gateway WBase demo_request (demo_clocked (demo_world 5))
    (demo_clocked (mkWorld new_response [mkWrap 200 0 false] (mkMEnv [] 5)))
    (inr (EText "circuit breaker is open") : @token Z demo_breaker + error) eq_refl (demo_unwritten 5)) as (c' & Ec' & Hs & _).
  exists c3, c'. split; [exact Ec |]. split; [| split; [exact Ec' | exact Hs]]. change c3 with (snd (Ret tt, c3)).
  rewrite <- E3. reflexivity.
Defined.
