(* ===== verification/JSONText.v ===== *)
(** * JSON text

    What the probes use of [encoding/json]: the encoder of strings, with its
    escapes for control characters, quotes and HTML, and its replacement of
    bytes that are not UTF-8; the encoder of the values of Health; and a
    reader of such text.

    The theorem: reading what is encoded gives the value back, with every
    byte that is not UTF-8 replaced ([read_encoded]). *)

From Stdlib Require Import Ascii.
From S2P Require Import Prelude GoStrings HTTPMiddleware Health.

#[local] Open Scope Z_scope.

(** ** UTF-8 *)

Definition in_range (lo hi : nat) (a : ascii) : bool := (lo <=? nat_of_ascii a)%nat && (nat_of_ascii a <=? hi)%nat.
Definition continuation : ascii -> bool := in_range 128 191.

(** The length of the first character, [None] if it is not UTF-8, as
    [utf8.DecodeRune] has it. *)
Definition rune_size (s : list ascii) : option nat :=
  match s with
  | a :: s' =>
      if in_range 0 127 a then Some 1%nat
      else
        match s' with
        | b :: s'' =>
            if in_range 194 223 a then if continuation b then Some 2%nat else None
            else
              match s'' with
              | c :: s''' =>
                  if in_range 224 239 a then
                    let lo := if in_range 224 224 a then 160%nat else 128%nat in
                    let hi := if in_range 237 237 a then 159%nat else 191%nat in
                    if in_range lo hi b && continuation c then Some 3%nat else None
                  else
                    match s''' with
                    | d :: _ =>
                        if in_range 240 244 a then
                          let lo := if in_range 240 240 a then 144%nat else 128%nat in
                          let hi := if in_range 244 244 a then 143%nat else 191%nat in
                          if in_range lo hi b && continuation c && continuation d then Some 4%nat else None
                        else None
                    | [] => None
                    end
              | [] => None
              end
        | [] => None
        end
  | [] => None
  end.

(** The bytes of U+FFFD. *)
Definition replacement : list ascii := [byte 239; byte 191; byte 189].

(** The characters of a text: each is the bytes of one, or [None] for a byte
    that is not UTF-8. *)
Fixpoint runes_fuel (fuel : nat) (s : list ascii) : list (option (list ascii)) :=
  match fuel, s with
  | S fuel', _ :: s' =>
      match rune_size s with
      | Some k => Some (take k s) :: runes_fuel fuel' (drop k s)
      | None => None :: runes_fuel fuel' s'
      end
  | _, _ => []
  end.
Definition runes (s : list ascii) : list (option (list ascii)) := runes_fuel (length s) s.

(** ** Strings *)

Definition back : ascii := byte 92.
Definition dquote : ascii := byte 34.

(** The escapes of [appendString] for a byte of ASCII. *)
Definition escape_ascii (a : ascii) : list ascii :=
  let n := nat_of_ascii a in
  if (n =? 34)%nat || (n =? 92)%nat then [back; a]
  else if (n =? 8)%nat then [back; "b"%char]
  else if (n =? 12)%nat then [back; "f"%char]
  else if (n =? 10)%nat then [back; "n"%char]
  else if (n =? 13)%nat then [back; "r"%char]
  else if (n =? 9)%nat then [back; "t"%char]
  else if (n <? 32)%nat || existsb (Nat.eqb n) [38; 60; 62]%nat then
    [back; "u"%char; "0"%char; "0"%char; hex_digit (n / 16); hex_digit (n mod 16)]
  else [a].

(** U+2028 and U+2029. *)
Definition line_separator : list ascii := [byte 226; byte 128; byte 168].
Definition paragraph_separator : list ascii := [byte 226; byte 128; byte 169].

Definition escape_rune (r : option (list ascii)) : list ascii :=
  match r with
  | None => bytes "\ufffd"
  | Some [a] => escape_ascii a
  | Some r =>
      if decide (r = line_separator) then bytes "\u2028"
      else if decide (r = paragraph_separator) then bytes "\u2029"
      else r
  end.

Definition encode_string (s : string) : list ascii :=
  dquote :: flat_map escape_rune (runes (bytes s)) ++ [dquote].

(** The text with what is not UTF-8 replaced. *)
Definition sanitize (s : string) : string := str (flat_map (default replacement) (runes (bytes s))).

(** ** Values *)

Definition comma_list (l : list (list ascii)) : list ascii :=
  match l with
  | [] => []
  | x :: l' => x ++ flat_map (fun y => comma :: y) l'
  end.

Fixpoint encode_json (v : json) : list ascii :=
  match v with
  | JString s => encode_string s
  | JArray l => "["%char :: comma_list (encode_json <$> l) ++ ["]"%char]
  | JObject fields => "{"%char :: comma_list ((fun kv => encode_string kv.1 ++ colon :: encode_json kv.2) <$> fields) ++ ["}"%char]
  end.

(** [json.NewEncoder(w).Encode(v)]. *)
Definition Encode (v : json) : string := str (encode_json v ++ [byte 10]).

Fixpoint sanitize_json (v : json) : json :=
  match v with
  | JString s => JString (sanitize s)
  | JArray l => JArray (sanitize_json <$> l)
  | JObject fields => JObject ((fun kv => (sanitize kv.1, sanitize_json kv.2)) <$> fields)
  end.

(** ** A reader *)

Definition hex_value (a : ascii) : option N :=
  let n := N_of_ascii a in
  if (48 <=? n)%N && (n <=? 57)%N then Some (n - 48)%N
  else if (97 <=? n)%N && (n <=? 102)%N then Some (n - 87)%N
  else if (65 <=? n)%N && (n <=? 70)%N then Some (n - 55)%N
  else None.

(** UTF-8 of a code point of the basic plane. *)
Definition utf8 (n : N) : list ascii :=
  if (n <? 128)%N then [ascii_of_N n]
  else if (n <? 2048)%N then [ascii_of_N (192 + n / 64); ascii_of_N (128 + n mod 64)]
  else [ascii_of_N (224 + n / 4096); ascii_of_N (128 + (n / 64) mod 64); ascii_of_N (128 + n mod 64)].

Definition unescape (a : ascii) : option ascii :=
  let n := nat_of_ascii a in
  if (n =? 34)%nat || (n =? 92)%nat || (n =? 47)%nat then Some a
  else if Ascii.eqb a "b"%char then Some (byte 8)
  else if Ascii.eqb a "f"%char then Some (byte 12)
  else if Ascii.eqb a "n"%char then Some (byte 10)
  else if Ascii.eqb a "r"%char then Some (byte 13)
  else if Ascii.eqb a "t"%char then Some (byte 9)
  else None.

(** One character or escape of a string, and the rest. *)
Definition read_char (s : list ascii) : option (list ascii * list ascii) :=
  match s with
  | [] => None
  | a :: s' =>
      if Ascii.eqb a back then
        match s' with
        | b :: s'' =>
            if Ascii.eqb b "u"%char then
              match s'' with
              | h1 :: h2 :: h3 :: h4 :: rest =>
                  match hex_value h1, hex_value h2, hex_value h3, hex_value h4 with
                  | Some x1, Some x2, Some x3, Some x4 =>
                      Some (utf8 (x1 * 4096 + x2 * 256 + x3 * 16 + x4)%N, rest)
                  | _, _, _, _ => None
                  end
              | _ => None
              end
            else match unescape b with Some c => Some ([c], s'') | None => None end
        | [] => None
        end
      else if (nat_of_ascii a <? 32)%nat then None
      else Some ([a], s')
  end.

(** The rest of a string, up to its closing quote. *)
Fixpoint read_string (fuel : nat) (s : list ascii) : option (list ascii * list ascii) :=
  match fuel, s with
  | S fuel', a :: s' =>
      if Ascii.eqb a dquote then Some ([], s')
      else
        match read_char s with
        | Some (c, rest) =>
            match read_string fuel' rest with Some (t, rest) => Some (c ++ t, rest) | None => None end
        | None => None
        end
  | _, _ => None
  end.

Definition skip (a : ascii) (s : list ascii) : option (list ascii) :=
  match s with b :: s' => if Ascii.eqb a b then Some s' else None | [] => None end.

(** A value, the elements of an array, the members of an object; a call on
    the same text costs a unit of fuel, as does a byte. *)
Fixpoint read_value (fuel : nat) (s : list ascii) : option (json * list ascii) :=
  match fuel with
  | O => None
  | S fuel' =>
      match s with
      | a :: s' =>
          if Ascii.eqb a dquote then
            match read_string fuel' s' with Some (t, rest) => Some (JString (str t), rest) | None => None end
          else if Ascii.eqb a "["%char then
            match skip "]"%char s' with
            | Some rest => Some (JArray [], rest)
            | None => match read_elements fuel' s' with Some (l, rest) => Some (JArray l, rest) | None => None end
            end
          else if Ascii.eqb a "{"%char then
            match skip "}"%char s' with
            | Some rest => Some (JObject [], rest)
            | None => match read_members fuel' s' with Some (l, rest) => Some (JObject l, rest) | None => None end
            end
          else None
      | [] => None
      end
  end
with read_elements (fuel : nat) (s : list ascii) : option (list json * list ascii) :=
  match fuel with
  | O => None
  | S fuel' =>
      match read_value fuel' s with
      | Some (v, rest) =>
          match skip "]"%char rest with
          | Some rest => Some ([v], rest)
          | None =>
              match skip comma rest with
              | Some rest =>
                  match read_elements fuel' rest with Some (l, rest) => Some (v :: l, rest) | None => None end
              | None => None
              end
          end
      | None => None
      end
  end
with read_members (fuel : nat) (s : list ascii) : option (list (string * json) * list ascii) :=
  match fuel with
  | O => None
  | S fuel' =>
      match skip dquote s with
      | Some s' =>
          match read_string fuel' s' with
          | Some (k, rest) =>
              match skip colon rest with
              | Some rest =>
                  match read_value fuel' rest with
                  | Some (v, rest) =>
                      match skip "}"%char rest with
                      | Some rest => Some ([(str k, v)], rest)
                      | None =>
                          match skip comma rest with
                          | Some rest =>
                              match read_members fuel' rest with Some (l, rest) => Some ((str k, v) :: l, rest) | None => None end
                          | None => None
                          end
                      end
                  | None => None
                  end
              | None => None
              end
          | None => None
          end
      | None => None
      end
  end.

(** A line of JSON. *)
Definition read_line (s : string) : option json :=
  match read_value (S (2 * String.length s)) (bytes s) with
  | Some (v, [a]) => if Ascii.eqb a (byte 10) then Some v else None
  | _ => None
  end.

(** ** Strings read back *)

(** What a character of a text can be. *)
Definition rune_ok (r : option (list ascii)) : Prop :=
  match r with
  | None => True
  | Some l => (exists a, l = [a] /\ in_range 0 127 a = true) \/
      (2 <= length l /\ Forall (fun a => in_range 128 255 a = true) l)%nat
  end.

Lemma in_range_wider lo hi a : in_range lo hi a = true -> (128 <= lo)%nat -> in_range 128 255 a = true.
Proof.
  unfold in_range. intros H Hlo. apply andb_true_iff in H as [H1 _]. apply Nat.leb_le in H1.
  apply andb_true_iff. split; apply Nat.leb_le; [lia |]. pose proof (nat_ascii_bounded a). lia.
Qed.

Lemma rune_size_ok s k : rune_size s = Some k -> (0 < k <= length s)%nat /\ rune_ok (Some (take k s)).
Proof.
  unfold rune_size, continuation. destruct s as [| a s]; [discriminate |].
  destruct (in_range 0 127 a) eqn:Ea; [intros [= <-]; cbn; split; [lia |]; left; exists a; auto |].
  destruct s as [| b s]; [discriminate |].
  destruct (in_range 194 223 a) eqn:Ea2.
  { destruct (in_range 128 191 b) eqn:Eb; [| discriminate]. intros [= <-]. cbn. split; [lia |]. right. split; [lia |].
    repeat (apply List.Forall_cons || apply List.Forall_nil); eauto using in_range_wider with lia.
    all: eapply in_range_wider; [eassumption | lia]. }
  destruct s as [| c s]; [discriminate |].
  destruct (in_range 224 239 a) eqn:Ea3.
  { match goal with |- (if ?t then _ else _) = _ -> _ => destruct t eqn:Et; [| discriminate] end.
    apply andb_true_iff in Et as [Eb Ec]. intros [= <-]. cbn. split; [lia |]. right. split; [lia |].
    repeat (apply List.Forall_cons || apply List.Forall_nil);
      (eapply in_range_wider; [eassumption | try case_match; lia]). }
  destruct s as [| d s]; [discriminate |]. destruct (in_range 240 244 a) eqn:Ea4; [| discriminate].
  match goal with |- (if ?t then _ else _) = _ -> _ => destruct t eqn:Et; [| discriminate] end.
  apply andb_true_iff in Et as [Et Ed]. apply andb_true_iff in Et as [Eb Ec]. intros [= <-]. cbn. split; [lia |].
  right. split; [lia |].
  repeat (apply List.Forall_cons || apply List.Forall_nil);
    (eapply in_range_wider; [eassumption | try case_match; lia]).
Qed.

Lemma runes_ok fuel s : Forall rune_ok (runes_fuel fuel s).
Proof.
  revert s. induction fuel as [| fuel IH]; intros s; [apply List.Forall_nil |].
  destruct s as [| a s]; [apply List.Forall_nil |]. cbn [runes_fuel].
  destruct (rune_size (a :: s)) as [k |] eqn:E; apply List.Forall_cons; [| apply IH | exact I | apply IH].
  exact (proj2 (rune_size_ok _ _ E)).
Qed.

(** UTF-8 text is its characters. *)
Lemma runes_text fuel s : (length s <= fuel)%nat -> Forall is_Some (runes_fuel fuel s) ->
  flat_map (default replacement) (runes_fuel fuel s) = s.
Proof.
  revert s. induction fuel as [| fuel IH]; intros s Hl H; [destruct s; [reflexivity | cbn in Hl; lia] |].
  destruct s as [| a s]; [reflexivity |]. cbn [runes_fuel] in *.
  destruct (rune_size (a :: s)) as [k |] eqn:E.
  - destruct (rune_size_ok _ _ E) as [Hk _]. inversion H as [| ? ? _ H']; subst. cbn [flat_map default from_option].
    unfold id. rewrite IH; [apply take_drop | | exact H']. rewrite length_drop. cbn in *. lia.
  - inversion H as [| ? ? [x Hx] _]. discriminate.
Qed.

Lemma sanitize_text s : Forall is_Some (runes (bytes s)) -> sanitize s = s.
Proof. intros H. unfold sanitize, runes in *. rewrite runes_text by (auto; lia). apply str_bytes. Qed.

Lemma read_escaped_ascii a rest : in_range 0 127 a = true -> read_char (escape_ascii a ++ rest) = Some ([a], rest) /\
  match escape_ascii a with b :: _ => Ascii.eqb b dquote = false | [] => False end.
Proof. destruct a as [[] [] [] [] [] [] [] []]; try discriminate; intros _; split; reflexivity. Qed.

Lemma read_high a rest : in_range 128 255 a = true -> read_char (a :: rest) = Some ([a], rest) /\ Ascii.eqb a dquote = false.
Proof. destruct a as [[] [] [] [] [] [] [] []]; try discriminate; intros _; split; reflexivity. Qed.

(** One character or escape, read off the text [chunk]. *)
Lemma read_string_char chunk c rest t tail : read_char (chunk ++ rest) = Some (c, rest) ->
  match chunk with b :: _ => Ascii.eqb b dquote = false | [] => False end ->
  (forall f, (length rest < f)%nat -> read_string f rest = Some (t, tail)) ->
  forall f, (length (chunk ++ rest) < f)%nat -> read_string f (chunk ++ rest) = Some (c ++ t, tail).
Proof.
  intros Hc Hq Hr f Hf. destruct chunk as [| b chunk]; [contradiction |]. destruct f as [| f]; [lia |].
  cbn [app] in *. cbn [read_string]. rewrite Hq, Hc, Hr; [reflexivity |]. cbn in Hf. rewrite length_app in Hf. lia.
Qed.

Lemma read_string_high l rest t tail : Forall (fun a => in_range 128 255 a = true) l ->
  (forall f, (length rest < f)%nat -> read_string f rest = Some (t, tail)) ->
  forall f, (length (l ++ rest) < f)%nat -> read_string f (l ++ rest) = Some (l ++ t, tail).
Proof.
  induction 1 as [| a l Ha _ IH]; intros Hr; [exact Hr |]. destruct (read_high a (l ++ rest) Ha) as [Hc Hq].
  exact (read_string_char [a] [a] (l ++ rest) (l ++ t) tail Hc Hq (IH Hr)).
Qed.

Lemma read_string_rune r rest t tail : rune_ok r ->
  (forall f, (length rest < f)%nat -> read_string f rest = Some (t, tail)) ->
  forall f, (length (escape_rune r ++ rest) < f)%nat ->
  read_string f (escape_rune r ++ rest) = Some (default replacement r ++ t, tail).
Proof.
  intros Hok Hr. destruct r as [l |].
  - destruct Hok as [(a & -> & Ha) | [Hl Hh]].
    + destruct (read_escaped_ascii a rest Ha) as [Hc Hq]. exact (read_string_char _ [a] rest t tail Hc Hq Hr).
    + destruct l as [| a [| b l]]; [cbn in Hl; lia | cbn in Hl; lia |]. cbn [escape_rune].
      destruct (decide (a :: b :: l = line_separator)) as [-> | _];
        [now apply (read_string_char (bytes "\u2028") line_separator) |].
      destruct (decide (a :: b :: l = paragraph_separator)) as [-> | _];
        [now apply (read_string_char (bytes "\u2029") paragraph_separator) |].
      now apply read_string_high.
  - now apply (read_string_char (bytes "\ufffd") replacement).
Qed.

Lemma read_string_runes rs rest f : Forall rune_ok rs -> (length (flat_map escape_rune rs ++ dquote :: rest) < f)%nat ->
  read_string f (flat_map escape_rune rs ++ dquote :: rest) = Some (flat_map (default replacement) rs, rest).
Proof.
  intros H. revert f. induction H as [| r rs Hr _ IH]; intros f Hf.
  - destruct f; [cbn in Hf; lia |]. reflexivity.
  - cbn [flat_map] in *. rewrite <- app_assoc in *. now apply read_string_rune.
Qed.

Lemma read_encoded_string s rest f : (length (flat_map escape_rune (runes (bytes s)) ++ dquote :: rest) < f)%nat ->
  read_string f (flat_map escape_rune (runes (bytes s)) ++ dquote :: rest) =
    Some (flat_map (default replacement) (runes (bytes s)), rest).
Proof. apply read_string_runes, runes_ok. Qed.

(** ** Values read back *)

Section JsonInd.
Context (P : json -> Prop) (Hs : forall s, P (JString s)) (Ha : forall l, Forall P l -> P (JArray l))
  (Ho : forall fields, Forall (fun kv => P kv.2) fields -> P (JObject fields)).

(** Induction on the values inside arrays and objects. *)
Fixpoint json_nested_ind (v : json) : P v :=
  match v with
  | JString s => Hs s
  | JArray l => Ha l ((fix go (l : list json) : Forall P l :=
      match l with [] => @List.Forall_nil json P | v :: l' => @List.Forall_cons json P v l' (json_nested_ind v) (go l') end) l)
  | JObject fields => Ho fields ((fix go (l : list (string * json)) : Forall (fun kv => P kv.2) l :=
      match l with
      | [] => @List.Forall_nil _ _
      | kv :: l' => @List.Forall_cons _ _ kv l' (json_nested_ind kv.2) (go l')
      end) fields)
  end.
End JsonInd.

(** A value begins with a quote, a bracket or a brace. *)
Lemma encode_head v : exists a l, encode_json v = a :: l /\ Ascii.eqb "]"%char a = false.
Proof. destruct v; do 2 eexists; (split; [reflexivity |]); reflexivity. Qed.

Definition reads (v : json) : Prop := forall rest f, (2 * length (encode_json v ++ rest) < f)%nat ->
  read_value f (encode_json v ++ rest) = Some (sanitize_json v, rest).

Lemma read_string_value s : reads (JString s).
Proof.
  intros rest f Hf. destruct f as [| f]; [lia |]. cbn [encode_json] in *. unfold encode_string in *.
  rewrite <- app_comm_cons, <- app_assoc in *. cbn [read_value app]. change (Ascii.eqb dquote dquote) with true. cbv iota.
  rewrite read_encoded_string by (cbn in Hf; cbn; lia). reflexivity.
Qed.

Lemma skip_same a s : skip a (a :: s) = Some s.
Proof. unfold skip. now rewrite Ascii.eqb_refl. Qed.

Lemma read_elements_back v l rest f : Forall reads (v :: l) ->
  (2 * length (comma_list (encode_json <$> v :: l) ++ "]"%char :: rest) + 1 < f)%nat ->
  read_elements f (comma_list (encode_json <$> v :: l) ++ "]"%char :: rest) = Some (sanitize_json <$> v :: l, rest).
Proof.
  revert v f. induction l as [| w l IH]; intros v f H Hf; (destruct f as [| f]; [lia |]);
    inversion H as [| ? ? Hv Hl]; subst; cbn [read_elements].
  - cbn [fmap list_fmap comma_list flat_map] in *. rewrite app_nil_r in *. rewrite Hv by lia. rewrite skip_same. reflexivity.
  - change (comma_list (encode_json <$> v :: w :: l)) with (encode_json v ++ comma :: comma_list (encode_json <$> w :: l)) in *.
    rewrite <- app_assoc, <- app_comm_cons in *. rewrite Hv by lia. change (skip "]"%char (comma :: ?x)) with (@None (list ascii)).
    rewrite skip_same, IH; [reflexivity | exact Hl |]. rewrite length_app in Hf. cbn [length] in Hf. lia.
Qed.

Definition encode_member (kv : string * json) : list ascii := encode_string kv.1 ++ colon :: encode_json kv.2.
Definition sanitize_member (kv : string * json) : string * json := (sanitize kv.1, sanitize_json kv.2).

Lemma member_text k v rest : encode_member (k, v) ++ rest =
  dquote :: flat_map escape_rune (runes (bytes k)) ++ dquote :: colon :: encode_json v ++ rest.
Proof. unfold encode_member, encode_string. cbn [fst snd]. rewrite <- !app_assoc. cbn [app]. now rewrite <- app_assoc. Qed.

Ltac lens := repeat (progress (rewrite ?length_app in *; cbn [length] in *)); lia.

Lemma read_members_back kv l rest f : Forall (fun kv => reads kv.2) (kv :: l) ->
  (2 * length (comma_list (encode_member <$> kv :: l) ++ "}"%char :: rest) + 1 < f)%nat ->
  read_members f (comma_list (encode_member <$> kv :: l) ++ "}"%char :: rest) = Some (sanitize_member <$> kv :: l, rest).
Proof.
  revert kv f. induction l as [| kv' l IH]; intros [k v] f H Hf; (destruct f as [| f]; [lia |]);
    inversion H as [| ? ? Hv Hl]; subst; cbn [snd] in Hv.
  - cbn [fmap list_fmap comma_list flat_map] in *. rewrite app_nil_r in *. rewrite (member_text k v) in *.
    cbn [read_members]. rewrite skip_same, read_encoded_string by lens. rewrite skip_same, Hv by lens.
    rewrite skip_same. reflexivity.
  - change (comma_list (encode_member <$> (k, v) :: kv' :: l)) with
      (encode_member (k, v) ++ comma :: comma_list (encode_member <$> kv' :: l)) in *.
    rewrite <- app_assoc, <- app_comm_cons, (member_text k v) in *. set (more := comma_list (encode_member <$> kv' :: l)) in *.
    cbn [read_members]. rewrite skip_same, read_encoded_string by lens. rewrite skip_same, Hv by lens.
    change (skip "}"%char (comma :: ?x)) with (@None (list ascii)). rewrite skip_same.
    unfold more in *. rewrite IH; [reflexivity | exact Hl | lens].
Qed.

Lemma reads_json v : reads v.
Proof.
  induction v as [s | l Hl | fields Hf] using json_nested_ind; [apply read_string_value | |]; intros rest f Hlen;
    (destruct f as [| f]; [lia |]); cbn [encode_json] in *.
  - destruct l as [| v l]; [reflexivity |]. rewrite <- app_comm_cons, <- app_assoc in *. cbn [read_value app] in *.
    change (Ascii.eqb "["%char dquote) with false. change (Ascii.eqb "["%char "["%char) with true. cbv iota.
    assert (skip "]"%char (comma_list (encode_json <$> v :: l) ++ "]"%char :: rest) = None) as ->.
    { destruct (encode_head v) as (a & k & E & Ha). cbn [fmap list_fmap comma_list]. rewrite E. cbn [app skip]. now rewrite Ha. }
    rewrite read_elements_back; [reflexivity | exact Hl |]. cbn [length] in Hlen. lia.
  - destruct fields as [| kv fields]; [reflexivity |].
    change (list_fmap _ _ (fun kv => encode_string kv.1 ++ colon :: encode_json kv.2)) with (@fmap list _ _ _ encode_member) in *.
    rewrite <- app_comm_cons, <- app_assoc in *. cbn [read_value app] in *.
    change (Ascii.eqb "{"%char dquote) with false. change (Ascii.eqb "{"%char "["%char) with false.
    change (Ascii.eqb "{"%char "{"%char) with true. cbv iota.
    match goal with |- context [skip "}"%char ?s] => assert (skip "}"%char s = None) as -> by reflexivity end.
    rewrite read_members_back; [reflexivity | exact Hf |]. cbn [length] in Hlen. unfold encode_member. lia.
Qed.

(** A line of JSON is read back. *)
Lemma read_encoded v : read_line (Encode v) = Some (sanitize_json v).
Proof.
  unfold read_line, Encode. rewrite bytes_str.
  assert (forall l, String.length (str l) = length l) as Hl by (induction l as [| a l IH]; cbn; [reflexivity | now rewrite IH]).
  rewrite Hl, reads_json by lia. reflexivity.
Qed.
