(* ===== verification/Patterns.v ===== *)
(** * The patterns of [http.ServeMux]

    [net/http/pattern.go], as of Go 1.22: what a pattern is parsed to, and
    when two patterns conflict, which decide whether [mux.Handle] panics.
    Paths and prefixes that come from a configuration are registered as
    patterns, so that a blank or a brace in one matters.

    The messages name what is refused.  A wildcard's name is a Go identifier; letters and digits beyond ASCII are
    not known here, and such a name is taken as invalid.

    The theorems: a pattern conflicts with itself ([conflict_self]); for
    literal paths a conflict is a second registration ([conflict_literal]),
    and a literal path always parses ([parse_literal]). *)

From S2P Require Import Prelude GoStrings.
From Stdlib Require Import Ascii.

Definition slash : ascii := "/"%char.
Definition open_brace : ascii := "{"%char.
Definition close_brace : ascii := "}"%char.
Definition percent : ascii := "%"%char.

(** ** [path.Clean] *)

(** The segments of a rooted path, [.] and [..] resolved. *)
Fixpoint clean_segments (segments : list string) (stack : list string) : list string :=
  match segments with
  | [] => rev stack
  | seg :: segments' =>
      if decide (seg = "" \/ seg = ".") then clean_segments segments' stack
      else if decide (seg = "..") then clean_segments segments' (tail stack)
      else clean_segments segments' (seg :: stack)
  end.

(** The server's canonical form of a path. *)
Definition cleanPath (p : string) : string :=
  let p := if has_prefix p "/" then p else "/" +:+ p in
  let np := "/" +:+ join "/" (clean_segments (split p slash) []) in
  if decide (last_index_byte (bytes p) slash = Some (length (bytes p) - 1)%nat /\ np <> "/") then np +:+ "/" else np.

(** ** Characters *)

Definition is_digit (a : ascii) : bool := let n := nat_of_ascii a in (48 <=? n)%nat && (n <=? 57)%nat.
Definition is_letter (a : ascii) : bool :=
  let n := nat_of_ascii a in
  ((65 <=? n)%nat && (n <=? 90)%nat) || ((97 <=? n)%nat && (n <=? 122)%nat).
Definition is_blank (a : ascii) : bool := Ascii.eqb a (byte 32) || Ascii.eqb a (byte 9).

(** [httpguts.IsTokenRune]. *)
Definition is_token (a : ascii) : bool := is_digit a || is_letter a || has_byte (bytes "!#$%&'*+-.^_`|~") a.

Definition validMethod (method : list ascii) : bool := negb (bool_decide (method = [])) && forallb is_token method.

Definition isValidWildcardName (name : list ascii) : bool :=
  let letter a := is_letter a || Ascii.eqb a "_"%char in
  match name with
  | [] => false
  | a :: name' => letter a && forallb (fun a => letter a || is_digit a) name'
  end.

(** [url.PathUnescape]; [pathUnescape] keeps a text that is not an escape. *)
Definition unhex (a : ascii) : option nat :=
  let n := nat_of_ascii a in
  if is_digit a then Some (n - 48)%nat
  else if (97 <=? n)%nat && (n <=? 102)%nat then Some (n - 87)%nat
  else if (65 <=? n)%nat && (n <=? 70)%nat then Some (n - 55)%nat
  else None.

Fixpoint path_unescape (s : list ascii) : option (list ascii) :=
  match s with
  | [] => Some []
  | a :: s' =>
      if Ascii.eqb a percent then
        match s' with
        | h :: l :: s'' => h ← unhex h; l ← unhex l; cons (byte (16 * h + l)) <$> path_unescape s''
        | _ => None
        end
      else cons a <$> path_unescape s'
  end.

Definition pathUnescape (s : string) : string :=
  match path_unescape (bytes s) with Some u => str u | None => s end.

(** ** Parsing *)

(** A literal, [{name}], or [{name...}]; a trailing slash is a [Multi]
    without a name, and [{$}] is the literal slash. *)
Inductive segment : Type := Literal (s : string) | Wild (name : string) | Multi (name : string).

Record pattern : Type := mkPattern { pat_method : string; pat_host : string; pat_segments : list segment }.

(** The segments after the first slash, split at the others. *)
Fixpoint parse_segments (seen : list string) (segs : list string) : list segment + string :=
  match segs with
  | [] => inl []
  | seg :: rest =>
      let more seen s := match parse_segments seen rest with inl l => inl (s :: l) | inr e => inr e end in
      if decide (seg = "" /\ rest = []) then inl [Multi ""]
      else
        match index_byte (bytes seg) open_brace with
        | None => more seen (Literal (pathUnescape seg))
        | Some (S _) => inr "bad wildcard segment (must start with '{')"
        | Some O =>
            if negb (bool_decide (last (bytes seg) = Some close_brace)) then inr "bad wildcard segment (must end with '}')"
            else
              let name := str (removelast (tail (bytes seg))) in
              if decide (name = "$") then if decide (rest = []) then inl [Literal "/"] else inr "{$} not at end"
              else
                let multi := negb (bool_decide (trim_suffix name "..." = name)) in
                let name := trim_suffix name "..." in
                if multi && negb (bool_decide (rest = [])) then inr "{...} wildcard not at end"
                else if decide (name = "") then inr "empty wildcard"
                else if negb (isValidWildcardName (bytes name)) then inr ("bad wildcard name " +:+ quote +:+ name +:+ quote)
                else if decide (name ∈ seen) then inr ("duplicate wildcard name " +:+ quote +:+ name +:+ quote)
                else more (name :: seen) (if multi then Multi name else Wild name)
        end
  end.

(** [strings.IndexAny(s, blanks)] and [strings.TrimLeft(s, blanks)]. *)
Fixpoint cut_blank (s : list ascii) : option (list ascii * list ascii) :=
  match s with
  | [] => None
  | a :: s' => if is_blank a then Some ([], s') else (fun mr => (a :: mr.1, mr.2)) <$> cut_blank s'
  end.
Fixpoint drop_blanks (s : list ascii) : list ascii :=
  match s with a :: s' => if is_blank a then drop_blanks s' else s | [] => [] end.

Definition parsePattern (s : string) : pattern + string :=
  if decide (s = "") then inr "empty pattern"
  else
    let '(method, rest) := match cut_blank (bytes s) with
                           | Some (method, rest) => (method, drop_blanks rest)
                           | None => ([], bytes s)
                           end in
    if negb (bool_decide (method = [])) && negb (validMethod method) then inr ("invalid method " +:+ quote +:+ str method +:+ quote)
    else
      match index_byte rest slash with
      | None => inr "host/path missing /"
      | Some i =>
          let host := take i rest in
          let rest := drop i rest in
          if has_byte host open_brace then inr "host contains '{' (missing initial '/'?)"
          else if negb (bool_decide (method = [])) && negb (bool_decide (str method = "CONNECT")) &&
            negb (bool_decide (cleanPath (str rest) = str rest)) then
            inr "non-CONNECT pattern with unclean path can never match"
          else
            match parse_segments [] (split (str (tail rest)) slash) with
            | inl segs => inl (mkPattern (str method) (str host) segs)
            | inr e => inr e
            end
      end.

(** ** Conflicts *)

Inductive relationship : Type := Equivalent | MoreGeneral | MoreSpecific | Disjoint | Overlaps.

#[global] Instance relationship_eq_dec : EqDecision relationship.
Proof. solve_decision. Defined.

Definition inverseRelationship (r : relationship) : relationship :=
  match r with MoreSpecific => MoreGeneral | MoreGeneral => MoreSpecific | _ => r end.

Definition combineRelationships (r1 r2 : relationship) : relationship :=
  match r1 with
  | Equivalent => r2
  | Disjoint => Disjoint
  | Overlaps => if decide (r2 = Disjoint) then Disjoint else Overlaps
  | MoreGeneral | MoreSpecific =>
      if decide (r2 = Equivalent) then r1 else if decide (r2 = inverseRelationship r1) then Overlaps else r2
  end.

Definition compareMethods (m1 m2 : string) : relationship :=
  if decide (m1 = m2) then Equivalent
  else if decide (m1 = "") then MoreGeneral
  else if decide (m2 = "") then MoreSpecific
  else if decide (m1 = "GET" /\ m2 = "HEAD") then MoreGeneral
  else if decide (m2 = "GET" /\ m1 = "HEAD") then MoreSpecific
  else Disjoint.

Definition compareSegments (s1 s2 : segment) : relationship :=
  match s1, s2 with
  | Multi _, Multi _ => Equivalent
  | Multi _, _ => MoreGeneral
  | _, Multi _ => MoreSpecific
  | Wild _, Wild _ => Equivalent
  | Wild _, Literal s => if decide (s = "/") then Disjoint else MoreGeneral
  | Literal s, Wild _ => if decide (s = "/") then Disjoint else MoreSpecific
  | Literal s, Literal s' => if decide (s = s') then Equivalent else Disjoint
  end.

(** The loop over the corresponding segments: the relationship and what is
    left of both. *)
Fixpoint compare_loop (rel : relationship) (l1 l2 : list segment) : relationship * list segment * list segment :=
  match l1, l2 with
  | s1 :: l1', s2 :: l2' =>
      let rel := combineRelationships rel (compareSegments s1 s2) in
      if decide (rel = Disjoint) then (Disjoint, [], []) else compare_loop rel l1' l2'
  | _, _ => (rel, l1, l2)
  end.

Definition last_multi (l : list segment) : bool := match last l with Some (Multi _) => true | _ => false end.

Definition comparePaths (l1 l2 : list segment) : relationship :=
  if negb (length l1 =? length l2)%nat && negb (last_multi l1) && negb (last_multi l2) then Disjoint
  else
    match compare_loop Equivalent l1 l2 with
    | (rel, [], []) => rel
    | (rel, [], _ :: _) => if last_multi l1 then combineRelationships rel MoreGeneral else Disjoint
    | (rel, _ :: _, []) => if last_multi l2 then combineRelationships rel MoreSpecific else Disjoint
    | (_, _ :: _, _ :: _) => Disjoint
    end.

Definition comparePathsAndMethods (p1 p2 : pattern) : relationship :=
  let mrel := compareMethods (pat_method p1) (pat_method p2) in
  if decide (mrel = Disjoint) then Disjoint
  else combineRelationships mrel (comparePaths (pat_segments p1) (pat_segments p2)).

Definition conflictsWith (p1 p2 : pattern) : bool :=
  if decide (pat_host p1 = pat_host p2) then
    match comparePathsAndMethods p1 p2 with Equivalent | Overlaps => true | _ => false end
  else false.

(** A pattern with a conflict among those registered; registered patterns
    parse. *)
Definition conflict (pat : pattern) (registered : list string) : bool :=
  existsb (fun q => match parsePattern q with inl pat2 => conflictsWith pat pat2 | inr _ => false end) registered.

(** [mux.Handle] accepts the pattern. *)
Definition registrable (s : string) (registered : list string) : bool :=
  match parsePattern s with inl pat => negb (conflict pat registered) | inr _ => false end.

(** ** Literal patterns

    Paths as a configuration usually has them: no blank, brace or escape.
    They match by equality, and by prefix when they end in a slash. *)
Definition literal_byte (a : ascii) : bool :=
  negb (is_blank a) && negb (Ascii.eqb a open_brace) && negb (Ascii.eqb a percent).
Definition literal_path (s : string) : bool := has_prefix s "/" && forallb literal_byte (bytes s).

Definition ascii_only (s : string) : bool := forallb (fun a => (nat_of_ascii a <? 128)%nat) (bytes s).

Fixpoint literal_segments (segs : list string) : list segment :=
  match segs with
  | [] => []
  | seg :: rest => if decide (seg = "" /\ rest = []) then [Multi ""] else Literal seg :: literal_segments rest
  end.

(** *** Strings *)

Lemma split_go_not_nil s cur c : split_go s cur c <> [].
Proof. revert cur. induction s as [| a s IH]; intros cur; cbn; [discriminate |]. destruct (Ascii.eqb a c); [discriminate | apply IH]. Qed.

Lemma join_cons sep x l : l <> [] -> join sep (x :: l) = x +:+ sep +:+ join sep l.
Proof. now destruct l. Qed.

Lemma join_split_go s cur c : join (str [c]) (split_go s cur c) = str (rev cur ++ s).
Proof.
  revert cur. induction s as [| a s IH]; intros cur; cbn [split_go].
  - cbn. now rewrite app_nil_r.
  - destruct (Ascii.eqb_spec a c) as [-> |].
    + rewrite join_cons, IH by apply split_go_not_nil. rewrite <- !str_app. cbn [rev app]. reflexivity.
    + rewrite IH. cbn [rev]. now rewrite <- app_assoc.
Qed.

Lemma split_inj s t c : split s c = split t c -> s = t.
Proof.
  intros H. apply (f_equal (join (str [c]))) in H. unfold split in H. rewrite !join_split_go in H.
  cbn [rev app] in H. now rewrite !str_bytes in H.
Qed.

Lemma split_go_bytes f s cur c seg : forallb f cur = true -> forallb f s = true -> seg ∈ split_go s cur c ->
  forallb f (bytes seg) = true.
Proof.
  revert cur. assert (forall l, forallb f l = true -> forallb f (rev l) = true) as Hrev.
  { intros l. rewrite !forallb_forall. intros H x Hx. apply H, in_rev, Hx. }
  induction s as [| a s IH]; intros cur Hc Hs; cbn [split_go].
  - rewrite list_elem_of_singleton. intros ->. rewrite bytes_str. auto.
  - cbn [forallb] in Hs. apply andb_true_iff in Hs as [Ha Hs]. destruct (Ascii.eqb a c).
    + rewrite elem_of_cons. intros [-> | H]; [rewrite bytes_str; auto | exact (IH [] eq_refl Hs H)].
    + apply IH; [cbn; now rewrite Ha | exact Hs].
Qed.

Lemma index_byte_absent f s c : f c = false -> forallb f s = true -> index_byte s c = None.
Proof.
  intros Hf. induction s as [| a s IH]; [reflexivity |]. cbn. intros [Ha Hs]%andb_true_iff.
  destruct (Ascii.eqb_spec a c) as [-> |]; [congruence |]. now rewrite (IH Hs).
Qed.

Lemma unescape_literal s : forallb literal_byte (bytes s) = true -> pathUnescape s = s.
Proof.
  intros H. unfold pathUnescape. assert (path_unescape (bytes s) = Some (bytes s)) as ->; [| apply str_bytes].
  induction (bytes s) as [| a l IH]; [reflexivity |]. cbn [forallb] in H. apply andb_true_iff in H as [Ha Hl].
  cbn [path_unescape]. unfold literal_byte in Ha. destruct (Ascii.eqb a percent); [rewrite andb_false_r in Ha; discriminate |].
  now rewrite (IH Hl).
Qed.

(** *** Parsing *)

Lemma parse_literal_segments seen segs : (forall seg, seg ∈ segs -> forallb literal_byte (bytes seg) = true) ->
  parse_segments seen segs = inl (literal_segments segs).
Proof.
  revert seen. induction segs as [| seg segs IH]; intros seen H; [reflexivity |].
  cbn [parse_segments literal_segments]. destruct (decide _); [reflexivity |].
  assert (forallb literal_byte (bytes seg) = true) as Hs by (apply H; left).
  rewrite (index_byte_absent literal_byte) by (reflexivity || exact Hs).
  rewrite (IH seen) by (intros s Hin; apply H; now right). now rewrite unescape_literal by exact Hs.
Qed.

Lemma cut_blank_none s : forallb literal_byte s = true -> cut_blank s = None.
Proof.
  induction s as [| a s IH]; [reflexivity |]. cbn [forallb cut_blank]. intros [Ha Hs]%andb_true_iff.
  unfold literal_byte in Ha. destruct (is_blank a); [discriminate |]. now rewrite (IH Hs).
Qed.

(** A literal path always parses, to its segments. *)
Lemma parse_literal s : literal_path s = true ->
  parsePattern s = inl (mkPattern "" "" (literal_segments (split (str (tail (bytes s))) slash))).
Proof.
  unfold literal_path. intros [Hp Hl]%andb_true_iff. apply has_prefix_spec in Hp as [r ->].
  unfold parsePattern. rewrite decide_False by discriminate.
  rewrite (cut_blank_none _ Hl). change (bytes ("/" +:+ r)) with (slash :: bytes r) in *.
  cbn [tail index_byte Ascii.eqb]. cbn. rewrite parse_literal_segments; [reflexivity |].
  intros seg. apply split_go_bytes; [reflexivity |]. rewrite bytes_str.
  cbn [forallb] in Hl. apply andb_true_iff in Hl as [_ Hl]. exact Hl.
Qed.

Lemma literal_segments_inj l k : literal_segments l = literal_segments k -> l = k.
Proof.
  revert k. induction l as [| x l IH]; intros [| y k]; cbn [literal_segments]; [reflexivity | | |];
    repeat destruct (decide _) as [[-> ->] |]; try discriminate; [reflexivity |].
  intros [= -> H]. now rewrite (IH k H).
Qed.

(** *** Conflicts *)

Lemma compare_loop_same l : compare_loop Equivalent l l = (Equivalent, [], []).
Proof.
  induction l as [| s l IH]; [reflexivity |]. cbn [compare_loop].
  assert (combineRelationships Equivalent (compareSegments s s) = Equivalent) as ->
    by (destruct s; cbn; now try rewrite decide_True by reflexivity).
  exact IH.
Qed.

(** A pattern conflicts with itself. *)
Lemma conflict_self p : conflictsWith p p = true.
Proof.
  assert (compareMethods (pat_method p) (pat_method p) = Equivalent) as Hm
    by (unfold compareMethods; now rewrite decide_True).
  unfold conflictsWith, comparePathsAndMethods, comparePaths.
  rewrite decide_True by reflexivity. rewrite Hm, Nat.eqb_refl, compare_loop_same. reflexivity.
Qed.

Lemma conflict_registered pat s l : parsePattern s = inl pat -> s ∈ l -> conflict pat l = true.
Proof.
  intros E Hin. unfold conflict. apply existsb_exists. exists s. split; [now apply list_elem_of_In |].
  rewrite E. apply conflict_self.
Qed.

Lemma registrable_fresh s l : registrable s l = true -> s ∉ l.
Proof.
  unfold registrable. destruct (parsePattern s) as [pat |] eqn:E; [| discriminate]. intros H Hin.
  now rewrite (conflict_registered pat s l E Hin) in H.
Qed.

(** Two literal paths: the loop ends [Equivalent] only on equal segments, and
    a trailing slash that met a literal leaves nothing of its own path. *)
Lemma compare_loop_literal k1 k2 :
  match compare_loop Equivalent (literal_segments k1) (literal_segments k2) with
  | (Equivalent, r1, r2) => r1 = [] -> r2 = [] -> literal_segments k1 = literal_segments k2
  | (MoreGeneral, r1, _) => r1 = []
  | (MoreSpecific, _, r2) => r2 = []
  | (Disjoint, _, _) => True
  | (Overlaps, _, _) => False
  end.
Proof.
  revert k2. induction k1 as [| x k1 IH]; intros [| y k2]; cbn [literal_segments].
  - now intros _ _.
  - destruct (decide _); cbn; discriminate.
  - destruct (decide _); cbn; discriminate.
  - destruct (decide (x = "" /\ k1 = [])) as [[-> ->] | Hx], (decide (y = "" /\ k2 = [])) as [[-> ->] | Hy]; cbn;
      [now intros _ _ | now destruct (literal_segments k2) | now destruct (literal_segments k1) |].
    destruct (decide (x = y)) as [-> | Hne]; cbn; [| exact I].
    specialize (IH k2). destruct (compare_loop Equivalent _ _) as [[[] r1] r2]; try exact IH.
    intros H1 H2. f_equal. now apply IH.
Qed.

Lemma comparePaths_literal k1 k2 :
  match comparePaths (literal_segments k1) (literal_segments k2) with
  | Equivalent => k1 = k2
  | Overlaps => False
  | _ => True
  end.
Proof.
  unfold comparePaths. destruct (_ && _ && _); [exact I |]. pose proof (compare_loop_literal k1 k2) as H.
  destruct (compare_loop _ _ _) as [[[] r1] r2], r1 as [| s1 r1], r2 as [| s2 r2]; cbn in *; try discriminate H; try tauto;
    try (destruct (last_multi _); exact I).
  apply literal_segments_inj. auto.
Qed.

(** Literal paths conflict only with themselves. *)
Lemma conflict_literal s t : literal_path s = true -> literal_path t = true ->
  match parsePattern s, parsePattern t with
  | inl p, inl q => conflictsWith p q = true -> s = t
  | _, _ => False
  end.
Proof.
  intros Hs Ht. rewrite (parse_literal s Hs), (parse_literal t Ht).
  unfold conflictsWith, comparePathsAndMethods, compareMethods. cbn [pat_host pat_method pat_segments].
  rewrite !(decide_True (P := "" = "")) by reflexivity. cbn [combineRelationships].
  pose proof (comparePaths_literal (split (str (tail (bytes s))) slash) (split (str (tail (bytes t))) slash)) as H.
  destruct (decide _); [discriminate |]. destruct (comparePaths _ _); try discriminate; try tauto. intros _.
  apply split_inj in H. unfold literal_path in Hs, Ht. apply andb_true_iff in Hs as [Hs _], Ht as [Ht _].
  apply has_prefix_spec in Hs as [r ->], Ht as [u ->]. cbn [bytes tail] in H.
  change (tail (bytes ("/" +:+ r))) with (bytes r) in H. change (tail (bytes ("/" +:+ u))) with (bytes u) in H.
  rewrite !str_bytes in H. now subst.
Qed.

(** Among literal paths [mux.Handle] refuses a second registration only. *)
Lemma registrable_literal s l : literal_path s = true -> Forall (fun t => literal_path t = true) l ->
  registrable s l = true <-> s ∉ l.
Proof.
  intros Hs Hl. split; [apply registrable_fresh |]. intros Hin. unfold registrable.
  destruct (parsePattern s) as [pat | e] eqn:E; [| rewrite (parse_literal s Hs) in E; discriminate].
  unfold conflict. apply negb_true_iff. induction Hl as [| t l Ht Hl IH]; [reflexivity |]. cbn [existsb].
  rewrite not_elem_of_cons in Hin. destruct Hin as [Hne Hin]. rewrite (IH Hin), orb_false_r.
  pose proof (conflict_literal s t Hs Ht) as Hc. rewrite E in Hc. destruct (parsePattern t) as [q |]; [| reflexivity].
  destruct (conflictsWith pat q); [| reflexivity]. exfalso. apply Hne, Hc. reflexivity.
Qed.

Lemma literal_app s t : literal_path s = true -> forallb literal_byte (bytes t) = true -> literal_path (s +:+ t) = true.
Proof.
  unfold literal_path. intros [Hp Hl]%andb_true_iff Ht. apply andb_true_iff. split.
  - apply has_prefix_spec in Hp as [r ->]. apply has_prefix_spec. exists (r +:+ t). symmetry. apply string_app_assoc.
  - rewrite bytes_app, forallb_app, Hl. exact Ht.
Qed.
