(* ===== verification/Mux.v ===== *)
(** * Request multiplexers

    [http.ServeMux] with [http.Redirect], [http.StripPrefix] and
    [http.NotFound]: the part of net/http that the runtime of HTTPRuntime.v
    assembles its routes from.  A mux is a list of patterns with their
    handlers; the payload is a parameter, so that a mux whose handlers depend
    on another mux is one too.

    [mux_Handle] panics as the code does on any pattern (Patterns.v).
    Requests are matched against literal paths only ([literal_path]): a
    registered pattern with a method, a host, a wildcard or an escape is not
    matched as Go would, and the theorems on what a request reaches are about
    literal patterns.  A request's path is its decoded path, its query and
    the special case of CONNECT are left out. *)

From S2P Require Import Prelude GoStrings GoErrors GoHTTP HTTPMiddleware Patterns.
From Stdlib Require Import Ascii.

(** ** Routes *)

(** A mux with payload [X]. *)
Definition routes (X : Type) : Type := list (string * X).

Section Routes.
Context {X : Type}.

Definition mux_lookup (pattern : string) (m : routes X) : option X :=
  snd <$> find (fun ph => bool_decide (ph.1 = pattern)) m.

(** [mux.Handle]: a pattern that does not parse, or that conflicts with a
    registered one, panics. *)
Definition mux_Handle (pattern : string) (h : X) (m : routes X) : outcome (routes X) :=
  if decide (pattern = "") then Panic "http: invalid pattern"
  else
    match parsePattern pattern with
    | inr err => Panic ("parsing " +:+ quoted pattern +:+ ": " +:+ err)
    | inl pat =>
        if conflict pat m.*1 then Panic ("pattern " +:+ quoted pattern +:+ " conflicts with a registered pattern")
        else Ret (m ++ [(pattern, h)])
    end.

Definition ends_in_slash (pattern : string) : bool :=
  bool_decide (last_index_byte (bytes pattern) slash = Some (length (bytes pattern) - 1)%nat).

(** The pattern of a subtree that contains the path. *)
Definition subtree_matches (path : string) (ph : string * X) : bool :=
  ends_in_slash ph.1 && has_prefix path ph.1.

Definition longer (a b : option (string * X)) : option (string * X) :=
  match a, b with
  | None, _ => b
  | _, None => a
  | Some x, Some y => if (String.length x.1 <? String.length y.1)%nat then Some y else Some x
  end.

Definition better (path : string) (ph : string * X) (best : option (string * X)) : option (string * X) :=
  if subtree_matches path ph then longer (Some ph) best else best.

Definition mux_find (path : string) (m : routes X) : option X :=
  match mux_lookup path m with
  | Some h => Some h
  | None => snd <$> foldr (better path) None m
  end.
End Routes.

Definition mux (E : Type) : Type := routes (Handler E).

Section Mux.
Context {E : Type}.

Definition NotFound : Handler E := fun w r =>
  edit_header (header_Set "Content-Type" "text/plain; charset=utf-8");;
  edit_header (header_Set "X-Content-Type-Options" "nosniff");;
  WriteHeader w 404;;
  Write w ("404 page not found" +:+ newline);;
  mret tt.

Fixpoint html_escape_l (s : list ascii) : list ascii :=
  match s with
  | [] => []
  | a :: s' =>
      (if Ascii.eqb a (byte 38) then bytes "&amp;"
       else if Ascii.eqb a (byte 60) then bytes "&lt;"
       else if Ascii.eqb a (byte 62) then bytes "&gt;"
       else if Ascii.eqb a (byte 34) then bytes "&#34;"
       else if Ascii.eqb a (byte 39) then bytes "&#39;"
       else [a]) ++ html_escape_l s'
  end.

(** Bytes beyond ASCII are percent-encoded in the Location header. *)
Definition escape_non_ascii (s : string) : string :=
  str (flat_map (fun a => let n := nat_of_ascii a in
    if (128 <=? n)%nat then [byte 37; hex_digit (n / 16); hex_digit (n mod 16)] else [a]) (bytes s)).

Definition status_text (code : Z) : string :=
  if code =? 301 then "Moved Permanently" else if code =? 307 then "Temporary Redirect" else "".

(** [http.Redirect] to a rooted path. *)
Definition Redirect (w : writer) (r : request) (url : string) (code : Z) : M (world E) unit :=
  let url := cleanPath url in
  h ← get_header;
  let hadCT := match header_Values h "Content-Type" with [] => false | _ => true end in
  edit_header (header_Set "Location" (escape_non_ascii url));;
  (if negb hadCT && (bool_decide (Method r = "GET") || bool_decide (Method r = "HEAD"))
   then edit_header (header_Set "Content-Type" "text/html; charset=utf-8") else mret tt);;
  WriteHeader w code;;
  if negb hadCT && bool_decide (Method r = "GET") then
    Write w ("<a href=" +:+ quoted (str (html_escape_l (bytes url))) +:+ ">" +:+ status_text code +:+ "</a>." +:+
      newline +:+ newline);;
    mret tt
  else mret tt.

(** [mux.ServeHTTP]: an exact match of the clean path, or else a redirect to
    the subtree of that name; a redirect to the clean path if the request has
    another; the subtree that contains it, or 404. *)
Definition mux_ServeHTTP (m : mux E) : Handler E := fun w r =>
  let path := cleanPath (URLPath r) in
  let exact := match mux_lookup path m with Some _ => true | None => false end in
  let subtree := match mux_lookup (path +:+ "/") m with Some _ => true | None => false end in
  if negb exact && negb (ends_in_slash path) && subtree then Redirect w r (path +:+ "/") 307
  else if decide (path = URLPath r) then
    match mux_find path m with
    | Some h => h w r
    | None => NotFound w r
    end
  else Redirect w r path 307.

(** [http.StripPrefix]. *)
Definition StripPrefix (prefix : string) (h : Handler E) : Handler E := fun w r =>
  if decide (prefix = "") then h w r
  else
    match strip_prefix (bytes prefix) (bytes (URLPath r)) with
    | Some rest => h w (with_path (str rest) r)
    | None => NotFound w r
    end.
End Mux.

(** ** Lookup and registration *)

Section Lemmas.
Context {X : Type}.
Implicit Type m : routes X.


Lemma mux_lookup_None pattern m : mux_lookup pattern m = None <-> pattern ∉ m.*1.
Proof.
  unfold mux_lookup. induction m as [| [p h] m IH]; cbn.
  - split; [intros _; apply not_elem_of_nil | reflexivity].
  - case_bool_decide as Hp; cbn.
    + split; [discriminate |]. intros H. exfalso. apply H. subst. left.
    + rewrite IH, not_elem_of_cons. split; [intros H; split; [now intros -> | exact H] | now intros [_ H]].
Qed.

Lemma mux_Handle_spec pattern h m :
  mux_Handle pattern h m = Ret (m ++ [(pattern, h)]) <-> registrable pattern m.*1 = true.
Proof.
  unfold mux_Handle, registrable. destruct (decide (pattern = "")) as [-> |]; [cbn; split; discriminate |].
  destruct (parsePattern pattern) as [pat | err]; [| split; discriminate].
  destruct (conflict pat m.*1); cbn; split; (discriminate || reflexivity).
Qed.

Lemma mux_Handle_panics pattern h m : registrable pattern m.*1 = false -> exists v, mux_Handle pattern h m = Panic v.
Proof.
  unfold mux_Handle, registrable. destruct (decide _); [eauto |].
  destruct (parsePattern pattern) as [pat | err]; [| eauto]. destruct (conflict pat m.*1); [eauto | discriminate].
Qed.

Lemma mux_Handle_inv pattern h m m' : mux_Handle pattern h m = Ret m' ->
  registrable pattern m.*1 = true /\ m' = m ++ [(pattern, h)].
Proof.
  destruct (registrable pattern m.*1) eqn:E.
  - apply mux_Handle_spec with (h := h) in E. rewrite E. intros [= <-]. now split.
  - destruct (mux_Handle_panics pattern h m E) as [v ->]. discriminate.
Qed.

(** A handler just registered is found at its pattern. *)
Lemma mux_lookup_registered pattern h m m' : mux_Handle pattern h m = Ret m' -> mux_lookup pattern m' = Some h.
Proof.
  intros [H ->]%mux_Handle_inv. apply registrable_fresh in H. unfold mux_lookup.
  induction m as [| [q k] m IH]; cbn; [now rewrite bool_decide_eq_true_2 by reflexivity |].
  rewrite fmap_cons, not_elem_of_cons in H. destruct H as [Hne H].
  rewrite bool_decide_eq_false_2 by (intros ->; now apply Hne). exact (IH H).
Qed.

Lemma mux_find_registered pattern h m m' : mux_Handle pattern h m = Ret m' -> mux_find pattern m' = Some h.
Proof. intros H. unfold mux_find. now rewrite (mux_lookup_registered pattern h m m' H). Qed.

(** The payloads do not choose the route. *)
Definition mapped {Y} (f : X -> Y) (m : routes X) : routes Y := (fun ph => (ph.1, f ph.2)) <$> m.

Lemma mux_lookup_mapped {Y} (f : X -> Y) pattern m : mux_lookup pattern (mapped f m) = f <$> mux_lookup pattern m.
Proof.
  unfold mux_lookup, mapped. induction m as [| [p h] m IH]; [reflexivity |]. cbn. case_bool_decide; [reflexivity | exact IH].
Qed.

Lemma mux_find_mapped {Y} (f : X -> Y) path m : mux_find path (mapped f m) = f <$> mux_find path m.
Proof.
  unfold mux_find. rewrite mux_lookup_mapped. destruct (mux_lookup path m); [reflexivity |]. cbn [fmap option_fmap option_map].
  assert (foldr (better path) None (mapped f m) = (fun ph => (ph.1, f ph.2)) <$> foldr (better path) None m) as ->.
  { induction m as [| [p h] m IH]; [reflexivity |]. change (mapped f ((p, h) :: m)) with ((p, f h) :: mapped f m).
    cbn [foldr]. rewrite IH. unfold better at 1 3. change (subtree_matches path (p, f h)) with (subtree_matches path (p, h)).
    destruct (subtree_matches path (p, h)); [| reflexivity].
    destruct (foldr (better path) None m) as [[q k] |]; [| reflexivity].
    unfold longer. cbn [fmap option_fmap option_map fst snd]. destruct (_ <? _)%nat; reflexivity. }
  now destruct (foldr (better path) None m).
Qed.
End Lemmas.

Lemma append_ne s t : t <> "" -> s +:+ t <> s.
Proof.
  intros Ht E0. apply (f_equal bytes) in E0. rewrite bytes_app in E0.
  apply (f_equal length) in E0. rewrite length_app in E0. destruct t as [| a t]; [contradiction | cbn in E0; lia].
Qed.

Lemma ends_in_slash_app s : ends_in_slash (s +:+ "/") = true.
Proof.
  unfold ends_in_slash. rewrite bytes_app. change (bytes "/") with [slash]. apply bool_decide_eq_true_2.
  rewrite (last_index_byte_app (bytes s) [] slash) by reflexivity. f_equal. rewrite length_app. cbn. lia.
Qed.

(** *** Serving *)

(** A request for a registered pattern reaches its handler. *)
Lemma mux_serves {E} (m : mux E) (h : Handler E) w r : mux_lookup (URLPath r) m = Some h -> cleanPath (URLPath r) = URLPath r ->
  mux_ServeHTTP m w r = h w r.
Proof.
  intros Hl Hc. unfold mux_ServeHTTP, mux_find. rewrite Hc, Hl. cbn [negb andb]. now rewrite decide_True.
Qed.

(** One in a subtree without a pattern of its own reaches the subtree's. *)
Lemma mux_serves_subtree {E} (m : mux E) (h : Handler E) w r : mux_find (URLPath r) m = Some h ->
  mux_lookup (URLPath r +:+ "/") m = None -> cleanPath (URLPath r) = URLPath r ->
  mux_ServeHTTP m w r = h w r.
Proof.
  intros Hl Hn Hc. unfold mux_ServeHTTP. rewrite Hc, Hl, Hn, andb_false_r. now rewrite decide_True.
Qed.

(** Any other clean path is not found, unless it names a subtree. *)
Lemma mux_not_found {E} (m : mux E) w r : mux_find (URLPath r) m = None ->
  mux_lookup (URLPath r +:+ "/") m = None -> cleanPath (URLPath r) = URLPath r ->
  mux_ServeHTTP m w r = NotFound w r.
Proof.
  intros Hl Hn Hc. unfold mux_ServeHTTP. rewrite Hc, Hl, Hn, andb_false_r. now rewrite decide_True.
Qed.
