(* ===== verification/HTTPRuntime.v ===== *)
(** * The HTTP runtime

    [go/server/runtime.go], [extensions.go] and [http_preset.go]: the
    extension registry, the assembly of the root handler from muxes, system
    routes, content types, middleware and metrics, and the lifecycle.

    [http.ServeMux] is the one of Mux.v.  A handler is a function of the
    routes its mux has when the request arrives, so that what is registered
    on [RootMux()] or [APIMux()] after the assembly is served; one mux given
    as both the root and the API mux is not modelled.  The metrics and the
    tracing middleware are components of other files, used through what they
    promise here ([HTTPMetrics], [Tracing]).

    The theorems: when an assembly fails, panics, also on a pattern that
    net/http refuses, or gives a runtime ([assembly_outcome]); system routes
    bypass everything an application installs ([system_routes_bypass]); how
    the API is mounted ([mount_dispatch]) and that routes added later are
    served ([late_route_served]); every shutdown hook runs, and once
    ([lifecycle_once]); and a failed startup is rolled back
    ([startup_rolls_back]). *)

From S2P Require Import Prelude Float64 GoStrings GoErrors GoHTTP HTTPMiddleware Health Patterns Mux.
From S2P Require Runner.
From Stdlib Require Import Ascii.

(** ** Route prefixes *)

Definition normalizeRoutePrefix (prefix : string) : string :=
  if decide (prefix = "") then "/"
  else
    let prefix := if has_prefix prefix "/" then prefix else "/" +:+ prefix in
    trim_suffix prefix "/".

Definition validateRoutePrefix (name prefix : string) : option error :=
  if contains prefix "//"
  then Some (EText (name +:+ " must not contain empty path segments: " +:+ quoted prefix))
  else None.

Definition normalizeLabelPrefix (prefix : string) : string :=
  let prefix := normalizeRoutePrefix prefix in
  if decide (prefix = "") then "/" else prefix.

Definition routePathHasPrefix (path prefix : string) : bool :=
  if decide (prefix = "" \/ prefix = "/") then true
  else bool_decide (path = prefix) || has_prefix path (prefix +:+ "/").

(** The labels of the default labeler; [None] is a nil request or URL. *)
Definition metricsPathLabelerOrDefault (configured : option (request -> string)) (apiBasePath metricsPath : string) :
    option request -> string :=
  match configured with
  | Some f => fun r => match r with Some r => f r | None => "" end
  | None =>
      let apiBasePath := normalizeLabelPrefix apiBasePath in
      let metricsPath := normalizeLabelPrefix metricsPath in
      fun r =>
        match r with
        | None => "/"
        | Some r =>
            let path := URLPath r in
            if decide (path = "") then "/"
            else if bool_decide (path = metricsPath) || bool_decide (path = "/health") || has_prefix path "/health/"
            then path
            else if routePathHasPrefix path apiBasePath then
              if decide (apiBasePath = "/") then "/*"
              else if decide (path = apiBasePath) then apiBasePath
              else apiBasePath +:+ "/*"
            else path
        end
  end.

(** ** Extensions *)

Section Runtime.
Context {W L C : Type}.
Abbreviation E := (menv L).

(** A hook is given a context and returns an error or nothing; [W] is the
    world it runs in. *)
Abbreviation hook := (Runner.context -> M W (option error)).

(** The root mux leads to the API mux, and routes may be added to both while
    they serve: its handlers are functions of the API mux at the time of the
    request. *)
Definition root_mux : Type := routes (mux E -> Handler E).

Definition at_request (root : root_mux) (api : mux E) : mux E := mapped (fun h => h api) root.

Record RuntimeExtension : Type := mkExtension {
  ext_Name : string;
  ext_APIMiddleware : list (Middleware E);
  ext_RegisterRoutes : root_mux * mux E -> outcome (root_mux * mux E);
  ext_Startup : hook;
  ext_Shutdown : hook
}.

(** The registered extensions; [None] is a nil extension. *)
Definition RegisterRuntimeExtension (ext : option RuntimeExtension) (extensions : list RuntimeExtension) :
    list RuntimeExtension :=
  match ext with
  | None => extensions
  | Some ext =>
      if decide (ext_Name ext = "") then extensions
      else if existsb (fun existing => bool_decide (ext_Name existing = ext_Name ext)) extensions then extensions
      else extensions ++ [ext]
  end.

Definition RuntimeExtensions (extensions : list RuntimeExtension) : list RuntimeExtension := extensions.

(** ** Assembly *)

Record HTTPMiddlewarePresetConfig : Type := mkPreset { TracerName : string; PresetTimeout : Z }.

(** What the runtime uses of the metrics: their handler and middleware. *)
Record HTTPMetrics : Type := mkHTTPMetrics { metrics_Handler : Handler E; metrics_Middleware : Middleware E }.

(** What the metrics are made from. *)
Record HTTPMetricsConfig : Type := mkHTTPMetricsConfig {
  met_ServiceName : string;
  met_Collectors : list (option C);
  met_PathLabeler : option request -> string;
  met_IgnorePaths : list string
}.

Record HTTPRuntimeConfig : Type := mkRuntimeConfig {
  ServiceName : string;
  RootMux : option root_mux;
  APIMux : option (mux E);
  APIBasePath : string;
  MiddlewarePreset : option HTTPMiddlewarePresetConfig;
  RootMiddleware : list (Middleware E);
  SystemMiddleware : list (Middleware E);
  APIMiddleware : list (Middleware E);
  cfg_Health : option HealthRegistry;
  HealthCheckTimeout : Z;
  cfg_Metrics : option HTTPMetrics;
  MetricsCollectors : list (option C);
  MetricsPath : string;
  MetricsPathLabeler : option (request -> string);
  DisableHealthRoutes : bool;
  DisableMetricsRoute : bool;
  DisableRegisteredExtensions : bool;
  cfg_StartupHooks : list (option hook);
  cfg_ShutdownHooks : list (option hook)
}.

(** [rt_handler] is the assembled handler as a function of the root mux it
    leads to; [sync.Once] and the error the hooks gave. *)
Record HTTPRuntime : Type := mkRuntime {
  rt_handler : mux E -> Handler E;
  rootMux : root_mux;
  apiMux : mux E;
  health : HealthRegistry;
  metrics : option HTTPMetrics;
  startupHooks : list (option hook);
  shutdownHooks : list (option hook);
  shutdownOnce : bool;
  shutdownErr : option error
}.

(** [Handler], which serves with the routes the muxes then have. *)
Definition handler (r : HTTPRuntime) : Handler E := rt_handler r (at_request (rootMux r) (apiMux r)).

(** [APIMux]. *)
Definition APIMux_of (r : HTTPRuntime) : mux E := apiMux r.

(** A runtime whose muxes have new routes: [RootMux().Handle] and
    [APIMux().Handle]. *)
Definition set_muxes (root : root_mux) (api : mux E) (r : HTTPRuntime) : HTTPRuntime :=
  mkRuntime (rt_handler r) root api (health r) (metrics r) (startupHooks r) (shutdownHooks r) (shutdownOnce r) (shutdownErr r).

(** Randomness, the tracing middleware, the metrics, and the probe handlers
    of the registry. *)
Context (rand_Read : M (world E) (option (list ascii))) (Tracing : string -> Middleware E)
  (NewHTTPMetrics : HTTPMetricsConfig -> HTTPMetrics) (summary : Handler E) (phase_handler : string -> Handler E).

Definition DefaultHTTPMiddleware (cfg : HTTPMiddlewarePresetConfig) : list (Middleware E) :=
  let tracerName := if decide (TracerName cfg = "") then "dense-service" else TracerName cfg in
  [RequestID rand_Read; Recovery] ++
  (if 0 <? PresetTimeout cfg then [RequestTimeout (PresetTimeout cfg)] else []) ++
  [Tracing tracerName; Logging].

(** [RegisterHandlers] on a mux that is not nil. *)
Definition bindo {A B} (o : outcome A) (f : A -> outcome B) : outcome B :=
  match o with Ret a => f a | Panic v => Panic v end.

Definition RegisterHandlers (m : mux E) : outcome (mux E) :=
  bindo (mux_Handle "/health" summary m) (fun m =>
  bindo (mux_Handle "/health/live" (phase_handler "live") m) (fun m =>
  bindo (mux_Handle "/health/ready" (phase_handler "ready") m) (fun m =>
  mux_Handle "/health/startup" (phase_handler "startup") m))).

Definition health_paths : list string := ["/health"; "/health/live"; "/health/ready"; "/health/startup"].

Definition systemRouteHandler (system : Handler E) (paths : list string) (next : Handler E) : Handler E :=
  match paths with
  | [] => next
  | _ => fun w r => if decide (URLPath r ∈ paths) then system w r else next w r
  end.

Definition mountAPISubrouter (root : root_mux) (prefix : string) (apiHandler : mux E -> Handler E) : outcome root_mux :=
  let trimmed := trim_suffix prefix "/" in
  if decide (trimmed = "") then mux_Handle "/" apiHandler root
  else
    bindo (mux_Handle (trimmed +:+ "/") (fun api => StripPrefix trimmed (apiHandler api)) root) (fun root =>
    mux_Handle trimmed (fun _ w r => Redirect w r (trimmed +:+ "/") 307) root).

(** The loop over the extensions. *)
Fixpoint use_extensions (exts : list RuntimeExtension) (muxes : root_mux * mux E) (apiMiddleware : list (Middleware E))
    (startup shutdown : list (option hook)) :
    outcome (root_mux * mux E * list (Middleware E) * list (option hook) * list (option hook)) :=
  match exts with
  | [] => Ret (muxes, apiMiddleware, startup, shutdown)
  | ext :: exts' =>
      bindo (ext_RegisterRoutes ext muxes) (fun muxes =>
      use_extensions exts' muxes (apiMiddleware ++ ext_APIMiddleware ext)
        (startup ++ [Some (ext_Startup ext)]) (shutdown ++ [Some (ext_Shutdown ext)]))
  end.

(** The handler around the root mux. *)
Definition assemble (cfg : HTTPRuntimeConfig) (apiBasePath : string) (systemMux : mux E) (systemPaths : list string)
    (metrics : option HTTPMetrics) : mux E -> Handler E := fun root =>
  let rootHandler := mux_ServeHTTP root in
  let rootHandler := ContentTypeForPrefix apiBasePath "application/json" rootHandler in
  let rootHandler := Chain (RootMiddleware cfg) rootHandler in
  let systemHandler := Chain (SystemMiddleware cfg) (mux_ServeHTTP systemMux) in
  let rootHandler := systemRouteHandler systemHandler systemPaths rootHandler in
  let rootHandler := match MiddlewarePreset cfg with
                     | Some preset => Chain (DefaultHTTPMiddleware preset) rootHandler
                     | None => rootHandler
                     end in
  match metrics with Some m => metrics_Middleware m rootHandler | None => rootHandler end.

Definition runtime_metrics (cfg : HTTPRuntimeConfig) (serviceName apiBasePath metricsPath : string) : option HTTPMetrics :=
  match cfg_Metrics cfg with
  | Some m => Some m
  | None =>
      if DisableMetricsRoute cfg then None
      else Some (NewHTTPMetrics (mkHTTPMetricsConfig serviceName (MetricsCollectors cfg)
        (metricsPathLabelerOrDefault (MetricsPathLabeler cfg) apiBasePath metricsPath) (health_paths ++ [metricsPath])))
  end.

Definition runtime_health (cfg : HTTPRuntimeConfig) : HealthRegistry :=
  match cfg_Health cfg with
  | None => NewHealthRegistry [Some (WithHealthCheckTimeout (HealthCheckTimeout cfg))]
  | Some h => setHealthCheckTimeout (HealthCheckTimeout cfg) h
  end.

Definition default_string (s d : string) : string := if decide (s = "") then d else s.

Definition NewHTTPRuntime (extensions : list RuntimeExtension) (cfg : HTTPRuntimeConfig) :
    outcome (HTTPRuntime + error) :=
  let serviceName := default_string (ServiceName cfg) "dense-service" in
  let root := default [] (RootMux cfg) in
  let api := default [] (APIMux cfg) in
  let apiBasePath := normalizeRoutePrefix (default_string (APIBasePath cfg) "/v1") in
  match validateRoutePrefix "APIBasePath" apiBasePath with
  | Some err => Ret (inr err)
  | None =>
      bindo (if DisableHealthRoutes cfg then Ret [] else RegisterHandlers []) (fun systemMux =>
      let systemPaths := if DisableHealthRoutes cfg then [] else health_paths in
      let metricsPath := normalizeRoutePrefix (default_string (MetricsPath cfg) "/metrics") in
      match validateRoutePrefix "MetricsPath" metricsPath with
      | Some err => Ret (inr err)
      | None =>
          let m := runtime_metrics cfg serviceName apiBasePath metricsPath in
          let registered := if DisableMetricsRoute cfg then None else m in
          bindo (match registered with
                 | Some m => mux_Handle metricsPath (metrics_Handler m) systemMux
                 | None => Ret systemMux
                 end) (fun systemMux =>
          let systemPaths := match registered with Some _ => systemPaths ++ [metricsPath] | None => systemPaths end in
          let exts := if DisableRegisteredExtensions cfg then [] else RuntimeExtensions extensions in
          bindo (use_extensions exts (root, api) (APIMiddleware cfg) (cfg_StartupHooks cfg) (cfg_ShutdownHooks cfg))
            (fun x =>
          let '(root, api, apiMiddleware, startup, shutdown) := x in
          bindo (mountAPISubrouter root apiBasePath (fun api => Chain apiMiddleware (mux_ServeHTTP api))) (fun root =>
          Ret (inl (mkRuntime (assemble cfg apiBasePath systemMux systemPaths m) root api (runtime_health cfg) m
            startup shutdown false None)))))
      end)
  end.

Definition MustNewHTTPRuntime (extensions : list RuntimeExtension) (cfg : HTTPRuntimeConfig) : outcome HTTPRuntime :=
  bindo (NewHTTPRuntime extensions cfg) (fun x =>
    match x with
    | inl rt => Ret rt
    | inr err => Panic ("failed to build DenseCloud HTTP runtime: " +:+ error_text err)
    end).

(** ** Lifecycle *)

(** The runtime's state and the world of its hooks. *)
Definition set_health (h : HealthRegistry) (r : HTTPRuntime) : HTTPRuntime :=
  mkRuntime (rt_handler r) (rootMux r) (apiMux r) h (metrics r) (startupHooks r) (shutdownHooks r) (shutdownOnce r)
    (shutdownErr r).
Definition set_shutdown (once : bool) (e : option error) (r : HTTPRuntime) : HTTPRuntime :=
  mkRuntime (rt_handler r) (rootMux r) (apiMux r) (health r) (metrics r) (startupHooks r) (shutdownHooks r) once e.

Abbreviation LM := (M (HTTPRuntime * W)).
Definition on_runtime (f : HTTPRuntime -> HTTPRuntime) : LM unit := modify (fun s => (f s.1, s.2)).
Definition run_hook (h : hook) (ctx : Runner.context) : LM (option error) := zoom snd (fun w s => (s.1, w)) (h ctx).

Definition BeginShutdown (_ : Runner.context) : LM (option error) :=
  on_runtime (fun r => set_health (MarkShuttingDown (health r)) r);; mret None.

(** The loop of the once: every hook, the first error kept. *)
Fixpoint shutdown_loop (hooks : list (option hook)) (ctx : Runner.context) : LM unit :=
  match hooks with
  | [] => mret tt
  | None :: hooks' => shutdown_loop hooks' ctx
  | Some h :: hooks' =>
      e ← run_hook h ctx;
      on_runtime (fun r => set_shutdown (shutdownOnce r) (keep_first (shutdownErr r) e) r);;
      shutdown_loop hooks' ctx
  end.

(** [Do] marks the once done even if the function panics. *)
Definition rt_Shutdown (ctx : Runner.context) : LM (option error) :=
  BeginShutdown ctx;;
  r ← gets fst;
  (if shutdownOnce r then mret tt
   else deferring (shutdown_loop (shutdownHooks r) ctx)
     (fun _ => on_runtime (fun r => set_shutdown true (shutdownErr r) r)));;
  r ← gets fst;
  mret (shutdownErr r).

Fixpoint startup_loop (hooks : list (option hook)) (ctx : Runner.context) : LM (option error) :=
  match hooks with
  | [] => mret None
  | None :: hooks' => startup_loop hooks' ctx
  | Some h :: hooks' => e ← run_hook h ctx; match e with Some e => mret (Some e) | None => startup_loop hooks' ctx end
  end.

Definition rt_Startup (ctx : Runner.context) : LM (option error) :=
  r ← gets fst;
  e ← startup_loop (startupHooks r) ctx;
  match e with
  | Some err =>
      rollbackErr ← rt_Shutdown ctx;
      match rollbackErr with
      | Some _ => mret (errors_join [Some err; rollbackErr])
      | None => mret (Some err)
      end
  | None => on_runtime (fun r => set_health (MarkStarted (health r)) r);; mret None
  end.
(** The system mux with the probe routes. *)
Definition health_mux : mux E :=
  [("/health", summary); ("/health/live", phase_handler "live"); ("/health/ready", phase_handler "ready");
   ("/health/startup", phase_handler "startup")].

Lemma RegisterHandlers_empty : RegisterHandlers [] = Ret health_mux.
Proof. reflexivity. Qed.

(** *** Mounting the API *)

Definition redirect_to (target : string) : Handler E := fun w r => Redirect w r target 307.

Definition mounted (t : string) (api : mux E -> Handler E) : mux E -> Handler E := fun m => StripPrefix t (api m).

Definition api_mux (prefix : string) (api : mux E -> Handler E) : root_mux :=
  if decide (trim_suffix prefix "/" = "") then [("/", api)]
  else [(trim_suffix prefix "/" +:+ "/", mounted (trim_suffix prefix "/") api);
        (trim_suffix prefix "/", fun _ => redirect_to (trim_suffix prefix "/" +:+ "/"))].

(** The patterns an API at the prefix needs can be registered beside those of
    a root mux. *)
Definition mountable (prefix : string) (patterns : list string) : bool :=
  let t := trim_suffix prefix "/" in
  if decide (t = "") then registrable "/" patterns
  else registrable (t +:+ "/") patterns && registrable t (patterns ++ [t +:+ "/"]).

Lemma mount_spec root prefix api :
  if mountable prefix root.*1 then mountAPISubrouter root prefix api = Ret (root ++ api_mux prefix api)
  else exists v, mountAPISubrouter root prefix api = Panic v.
Proof.
  unfold mountable, mountAPISubrouter, api_mux. set (t := trim_suffix prefix "/"). fold (mounted t api).
  destruct (decide (t = "")) as [Ht | Ht].
  - destruct (registrable "/" root.*1) eqn:Er; [now apply mux_Handle_spec | now apply mux_Handle_panics].
  - destruct (registrable (t +:+ "/") root.*1) eqn:Er; cbn [andb].
    + apply (mux_Handle_spec _ (mounted t api)) in Er. rewrite Er. cbn [bindo].
      assert (root.*1 ++ [t +:+ "/"] = (root ++ [(t +:+ "/", mounted t api)]).*1) as -> by (now rewrite fmap_app).
      destruct (registrable t _) eqn:E2; [| now apply mux_Handle_panics].
      apply (mux_Handle_spec _ (fun _ : mux E => redirect_to (t +:+ "/"))) in E2.
      etransitivity; [exact E2 |]. now rewrite <- app_assoc.
    + destruct (mux_Handle_panics (t +:+ "/") (mounted t api) root Er) as [v ->]. eauto.
Qed.

Lemma mount_inv root prefix api root' : mountAPISubrouter root prefix api = Ret root' -> root' = root ++ api_mux prefix api.
Proof.
  pose proof (mount_spec root prefix api) as H. destruct (mountable prefix root.*1); [congruence |].
  destruct H as [v H]. congruence.
Qed.

Lemma literal_trim prefix : literal_path prefix = true -> trim_suffix prefix "/" <> "" ->
  literal_path (trim_suffix prefix "/") = true.
Proof.
  intros Hl Ht. destruct (trim_suffix_cases prefix "/") as [Et | ->]; [| exact Hl].
  set (t := trim_suffix prefix "/") in *. rewrite Et in Hl. unfold literal_path in *.
  apply andb_true_iff in Hl as [Hp Hb]. rewrite bytes_app, forallb_app in Hb. apply andb_true_iff in Hb as [Hb _].
  rewrite Hb, andb_true_r. apply has_prefix_spec in Hp as [r Hp].
  destruct t as [| a t']; [contradiction |]. apply (f_equal bytes) in Hp. rewrite !bytes_app in Hp. cbn in Hp.
  injection Hp as -> _. apply (has_prefix_app "/" t').
Qed.

(** A literal path can always be mounted on an empty root mux. *)
Lemma mountable_literal prefix : prefix = "" \/ literal_path prefix = true -> mountable prefix [] = true.
Proof.
  intros H. unfold mountable. destruct (decide (trim_suffix prefix "/" = "")) as [| Ht]; [reflexivity |].
  destruct H as [-> | H]; [now destruct Ht |]. pose proof (literal_trim prefix H Ht) as Hl.
  assert (literal_path (trim_suffix prefix "/" +:+ "/") = true) as Hl' by (now apply literal_app).
  apply andb_true_iff. split.
  - apply registrable_literal; [exact Hl' | apply List.Forall_nil | apply not_elem_of_nil].
  - apply registrable_literal; [exact Hl | apply List.Forall_cons; [exact Hl' | apply List.Forall_nil] |].
    cbn. rewrite list_elem_of_singleton. intros E0. apply (append_ne (trim_suffix prefix "/") "/"); [discriminate | congruence].
Qed.

(** *** Assembly *)

Definition api_path (cfg : HTTPRuntimeConfig) : string := normalizeRoutePrefix (default_string (APIBasePath cfg) "/v1").
Definition metrics_path (cfg : HTTPRuntimeConfig) : string := normalizeRoutePrefix (default_string (MetricsPath cfg) "/metrics").

Definition base_system_paths (cfg : HTTPRuntimeConfig) : list string := if DisableHealthRoutes cfg then [] else health_paths.

(** The metrics route is wanted and cannot be registered beside the probes. *)
Definition metrics_route_refused (cfg : HTTPRuntimeConfig) : Prop :=
  DisableMetricsRoute cfg = false /\ registrable (metrics_path cfg) (base_system_paths cfg) = false.

Definition base_system_mux (cfg : HTTPRuntimeConfig) : mux E := if DisableHealthRoutes cfg then [] else health_mux.

Lemma system_mux_start cfg :
  (if DisableHealthRoutes cfg then Ret [] else RegisterHandlers []) = Ret (base_system_mux cfg).
Proof. unfold base_system_mux. now destruct (DisableHealthRoutes cfg). Qed.

Lemma base_system_patterns cfg : (base_system_mux cfg).*1 = base_system_paths cfg.
Proof. unfold base_system_mux, base_system_paths. now destruct (DisableHealthRoutes cfg). Qed.

(** The system mux and paths of a runtime, the metrics route included. *)
Definition system_routes (cfg : HTTPRuntimeConfig) : mux E * list string :=
  let m := runtime_metrics cfg (default_string (ServiceName cfg) "dense-service") (api_path cfg) (metrics_path cfg) in
  match (if DisableMetricsRoute cfg then None else m) with
  | Some m => (base_system_mux cfg ++ [(metrics_path cfg, metrics_Handler m)], base_system_paths cfg ++ [metrics_path cfg])
  | None => (base_system_mux cfg, base_system_paths cfg)
  end.

Lemma register_metrics cfg : let m := runtime_metrics cfg (default_string (ServiceName cfg) "dense-service")
    (api_path cfg) (metrics_path cfg) in
  let registered := if DisableMetricsRoute cfg then None else m in
  let o := match registered with
           | Some m => mux_Handle (metrics_path cfg) (metrics_Handler m) (base_system_mux cfg)
           | None => Ret (base_system_mux cfg)
           end in
  (o = Ret (system_routes cfg).1 /\ ~ metrics_route_refused cfg) \/ ((exists v, o = Panic v) /\ metrics_route_refused cfg).
Proof.
  cbv zeta. unfold system_routes, metrics_route_refused. destruct (DisableMetricsRoute cfg) eqn:Ed.
  - left. cbn. split; [reflexivity | intros [? _]; discriminate].
  - assert (exists m, runtime_metrics cfg (default_string (ServiceName cfg) "dense-service") (api_path cfg)
      (metrics_path cfg) = Some m) as [m ->] by (unfold runtime_metrics; rewrite Ed; destruct (cfg_Metrics cfg); eauto).
    cbn [fst]. rewrite <- base_system_patterns. destruct (registrable (metrics_path cfg) (base_system_mux cfg).*1) eqn:Er.
    + left. split; [now apply mux_Handle_spec |]. intros [_ H]. discriminate.
    + right. split; [now apply mux_Handle_panics | now split].
Qed.

Definition clean_paths (cfg : HTTPRuntimeConfig) : bool :=
  negb (contains (api_path cfg) "//") && negb (contains (metrics_path cfg) "//").

(** The runtime's handler: the system routes inside the preset and the
    metrics, beside the root routes. *)
Definition outer (cfg : HTTPRuntimeConfig) (h : Handler E) : Handler E :=
  let m := runtime_metrics cfg (default_string (ServiceName cfg) "dense-service") (api_path cfg) (metrics_path cfg) in
  let h := match MiddlewarePreset cfg with Some preset => Chain (DefaultHTTPMiddleware preset) h | None => h end in
  match m with Some m => metrics_Middleware m h | None => h end.

Definition root_handler (cfg : HTTPRuntimeConfig) (root : mux E) : Handler E :=
  Chain (RootMiddleware cfg) (ContentTypeForPrefix (api_path cfg) "application/json" (mux_ServeHTTP root)).

Definition system_handler (cfg : HTTPRuntimeConfig) : Handler E :=
  Chain (SystemMiddleware cfg) (mux_ServeHTTP (system_routes cfg).1).

Definition serving (cfg : HTTPRuntimeConfig) (root : mux E) : Handler E :=
  outer cfg (systemRouteHandler (system_handler cfg) (system_routes cfg).2 (root_handler cfg root)).

(** What [NewHTTPRuntime] gives, step by step. *)
Lemma NewHTTPRuntime_run exts cfg :
  (contains (api_path cfg) "//" = true -> exists e, NewHTTPRuntime exts cfg = Ret (inr e)) /\
  (clean_paths cfg = false -> exists e, NewHTTPRuntime exts cfg = Ret (inr e)) /\
  (clean_paths cfg = true -> metrics_route_refused cfg -> exists v, NewHTTPRuntime exts cfg = Panic v) /\
  (clean_paths cfg = true -> ~ metrics_route_refused cfg -> NewHTTPRuntime exts cfg =
    bindo (use_extensions (if DisableRegisteredExtensions cfg then [] else exts)
      (default [] (RootMux cfg), default [] (APIMux cfg)) (APIMiddleware cfg) (cfg_StartupHooks cfg)
      (cfg_ShutdownHooks cfg)) (fun x =>
    let '(root, api, apiMiddleware, startup, shutdown) := x in
    bindo (mountAPISubrouter root (api_path cfg) (fun api => Chain apiMiddleware (mux_ServeHTTP api))) (fun root =>
    Ret (inl (mkRuntime (serving cfg) root api (runtime_health cfg) (runtime_metrics cfg (default_string (ServiceName cfg) "dense-service") (api_path cfg)
      (metrics_path cfg)) startup shutdown false None))))).
Proof.
  unfold NewHTTPRuntime, clean_paths. cbv zeta. fold (api_path cfg). fold (metrics_path cfg).
  change (validateRoutePrefix "APIBasePath" (api_path cfg)) with
    (if contains (api_path cfg) "//" then Some (EText ("APIBasePath" +:+ " must not contain empty path segments: " +:+
      quoted (api_path cfg))) else None).
  change (validateRoutePrefix "MetricsPath" (metrics_path cfg)) with
    (if contains (metrics_path cfg) "//" then Some (EText ("MetricsPath" +:+ " must not contain empty path segments: " +:+
      quoted (metrics_path cfg))) else None).
  rewrite system_mux_start. cbn [bindo].
  destruct (contains (api_path cfg) "//"); cbn [negb andb]; [repeat split; eauto; discriminate |].
  destruct (contains (metrics_path cfg) "//"); cbn [negb andb]; [repeat split; eauto; discriminate |].
  split; [discriminate |]. split; [discriminate |].
  destruct (register_metrics cfg) as [[Ho Hn] | [[v Ho] Ht]]; match type of Ho with ?a = ?b =>
    match goal with |- context [bindo ?o _] => unify a o; replace o with b by (symmetry; exact Ho) end end; cbn [bindo].
  - split; [contradiction |]. intros _ _. unfold RuntimeExtensions.
    destruct (use_extensions _ _ _ _ _) as [[[[[root api] am] su] sd] | v]; cbn [bindo]; [| reflexivity].
    destruct (mountAPISubrouter root (api_path cfg) _) as [root' | v]; cbn [bindo]; [| reflexivity].
    do 3 f_equal. unfold assemble, serving, outer, system_handler, root_handler, system_routes, base_system_paths.
    destruct (if DisableMetricsRoute cfg then None else _); reflexivity.
  - split; [eauto | contradiction].
Qed.

(** *** Shutdown *)

(** The specification of the shutdown hooks, on the world alone: the hooks
    that are not nil run in the order of the list, once each, with the
    results [rs]; one that panics is the last that runs. *)
Inductive hooks_ran (ctx : Runner.context) :
    list (option hook) -> Clocked W -> list (option error) -> option panic_value -> Clocked W -> Prop :=
| ran_all w : hooks_ran ctx [] w [] None w
| ran_nil hooks w rs stop w' : hooks_ran ctx hooks w rs stop w' -> hooks_ran ctx (None :: hooks) w rs stop w'
| ran_hook h hooks w e w1 rs stop w' : h ctx w = (Ret e, w1) -> hooks_ran ctx hooks w1 rs stop w' ->
    hooks_ran ctx (Some h :: hooks) w (e :: rs) stop w'
| ran_panic h hooks w v w1 : h ctx w = (Panic v, w1) -> hooks_ran ctx (Some h :: hooks) w [] (Some v) w1.

(** Hooks that all return ran all of them. *)
Lemma hooks_ran_length ctx hooks w rs w' : hooks_ran ctx hooks w rs None w' -> length rs = length (omap id hooks).
Proof.
  remember None as stop eqn:Es. induction 1; cbn; [reflexivity | auto | f_equal; auto | discriminate].
Qed.

Definition hook_world (c : Clocked (HTTPRuntime * W)) : Clocked W := with_st c (st c).2.


(** What a run of hooks leaves alone. *)
Definition same_runtime (a b : HTTPRuntime) : Prop := health b = health a /\ shutdownOnce b = shutdownOnce a.

Lemma shutdown_loop_same hooks ctx (c : Clocked (HTTPRuntime * W)) :
  same_runtime (st c).1 (st (shutdown_loop hooks ctx c).2).1.
Proof.
  revert c. induction hooks as [| [h |] hooks IH]; intros c; cbn [shutdown_loop].
  - now split.
  - rewrite bind_run. unfold run_hook, zoom. destruct (h ctx (with_st c (st c).2)) as [[e | v] c1]; [| now split].
    rewrite bind_run. unfold on_runtime, modify. 
    match goal with |- same_runtime _ (st (shutdown_loop hooks ctx ?d).2).1 => exact (IH d) end.
  - apply IH.
Qed.

Lemma mark_shutting_same (r : HTTPRuntime) : shuttingDown (health r) = true ->
  set_health (MarkShuttingDown (health r)) r = r.
Proof. destruct r as [h rm am [a b d e f g n] m su sd o er]. cbn. now intros ->. Qed.

Definition shutting (r : HTTPRuntime) : HTTPRuntime := set_health (MarkShuttingDown (health r)) r.
Definition once_done (s : HTTPRuntime * W) : HTTPRuntime * W := (set_shutdown true (shutdownErr s.1) s.1, s.2).

Lemma rt_Shutdown_run ctx (c : Clocked (HTTPRuntime * W)) : rt_Shutdown ctx c =
  let c0 := with_st c (shutting (st c).1, (st c).2) in
  if shutdownOnce (st c).1 then (Ret (shutdownErr (st c).1), c0)
  else
    match shutdown_loop (shutdownHooks (st c).1) ctx c0 with
    | (Ret _, c1) => (Ret (shutdownErr (st c1).1), with_st c1 (once_done (st c1)))
    | (Panic v, c1) => (Panic v, with_st c1 (once_done (st c1)))
    end.
Proof.
  unfold rt_Shutdown, BeginShutdown, deferring, on_runtime, modify, gets, mret, M_ret, mbind, M_bind. cbn [st with_st fst snd].
  change (shutdownOnce (set_health (MarkShuttingDown (health (st c).1)) (st c).1)) with (shutdownOnce (st c).1).
  cbv zeta. unfold shutting. destruct (shutdownOnce (st c).1); [reflexivity |].
  change (shutdownHooks (set_health (MarkShuttingDown (health (st c).1)) (st c).1)) with (shutdownHooks (st c).1).
  destruct (shutdown_loop (shutdownHooks (st c).1) ctx _) as [[[] | v] c1]; reflexivity.
Qed.

Lemma rt_Shutdown_state ctx (c c' : Clocked (HTTPRuntime * W)) o : rt_Shutdown ctx c = (o, c') ->
  shuttingDown (health (st c').1) = true /\ shutdownOnce (st c').1 = true /\
  (forall e, o = Ret e -> shutdownErr (st c').1 = e).
Proof.
  rewrite rt_Shutdown_run. cbv zeta. destruct (shutdownOnce (st c).1) eqn:Eo.
  - intros [= <- <-]. split; [reflexivity |]. split; [exact Eo |]. intros e [= <-]. reflexivity.
  - pose proof (shutdown_loop_same (shutdownHooks (st c).1) ctx (with_st c (shutting (st c).1, (st c).2))) as [Hh Ho].
    destruct (shutdown_loop (shutdownHooks (st c).1) ctx _) as [[u | v] c1]; cbn [snd] in Hh, Ho; intros E0;
      injection E0 as <- <-; unfold once_done; cbn [st with_st fst health set_shutdown shutdownOnce].
    + split; [now rewrite Hh |]. split; [reflexivity |]. intros e [= <-]. reflexivity.
    + split; [now rewrite Hh |]. split; [reflexivity | discriminate].
Qed.

(** The loop runs the hooks and keeps the first error. *)
Lemma shutdown_loop_runs hooks ctx (c c' : Clocked (HTTPRuntime * W)) o : shutdown_loop hooks ctx c = (o, c') ->
  exists rs stop, hooks_ran ctx hooks (hook_world c) rs stop (hook_world c') /\
    shutdownErr (st c').1 = first_error (shutdownErr (st c).1 :: rs) /\
    o = match stop with Some v => Panic v | None => Ret tt end.
Proof.
  revert c. induction hooks as [| [h |] hooks IH]; intros c; cbn [shutdown_loop].
  - intros [= <- <-]. exists [], None. split; [constructor |]. split; [| reflexivity]. now destruct (shutdownErr (st c).1).
  - rewrite bind_run. unfold run_hook, zoom. fold (hook_world c). destruct (h ctx (hook_world c)) as [[e | v] c1] eqn:Eh.
    + rewrite bind_run. unfold on_runtime at 1, modify. intros E0. apply IH in E0 as (rs & stop & H & He & Ho).
      exists (e :: rs), stop. split; [| split; [| exact Ho]].
      * eapply ran_hook; [exact Eh |]. now destruct c1.
      * rewrite He. cbn. unfold keep_first. cbn. now destruct (shutdownErr (st c).1), e.
    + intros [= <- <-]. exists [], (Some v). split; [| split; [| reflexivity]].
      * eapply ran_panic. rewrite Eh. now destruct c1.
      * cbn. now destruct (shutdownErr (st c).1).
  - intros E0. apply IH in E0 as (rs & stop & H & He). exists rs, stop. split; [now constructor | exact He].
Qed.

Lemma first_Shutdown ctx (c c' : Clocked (HTTPRuntime * W)) o : shutdownOnce (st c).1 = false -> rt_Shutdown ctx c = (o, c') ->
  exists rs stop, hooks_ran ctx (shutdownHooks (st c).1) (hook_world c) rs stop (hook_world c') /\
    shutdownErr (st c').1 = first_error (shutdownErr (st c).1 :: rs) /\
    o = match stop with Some v => Panic v | None => Ret (shutdownErr (st c').1) end.
Proof.
  intros Hf. rewrite rt_Shutdown_run. cbv zeta. rewrite Hf.
  destruct (shutdown_loop (shutdownHooks (st c).1) ctx _) as [o1 c1] eqn:El.
  apply shutdown_loop_runs in El as (rs & stop & H & He & Ho). subst o1.
  intros E0. exists rs, stop. destruct stop as [v |]; injection E0 as <- <-; (split; [exact H | split; [exact He | reflexivity]]).
Qed.

Lemma startup_loop_same hooks ctx (c : Clocked (HTTPRuntime * W)) : (st (startup_loop hooks ctx c).2).1 = (st c).1.
Proof.
  revert c. induction hooks as [| [h |] hooks IH]; intros c; cbn [startup_loop]; [reflexivity | | apply IH].
  rewrite bind_run. unfold run_hook, zoom. destruct (h ctx (with_st c (st c).2)) as [[[e |] | v] c1]; [reflexivity | | reflexivity].
  rewrite IH. reflexivity.
Qed.

Lemma rt_Shutdown_started ctx (c : Clocked (HTTPRuntime * W)) :
  started (health (st (rt_Shutdown ctx c).2).1) = started (health (st c).1).
Proof.
  rewrite rt_Shutdown_run. cbv zeta. destruct (shutdownOnce (st c).1); [reflexivity |].
  pose proof (shutdown_loop_same (shutdownHooks (st c).1) ctx (with_st c (shutting (st c).1, (st c).2))) as [Hh _].
  destruct (shutdown_loop (shutdownHooks (st c).1) ctx _) as [[u | v] c1]; cbn [snd] in Hh |- *;
    unfold once_done; cbn [st with_st fst health set_shutdown]; now rewrite Hh.
Qed.

(** ** Theorems *)

(** No extension is applied. *)
Definition no_extensions (exts : list RuntimeExtension) (cfg : HTTPRuntimeConfig) : Prop :=
  exts = [] \/ DisableRegisteredExtensions cfg = true.

Lemma no_extensions_used exts cfg : no_extensions exts cfg ->
  (if DisableRegisteredExtensions cfg then [] else exts) = [].
Proof. intros [-> | ->]; [now destruct (DisableRegisteredExtensions cfg) | reflexivity]. Qed.

(** The API cannot be mounted on the configured root mux. *)
Definition api_refused (cfg : HTTPRuntimeConfig) : Prop :=
  mountable (api_path cfg) (default [] (RootMux cfg)).*1 = false.

(** The paths, and the patterns of the configured root mux, are ASCII. *)
Definition ascii_config (cfg : HTTPRuntimeConfig) : Prop :=
  Forall (fun p => ascii_only p = true) (api_path cfg :: metrics_path cfg :: (default [] (RootMux cfg)).*1).

Definition literal_or_root (p : string) : Prop := p = "" \/ literal_path p = true.

(** For literal paths on a root mux of its own, the refusals are those of a
    metrics path that is the root or a probe's. *)
Lemma literal_refusals cfg : RootMux cfg = None -> literal_or_root (api_path cfg) -> literal_or_root (metrics_path cfg) ->
  metrics_route_refused cfg \/ api_refused cfg <->
  DisableMetricsRoute cfg = false /\ (metrics_path cfg = "" \/ DisableHealthRoutes cfg = false /\ metrics_path cfg ∈ health_paths).
Proof.
  intros Hr Ha Hm. unfold api_refused. rewrite Hr. cbn [from_option fmap list_fmap]. rewrite (mountable_literal _ Ha).
  unfold metrics_route_refused, base_system_paths. destruct Hm as [-> | Hm]; [cbn; intuition discriminate |].
  assert (metrics_path cfg <> "") as Hne by (intros E0; now rewrite E0 in Hm).
  destruct (DisableHealthRoutes cfg).
  - assert (registrable (metrics_path cfg) [] = true) as ->; [| intuition discriminate].
    apply registrable_literal; [exact Hm | apply List.Forall_nil | apply not_elem_of_nil].
  - assert (Forall (fun t => literal_path t = true) health_paths) as Hh by (repeat constructor).
    pose proof (registrable_literal (metrics_path cfg) health_paths Hm Hh) as Hreg.
    destruct (registrable (metrics_path cfg) health_paths); [intuition discriminate |].
    destruct (decide (metrics_path cfg ∈ health_paths)) as [Hin | Hin]; [intuition discriminate |].
    apply Hreg in Hin. discriminate.
Qed.

(** C29. The assembly without extensions, on any root mux: an error exactly
    when a configured path has an empty segment; else a panic exactly when
    the pattern of the metrics path, or one of those the API is mounted with,
    does not parse or conflicts with a registered one; else a runtime.  For
    literal paths on a root mux of the runtime's own, it panics exactly when
    the metrics route is wanted at the root or at a probe's path.  Paths and
    patterns are ASCII. *)
Theorem assembly_outcome exts cfg : no_extensions exts cfg -> ascii_config cfg ->
  let refused := metrics_route_refused cfg \/ api_refused cfg in
  (clean_paths cfg = false <-> exists e, NewHTTPRuntime exts cfg = Ret (inr e)) /\
  (clean_paths cfg = true /\ refused <-> exists v, NewHTTPRuntime exts cfg = Panic v) /\
  (clean_paths cfg = true /\ ~ refused <-> exists rt, NewHTTPRuntime exts cfg = Ret (inl rt)) /\
  (RootMux cfg = None -> literal_or_root (api_path cfg) -> literal_or_root (metrics_path cfg) ->
    refused <-> DisableMetricsRoute cfg = false /\
      (metrics_path cfg = "" \/ DisableHealthRoutes cfg = false /\ metrics_path cfg ∈ health_paths)).
Proof.
  intros Hext _. destruct (NewHTTPRuntime_run exts cfg) as (_ & Herr & Hpanic & Hok).
  rewrite (no_extensions_used exts cfg Hext) in Hok. cbn [use_extensions bindo] in Hok.
  pose proof (mount_spec (default [] (RootMux cfg)) (api_path cfg)
    (fun api => Chain (APIMiddleware cfg) (mux_ServeHTTP api))) as Hmount.
  cbv zeta. refine ((fun H => conj (proj1 H) (conj (proj1 (proj2 H)) (conj (proj2 (proj2 H)) (literal_refusals cfg)))) _).
  unfold api_refused. assert (Decision (metrics_route_refused cfg)) as Hdec by (unfold metrics_route_refused; apply _).
  destruct (clean_paths cfg).
  - destruct Hdec as [Ht | Hn].
    + destruct (Hpanic eq_refl Ht) as [v ->]. split; [split; [discriminate | intros [e ?]; discriminate] |].
      split; [split; eauto | split; [tauto | intros [rt ?]; discriminate]].
    + rewrite (Hok eq_refl Hn). destruct (mountable _ _); [rewrite Hmount | destruct Hmount as [v ->]]; cbn [bindo];
        (split; [split; [discriminate | intros [e ?]; discriminate] |]).
      * split; [split; [intuition discriminate | intros [v ?]; discriminate] | split; [eauto | intuition discriminate]].
      * split; [split; eauto | split; [tauto | intros [rt ?]; discriminate]].
  - destruct (Herr eq_refl) as [e ->]. split; [split; eauto |].
    split; (split; [intros [? _]; discriminate | intros [x ?]; discriminate]).
Qed.

(** The steps of a successful assembly. *)
Lemma NewHTTPRuntime_inv exts cfg rt : NewHTTPRuntime exts cfg = Ret (inl rt) ->
  clean_paths cfg = true /\ ~ metrics_route_refused cfg /\
  exists root api am su sd, use_extensions (if DisableRegisteredExtensions cfg then [] else exts)
    (default [] (RootMux cfg), default [] (APIMux cfg)) (APIMiddleware cfg) (cfg_StartupHooks cfg)
    (cfg_ShutdownHooks cfg) = Ret (root, api, am, su, sd) /\
  mountAPISubrouter root (api_path cfg) (fun api => Chain am (mux_ServeHTTP api)) = Ret (rootMux rt) /\
  rt = mkRuntime (serving cfg) (rootMux rt) api (runtime_health cfg)
    (runtime_metrics cfg (default_string (ServiceName cfg) "dense-service") (api_path cfg) (metrics_path cfg)) su sd false None.
Proof.
  intros E0. destruct (NewHTTPRuntime_run exts cfg) as (_ & Herr & Hpanic & Hok).
  destruct (clean_paths cfg); [| destruct (Herr eq_refl) as [e E1]; congruence]. split; [reflexivity |].
  assert (~ metrics_route_refused cfg) as Hn.
  { intros Ht. destruct (Hpanic eq_refl Ht) as [v E1]. congruence. }
  split; [exact Hn |]. rewrite (Hok eq_refl Hn) in E0.
  destruct (use_extensions _ _ _ _ _) as [[[[[root api] am] su] sd] | v]; [| discriminate]. cbn [bindo] in E0.
  exists root, api, am, su, sd. split; [reflexivity |].
  destruct (mountAPISubrouter root (api_path cfg) _) as [root' | v]; [| discriminate]. cbn [bindo] in E0.
  injection E0 as <-. split; reflexivity.
Qed.

(** C35. In every runtime that is built, whatever routes are added to its
    muxes later, a request for a probe or metrics path is served by the
    system mux behind the system middleware alone: no root middleware, root
    route, API route or extension takes part. *)
Theorem system_routes_bypass exts cfg rt : NewHTTPRuntime exts cfg = Ret (inl rt) ->
  exists inner : mux E -> Handler E,
  (forall root api, handler (set_muxes root api rt) = outer cfg (inner (at_request root api))) /\
  handler rt = outer cfg (inner (at_request (rootMux rt) (apiMux rt))) /\
  forall m w r, URLPath r ∈ (system_routes cfg).2 -> inner m w r = system_handler cfg w r.
Proof.
  intros E0. destruct (NewHTTPRuntime_inv exts cfg rt E0) as (_ & _ & root & api & am & su & sd & _ & _ & ->).
  eexists (fun m => systemRouteHandler (system_handler cfg) (system_routes cfg).2 (root_handler cfg m)).
  split; [reflexivity |]. split; [reflexivity |]. intros m w r Hin. unfold systemRouteHandler.
  destruct (system_routes cfg).2 as [| p ps]; [now apply not_elem_of_nil in Hin |]. now rewrite decide_True.
Qed.

(** The root mux of an API mounted below a prefix, as requests see it. *)
Definition mounted_mux (t : string) (api : mux E -> Handler E) (m : mux E) : mux E :=
  [(t +:+ "/", mounted t api m); (t, redirect_to (t +:+ "/"))].

Lemma mounted_lookup_below t api m path : path <> t ->
  mux_lookup path (mounted_mux t api m) = Some (mounted t api m) \/ mux_lookup path (mounted_mux t api m) = None.
Proof.
  intros Hne. unfold mux_lookup, mounted_mux. cbn. case_bool_decide; [now left |].
  rewrite bool_decide_eq_false_2 by congruence. now right.
Qed.

(** A path below the prefix finds the API. *)
Lemma mounted_find_below t api m rest : mux_find (t +:+ "/" +:+ rest) (mounted_mux t api m) = Some (mounted t api m).
Proof.
  assert (t +:+ "/" +:+ rest <> t) as Hne by (apply (append_ne t ("/" +:+ rest)); discriminate).
  unfold mux_find. destruct (mounted_lookup_below t api m _ Hne) as [-> | ->]; [reflexivity |].
  unfold mounted_mux. cbn [foldr]. set (path := t +:+ "/" +:+ rest).
  assert (subtree_matches path (t +:+ "/", mounted t api m) = true) as Hsub.
  { unfold subtree_matches, path. cbn [fst]. rewrite ends_in_slash_app.
    assert (t +:+ "/" +:+ rest = (t +:+ "/") +:+ rest) as -> by (apply bytes_inj; rewrite !bytes_app; apply app_assoc).
    apply has_prefix_app. }
  unfold better at 1. rewrite Hsub. unfold better. destruct (subtree_matches path (t, redirect_to (t +:+ "/"))); [| reflexivity].
  unfold longer. cbn [fst]. rewrite string_length_app. change (String.length "/") with 1%nat.
  assert ((String.length t + 1 <? String.length t)%nat = false) as -> by (apply Nat.ltb_ge; lia). reflexivity.
Qed.

(** The prefix itself finds the redirect. *)
Lemma mounted_lookup_prefix t api m : mux_lookup t (mounted_mux t api m) = Some (redirect_to (t +:+ "/")).
Proof.
  assert (t +:+ "/" <> t) as Hne by (now apply append_ne). unfold mux_lookup, mounted_mux. cbn.
  rewrite bool_decide_eq_false_2 by congruence. now rewrite bool_decide_eq_true_2 by reflexivity.
Qed.

(** No pattern is longer than the prefix and its slash. *)
Lemma mounted_lookup_long t api m path : (String.length t + 1 < String.length path)%nat ->
  mux_lookup path (mounted_mux t api m) = None.
Proof.
  intros H. apply mux_lookup_None. cbn. rewrite !not_elem_of_cons.
  split; [| split; [| apply not_elem_of_nil]]; intros ->; [rewrite string_length_app in H; cbn in H |]; lia.
Qed.

(** A request below the prefix reaches the API. *)
Lemma mounted_serves_below t api m w r rest : URLPath r = t +:+ "/" +:+ rest -> cleanPath (URLPath r) = URLPath r ->
  mux_ServeHTTP (mounted_mux t api m) w r = mounted t api m w r.
Proof.
  intros Er Hc. apply mux_serves_subtree; [rewrite Er; apply mounted_find_below | | exact Hc].
  apply mounted_lookup_long. rewrite Er, !string_length_app. cbn. lia.
Qed.

(** No other path finds anything. *)
Lemma mounted_find_other t api m path : has_prefix path (t +:+ "/") = false -> path <> t -> ends_in_slash t = false ->
  mux_find path (mounted_mux t api m) = None.
Proof.
  intros Hpre Hneq Hend. unfold mux_find.
  assert (mux_lookup path (mounted_mux t api m) = None) as ->.
  { apply mux_lookup_None. cbn. rewrite !not_elem_of_cons. split; [| split; [exact Hneq | apply not_elem_of_nil]].
    intros ->. assert (has_prefix (t +:+ "/") (t +:+ "/") = true); [| congruence].
    apply has_prefix_spec. exists "". apply bytes_inj. rewrite !bytes_app. now rewrite app_nil_r. }
  unfold mounted_mux. cbn [foldr]. unfold better, subtree_matches. cbn [fst]. now rewrite Hpre, Hend, andb_false_r.
Qed.

Lemma StripPrefix_below t h w r (rest : string) : t <> "" -> URLPath r = t +:+ "/" +:+ rest ->
  @StripPrefix E t h w r = h w (with_path ("/" +:+ rest) r).
Proof.
  intros Ht Er. unfold StripPrefix. rewrite decide_False by exact Ht.
  assert (strip_prefix (bytes t) (bytes (URLPath r)) = Some (bytes ("/" +:+ rest))) as ->
    by (apply strip_prefix_spec; rewrite Er; apply bytes_app).
  now rewrite str_bytes.
Qed.

Lemma at_request_mounted prefix api m : trim_suffix prefix "/" <> "" ->
  at_request (api_mux prefix api) m = mounted_mux (trim_suffix prefix "/") api m.
Proof. intros Ht. unfold api_mux. now rewrite decide_False by exact Ht. Qed.

(** The routes of an API mounted at a literal prefix: whatever routes [m] the API mux
    has when the request arrives, a path below the prefix reaches them with
    the prefix taken off, the prefix itself is redirected below it, and no
    other path reaches the API. *)
Theorem mount_dispatch prefix api root m w r (c : Clocked (world E)) :
  mountAPISubrouter [] prefix api = Ret root -> cleanPath (URLPath r) = URLPath r ->
  let p := trim_suffix prefix "/" in
  p <> "" -> literal_path p = true ->
  (forall rest, URLPath r = p +:+ "/" +:+ rest ->
    mux_ServeHTTP (at_request root m) w r c = api m w (with_path ("/" +:+ rest) r) c) /\
  (URLPath r = p -> mux_ServeHTTP (at_request root m) w r c = Redirect w r (p +:+ "/") 307 c) /\
  (has_prefix (URLPath r) (p +:+ "/") = false -> URLPath r <> p -> URLPath r +:+ "/" <> p +:+ "/" ->
    ends_in_slash p = false -> mux_ServeHTTP (at_request root m) w r c = NotFound w r c).
Proof.
  intros Em Hclean p Hp _. apply mount_inv in Em. cbn [app] in Em. subst root.
  rewrite at_request_mounted by exact Hp. fold p. split; [| split].
  - intros rest Er. rewrite (mounted_serves_below p api m w r rest) by assumption.
    unfold mounted. now rewrite (StripPrefix_below p _ w r rest Hp Er).
  - intros Er. rewrite (mux_serves _ (redirect_to (p +:+ "/")) w r); [reflexivity | | exact Hclean].
    rewrite Er. apply mounted_lookup_prefix.
  - intros Hpre Hneq Hslash Hend. rewrite mux_not_found; [reflexivity | now apply mounted_find_other | | exact Hclean].
    apply mux_lookup_None. cbn. rewrite !not_elem_of_cons. split; [exact Hslash | split; [| apply not_elem_of_nil]].
    intros E0. rewrite <- E0, ends_in_slash_app in Hend. discriminate.
Qed.

(** The muxes of a runtime on a root mux of its own without extensions. *)
Lemma NewHTTPRuntime_plain exts cfg rt : NewHTTPRuntime exts cfg = Ret (inl rt) -> RootMux cfg = None ->
  no_extensions exts cfg ->
  rootMux rt = api_mux (api_path cfg) (fun api => Chain (APIMiddleware cfg) (mux_ServeHTTP api)) /\
  apiMux rt = default [] (APIMux cfg) /\ rt_handler rt = serving cfg /\ startupHooks rt = cfg_StartupHooks cfg /\
  shutdownHooks rt = cfg_ShutdownHooks cfg /\ shutdownOnce rt = false /\ health rt = runtime_health cfg.
Proof.
  intros E0 Hroot Hexts. destruct (NewHTTPRuntime_inv exts cfg rt E0) as (_ & _ & root & api & am & su & sd & Hu & Hm & Hrt).
  rewrite (no_extensions_used exts cfg Hexts), Hroot in Hu. cbn [use_extensions from_option] in Hu. injection Hu as <- <- <- <- <-.
  apply mount_inv in Hm. rewrite Hrt. cbn. now rewrite Hm.
Qed.

(** A handler registered at a literal path on the API mux of a runtime after
    its assembly answers below the API path: with the prefix taken off the path and the
    JSON content type as the default, inside the preset and the metrics. *)
Theorem late_route_served exts cfg rt rest h api :
  NewHTTPRuntime exts cfg = Ret (inl rt) -> RootMux cfg = None -> no_extensions exts cfg ->
  RootMiddleware cfg = [] -> APIMiddleware cfg = [] ->
  let p := trim_suffix (api_path cfg) "/" in let pattern := "/" +:+ rest in
  p <> "" -> literal_path p = true -> Forall (fun q => literal_path q = true) (pattern :: (apiMux rt).*1) ->
  mux_Handle pattern h (apiMux rt) = Ret api -> cleanPath pattern = pattern ->
  exists inner, handler (set_muxes (rootMux rt) api rt) = outer cfg inner /\
  forall w r c, URLPath r = p +:+ pattern -> cleanPath (URLPath r) = URLPath r -> URLPath r ∉ (system_routes cfg).2 ->
  inner w r c = ContentTypeForPrefix (api_path cfg) "application/json" (fun w r => h w (with_path pattern r)) w r c.
Proof.
  intros E0 Hroot Hexts HR HA p pattern Hp _ _ Hreg Hclean.
  destruct (NewHTTPRuntime_plain exts cfg rt E0 Hroot Hexts) as (Hrm & _ & Hh & _). rewrite HA in Hrm.
  unfold handler. cbn [rt_handler set_muxes rootMux apiMux]. rewrite Hh, Hrm. eexists. split; [reflexivity |].
  intros w r c Hr Hcr Hsys. assert (mux_ServeHTTP (at_request (api_mux (api_path cfg) (fun api => Chain [] (mux_ServeHTTP api))) api) w r
    = h w (with_path pattern r)) as Hserve.
  { rewrite at_request_mounted by exact Hp. fold p. rewrite (mounted_serves_below p _ api w r rest) by assumption.
    unfold mounted. rewrite (StripPrefix_below p _ w r rest Hp Hr). fold pattern.
    change (Chain [] (mux_ServeHTTP api) w (with_path pattern r)) with (mux_ServeHTTP api w (with_path pattern r)).
    apply mux_serves; [exact (mux_lookup_registered pattern h _ api Hreg) | exact Hclean]. }
  unfold systemRouteHandler. destruct (system_routes cfg).2; [| rewrite decide_False by exact Hsys];
    unfold root_handler; rewrite HR; match goal with |- Chain [] ?k w r c = _ => change (Chain [] k w r c) with (k w r c) end;
    unfold ContentTypeForPrefix; now rewrite Hserve.
Qed.

(** C24. The first [Shutdown] runs every hook that is not nil, in order and
    once, a panic being the only thing that ends the sequence, and keeps and
    returns the first error; the runtime is marked as shutting down and the
    once as done, even if a hook panics.  Another [Shutdown] runs no hook,
    changes nothing and returns the same error. *)
Theorem lifecycle_once ctx ctx' (c c' : Clocked (HTTPRuntime * W)) o : rt_Shutdown ctx c = (o, c') ->
  shuttingDown (health (st c').1) = true /\ shutdownOnce (st c').1 = true /\
  (shutdownOnce (st c).1 = false -> exists rs stop,
    hooks_ran ctx (shutdownHooks (st c).1) (hook_world c) rs stop (hook_world c') /\
    shutdownErr (st c').1 = first_error (shutdownErr (st c).1 :: rs) /\
    o = match stop with Some v => Panic v | None => Ret (shutdownErr (st c').1) end /\
    (stop = None -> length rs = length (omap id (shutdownHooks (st c).1)))) /\
  (shutdownOnce (st c).1 = true -> o = Ret (shutdownErr (st c).1) /\ shutdownErr (st c').1 = shutdownErr (st c).1 /\
    hook_world c' = hook_world c) /\
  rt_Shutdown ctx' c' = (Ret (shutdownErr (st c').1), c').
Proof.
  intros E0. destruct (rt_Shutdown_state ctx c c' o E0) as (Hs & Ho & _). split; [exact Hs |]. split; [exact Ho |].
  split; [| split].
  - intros Hf. destruct (first_Shutdown ctx c c' o Hf E0) as (rs & stop & H & He & Hout). exists rs, stop.
    split; [exact H |]. split; [exact He |]. split; [exact Hout |]. intros ->. exact (hooks_ran_length _ _ _ _ _ H).
  - intros Ht. rewrite rt_Shutdown_run in E0. cbv zeta in E0. rewrite Ht in E0. injection E0 as <- <-. repeat split.
  - rewrite rt_Shutdown_run. cbv zeta. rewrite Ho. unfold shutting.
    rewrite mark_shutting_same by exact Hs. destruct c' as [ck wl tk [rt w]]. reflexivity.
Qed.

(** [Startup] succeeds only with the runtime marked as started and its
    shutdown hooks not run; if it fails, the hooks were run by the rollback
    and the runtime is shutting down, never started by this call. *)
Theorem startup_rolls_back ctx (c c' : Clocked (HTTPRuntime * W)) e : rt_Startup ctx c = (Ret e, c') ->
  (e = None -> started (health (st c').1) = true /\ shutdownOnce (st c').1 = shutdownOnce (st c).1 /\
    shuttingDown (health (st c').1) = shuttingDown (health (st c).1)) /\
  (e <> None -> started (health (st c').1) = started (health (st c).1) /\ shutdownOnce (st c').1 = true /\
    shuttingDown (health (st c').1) = true).
Proof.
  unfold rt_Startup. rewrite bind_run. unfold gets. rewrite bind_run.
  pose proof (startup_loop_same (startupHooks (st c).1) ctx c) as Hsame.
  destruct (startup_loop (startupHooks (st c).1) ctx c) as [[[err |] | v] c1]; [| | discriminate]; cbn [snd] in Hsame.
  - rewrite bind_run. destruct (rt_Shutdown ctx c1) as [o c2] eqn:Es.
    destruct (rt_Shutdown_state ctx c1 c2 o Es) as (Hd & Ho & _). pose proof (rt_Shutdown_started ctx c1) as Hst.
    rewrite Es in Hst. cbn [snd] in Hst. destruct o as [rollback | v]; [| discriminate].
    destruct rollback as [b |]; intros [= <- <-]; (split; [discriminate |]); intros _;
      rewrite Hst, Hsame; auto.
  - rewrite bind_run. unfold on_runtime, modify, mret, M_ret. cbn. intros [= <- <-]. split; [| contradiction].
    intros _. cbn. rewrite Hsame. auto.
Qed.
End Runtime.

(** ** Witnesses *)

(** A runtime of one route, without metrics; its handlers answer nothing. *)
Definition silent {L} : Handler (menv L) := fun _ _ => mret tt.

Definition demo_config (metricsPath : string) : @HTTPRuntimeConfig unit unit unit :=
  mkRuntimeConfig "demo" None None "/api/" None [] [] [] None 0 None [] metricsPath None false false true [] [].

Definition demo_new : @HTTPMetricsConfig unit -> @HTTPMetrics unit := fun _ => mkHTTPMetrics silent (fun h => h).

Definition demo_runtime (metricsPath : string) : outcome (@HTTPRuntime unit unit + error) :=
  NewHTTPRuntime (mret None) (fun _ h => h) demo_new silent (fun _ => silent) [] (demo_config metricsPath).

Lemma assembly_outcome_witness : exists v, demo_runtime "/health/" = Panic v.
Proof.
  destruct (assembly_outcome (mret None) (fun _ h => h) demo_new silent (fun _ => silent) [] (demo_config "/health/"))
    as (_ & Hpanic & _ & Hlit); [now left | repeat constructor |].
  apply Hpanic. split; [reflexivity |]. apply Hlit; [reflexivity | now right | now right |].
  split; [reflexivity |]. right. split; [reflexivity | left].
Defined.

Lemma system_routes_bypass_witness : exists rt inner, demo_runtime "" = Ret (inl rt) /\
  handler rt = outer (mret None) (fun _ h => h) demo_new (demo_config "") inner /\
  inner WBase (with_path "/health/live" demo_request) =
    system_handler demo_new silent (fun _ => silent) (demo_config "") WBase (with_path "/health/live" demo_request).
Proof.
  assert (exists rt, demo_runtime "" = Ret (inl rt)) as [rt E] by (eexists; reflexivity).
  destruct (system_routes_bypass (mret None) (fun _ h => h) demo_new silent (fun _ => silent) [] (demo_config "") rt E)
    as (inner & _ & Eh & Hi).
  exists rt, (inner (at_request (rootMux rt) (apiMux rt))). split; [exact E |]. split; [exact Eh |]. apply Hi. right. left.
Defined.

(** An API that logs the path it is asked for. *)
Definition demo_api : Handler (menv unit) := fun _ r =>
  log_access (mkAccess "" "" "" (URLPath r) 0 f64_zero "" "" 0 None).

Lemma mount_dispatch_witness :
  mux_ServeHTTP (at_request (api_mux "/api" mux_ServeHTTP) [("/items", demo_api)]) WBase (with_path "/api/items" demo_request)
    (demo_clocked (demo_world tt)) =
    demo_api WBase (with_path "/items" demo_request) (demo_clocked (demo_world tt)).
Proof.
  assert (trim_suffix "/api" "/" <> "") as Hp by discriminate.
  destruct (mount_dispatch "/api" mux_ServeHTTP (api_mux "/api" mux_ServeHTTP) [("/items", demo_api)] WBase
    (with_path "/api/items" demo_request) (demo_clocked (demo_world tt)) eq_refl eq_refl Hp eq_refl) as (H & _).
  exact (H "items" eq_refl).
Defined.

(** The route of the example program, registered after the assembly. *)
Lemma late_route_served_witness : exists rt api inner, demo_runtime "" = Ret (inl rt) /\
  mux_Handle "/status" demo_api (apiMux rt) = Ret api /\
  handler (set_muxes (rootMux rt) api rt) = outer (mret None) (fun _ h => h) demo_new (demo_config "") inner /\
  inner WBase (with_path "/api/status" demo_request) (demo_clocked (demo_world tt)) =
    ContentTypeForPrefix "/api" "application/json" (fun w r => demo_api w (with_path "/status" r)) WBase
      (with_path "/api/status" demo_request) (demo_clocked (demo_world tt)).
Proof.
  assert (exists rt, demo_runtime "" = Ret (inl rt) /\ mux_Handle "/status" demo_api (apiMux rt) = Ret [("/status", demo_api)] /\
    apiMux rt = []) as (rt & E & Em & Ea) by (eexists; split; [| split]; reflexivity).
  destruct (late_route_served (mret None) (fun _ h => h) demo_new silent (fun _ => silent) [] (demo_config "") rt "status"
    demo_api [("/status", demo_api)]) as (inner & Eh & Hi); try reflexivity.
  - exact E.
  - now left.
  - discriminate.
  - rewrite Ea. repeat constructor.
  - exact Em.
  - exists rt, [("/status", demo_api)], inner. split; [exact E |]. split; [exact Em |]. split; [exact Eh |].
    apply Hi; [reflexivity | reflexivity |].
    change ("/api/status" ∉ ["/health"; "/health/live"; "/health/ready"; "/health/startup"; "/metrics"]).
    rewrite !not_elem_of_cons. repeat (split; [discriminate |]). apply not_elem_of_nil.
Defined.

(** A runtime with two shutdown hooks that count their runs and fail. *)
Definition demo_hook : Runner.context -> M nat (option error) := fun _ => modify S;; mret (Some EServerClosed).
Definition demo_rt (startup shutdown : list (option (Runner.context -> M nat (option error)))) : @HTTPRuntime nat unit :=
  mkRuntime (fun _ => silent) [] [] (NewHealthRegistry []) None startup shutdown false None.
Definition demo_hooks : list (option (Runner.context -> M nat (option error))) := [Some demo_hook; None; Some demo_hook].

Definition demo_up : Clocked (@HTTPRuntime nat unit * nat) := demo_clocked (demo_rt [] demo_hooks, 0%nat).
Definition demo_down : Clocked (@HTTPRuntime nat unit * nat) := (rt_Shutdown Runner.Background demo_up).2.

Lemma demo_shut_down : rt_Shutdown Runner.Background demo_up = (Ret (Some EServerClosed), demo_down).
Proof. vm_compute. reflexivity. Qed.

Lemma lifecycle_once_witness : (st demo_down).2 = 2%nat /\ exists e rs,
  rt_Shutdown Runner.Background demo_down = (Ret e, demo_down) /\
  hooks_ran Runner.Background demo_hooks (hook_world demo_up) rs None (hook_world demo_down) /\ length rs = 2%nat.
Proof.
  split; [vm_compute; reflexivity |].
  destruct (lifecycle_once Runner.Background Runner.Background demo_up demo_down _ demo_shut_down)
    as (_ & _ & Hfirst & _ & Hagain).
  destruct (Hfirst eq_refl) as (rs & [v |] & Hran & _ & Hout & Hlen); [discriminate Hout |].
  eexists _, rs. split; [exact Hagain |]. split; [exact Hran | exact (Hlen eq_refl)].
Defined.

Lemma startup_rolls_back_witness : exists c' e,
  rt_Startup Runner.Background (demo_clocked (demo_rt [Some demo_hook] [Some demo_hook], 0%nat)) = (Ret (Some e), c') /\
  shutdownOnce (st c').1 = true /\ shuttingDown (health (st c').1) = true.
Proof.
  do 2 eexists. split; [reflexivity |].
  destruct (startup_rolls_back Runner.Background (demo_clocked (demo_rt [Some demo_hook] [Some demo_hook], 0%nat)) _ _ eq_refl) as (_ & H).
  apply H. discriminate.
Defined.
