(* ===== verification/Serving.v ===== *)
(** * The runtime with its metrics

    The composition of [HTTPRuntime] and [MetricsHTTP]: the runtime that
    [NewHTTPRuntime] assembles when it makes the metrics itself
    ([telemetry.NewHTTPMetrics] in [go/server/runtime.go]), whose state is
    part of the state of the handlers: where it serves them, what it counts,
    and the scrape handler behind any writer.  SystemRoutes.v has the
    theorems on scrapes and probes of a runtime. *)

From S2P Require Import Prelude Float64 GoStrings GoErrors GoHTTP Writers HTTPMiddleware Health Metrics MetricsHTTP Patterns Mux HTTPRuntime.
From Stdlib Require Import Ascii.

#[local] Open Scope Z_scope.

Section Serving.
Context {C L W : Type} `{PrometheusCollector C} `{MetricsState C (menv L)}.
Context (rand_Read : M (world (menv L)) (option (list ascii))) (Tracing : string -> Middleware (menv L))
  (summary : Handler (menv L)) (phase_handler : string -> Handler (menv L)).

(** The metrics [NewHTTPRuntime] asks for, as handler and middleware. *)
Definition serving_metrics (cfg : @HTTPRuntime.HTTPMetricsConfig C) : @HTTPRuntime.HTTPMetrics L :=
  mkHTTPMetrics (MetricsHTTP.metrics_Handler (Some tt)) (MetricsHTTP.metrics_Middleware (Some tt)).

(** Their state when they are made. *)
Definition initial_metrics (cfg : @HTTPRuntime.HTTPMetricsConfig C) : @Metrics.HTTPMetrics C :=
  Metrics.NewHTTPMetrics (mkMetricsConfig (met_ServiceName cfg) [] (met_IgnorePaths cfg) (Some (met_PathLabeler cfg)) (met_Collectors cfg)).

(** The configuration [NewHTTPRuntime] makes them with. *)
Definition metrics_config (cfg : @HTTPRuntimeConfig W L C) : @HTTPRuntime.HTTPMetricsConfig C :=
  mkHTTPMetricsConfig (default_string (ServiceName cfg) "dense-service") (MetricsCollectors cfg)
    (metricsPathLabelerOrDefault (MetricsPathLabeler cfg) (api_path cfg) (metrics_path cfg)) (health_paths ++ [metrics_path cfg]).

(** What requests do not change of the metrics. *)
Definition configured (cfg : @HTTPRuntimeConfig W L C) (m : @Metrics.HTTPMetrics C) : Prop :=
  pathLabeler m = pathLabeler (initial_metrics (metrics_config cfg)) /\ ignored m = ignored (initial_metrics (metrics_config cfg)).

Abbreviation NewRuntime := (NewHTTPRuntime rand_Read Tracing serving_metrics summary phase_handler).

(** The runtime makes its metrics, and serves them at the default path with
    the default labels. *)
Definition own_metrics (cfg : @HTTPRuntimeConfig W L C) : Prop :=
  cfg_Metrics cfg = None /\ DisableMetricsRoute cfg = false /\ MetricsPath cfg = "" /\ MetricsPathLabeler cfg = None.

(** The system middleware passes the request on untouched: there is none, or
    it is satisfied by the request's path and headers. *)
Definition lets_through (cfg : @HTTPRuntimeConfig W L C) (r : request) : Prop :=
  forall next w r' c, URLPath r' = URLPath r -> Header r' = Header r -> Chain (SystemMiddleware cfg) next w r' c = next w r' c.

Lemma no_system_middleware cfg r : SystemMiddleware cfg = [] -> lets_through cfg r.
Proof. intros E next w r' c _ _. now rewrite E. Qed.

Lemma default_path cfg : own_metrics cfg -> metrics_path cfg = "/metrics".
Proof. intros (_ & _ & Hp & _). unfold metrics_path. now rewrite Hp. Qed.

(** The labels of a runtime's own metrics: a system path is its own label. *)
Lemma system_path_ignored cfg m r : own_metrics cfg -> configured cfg m ->
  URLPath r ∈ health_paths ++ ["/metrics"] -> pathLabeler m (Some r) ∈ ignored m.
Proof.
  intros Hd [-> ->] Hin. pose proof (default_path cfg Hd) as Hp. destruct Hd as (_ & _ & _ & Hl).
  cbn -[elem_of list_to_set filter health_paths]. rewrite Hl, Hp.
  assert (URLPath r <> "" /\ metricsPathLabelerOrDefault None (api_path cfg) "/metrics" (Some r) = URLPath r) as [Hne ->].
  { unfold metricsPathLabelerOrDefault. cbv zeta.
    repeat (apply elem_of_cons in Hin as [-> | Hin]; [split; [discriminate | reflexivity] |]). now apply not_elem_of_nil in Hin. }
  apply elem_of_list_to_set, list_elem_of_filter. split; [exact Hne | exact Hin].
Qed.

Abbreviation served_routes := (system_routes serving_metrics summary phase_handler).

Lemma system_paths_served cfg : own_metrics cfg ->
  (served_routes cfg).2 = base_system_paths cfg ++ ["/metrics"] /\
  (served_routes cfg).1 = base_system_mux summary phase_handler cfg ++ [("/metrics", MetricsHTTP.metrics_Handler (Some tt))].
Proof.
  intros Hd. pose proof (default_path cfg Hd) as Hp. destruct Hd as (Hm & Hr & _).
  unfold system_routes, runtime_metrics. rewrite Hm, Hr, Hp. now split.
Qed.

Lemma metrics_route_served cfg : own_metrics cfg -> "/metrics" ∈ (served_routes cfg).2 /\
  mux_lookup "/metrics" (served_routes cfg).1 = Some (MetricsHTTP.metrics_Handler (Some tt)).
Proof.
  intros Hd. destruct (system_paths_served cfg Hd) as [-> ->]. split; [apply elem_of_app; right; left |].
  unfold base_system_mux. destruct (DisableHealthRoutes cfg); reflexivity.
Qed.

(** The text is never empty. *)
Lemma render_nonempty (m : @Metrics.HTTPMetrics C) : renderPrometheus m <> "".
Proof.
  assert (forall text : string, text <> "" -> forall cs : list (option C), append_collectors cs text <> "") as Happ.
  { intros text Ht cs. revert text Ht. induction cs as [| [c |] cs IH]; intros text Ht; cbn [append_collectors foldl];
      [exact Ht | | exact (IH text Ht)].
    apply IH. destruct (_ && _); intros E0; apply (f_equal bytes) in E0; rewrite !bytes_app in E0;
      destruct (bytes text) eqn:Eb; try discriminate; apply Ht, bytes_inj; exact Eb. }
  apply Happ. discriminate.
Qed.

(** The scrape handler behind any writer. *)
Lemma scrape_run w r (c : Clocked (world (menv L))) : unwritten w (st c) ->
  exists l, MetricsHTTP.metrics_Handler (Some tt) w r c = (Ret tt, with_st c (mkWorld
    (let hd := header_Set "Content-Type" "text/plain; version=0.0.4; charset=utf-8" (hdr (resp (st c))) in
     mkResponse hd (Some (200, hd)) (interim (resp (st c))) (content (resp (st c)) +:+ renderPrometheus (env_metrics (env (st c)))))
    l (env (st c)))) /\ forall id, id ∈ writer_ids w -> exists x, l !! id = Some x /\ wrote x = true /\ statusCode x = 200.
Proof.
  intros Hu. unfold MetricsHTTP.metrics_Handler. rewrite bind_run, edit_header_run, bind_run. unfold get_metrics, gets.
  match goal with |- context [Write w ?b] => set (text := b) end. set (c1 := with_st c _).
  destruct (Write_first w text c1) as (l & El & Hl); [exact Hu | apply render_nonempty |].
  rewrite bind_run, El. exists l. split; [reflexivity | exact Hl].
Qed.
End Serving.
