(* ===== verification/Chassis.v ===== *)
(** * The chassis: a runner around an HTTP runtime

    The composition that [go/README.md] and every program of [go/examples]
    make: the runner's startup hook is [HTTPRuntime.Startup], its hook before
    the shutdown [BeginShutdown], its shutdown hook [Shutdown].  The hooks of
    the runtime are those of its configuration, then those of its extensions
    in registration order.

    The theorem ([chassis_lifecycle]): from the configuration to the end of a
    run, what runs in which order, whether readiness is reported at each
    moment, and the error of the run; the hooks of the runtime run once even
    when a failed startup shuts down twice. *)

From S2P Require Import Prelude GoStrings GoErrors GoHTTP HTTPMiddleware Health Mux HTTPRuntime.
From S2P Require Runner.

Section Options.
Context {W L C : Type}.

(** The options of the example programs. *)
Definition chassis_options (server : Runner.HTTPServer (@HTTPRuntime W L * W)) (grpc : option (Runner.GRPCServer (@HTTPRuntime W L * W)))
    (timeout : Z) : Runner.Options (@HTTPRuntime W L * W) :=
  Runner.mkOptions (Some server) grpc (match grpc with Some _ => true | None => false end) timeout
    [Some rt_Startup] [Some BeginShutdown] [Some rt_Shutdown].

(** The hooks a runtime is built with. *)
Definition extensions_used (exts : list (@RuntimeExtension W L)) (cfg : @HTTPRuntimeConfig W L C) : list (@RuntimeExtension W L) :=
  if DisableRegisteredExtensions cfg then [] else exts.
Definition all_startup_hooks exts (cfg : @HTTPRuntimeConfig W L C) := cfg_StartupHooks cfg ++ ((Some ∘ ext_Startup) <$> extensions_used exts cfg).
Definition all_shutdown_hooks exts (cfg : @HTTPRuntimeConfig W L C) := cfg_ShutdownHooks cfg ++ ((Some ∘ ext_Shutdown) <$> extensions_used exts cfg).

Lemma use_extensions_hooks (exts : list (@RuntimeExtension W L)) muxes am su sd muxes' am' su' sd' :
  use_extensions exts muxes am su sd = Ret (muxes', am', su', sd') ->
  su' = su ++ ((Some ∘ ext_Startup) <$> exts) /\ sd' = sd ++ ((Some ∘ ext_Shutdown) <$> exts).
Proof.
  revert muxes am su sd. induction exts as [| ext exts IH]; intros muxes am su sd; cbn [use_extensions].
  - intros [= <- <- <- <-]. cbn. now rewrite !app_nil_r.
  - destruct (ext_RegisterRoutes ext muxes) as [m | v]; [| discriminate]. cbn [bindo]. intros H.
    destruct (IH _ _ _ _ H) as [-> ->]. cbn. now rewrite <- !app_assoc.
Qed.

Lemma runtime_hooks rand_Read Tracing NewHTTPMetrics summary phase_handler exts (cfg : @HTTPRuntimeConfig W L C) rt :
  NewHTTPRuntime rand_Read Tracing NewHTTPMetrics summary phase_handler exts cfg = Ret (inl rt) ->
  startupHooks rt = all_startup_hooks exts cfg /\ shutdownHooks rt = all_shutdown_hooks exts cfg /\
  shutdownOnce rt = false /\ shutdownErr rt = None /\ health rt = runtime_health cfg.
Proof.
  intros E. destruct (NewHTTPRuntime_inv _ _ _ _ _ exts cfg rt E) as (_ & _ & root & api & am & su & sd & Hu & _ & ->).
  cbn. destruct (use_extensions_hooks _ _ _ _ _ _ _ _ _ Hu) as [-> ->]. auto.
Qed.
End Options.

(** ** Runs that log what happens *)

(** A moment of a run; the servers' moments have whether the registry of the
    runtime then serves readiness. *)
Inductive moment : Type :=
| HookStarted (i : nat)
| HookStopped (i : nat)
| Listening (ready : bool)
| GRPCStarted (ready : bool)
| Waiting (ready : bool)
| Draining (ready : bool)
| GRPCDraining (ready : bool)
| GRPCStopped (ready : bool).

(** What every part of a run returns; [None] in a list is a nil hook, and the
    result of a gRPC server without [GracefulStop]. *)
Record chassis_scenario : Type := mkChassis {
  ch_startup : list (option (option error));
  ch_shutdown : list (option (option error));
  ch_http : option error;
  ch_grpc : option (option (option error));
  ch_event : Runner.run_event
}.

Section Logged.
Context {L C : Type}.
Abbreviation Rt := (@HTTPRuntime (list moment) L).
Abbreviation State := (Rt * list moment)%type.

Definition note {A} (m : moment) (a : A) : M (list moment) A := modify (fun l => l ++ [m]);; mret a.

Fixpoint noted_hooks (mk : nat -> moment) (i : nat) (l : list (option (option error))) :
    list (option (Runner.context -> M (list moment) (option error))) :=
  match l with
  | [] => []
  | r :: l' => (fmap (fun e _ => note (mk i) e) r) :: noted_hooks mk (S i) l'
  end.

Definition ready_now (rt : Rt) : bool := serves (health rt) "ready".

Definition note_ready {A} (mk : bool -> moment) (a : A) : M State A :=
  modify (fun s => (s.1, s.2 ++ [mk (ready_now s.1)]));; mret a.

Definition noted_server (sc : chassis_scenario) : Runner.HTTPServer State :=
  Runner.mkHTTPServer (note_ready Listening tt) (fun _ => note_ready Draining (ch_http sc)).

Definition noted_grpc (r : option (option error)) : Runner.GRPCServer State :=
  Runner.mkGRPCServer (note_ready GRPCStarted tt) (note_ready GRPCStopped tt)
    (fmap (fun e _ => note_ready GRPCDraining e) r).

Definition chassis_run (sc : chassis_scenario) (timeout : Z) (ctx : option Runner.context) : option (M State (option error)) :=
  match Runner.NewRunner (chassis_options (noted_server sc) (noted_grpc <$> ch_grpc sc) timeout) with
  | inl r => Some (Runner.RunBlocking (note_ready Waiting (ch_event sc)) r ctx)
  | inr _ => None
  end.

(** ** The specification *)

Fixpoint hooks_run (mk : nat -> moment) (i : nat) (l : list (option (option error))) : list moment :=
  match l with
  | [] => []
  | None :: l' => hooks_run mk (S i) l'
  | Some _ :: l' => mk i :: hooks_run mk (S i) l'
  end.

(** Startup stops at the first failure. *)
Fixpoint startup_run (i : nat) (l : list (option (option error))) : list moment :=
  match l with
  | [] => []
  | None :: l' => startup_run (S i) l'
  | Some (Some _) :: _ => [HookStarted i]
  | Some None :: l' => HookStarted i :: startup_run (S i) l'
  end.

Definition startup_error (sc : chassis_scenario) : option error := first_error (omap id (ch_startup sc)).
Definition hooks_error (sc : chassis_scenario) : option error := first_error (omap id (ch_shutdown sc)).

Definition serving_moments (sc : chassis_scenario) : list moment :=
  [Listening true] ++ (match ch_grpc sc with Some _ => [GRPCStarted true] | None => [] end) ++ [Waiting true].

Definition grpc_stop (sc : chassis_scenario) : list moment :=
  match ch_grpc sc with
  | None => []
  | Some None => [GRPCStopped false]
  | Some (Some None) => [GRPCDraining false]
  | Some (Some (Some _)) => [GRPCDraining false; GRPCStopped false]
  end.

Definition shutdown_hooks_run (sc : chassis_scenario) : list moment := hooks_run HookStopped 0 (ch_shutdown sc).

Definition chassis_trace (sc : chassis_scenario) : list moment :=
  startup_run 0 (ch_startup sc) ++
  match startup_error sc with
  | None => serving_moments sc ++ [Draining false] ++ grpc_stop sc ++ shutdown_hooks_run sc
  | Some _ => shutdown_hooks_run sc ++ [Draining false] ++ grpc_stop sc
  end.

(** The error of the runner's shutdown, which ends with the runtime's. *)
Definition stop_error (sc : chassis_scenario) : option error :=
  first_error [Runner.not_closed (ch_http sc);
    match ch_grpc sc with Some (Some e) => e | _ => None end; hooks_error sc].

Definition joined (e : error) (e' : option error) : error :=
  match e' with Some e' => EJoin [e; e'] | None => e end.

Definition chassis_error (sc : chassis_scenario) : option error :=
  match startup_error sc with
  | None => Runner.mergeRunAndShutdownError (Runner.event_error (ch_event sc)) (stop_error sc)
  | Some e => Some (joined (joined e (hooks_error sc)) (stop_error sc))
  end.

(** ** The parts of a run *)

Lemma startup_loop_noted i l ctx (c : Clocked State) :
  startup_loop (noted_hooks HookStarted i l) ctx c =
    (Ret (first_error (omap id l)), with_st c ((st c).1, (st c).2 ++ startup_run i l)).
Proof.
  revert i c. induction l as [| [[e |] |] l IH]; intros i c; cbn [noted_hooks startup_loop fmap option_fmap option_map].
  - cbn. rewrite app_nil_r. now destruct c as [? ? ? []].
  - reflexivity.
  - rewrite bind_run. change (run_hook (fun _ => note (HookStarted i) None) ctx c) with
      (Ret (@None error), with_st c ((st c).1, (st c).2 ++ [HookStarted i])). cbn iota beta.
    rewrite IH. cbn. now rewrite <- app_assoc.
  - apply IH.
Qed.

Lemma set_shutdown_same (rt : Rt) : set_shutdown (shutdownOnce rt) (shutdownErr rt) rt = rt.
Proof. now destruct rt. Qed.

Lemma shutdown_loop_noted i l ctx (c : Clocked State) : let rt := (st c).1 in
  shutdown_loop (noted_hooks HookStopped i l) ctx c =
    (Ret tt, with_st c (set_shutdown (shutdownOnce rt) (foldl keep_first (shutdownErr rt) (omap id l)) rt,
      (st c).2 ++ hooks_run HookStopped i l)).
Proof.
  cbv zeta. revert i c. induction l as [| [e |] l IH]; intros i c; cbn [noted_hooks shutdown_loop fmap option_fmap option_map].
  - cbn. rewrite app_nil_r, set_shutdown_same. now destruct c as [? ? ? []].
  - rewrite bind_run. change (run_hook (fun _ => note (HookStopped i) e) ctx c) with
      (Ret e, with_st c ((st c).1, (st c).2 ++ [HookStopped i])). cbn iota beta.
    rewrite bind_run. cbn [on_runtime modify]. rewrite IH. cbn. now rewrite <- app_assoc.
  - apply IH.
Qed.

Definition stopped_runtime (e : option error) (rt : Rt) : Rt := set_shutdown true e (shutting rt).

(** The first shutdown of a runtime runs its hooks. *)
Lemma first_shutdown sc rt l ctx (c : Clocked State) : st c = (rt, l) ->
  shutdownHooks rt = noted_hooks HookStopped 0 (ch_shutdown sc) -> shutdownOnce rt = false -> shutdownErr rt = None ->
  rt_Shutdown ctx c = (Ret (hooks_error sc), with_st c (stopped_runtime (hooks_error sc) rt, l ++ shutdown_hooks_run sc)).
Proof.
  intros Ec Hh Ho He. rewrite rt_Shutdown_run. cbv zeta. rewrite Ec. cbn [fst snd]. rewrite Ho, Hh, shutdown_loop_noted.
  unfold once_done. cbn [st with_st fst snd shutdownErr set_shutdown].
  change (shutdownErr (shutting rt)) with (shutdownErr rt). rewrite He, fold_keep_first. reflexivity.
Qed.

(** A later one runs nothing. *)
Lemma later_shutdown rt l e ctx (c : Clocked State) :
  rt_Shutdown ctx (with_st c (shutting (stopped_runtime e rt), l)) = (Ret e, with_st c (stopped_runtime e rt, l)).
Proof. rewrite rt_Shutdown_run. reflexivity. Qed.

Lemma shutting_not_ready (rt : Rt) : ready_now (shutting rt) = false.
Proof. unfold ready_now, serves. cbn. apply andb_false_r. Qed.

Lemma note_ready_closed {A} mk (a : A) (c : Clocked State) rt l :
  note_ready mk a (with_st c (shutting rt, l)) = (Ret a, with_st c (shutting rt, l ++ [mk false])).
Proof. unfold note_ready. rewrite bind_run. cbn [modify st with_st fst snd]. now rewrite shutting_not_ready. Qed.

(** The runner's shutdown: readiness is closed, the servers drain, and the
    runtime's shutdown is last. *)
Lemma runner_shutdown sc opts ctx rt l (c : Clocked State) : st c = (rt, l) ->
  Runner.opt_GRPCServer opts = (noted_grpc <$> ch_grpc sc) ->
  Runner.EnableGRPC opts = (match noted_grpc <$> ch_grpc sc with Some _ => true | None => false end) ->
  Runner.PreShutdownHooks opts = [Some BeginShutdown] -> Runner.ShutdownHooks opts = [Some rt_Shutdown] ->
  Runner.Shutdown (Runner.mkRunner (noted_server sc) opts) ctx c =
    match rt_Shutdown ctx (with_st c (shutting rt, l ++ [Draining false] ++ grpc_stop sc)) with
    | (Ret e, c') => (Ret (first_error [Runner.not_closed (ch_http sc); match ch_grpc sc with Some (Some e) => e | _ => None end; e]), c')
    | (Panic v, c') => (Panic v, c')
    end.
Proof.
  intros Ec Hg Hen Hpre Hsd. unfold Runner.Shutdown. cbn [Runner.opts Runner.http]. rewrite Hg, Hen, Hpre, Hsd.
  cbn [Runner.run_hooks]. rewrite bind_run.
  change ((e ← BeginShutdown ctx; mret (keep_first None e)) c) with (Ret (@None error), with_st c (shutting (st c).1, (st c).2)).
  rewrite Ec. cbn [fst snd]. rewrite bind_run.
  change (Runner.http_Shutdown (noted_server sc) ctx (with_st c (shutting rt, l))) with
    (Ret (ch_http sc), with_st c (shutting rt, l ++ [Draining (ready_now (shutting rt))])).
  rewrite shutting_not_ready, bind_run.
  assert (forall firstErr, (match (match noted_grpc <$> ch_grpc sc with Some _ => true | None => false end), noted_grpc <$> ch_grpc sc with
      | true, Some g => Runner.stop_grpc g ctx firstErr
      | _, _ => mret firstErr
      end) (with_st c (shutting rt, l ++ [Draining false])) =
    (Ret (keep_first firstErr (match ch_grpc sc with Some (Some e) => e | _ => None end)),
      with_st c (shutting rt, l ++ [Draining false] ++ grpc_stop sc))) as Hstop.
  { intros f. unfold grpc_stop, Runner.stop_grpc. destruct (ch_grpc sc) as [[[e |] |] |]; cbn [fmap option_fmap option_map
      noted_grpc Runner.GracefulStop Runner.Stop]; rewrite ?bind_run, ?note_ready_closed, ?bind_run, ?note_ready_closed;
      rewrite ?keep_first_none_r, <- ?app_assoc; reflexivity. }
  rewrite Hstop, bind_run. destruct (rt_Shutdown ctx _) as [[e | v] c']; [| reflexivity].
  unfold mret, M_ret. do 2 f_equal. cbn [first_error]. destruct (Runner.not_closed (ch_http sc)); [reflexivity |].
  destruct (ch_grpc sc) as [[[e' |] |] |]; destruct e; reflexivity.
Qed.

(** The startup of a runtime, with its rollback. *)
Lemma startup_noted sc rt l ctx (c : Clocked State) : st c = (rt, l) ->
  startupHooks rt = noted_hooks HookStarted 0 (ch_startup sc) -> shutdownHooks rt = noted_hooks HookStopped 0 (ch_shutdown sc) ->
  shutdownOnce rt = false -> shutdownErr rt = None ->
  rt_Startup ctx c = match startup_error sc with
    | None => (Ret None, with_st c (set_health (MarkStarted (health rt)) rt, l ++ startup_run 0 (ch_startup sc)))
    | Some e => (Ret (Some (joined e (hooks_error sc))), with_st c (stopped_runtime (hooks_error sc) rt,
        l ++ startup_run 0 (ch_startup sc) ++ shutdown_hooks_run sc))
    end.
Proof.
  intros Ec Hs Hh Ho He. unfold rt_Startup. rewrite bind_run. unfold gets. rewrite bind_run, Ec. cbn [fst snd].
  rewrite Hs, startup_loop_noted, Ec. fold (startup_error sc). destruct (startup_error sc) as [e |]; [| reflexivity].
  cbn [fst snd]. rewrite bind_run, (first_shutdown sc rt (l ++ startup_run 0 (ch_startup sc))) by (try reflexivity; assumption).
  rewrite <- app_assoc. unfold joined. destruct (hooks_error sc); reflexivity.
Qed.

Lemma note_ready_run {A} mk (a : A) (c : Clocked State) :
  note_ready mk a c = (Ret a, with_st c ((st c).1, (st c).2 ++ [mk (ready_now (st c).1)])).
Proof. reflexivity. Qed.

(** The servers between the startup and the shutdown of a runtime that is
    ready. *)
Lemma serving_run {A} sc timeout rt l (c : Clocked State) (k : Runner.run_event -> M State A) : st c = (rt, l) -> ready_now rt = true ->
  (Runner.ListenAndServe (noted_server sc);;
   match Runner.EnableGRPC (chassis_options (noted_server sc) (noted_grpc <$> ch_grpc sc) timeout), noted_grpc <$> ch_grpc sc with
   | true, Some g => Runner.Start g
   | _, _ => mret tt
   end;;
   ev ← note_ready Waiting (ch_event sc); k ev) c = k (ch_event sc) (with_st c (rt, l ++ serving_moments sc)).
Proof.
  intros Ec Hr. cbn [chassis_options Runner.EnableGRPC noted_server Runner.ListenAndServe]. rewrite bind_run, note_ready_run, Ec.
  cbn [fst snd]. rewrite Hr, bind_run. unfold serving_moments. destruct (ch_grpc sc);
    cbn [fmap option_fmap option_map noted_grpc Runner.Start]; unfold note_ready, modify, mret, M_ret, mbind, M_bind;
    cbn [st with_st fst snd app]; rewrite Hr, <- ?app_assoc; reflexivity.
Qed.

(** C9. A run of the chassis, from the configuration to its end: the startup
    hooks run in order up to the first failure; the servers start only if
    none failed, and readiness is reported from that moment on until the
    shutdown begins; no server is told to drain while readiness is still
    reported; the shutdown hooks run once each, after the servers stopped, or
    before if a startup hook failed, and not again in the runner's shutdown;
    and the error is the merge of all of theirs. *)
Theorem chassis_lifecycle rand_Read Tracing NewHTTPMetrics summary phase_handler exts (cfg : @HTTPRuntimeConfig (list moment) L C)
    rt sc timeout ctx (c : Clocked State) :
  NewHTTPRuntime rand_Read Tracing NewHTTPMetrics summary phase_handler exts cfg = Ret (inl rt) ->
  all_startup_hooks exts cfg = noted_hooks HookStarted 0 (ch_startup sc) ->
  all_shutdown_hooks exts cfg = noted_hooks HookStopped 0 (ch_shutdown sc) ->
  shuttingDown (runtime_health cfg) = false -> st c = (rt, []) ->
  exists run rt', chassis_run sc timeout ctx = Some run /\
  run c = (Ret (chassis_error sc), with_st c (rt', chassis_trace sc)) /\ ready_now rt' = false /\ shutdownOnce rt' = true.
Proof.
  intros Hnew Hs Hh Hd Ec. destruct (runtime_hooks _ _ _ _ _ exts cfg rt Hnew) as (Es & Eh & Ho & He & Er).
  rewrite Hs in Es. rewrite Hh in Eh. rewrite <- Er in Hd. clear Hnew Hs Hh Er.
  unfold chassis_run. cbn [Runner.NewRunner chassis_options Runner.opt_HTTPServer]. set (opts := Runner.mkOptions _ _ _ _ _ _ _).
  eexists. exists (match startup_error sc with None => stopped_runtime (hooks_error sc) (set_health (MarkStarted (health rt)) rt)
    | Some _ => stopped_runtime (hooks_error sc) rt end).
  split; [reflexivity |]. split; [| destruct (startup_error sc); split; try reflexivity; apply shutting_not_ready].
  unfold Runner.RunBlocking. set (ctx' := match ctx with None => _ | Some ctx => ctx end).
  change (Runner.StartupHooks (Runner.opts (Runner.mkRunner (noted_server sc) opts))) with
    [Some (rt_Startup : Runner.StartupHook State)].
  cbn [Runner.run_startup]. rewrite !bind_run, (startup_noted sc rt [] ctx' c Ec Es Eh Ho He).
  unfold chassis_error, chassis_trace. destruct (startup_error sc) as [e |]; cbn [app].
  - unfold mret, M_ret at 1. rewrite bind_run.
    rewrite (runner_shutdown sc _ _ (stopped_runtime (hooks_error sc) rt) (startup_run 0 (ch_startup sc) ++ shutdown_hooks_run sc))
      by reflexivity.
    rewrite later_shutdown. unfold stop_error, joined. rewrite <- !app_assoc.
    destruct (first_error _); reflexivity.
  - set (rt1 := set_health (MarkStarted (health rt)) rt).
    assert (ready_now rt1 = true) as Hr by (unfold ready_now, serves, rt1; cbn; now rewrite Hd).
    refine (eq_trans (serving_run sc timeout rt1 (startup_run 0 (ch_startup sc)) (with_st c (rt1, startup_run 0 (ch_startup sc)))
      _ eq_refl Hr) _).
    rewrite bind_run. erewrite (runner_shutdown sc _ _ rt1) by reflexivity. rewrite <- !app_assoc.
    erewrite (first_shutdown sc (shutting rt1)) by (try reflexivity; assumption).
    unfold stop_error. rewrite <- !app_assoc. reflexivity.
Qed.
End Logged.

(** *** A startup that fails and is rolled back once *)

Definition refused : error := EText "dial: refused".

Definition failing : chassis_scenario :=
  mkChassis [Some None; Some (Some refused)] [Some None; Some None] None (Some (Some None)) Runner.SignalReceived.

(** An extension whose startup fails. *)
Definition demo_extension : @RuntimeExtension (list moment) unit :=
  mkExtension "cache" [] (fun muxes => Ret muxes) (fun _ => note (HookStarted 1) (Some refused)) (fun _ => note (HookStopped 1) None).

Definition chassis_config : @HTTPRuntimeConfig (list moment) unit unit :=
  mkRuntimeConfig "demo" None None "" None [] [] [] None 0 None [] "" None false false false
    [Some (fun _ => note (HookStarted 0) None)] [Some (fun _ => note (HookStopped 0) None)].

Lemma chassis_lifecycle_witness : exists rt run rt',
  NewHTTPRuntime (mret None) (fun _ h => h) demo_new silent (fun _ => silent) [demo_extension] chassis_config = Ret (inl rt) /\
  chassis_run failing 0 None = Some run /\
  run (demo_clocked (rt, [])) = (Ret (Some refused), demo_clocked (rt',
    [HookStarted 0; HookStarted 1; HookStopped 0; HookStopped 1; Draining false; GRPCDraining false])).
Proof.
  assert (exists rt, NewHTTPRuntime (mret None) (fun _ h => h) demo_new silent (fun _ => silent) [demo_extension] chassis_config
    = Ret (inl rt)) as [rt E] by (eexists; reflexivity).
  destruct (chassis_lifecycle (mret None) (fun _ h => h) demo_new silent (fun _ => silent) [demo_extension] chassis_config rt
    failing 0 None (demo_clocked (rt, [])) E eq_refl eq_refl eq_refl eq_refl) as (run & rt' & H1 & H2 & _).
  exists rt, run, rt'. split; [exact E |]. split; [exact H1 | exact H2].
Defined.
