(* ===== verification/Probes.v ===== *)
(** * The probe handlers

    The HTTP side of [go/server/health.go]: the handlers evaluate the phases
    of Health.v, one check after the other, and write the report as a line of
    JSON (JSONText.v) to the writer of GoHTTP.v.  The registry lives in the
    state of the handlers, and a check may change that state; running one
    is [runCheck], which HealthExec.v shows to return.

    The lemmas: the answer of a probe through any writer ([phase_answers],
    [summary_answers]).  SystemRoutes.v has probes of a runtime. *)

From S2P Require Import Prelude GoStrings GoErrors GoHTTP Writers HTTPMiddleware Health JSONText.
From Stdlib Require Import Ascii.

#[local] Open Scope Z_scope.

Section Handlers.
Context {E : Type} (registry : E -> HealthRegistry)
  (runCheck : healthCheckEntry -> Clocked E -> option error * Clocked E).

Definition run_check (check : healthCheckEntry) : M (world E) (option error) :=
  on_env (fun c => let '(err, c) := runCheck check c in (Ret err, c)).

(** The loop of [runChecks]. *)
Fixpoint checks_loop (checks : list healthCheckEntry) (report : HealthReport) (healthy : bool) :
    M (world E) (HealthReport * bool) :=
  match checks with
  | [] => mret (report, healthy)
  | check :: checks' =>
      err ← run_check check;
      checks_loop checks' (mkReport (Status report) (Phase report) (Checks report ++ [check_result check err]))
        (match err with Some _ => false | None => healthy end)
  end.

Definition serve_runChecks (checks : list healthCheckEntry) (report : HealthReport) : M (world E) (HealthReport * bool) :=
  x ← checks_loop checks report true;
  let '(report, healthy) := x in
  mret (if (healthy : bool)
        then (mkReport (if decide (Status report = "") then "ok" else Status report) (Phase report) (Checks report), true)
        else (mkReport "unavailable" (Phase report) (Checks report), false)).

Definition serve_evaluate (phase : string) : M (world E) (HealthReport * bool) :=
  r ← gets (fun w => registry (env w));
  match evaluate_start r phase with
  | inl report => mret (report, false)
  | inr checks => serve_runChecks checks (mkReport "ok" phase [])
  end.

(** [writeHealthJSON]. *)
Definition write_health (w : writer) (status : Z) (payload : json) : M (world E) unit :=
  edit_header (header_Set "Content-Type" "application/json");;
  WriteHeader w status;;
  Write w (Encode payload);;
  mret tt.

Definition serve_phase (phase : string) : Handler E := fun w _ =>
  x ← serve_evaluate phase;
  let '(report, ok) := x in
  if (ok : bool) then write_health w 200 (report_json report) else write_health w 503 (report_json report).

Definition serve_summary : Handler E := fun w _ =>
  live ← serve_evaluate "live";
  ready ← serve_evaluate "ready";
  startup ← serve_evaluate "startup";
  let degraded := decide (Status live.1 <> "ok" \/ Status ready.1 <> "ok" \/ Status startup.1 <> "ok") in
  write_health w (if degraded then 503 else 200)
    (JObject [("live", report_json live.1); ("ready", report_json ready.1); ("startup", report_json startup.1);
      ("status", JString (if degraded then "degraded" else "ok"))]).

(** ** What the checks return *)

(** The checks run one after the other. *)
Fixpoint check_errors (checks : list healthCheckEntry) (c : Clocked E) : list (option error) * Clocked E :=
  match checks with
  | [] => ([], c)
  | check :: checks' =>
      let '(err, c) := runCheck check c in
      let '(errs, c) := check_errors checks' c in (err :: errs, c)
  end.

Lemma check_errors_length checks c : length (check_errors checks c).1 = length checks.
Proof.
  revert c. induction checks as [| check checks IH]; intros c; [reflexivity |]. cbn [check_errors].
  destruct (runCheck check c) as [err c1]. specialize (IH c1). destruct (check_errors checks c1) as [errs c2].
  cbn in *. congruence.
Qed.

(** The state of the handlers, and a world whose handlers' state is replaced. *)
Definition env_of (c : Clocked (world E)) : Clocked E := with_st c (env (st c)).
Definition with_env (s : world E) (c : Clocked E) : Clocked (world E) := with_st c (mkWorld (resp s) (wraps s) (st c)).

Lemma env_with_env s c : env_of (with_env s c) = c.
Proof. now destruct c. Qed.

Lemma with_env_of c : with_env (st c) (env_of c) = c.
Proof. now destruct c as [? ? ? []]. Qed.

Lemma run_check_run check c : run_check check c =
  (Ret (runCheck check (env_of c)).1, with_env (st c) (runCheck check (env_of c)).2).
Proof. unfold run_check, on_env, zoom, env_of. now destruct (runCheck check _). Qed.

Lemma checks_loop_run checks report healthy c : let x := check_errors checks (env_of c) in
  checks_loop checks report healthy c = (Ret (mkReport (Status report) (Phase report)
    (Checks report ++ zip_with check_result checks x.1), healthy && forallb is_nil x.1), with_env (st c) x.2).
Proof.
  revert report healthy c. induction checks as [| check checks IH]; intros report healthy c; cbn [checks_loop check_errors].
  - cbn. rewrite app_nil_r, andb_true_r, with_env_of. now destruct report.
  - rewrite bind_run, run_check_run. destruct (runCheck check (env_of c)) as [err c1]. cbn [fst snd]. rewrite IH.
    rewrite env_with_env. destruct (check_errors checks c1) as [errs c2]. cbn. rewrite <- app_assoc.
    destruct err, healthy; reflexivity.
Qed.

Lemma serve_runChecks_run checks report c : let x := check_errors checks (env_of c) in
  serve_runChecks checks report c = (Ret (runChecks checks x.1 report), with_env (st c) x.2).
Proof.
  cbv zeta. unfold serve_runChecks, runChecks. rewrite bind_run, checks_loop_run. cbn [andb].
  now destruct (forallb is_nil _).
Qed.

(** The evaluation of a phase from [c]: what the checks it runs return, and
    the state they leave. *)
Definition phase_errors (phase : string) (c : Clocked E) : list (option error) * Clocked E :=
  check_errors (checks_run (registry (st c)) phase) c.

Lemma serve_evaluate_run phase c : let x := phase_errors phase (env_of c) in
  serve_evaluate phase c = (Ret (evaluate (registry (env (st c))) phase x.1), with_env (st c) x.2).
Proof.
  cbv zeta. unfold serve_evaluate, phase_errors, checks_run, evaluate. rewrite bind_run. unfold gets.
  cbn [env_of with_st st]. destruct (evaluate_start (registry (env (st c))) phase) as [report | checks].
  - cbn [check_errors fst snd]. fold (env_of c). now rewrite with_env_of.
  - apply serve_runChecks_run.
Qed.

(** ** The answers *)

Lemma Encode_nonempty v : Encode v <> "".
Proof.
  unfold Encode. intros H. apply (f_equal bytes) in H. rewrite bytes_str in H. cbn in H.
  destruct (encode_json v); discriminate.
Qed.

(** The answer [a] went out whole: its status, its type and its body, a line
    of JSON that reads back as the answer. *)
Definition answered (a : health_response) (before after : response) : Prop :=
  sent_code after = response_code a /\ header_Get (hdr after) "Content-Type" = response_type a /\
  exists line, content after = content before +:+ line /\ read_line line = Some (sanitize_json (response_body a)).

Lemma write_health_run w status payload c : final_code status -> body_allowed status = true -> unwritten w (st c) ->
  exists s, write_health w status payload c = (Ret tt, with_st c s) /\ env s = env (st c) /\
  answered (writeHealthJSON status payload) (resp (st c)) (resp s) /\ sent_through w status s.
Proof.
  intros Hf Hb Hu.
  destruct (answer_json_wraps w status (header_Set "Content-Type" "application/json") (Encode payload) c Hf Hb (Encode_nonempty payload) Hu)
    as (l & El & Hl).
  eexists. split; [exact El |]. split; [reflexivity |]. split.
  - split; [reflexivity |]. split; [apply header_Get_Set |].
    exists (Encode payload). split; [reflexivity | apply read_encoded].
  - split; [eexists; reflexivity |]. apply Forall_forall. exact Hl.
Qed.

(** Evaluations leave the writer as it was. *)
Lemma unwritten_env w s c : unwritten w s -> unwritten w (st (with_env s c)).
Proof. intros H. exact H. Qed.

Lemma phase_answers phase w r c : unwritten w (st c) -> let x := phase_errors phase (env_of c) in
  exists s, serve_phase phase w r c = (Ret tt, with_st x.2 s) /\ env s = st x.2 /\
  answered (phaseHandler (registry (env (st c))) phase x.1) (resp (st c)) (resp s) /\
  sent_through w (response_code (phaseHandler (registry (env (st c))) phase x.1)) s.
Proof.
  intros Hu. cbv zeta. unfold serve_phase, phaseHandler. rewrite bind_run, serve_evaluate_run.
  destruct (evaluate _ phase _) as [report ok].
  destruct ok;
    (edestruct (fun status h1 h2 => write_health_run w status (report_json report) (with_env (st c) (phase_errors phase (env_of c)).2)
       h1 h2 (unwritten_env w _ _ Hu)) as (s & -> & H1 & H2);
     [| | exists s; split; [reflexivity |]; split; [exact H1 | exact H2]]; [left; lia | reflexivity]).
Qed.

(** Runs of checks that leave the registry alone. *)
Definition keeps_registry : Prop := forall check c, registry (st (runCheck check c).2) = registry (st c).

Lemma check_errors_registry checks c : keeps_registry -> registry (st (check_errors checks c).2) = registry (st c).
Proof.
  intros H. revert c. induction checks as [| check checks IH]; intros c; [reflexivity |]. cbn [check_errors].
  pose proof (H check c) as Hc. destruct (runCheck check c) as [err c1]. specialize (IH c1).
  destruct (check_errors checks c1) as [errs c2]. cbn in *. congruence.
Qed.

Lemma summary_answers w r c : keeps_registry -> unwritten w (st c) ->
  let l := phase_errors "live" (env_of c) in
  let d := phase_errors "ready" l.2 in
  let s := phase_errors "startup" d.2 in
  let rg := registry (env (st c)) in
  exists s', serve_summary w r c = (Ret tt, with_st s.2 s') /\ env s' = st s.2 /\
  answered (summaryHandler rg rg rg l.1 d.1 s.1) (resp (st c)) (resp s') /\
  sent_through w (response_code (summaryHandler rg rg rg l.1 d.1 s.1)) s'.
Proof.
  intros Hk Hu l d s rg.
  assert (registry (st l.2) = rg) as Hl by (unfold l, phase_errors; now rewrite check_errors_registry).
  assert (registry (st d.2) = rg) as Hd by (unfold d, phase_errors; now rewrite check_errors_registry).
  unfold serve_summary. rewrite bind_run, serve_evaluate_run. fold l. fold rg. rewrite bind_run, serve_evaluate_run.
  rewrite env_with_env. fold d. change (env (st (with_env (st c) l.2))) with (st l.2). rewrite Hl.
  rewrite bind_run, serve_evaluate_run. rewrite env_with_env. fold s.
  change (env (st (with_env (st (with_env (st c) l.2)) d.2))) with (st d.2). rewrite Hd. unfold summaryHandler. cbv zeta.
  destruct (decide _) as [Hn | Hn];
    (edestruct (fun status payload h1 h2 => write_health_run w status payload
       (with_env (st (with_env (st (with_env (st c) l.2)) d.2)) s.2) h1 h2 Hu) as (s' & -> & H1 & H2);
     [| | exists s'; split; [reflexivity |]; split; [exact H1 | exact H2]]; [left; lia | reflexivity]).
Qed.
End Handlers.

