(* ===== verification/GRPCRuntime.v ===== *)
(** * The gRPC runtime

    [go/server/grpc_runtime.go]: the lifecycle of a runtime whose [Start],
    [Stop] and [GracefulStop] are called from any number of goroutines.  A
    state holds the fields of [GRPCRuntime], the holder of [lifecycleMu], the
    state of [shutdownHooksOnce], and the point every call is at; a step runs
    one hook, one critical section without hooks, or one call of the server.
    [health.Server] and [grpc.Server] belong to grpc: the first is used
    through [HealthServer], the second only reports how [Serve] and
    [GracefulStop] end.

    The theorems: hooks run at most once each, and no startup hook after a
    shutdown hook ([hooks_ordered]); a runtime that is shutting down does not
    report SERVING, and stays so ([never_serving_again]). *)

From S2P Require Import Prelude GoStrings GoErrors.

(** ** What the runtime uses of grpc's health server *)

Class HealthServer (H : Type) := {
  new_health : H;
  set_serving : bool -> H -> H;   (** [SetServingStatus] for both services *)
  health_shutdown : H -> H;       (** [Shutdown] *)
  is_serving : H -> bool
}.

(** [Shutdown] sets every status to NOT_SERVING. *)
Class HealthServerLaws (H : Type) `{HealthServer H} := {
  shutdown_not_serving : forall h, is_serving (health_shutdown h) = false
}.

(** ** Configuration *)

(** The address of a listener that was given, or the configured one. *)
Record GRPCRuntimeConfig : Type := mkGRPCConfig {
  grpc_ServiceName : string;
  grpc_Address : string;
  grpc_Listener : option string;
  DisableHealthService : bool;
  grpc_StartupHooks : list bool;   (** whether the hook is there or nil *)
  grpc_ShutdownHooks : list bool
}.

Definition runtime_service_name (cfg : GRPCRuntimeConfig) : string :=
  if decide (grpc_ServiceName cfg = "") then "dense-service" else grpc_ServiceName cfg.

Definition runtime_address (cfg : GRPCRuntimeConfig) : string :=
  match grpc_Listener cfg with
  | Some addr => addr
  | None => if decide (grpc_Address cfg = "") then ":9090" else grpc_Address cfg
  end.

(** The positions of the hooks that are not nil, in order. *)
Fixpoint hook_positions (i : nat) (hooks : list bool) : list nat :=
  match hooks with
  | [] => []
  | true :: hooks' => i :: hook_positions (S i) hooks'
  | false :: hooks' => hook_positions (S i) hooks'
  end.

(** ** The state *)

Inductive event : Type :=
| StartupHookRan (i : nat)
| ShutdownHookRan (i : nat)
| ReportedServing
| ServerStopped.

(** The call that stops the server. *)
Inductive stopper : Type :=
| ByStop                               (** [Stop] *)
| ByGraceful (ctxErr : option error).  (** [GracefulStop], its context done or not *)

(** What a caller of [runShutdownHooks] does with its result. *)
Inductive after_hooks : Type :=
| AfterRollback (err : error)          (** [startup], whose hook failed *)
| AfterServe (err : option error)      (** [Start], whose [Serve] returned *)
| AfterStopped (by_ : stopper).        (** [Stop] and [GracefulStop] *)

(** What a caller of [failHealth] does next. *)
Inductive fail_next : Type :=
| FailServe (err : option error)
| FailStop
| FailGraceful.

(** The points of the calls. *)
Inductive point : Type :=
| StartPrepare                      (** [Start], before [prepareListener] *)
| StartLocking                      (** before [startup] takes [lifecycleMu] *)
| StartHooks (todo : list nat)      (** in the loop of [startup], holding it *)
| StartFailed (err : error)         (** a hook failed, before [markShuttingDownLocked] *)
| Serving                           (** in [Serve] *)
| FailHealth (next : fail_next)     (** before [failHealth] *)
| ServerStop (by_ : stopper)        (** before the server is stopped *)
| InHooks (next : after_hooks)      (** in [runShutdownHooks] *)
| Returned (err : option error).

Inductive once_state : Type :=
| Fresh
| Running (t : nat) (todo : list nat)
| Done.

Section GRPCRuntime.
Context {H : Type} `{HealthServer H}.

Record GRPCRuntime : Type := mkGRPCRuntime {
  health : option H;
  address : string;
  listener : option string;
  serveAttempt : bool;
  shutdownHooksOnce : once_state;
  shutdownError : option error;
  lifecycleMu : option nat;
  shuttingDown : bool;
  startupHooks : list nat;
  shutdownHooks : list nat;
  events : list event;
  calls : list point
}.

Definition setServingStatus (b : bool) (h : option H) : option H := set_serving b <$> h.

Definition NewGRPCRuntime (cfg : GRPCRuntimeConfig) : GRPCRuntime :=
  mkGRPCRuntime
    (if DisableHealthService cfg then None else setServingStatus false (Some new_health))
    (runtime_address cfg) (grpc_Listener cfg) false Fresh None None false
    (hook_positions 0 (grpc_StartupHooks cfg)) (hook_positions 0 (grpc_ShutdownHooks cfg)) [] [].

(** Updates of the fields. *)
Definition at_point (t : nat) (p : point) (r : GRPCRuntime) : GRPCRuntime :=
  mkGRPCRuntime (health r) (address r) (listener r) (serveAttempt r) (shutdownHooksOnce r) (shutdownError r)
    (lifecycleMu r) (shuttingDown r) (startupHooks r) (shutdownHooks r) (events r) (<[t := p]> (calls r)).
Definition set_lock (l : option nat) (r : GRPCRuntime) : GRPCRuntime :=
  mkGRPCRuntime (health r) (address r) (listener r) (serveAttempt r) (shutdownHooksOnce r) (shutdownError r)
    l (shuttingDown r) (startupHooks r) (shutdownHooks r) (events r) (calls r).
Definition log (e : event) (r : GRPCRuntime) : GRPCRuntime :=
  mkGRPCRuntime (health r) (address r) (listener r) (serveAttempt r) (shutdownHooksOnce r) (shutdownError r)
    (lifecycleMu r) (shuttingDown r) (startupHooks r) (shutdownHooks r) (events r ++ [e]) (calls r).
Definition set_once (o : once_state) (err : option error) (r : GRPCRuntime) : GRPCRuntime :=
  mkGRPCRuntime (health r) (address r) (listener r) (serveAttempt r) o err
    (lifecycleMu r) (shuttingDown r) (startupHooks r) (shutdownHooks r) (events r) (calls r).
Definition set_health (h : option H) (down : bool) (r : GRPCRuntime) : GRPCRuntime :=
  mkGRPCRuntime h (address r) (listener r) (serveAttempt r) (shutdownHooksOnce r) (shutdownError r)
    (lifecycleMu r) down (startupHooks r) (shutdownHooks r) (events r) (calls r).
Definition set_listener (l : option string) (addr : string) (r : GRPCRuntime) : GRPCRuntime :=
  mkGRPCRuntime (health r) addr l true (shutdownHooksOnce r) (shutdownError r)
    (lifecycleMu r) (shuttingDown r) (startupHooks r) (shutdownHooks r) (events r) (calls r).

(** ** The critical sections *)

(** [prepareListener]; [listen] is what [net.Listen] returns for the
    address: the bound address or an error. *)
Definition prepareListener (listen : string -> string + error) (r : GRPCRuntime) : option error * GRPCRuntime :=
  if serveAttempt r then (Some (EText "grpc runtime already started"), r)
  else
    match listener r with
    | Some addr => (None, set_listener (Some addr) addr r)
    | None =>
        match listen (address r) with
        | inl addr => (None, set_listener (Some addr) addr r)
        | inr err => (Some err, set_listener None (address r) r)
        end
    end.

Definition markShuttingDownLocked (r : GRPCRuntime) : GRPCRuntime := set_health (health_shutdown <$> health r) true r.

(** What a call returns, or does next, after [runShutdownHooks]. *)
Definition join_or (err shutdownErr : option error) : option error :=
  match shutdownErr with Some _ => errors_join [err; shutdownErr] | None => err end.

Definition after_result (next : after_hooks) (shutdownErr : option error) : option error :=
  match next with
  | AfterRollback err => join_or (Some err) shutdownErr
  | AfterServe err => join_or err shutdownErr
  | AfterStopped ByStop => None
  | AfterStopped (ByGraceful None) => shutdownErr
  | AfterStopped (ByGraceful (Some e)) => join_or (Some e) shutdownErr
  end.

(** [startup]'s deferred unlock happens when its rollback is over. *)
Definition release (next : after_hooks) (r : GRPCRuntime) : GRPCRuntime :=
  match next with AfterRollback _ => set_lock None r | _ => r end.

(** ** Steps of call [t] *)

Inductive call_step (listen : string -> string + error) (t : nat) : GRPCRuntime -> GRPCRuntime -> Prop :=
| start_refused r err r' : calls r !! t = Some StartPrepare -> prepareListener listen r = (Some err, r') ->
    call_step listen t r (at_point t (Returned (Some err)) r')
| start_prepared r r' : calls r !! t = Some StartPrepare -> prepareListener listen r = (None, r') ->
    call_step listen t r (at_point t StartLocking r')
| startup_refused r : calls r !! t = Some StartLocking -> lifecycleMu r = None -> shuttingDown r = true ->
    call_step listen t r (at_point t (Returned (Some (EText "grpc runtime is shutting down"))) r)
| startup_begins r : calls r !! t = Some StartLocking -> lifecycleMu r = None -> shuttingDown r = false ->
    call_step listen t r (at_point t (StartHooks (startupHooks r)) (set_lock (Some t) r))
| startup_hook_ok r i todo : calls r !! t = Some (StartHooks (i :: todo)) ->
    call_step listen t r (at_point t (StartHooks todo) (log (StartupHookRan i) r))
| startup_hook_fails r i todo err : calls r !! t = Some (StartHooks (i :: todo)) ->
    call_step listen t r (at_point t (StartFailed err) (log (StartupHookRan i) r))
| startup_rolls_back r err : calls r !! t = Some (StartFailed err) ->
    call_step listen t r (at_point t (InHooks (AfterRollback err)) (markShuttingDownLocked r))
| startup_done r : calls r !! t = Some (StartHooks []) ->
    call_step listen t r (at_point t Serving
      (log ReportedServing (set_lock None (set_health (setServingStatus true (health r)) (shuttingDown r) r))))
| serve_stopped r err : calls r !! t = Some Serving -> errors_is_opt err SServerStopped = true ->
    call_step listen t r (at_point t (Returned None) r)
| serve_fails r err : calls r !! t = Some Serving -> errors_is_opt err SServerStopped = false ->
    call_step listen t r (at_point t (FailHealth (FailServe err)) r)
| fails_health r next : calls r !! t = Some (FailHealth next) -> lifecycleMu r = None ->
    call_step listen t r (at_point t
      (match next with
       | FailServe err => InHooks (AfterServe err)
       | FailStop => ServerStop ByStop
       | FailGraceful => ServerStop (ByGraceful None)
       end) (markShuttingDownLocked r))
| stops_server r by_ : calls r !! t = Some (ServerStop by_) ->
    call_step listen t r (at_point t (InHooks (AfterStopped by_)) (log ServerStopped r))
| graceful_timeout r err : calls r !! t = Some (ServerStop (ByGraceful None)) ->
    call_step listen t r (at_point t (ServerStop (ByGraceful (Some err))) r)
| once_begins r next : calls r !! t = Some (InHooks next) -> shutdownHooksOnce r = Fresh ->
    call_step listen t r (set_once (Running t (shutdownHooks r)) (shutdownError r) r)
| shutdown_hook r next i todo err : calls r !! t = Some (InHooks next) -> shutdownHooksOnce r = Running t (i :: todo) ->
    call_step listen t r (set_once (Running t todo) (keep_first (shutdownError r) err) (log (ShutdownHookRan i) r))
| once_ends r next : calls r !! t = Some (InHooks next) -> shutdownHooksOnce r = Running t [] ->
    call_step listen t r (set_once Done (shutdownError r) r)
| hooks_done r next : calls r !! t = Some (InHooks next) -> shutdownHooksOnce r = Done ->
    call_step listen t r (at_point t (Returned (after_result next (shutdownError r))) (release next r)).

(** A new call of [Start], [Stop] or [GracefulStop]. *)
Definition first_point (p : point) : Prop :=
  p = StartPrepare \/ p = FailHealth FailStop \/ p = FailHealth FailGraceful.

Definition add_call (p : point) (r : GRPCRuntime) : GRPCRuntime :=
  mkGRPCRuntime (health r) (address r) (listener r) (serveAttempt r) (shutdownHooksOnce r) (shutdownError r)
    (lifecycleMu r) (shuttingDown r) (startupHooks r) (shutdownHooks r) (events r) (calls r ++ [p]).

Inductive step (listen : string -> string + error) (r r' : GRPCRuntime) : Prop :=
| step_call t : call_step listen t r r' -> step listen r r'
| step_new p : first_point p -> r' = add_call p r -> step listen r r'.

Definition reachable (listen : string -> string + error) (cfg : GRPCRuntimeConfig) : GRPCRuntime -> Prop :=
  rtc (step listen) (NewGRPCRuntime cfg).

(** ** The invariant *)

Definition holds_lock (p : point) : bool :=
  match p with StartHooks _ | StartFailed _ | InHooks (AfterRollback _) => true | _ => false end.

(** Between [prepareListener] and the end of the startup hooks. *)
Definition starting (p : point) : bool :=
  match p with StartLocking | StartHooks _ | StartFailed _ => true | _ => false end.

Definition in_startup (p : point) : bool :=
  match p with StartHooks _ | StartFailed _ => true | _ => false end.

(** After [markShuttingDownLocked]. *)
Definition stopping (p : point) : bool :=
  match p with ServerStop _ | InHooks _ => true | _ => false end.

Definition startup_ran (l : list event) : list nat :=
  omap (fun e => match e with StartupHookRan i => Some i | _ => None end) l.
Definition shutdown_ran (l : list event) : list nat :=
  omap (fun e => match e with ShutdownHookRan i => Some i | _ => None end) l.

(** No startup hook after a shutdown hook. *)
Fixpoint ordered (l : list event) : Prop :=
  match l with
  | [] => True
  | ShutdownHookRan _ :: l' => startup_ran l' = [] /\ ordered l'
  | _ :: l' => ordered l'
  end.

Definition once_ok (o : once_state) (ran hooks : list nat) : Prop :=
  match o with
  | Fresh => ran = []
  | Running t todo => ran ++ todo = hooks
  | Done => ran = hooks
  end.

Definition startup_ok (ran hooks : list nat) (p : point) : Prop :=
  match p with
  | StartLocking => ran = []
  | StartHooks todo => ran ++ todo = hooks
  | _ => True
  end.

Record ginv (r : GRPCRuntime) : Prop := {
  g_lock : forall t p, calls r !! t = Some p -> holds_lock p = true -> lifecycleMu r = Some t;
  g_starting : forall t p, calls r !! t = Some p -> starting p = true -> serveAttempt r = true;
  g_unique : forall t u p q, calls r !! t = Some p -> calls r !! u = Some q -> starting p = true -> starting q = true -> t = u;
  g_up : forall t p, calls r !! t = Some p -> in_startup p = true -> shuttingDown r = false;
  g_down : forall t p, calls r !! t = Some p -> stopping p = true -> shuttingDown r = true;
  g_once_down : shutdownHooksOnce r <> Fresh -> shuttingDown r = true;
  g_status : shuttingDown r = true -> forall h, health r = Some h -> is_serving h = false;
  g_once : once_ok (shutdownHooksOnce r) (shutdown_ran (events r)) (shutdownHooks r);
  g_unstarted : serveAttempt r = false -> startup_ran (events r) = [];
  g_startup : forall t p, calls r !! t = Some p -> startup_ok (startup_ran (events r)) (startupHooks r) p;
  g_prefix : startup_ran (events r) `prefix_of` startupHooks r;
  g_ordered : ordered (events r)
}.

Lemma startup_ran_app l k : startup_ran (l ++ k) = startup_ran l ++ startup_ran k.
Proof. unfold startup_ran. apply omap_app. Qed.

Lemma shutdown_ran_app l k : shutdown_ran (l ++ k) = shutdown_ran l ++ shutdown_ran k.
Proof. unfold shutdown_ran. apply omap_app. Qed.

Lemma ordered_startup l i : ordered l -> shutdown_ran l = [] -> ordered (l ++ [StartupHookRan i]).
Proof.
  induction l as [| e l IH]; [easy |]. destruct e; cbn; auto. intros _ Hs. discriminate.
Qed.

Lemma ordered_other l e : ordered l -> startup_ran [e] = [] -> ordered (l ++ [e]).
Proof.
  intros Ho He. induction l as [| e' l IH]; [destruct e; cbn; auto |].
  destruct e'; cbn in *; auto. destruct Ho as [H1 H2]. split; [| auto]. rewrite startup_ran_app, H1. exact He.
Qed.

Lemma insert_lookup_cases (l : list point) t p u q : <[t := p]> l !! u = Some q -> (u = t /\ q = p) \/ (u <> t /\ l !! u = Some q).
Proof. intros E0. apply list_lookup_insert_Some in E0 as [(-> & -> & _) | (Hne & E0)]; auto. Qed.

(** The cases of a call's point after a step. *)
Ltac points := repeat match goal with
  | E : <[_ := _]> _ !! _ = Some _ |- _ => apply insert_lookup_cases in E as [[? ?] | [? ?]]; subst
  end.

(** Effect of one more event on the two lists of hooks. *)
Lemma startup_ran_log l e : startup_ran (l ++ [e]) = match e with StartupHookRan i => startup_ran l ++ [i] | _ => startup_ran l end.
Proof. rewrite startup_ran_app. destruct e; cbn; auto using app_nil_r. Qed.

Lemma shutdown_ran_log l e : shutdown_ran (l ++ [e]) = match e with ShutdownHookRan i => shutdown_ran l ++ [i] | _ => shutdown_ran l end.
Proof. rewrite shutdown_ran_app. destruct e; cbn; auto using app_nil_r. Qed.

(** Fields of an updated runtime. *)
Ltac fields := cbn [health address listener serveAttempt shutdownHooksOnce shutdownError lifecycleMu shuttingDown startupHooks
    shutdownHooks events calls at_point set_lock log set_once set_health set_listener markShuttingDownLocked add_call
    release] in *; rewrite ?startup_ran_log, ?shutdown_ran_log.

Lemma in_startup_starting p : in_startup p = true -> starting p = true.
Proof. destruct p; easy. Qed.

Lemma in_startup_lock p : in_startup p = true -> holds_lock p = true.
Proof. destruct p; easy. Qed.

(** [u] is another call than [t] and both are between [prepareListener] and
    the end of the startup hooks, or hold the lock. *)
Ltac two_starting := exfalso; match goal with
  | Guniq : forall t u p q, _ -> _ -> starting p = true -> starting q = true -> t = u,
    E : calls ?r !! ?t = Some _, E' : calls ?r !! ?u = Some _, N : ?u <> ?t |- _ =>
      apply N, (Guniq _ _ _ _ E' E); auto using in_startup_starting
  end.

(** The goals of a step that follow from the same fields before it. *)
Ltac same_fields := intros; points; try discriminate; try solve [eauto | congruence |
  match goal with
  | G : forall t p, _ -> startup_ok _ _ p |- startup_ok _ _ _ => first [exact I | eapply G; eassumption]
  end | two_starting].

Ltac open_inv Hinv := destruct Hinv as [Glock Gstart Guniq Gup Gdown Gonced Gstatus Gonce Gunst Gstup Gpre Gord].

Lemma prepare_ok listen r err r' : prepareListener listen r = (err, r') -> exists l a b,
  r' = mkGRPCRuntime (health r) a l b (shutdownHooksOnce r) (shutdownError r) (lifecycleMu r) (shuttingDown r)
    (startupHooks r) (shutdownHooks r) (events r) (calls r) /\
  (serveAttempt r = true -> b = true) /\ (err = None -> serveAttempt r = false /\ b = true) .
Proof.
  unfold prepareListener. destruct (serveAttempt r) eqn:Es.
  - intros [= <- <-]. exists (listener r), (address r), true. destruct r. cbn in *. subst. repeat split; auto; discriminate.
  - destruct (listener r) as [l |]; [| destruct (listen (address r)) as [l | e]]; intros [= <- <-];
      do 3 eexists; (split; [reflexivity |]); auto.
Qed.

Lemma once_down_fresh r : ginv r -> shuttingDown r = false -> shutdown_ran (events r) = [].
Proof.
  intros Hinv Hd. open_inv Hinv. unfold once_ok in Gonce. destruct (shutdownHooksOnce r) eqn:Eo; auto;
    rewrite Gonced in Hd by congruence; discriminate.
Qed.

(** The lock is free, or held by two calls. *)
Ltac lock_taken := exfalso; match goal with
  | Glock : forall t p, _ -> holds_lock p = true -> lifecycleMu ?r = Some t, E : calls ?r !! ?u = Some ?p |- _ =>
      let L := fresh in assert (L : lifecycleMu r = Some u) by (apply (Glock _ _ E); auto using in_startup_lock);
      first [congruence | match goal with E' : calls r !! _ = Some _, N : _ <> _ |- _ =>
        pose proof (Glock _ _ E' eq_refl); congruence end]
  end.

Lemma shut_not_serving `{!HealthServerLaws H} (o : option H) h : health_shutdown <$> o = Some h -> is_serving h = false.
Proof. intros E. apply fmap_Some in E as (h' & _ & ->). apply shutdown_not_serving. Qed.

(** A startup hook runs while call [t] holds the lock, before any shutdown hook. *)
Lemma startup_hook_inv `{!HealthServerLaws H} r t i todo p : ginv r -> calls r !! t = Some (StartHooks (i :: todo)) ->
  p = StartHooks todo \/ (exists err, p = StartFailed err) -> ginv (at_point t p (log (StartupHookRan i) r)).
Proof.
  intros Hinv E Hp. pose proof (once_down_fresh r Hinv) as Hfresh. open_inv Hinv.
  pose proof (Gstup _ _ E) as Hn. pose proof (Gup _ _ E eq_refl) as Hd. pose proof (Gstart _ _ E eq_refl) as Hs. cbn in Hn.
  assert (Hn' : (startup_ran (events r) ++ [i]) ++ todo = startupHooks r) by (rewrite <- app_assoc; exact Hn).
  assert (Hp' : startup_ok (startup_ran (events r) ++ [i]) (startupHooks r) p /\ in_startup p = true)
    by (destruct Hp as [-> | [err ->]]; cbn; auto).
  destruct Hp' as [Hok Hst].
  split; fields; same_fields.
  - destruct p; discriminate.
  - match goal with |- startup_ok _ _ ?q => destruct q; try exact I end; two_starting.
  - exists todo. auto.
  - apply ordered_startup; auto.
Qed.

Lemma call_step_inv `{!HealthServerLaws H} listen t r r' : ginv r -> call_step listen t r r' -> ginv r'.
Proof.
  intros Hinv Hstep. pose proof (once_down_fresh r Hinv) as Hfresh.
  destruct Hstep as [r err r' E Ep | r r' E Ep | r E El Ed | r E El Ed | r i todo E | r i todo err E
    | r err E | r E | r err E Es | r err E Es | r next E El | r next E | r err E | r next E Eo | r next i todo err E Eo
    | r next E Eo | r next E Eo].
  1: destruct (prepare_ok _ _ _ _ Ep) as (l & a & b & -> & Hb & _).
  2: destruct (prepare_ok _ _ _ _ Ep) as (l & a & b & -> & _ & Hb); destruct (Hb eq_refl) as [Hs ->].
  5, 6: apply (startup_hook_inv _ _ _ _ _ Hinv E); eauto.
  15: destruct next.
  9: destruct next.
  all: open_inv Hinv; try rewrite Eo in Gonce; cbn in Gonce.
  all: split; fields; same_fields; try lock_taken; eauto using shut_not_serving, ordered_other.
  - apply Gunst. destruct (serveAttempt r); [rewrite Hb in *; easy | easy].
  - exact (Gunst Hs).
  - pose proof (Gstup _ _ E) as Hn. cbn in *. rewrite Hn. easy.
  - rewrite (Gup _ _ E eq_refl) in *. easy.
  - cbn. rewrite Gonce. reflexivity.
  - cbn. rewrite <- app_assoc. exact Gonce.
  - cbn. rewrite app_nil_r in Gonce. exact Gonce.
  - rewrite Eo. exact Gonce.
  - rewrite Eo. exact Gonce.
  - rewrite Eo. exact Gonce.
Qed.

Lemma step_inv `{!HealthServerLaws H} listen r r' : ginv r -> step listen r r' -> ginv r'.
Proof.
  intros Hinv [t Ht | p Hp ->]; [eauto using call_step_inv |].
  assert (Hq : forall t q, (calls r ++ [p]) !! t = Some q -> calls r !! t = Some q \/ q = p).
  { intros t q Eq. apply lookup_app_Some in Eq as [Eq | [_ Eq]]; [auto |].
    apply list_lookup_singleton_Some in Eq as [_ ->]. auto. }
  assert (Hnone : holds_lock p = false /\ starting p = false /\ in_startup p = false /\ stopping p = false /\
    forall ran hooks, startup_ok ran hooks p) by (destruct Hp as [-> | [-> | ->]]; cbn; auto).
  destruct Hnone as (N1 & N2 & N3 & N4 & N5). open_inv Hinv.
  split; fields; auto; try solve [intros t q Eq Hl; apply Hq in Eq as [Eq | ->]; [eauto | congruence]].
  - intros t u q q' Eq Eq' Hs Hs'. apply Hq in Eq as [Eq | ->]; [| congruence]. apply Hq in Eq' as [Eq' | ->]; [eauto | congruence].
  - intros t q Eq. apply Hq in Eq as [Eq | ->]; eauto.
Qed.

Lemma new_inv cfg : ginv (NewGRPCRuntime cfg).
Proof. split; cbn; try easy. apply prefix_nil. Qed.

Lemma grpc_reachable_inv `{!HealthServerLaws H} listen cfg r : reachable listen cfg r -> ginv r.
Proof.
  unfold reachable. intros Hr. remember (NewGRPCRuntime cfg) as r0 eqn:E0.
  assert (Hinv : ginv r0) by (subst; apply new_inv). clear E0.
  induction Hr as [| r0 r1 r2 Hs _ IH]; eauto using step_inv.
Qed.

(** Nothing changes the hooks. *)
Lemma step_hooks listen r r' : step listen r r' -> startupHooks r' = startupHooks r /\ shutdownHooks r' = shutdownHooks r.
Proof.
  intros [t Ht | p _ ->]; [| auto]. destruct Ht; auto.
  1, 2: match goal with Ep : prepareListener _ _ = _ |- _ =>
    destruct (prepare_ok _ _ _ _ Ep) as (l & a & b & -> & _) end; auto.
  destruct next; auto.
Qed.

Lemma reachable_hooks listen cfg r : reachable listen cfg r ->
  startupHooks r = hook_positions 0 (grpc_StartupHooks cfg) /\ shutdownHooks r = hook_positions 0 (grpc_ShutdownHooks cfg).
Proof.
  unfold reachable. intros Hr.
  assert (Hk : forall r0 r1, rtc (step listen) r0 r1 -> startupHooks r1 = startupHooks r0 /\ shutdownHooks r1 = shutdownHooks r0).
  { clear. intros r0 r1 Hr. induction Hr as [| r0 r1 r2 Hs _ [IH1 IH2]]; [auto |].
    destruct (step_hooks _ _ _ Hs) as [H1 H2]. split; congruence. }
  apply Hk in Hr. exact Hr.
Qed.

(** A step never takes the runtime out of shutdown. *)
Lemma step_down listen r r' : step listen r r' -> shuttingDown r = true -> shuttingDown r' = true.
Proof.
  intros [t Ht | p _ ->]; [| auto]. destruct Ht; auto.
  1, 2: match goal with Ep : prepareListener _ _ = _ |- _ =>
    destruct (prepare_ok _ _ _ _ Ep) as (l & a & b & -> & _) end; auto.
  destruct next; auto.
Qed.

(** Once it is shutting down, a step of the runtime runs no startup hook. *)
Lemma step_down_quiet listen r r' : ginv r -> step listen r r' -> shuttingDown r = true ->
  startup_ran (events r') = startup_ran (events r).
Proof.
  intros Hinv Hs Hd. open_inv Hinv.
  destruct Hs as [t Ht | p _ ->]; [| reflexivity]. destruct Ht; fields; auto.
  1, 2: match goal with Ep : prepareListener _ _ = _ |- _ =>
    destruct (prepare_ok _ _ _ _ Ep) as (l & a & b & -> & _) end; auto.
  1, 2: match goal with E : calls _ !! _ = Some (StartHooks _) |- _ => rewrite (Gup _ _ E eq_refl) in Hd end; discriminate.
  destruct next; auto.
Qed.
End GRPCRuntime.

Lemma hook_positions_lower i hooks j : j ∈ hook_positions i hooks -> (i <= j)%nat.
Proof.
  revert i. induction hooks as [| [] hooks IH]; cbn; intros i Hj.
  - inversion Hj.
  - apply elem_of_cons in Hj as [-> | Hj]; [lia |]. apply IH in Hj. lia.
  - apply IH in Hj. lia.
Qed.

Lemma hook_positions_nodup i hooks : NoDup (hook_positions i hooks).
Proof.
  revert i. induction hooks as [| [] hooks IH]; cbn; intros i; [constructor | | apply IH].
  constructor; [| apply IH]. intros Hj. apply hook_positions_lower in Hj. lia.
Qed.

Lemma nodup_prefix {A} (l k : list A) : l `prefix_of` k -> NoDup k -> NoDup l.
Proof. intros [m ->] Hk. apply NoDup_app in Hk. apply Hk. Qed.

Lemma once_prefix o ran hooks : once_ok o ran hooks -> ran `prefix_of` hooks.
Proof. destruct o; cbn; [intros -> ; apply prefix_nil | intros <-; eexists; reflexivity | intros ->; reflexivity]. Qed.

Lemma ordered_split l i k : ordered (l ++ ShutdownHookRan i :: k) -> startup_ran k = [].
Proof. induction l as [| e l IH]; cbn; [easy |]. destruct e; cbn; auto. intros [_ Ho]. auto. Qed.

(** ** Theorems *)

(** C5. Whatever the interleaving of [Start], [Stop] and [GracefulStop], the
    startup hooks that ran are the first ones, each once and in order; so are
    the shutdown hooks, all of them when [shutdownHooksOnce] is done; and no
    startup hook runs after a shutdown hook. *)
Theorem hooks_ordered {H} `{HealthServerLaws H} listen cfg (r : GRPCRuntime) : reachable listen cfg r ->
  let starts := hook_positions 0 (grpc_StartupHooks cfg) in
  let stops := hook_positions 0 (grpc_ShutdownHooks cfg) in
  startup_ran (events r) `prefix_of` starts /\ NoDup (startup_ran (events r)) /\
  shutdown_ran (events r) `prefix_of` stops /\ NoDup (shutdown_ran (events r)) /\
  (shutdownHooksOnce r = Done -> shutdown_ran (events r) = stops) /\
  (forall l i k, events r = l ++ ShutdownHookRan i :: k -> startup_ran k = []).
Proof.
  intros Hr. cbv zeta. pose proof (reachable_hooks _ _ _ Hr) as [Eu Es]. rewrite <- Eu, <- Es. apply grpc_reachable_inv in Hr.
  destruct Hr as [_ _ _ _ _ _ _ Gonce _ _ Gpre Gord].
  assert (Hsd : shutdown_ran (events r) `prefix_of` shutdownHooks r) by (eapply once_prefix; exact Gonce).
  split; [exact Gpre |]. split; [eapply nodup_prefix; [exact Gpre | rewrite Eu; apply hook_positions_nodup] |].
  split; [exact Hsd |]. split; [eapply nodup_prefix; [exact Hsd | rewrite Es; apply hook_positions_nodup] |].
  split; [intros Eo; rewrite Eo in Gonce; exact Gonce |].
  intros l i k El. rewrite El in Gord. eapply ordered_split. exact Gord.
Qed.

(** C21. Once a runtime shuts down (a call stops its server, or runs its
    shutdown hooks) it does so for ever: in every later state its health
    service does not report SERVING, and no startup hook runs any more. *)
Theorem never_serving_again {H} `{HealthServerLaws H} listen cfg (r r' : GRPCRuntime) :
  reachable listen cfg r ->
  (shuttingDown r = true \/ shutdownHooksOnce r <> Fresh \/ exists t p, calls r !! t = Some p /\ stopping p = true) ->
  rtc (step listen) r r' ->
  shuttingDown r' = true /\ (forall h, health r' = Some h -> is_serving h = false) /\
  startup_ran (events r') = startup_ran (events r).
Proof.
  intros Hr Hd Hrr. apply grpc_reachable_inv in Hr.
  assert (Hd' : shuttingDown r = true).
  { destruct Hd as [Hd | [Hd | (t & p & Ht & Hp)]]; [exact Hd | exact (g_once_down _ Hr Hd) | exact (g_down _ Hr _ _ Ht Hp)]. }
  clear Hd. induction Hrr as [r | r r1 r2 Hs _ IH].
  - repeat split; auto. exact (g_status _ Hr Hd').
  - destruct IH as (IH1 & IH2 & IH3); [eauto using step_inv | eauto using step_down |].
    repeat split; auto. rewrite IH3. eauto using step_down_quiet.
Qed.

(** ** Witnesses *)

(** A health service with one status, kept at NOT_SERVING after [Shutdown]. *)
Record demo_health : Type := mkDemoHealth { demo_serving : bool; demo_down : bool }.

#[export] Instance demo_health_server : HealthServer demo_health := {
  new_health := mkDemoHealth false false;
  set_serving b h := if demo_down h then h else mkDemoHealth b false;
  health_shutdown h := mkDemoHealth false true;
  is_serving := demo_serving
}.

#[export] Instance demo_health_laws : HealthServerLaws demo_health := { shutdown_not_serving h := eq_refl }.

Definition demo_listen (a : string) : string + error := inl a.
Definition demo_grpc : GRPCRuntimeConfig := mkGRPCConfig "svc" "" None false [true; false; true] [true].

(** A runtime that started, served, and was stopped by another call. *)
Definition demo_serving_state : @GRPCRuntime demo_health :=
  mkGRPCRuntime (Some (mkDemoHealth true false)) ":9090" (Some ":9090") true Fresh None None false [0%nat; 2%nat] [0%nat]
    [StartupHookRan 0; StartupHookRan 2; ReportedServing] [Serving].
Definition demo_stopped_state : @GRPCRuntime demo_health :=
  mkGRPCRuntime (Some (mkDemoHealth false true)) ":9090" (Some ":9090") true Done None None true [0%nat; 2%nat] [0%nat]
    [StartupHookRan 0; StartupHookRan 2; ReportedServing; ServerStopped; ShutdownHookRan 0] [Serving; InHooks (AfterStopped ByStop)].

(** The same after the stopping call returned. *)
Definition demo_final_state : @GRPCRuntime demo_health := at_point 1 (Returned None) demo_stopped_state.

Lemma demo_reaches_serving : reachable demo_listen demo_grpc demo_serving_state.
Proof.
  eapply rtc_l; [eapply step_new; [left; reflexivity | reflexivity] |].
  eapply rtc_l; [eapply (step_call _ _ _ 0), start_prepared; reflexivity |].
  eapply rtc_l; [eapply (step_call _ _ _ 0), startup_begins; reflexivity |].
  eapply rtc_l; [eapply (step_call _ _ _ 0), startup_hook_ok; reflexivity |].
  eapply rtc_l; [eapply (step_call _ _ _ 0), startup_hook_ok; reflexivity |].
  eapply rtc_l; [eapply (step_call _ _ _ 0), startup_done; reflexivity |]. apply rtc_refl.
Qed.

Lemma demo_reaches_stopped : rtc (step demo_listen) demo_serving_state demo_stopped_state.
Proof.
  eapply rtc_l; [eapply step_new; [right; left; reflexivity | reflexivity] |].
  eapply rtc_l; [eapply (step_call _ _ _ 1), fails_health; reflexivity |].
  eapply rtc_l; [eapply (step_call _ _ _ 1), stops_server; reflexivity |].
  eapply rtc_l; [eapply (step_call _ _ _ 1), once_begins; reflexivity |].
  eapply rtc_l; [eapply (step_call _ _ _ 1), (shutdown_hook _ _ _ _ _ _ None); reflexivity |].
  eapply rtc_l; [eapply (step_call _ _ _ 1), once_ends; reflexivity |]. apply rtc_refl.
Qed.

Lemma demo_reaches_stop : reachable demo_listen demo_grpc demo_stopped_state.
Proof. unfold reachable. etransitivity; [exact demo_reaches_serving | exact demo_reaches_stopped]. Qed.

Lemma hooks_ordered_witness :
  shutdown_ran (events demo_stopped_state) = [0%nat] /\ startup_ran (events demo_stopped_state) = [0%nat; 2%nat] /\
  (forall l i k, events demo_stopped_state = l ++ ShutdownHookRan i :: k -> startup_ran k = []).
Proof.
  split; [reflexivity |]. split; [reflexivity |].
  exact (proj2 (proj2 (proj2 (proj2 (proj2 (hooks_ordered demo_listen demo_grpc demo_stopped_state
    demo_reaches_stop)))))).
Defined.

Lemma never_serving_again_witness : shuttingDown demo_final_state = true /\
  (forall h, health demo_final_state = Some h -> is_serving h = false) /\
  startup_ran (events demo_final_state) = [0%nat; 2%nat].
Proof.
  refine (never_serving_again demo_listen demo_grpc demo_stopped_state demo_final_state _ _ _).
  - exact demo_reaches_stop.
  - right. right. exists 1%nat, (InHooks (AfterStopped ByStop)). split; reflexivity.
  - apply rtc_once. eapply (step_call _ _ _ 1), (hooks_done _ _ demo_stopped_state (AfterStopped ByStop)); reflexivity.
Defined.
