(* ===== verification/GRPCProgress.v ===== *)
(** * The calls of a gRPC runtime finish

    Progress of the step relation of GRPCRuntime.v: [lifecycleMu] and
    [shutdownHooksOnce] are always held by a call that can go on, and every
    step takes a bounded work off.  So no interleaving of [Start], [Stop] and
    [GracefulStop] deadlocks or goes on for ever, and a stopped server has
    had all its shutdown hooks ([calls_finish]).  Hooks that call back into
    the runtime are outside the model: a startup hook that calls [Stop] waits
    for the lock its own [Start] holds. *)

From S2P Require Import Prelude GoStrings GoErrors GRPCRuntime.

Section Progress.
Context {H : Type} `{HealthServer H}.
Implicit Type r : @GRPCRuntime H.

(** ** Who holds what *)

(** Fields of an updated runtime. *)
Ltac fields := cbn [health address listener serveAttempt shutdownHooksOnce shutdownError lifecycleMu shuttingDown startupHooks
    shutdownHooks events calls at_point set_lock log set_once set_health set_listener markShuttingDownLocked add_call
    release] in *.

Record held (r : @GRPCRuntime H) : Prop := {
  h_lock : forall t, lifecycleMu r = Some t -> exists p, calls r !! t = Some p /\ holds_lock p = true;
  h_once : forall t todo, shutdownHooksOnce r = Running t todo -> exists next, calls r !! t = Some (InHooks next);
  h_owed : ServerStopped ∈ events r -> shutdownHooksOnce r = Done \/ exists t next, calls r !! t = Some (InHooks next)
}.

Lemma moved (l : list point) t p q u x : l !! t = Some p -> l !! u = Some x -> u = t /\ x = p \/ <[t := q]> l !! u = Some x.
Proof.
  intros Et Eu. destruct (decide (u = t)) as [-> | Hne]; [left; split; congruence | right].
  now rewrite list_lookup_insert_ne by congruence.
Qed.

Lemma moved_here (l : list point) t p q : l !! t = Some p -> <[t := q]> l !! t = Some q.
Proof. intros Et. apply list_lookup_insert_eq. now apply lookup_lt_Some in Et. Qed.

(** Call [t] goes from [p] to [q] and nobody starts or ends the hooks. *)
Lemma held_move r r' t p q : held r -> calls r !! t = Some p -> calls r' = <[t := q]> (calls r) ->
  (forall u, lifecycleMu r' = Some u ->
    lifecycleMu r = Some u /\ (holds_lock p = true -> holds_lock q = true) \/ u = t /\ holds_lock q = true) ->
  shutdownHooksOnce r' = shutdownHooksOnce r ->
  (forall next, p = InHooks next -> shutdownHooksOnce r = Done) ->
  (ServerStopped ∈ events r' -> ServerStopped ∈ events r \/ exists next, q = InHooks next) -> held r'.
Proof.
  intros [Hl Ho Hw] E Ec Elock Eonce Hp Hev. split; rewrite Ec, ?Eonce.
  - intros u Hu. destruct (Elock u Hu) as [[Hu' Hq] | [-> Hq]]; [| eauto using moved_here].
    destruct (Hl u Hu') as (x & Ex & Hx). destruct (moved _ _ _ q _ _ E Ex) as [[-> ->] | Ex']; eauto using moved_here.
  - intros u todo Hu. destruct (Ho u todo Hu) as (next & Ex).
    destruct (moved _ _ _ q _ _ E Ex) as [[-> <-] | Ex']; [| eauto]. rewrite (Hp next eq_refl) in Hu. discriminate.
  - intros Hs. destruct (Hev Hs) as [Hs' | [next ->]]; [| right; eauto using moved_here].
    destruct (Hw Hs') as [Hd | (u & next & Ex)]; [now left |].
    destruct (moved _ _ _ q _ _ E Ex) as [[-> <-] | Ex']; [left; now apply (Hp next) | right; eauto].
Qed.

Lemma not_logged (l : list event) e : e <> ServerStopped -> ServerStopped ∈ l ++ [e] -> ServerStopped ∈ l.
Proof. intros He Hin. apply elem_of_app in Hin as [Hin | Hin]; [exact Hin |]. apply list_elem_of_singleton in Hin. congruence. Qed.

Lemma call_step_held listen t r r' : held r -> call_step listen t r r' -> held r'.
Proof.
  intros Hh Hstep.
  destruct Hstep as [r err r' E Ep | r r' E Ep | r E El Ed | r E El Ed | r i todo E | r i todo err E
    | r err E | r E | r err E Es | r err E Es | r next E El | r next E | r err E | r next E Eo | r next i todo err E Eo
    | r next E Eo | r next E Eo].
  1, 2: destruct (prepare_ok _ _ _ _ Ep) as (l & a & b & -> & _).
  14-16: destruct Hh as [Hl Ho Hw]; split; fields; auto.
  1-13: eapply (held_move r); [exact Hh | exact E | ..]; fields; try reflexivity; try discriminate; eauto.
  all: try solve [intros; eauto using not_logged | intros ? ? [= <- <-]; eauto | discriminate].
  - intros u [= <-]. auto.
  - left. now apply (not_logged _ (StartupHookRan i)).
  - left. now apply (not_logged _ (StartupHookRan i)).
  - left. now apply (not_logged _ ReportedServing).
  - rewrite El. discriminate.
  - destruct next as [err | err | by_].
    + apply (held_move r _ t (InHooks (AfterRollback err)) (Returned (after_result (AfterRollback err) (shutdownError r))));
        fields; auto. discriminate.
    + apply (held_move r _ t (InHooks (AfterServe err)) (Returned (after_result (AfterServe err) (shutdownError r))));
        fields; auto.
    + apply (held_move r _ t (InHooks (AfterStopped by_)) (Returned (after_result (AfterStopped by_) (shutdownError r))));
        fields; auto.
Qed.

Lemma step_held listen r r' : held r -> step listen r r' -> held r'.
Proof.
  intros Hh [t Ht | p Hp ->]; [eauto using call_step_held |]. destruct Hh as [Hl Ho Hw].
  assert (forall t x, calls r !! t = Some x -> (calls r ++ [p]) !! t = Some x) as Happ
    by (intros; now apply lookup_app_l_Some).
  split; fields.
  - intros t Et. destruct (Hl t Et) as (x & Ex & Hx). eauto.
  - intros t todo Et. destruct (Ho t todo Et) as (next & Ex). eauto.
  - intros Hs. destruct (Hw Hs) as [Hd | (t & next & Ex)]; [now left | right; eauto].
Qed.

Lemma reachable_held listen cfg r : reachable listen cfg r -> held r.
Proof.
  unfold reachable. intros Hr. remember (NewGRPCRuntime cfg) as r0 eqn:E0.
  assert (held r0) as Hh by (subst; split; cbn; [discriminate | discriminate | intros Hin; now apply not_elem_of_nil in Hin]).
  clear E0. induction Hr as [| r0 r1 r2 Hs _ IH]; eauto using step_held.
Qed.

(** ** Progress *)

(** A call that is over, or waits in [Serve] for the server. *)
Definition at_rest (p : point) : bool := match p with Returned _ | Serving => true | _ => false end.

(** Some call that does not wait for the server can go on. *)
Definition can_go listen r : Prop := exists t r' p, calls r !! t = Some p /\ at_rest p = false /\ call_step listen t r r'.

Lemma hooks_go listen t next r : held r -> calls r !! t = Some (InHooks next) -> can_go listen r.
Proof.
  intros Hh E. destruct (shutdownHooksOnce r) as [| u todo |] eqn:Eo.
  - exists t. do 2 eexists. split; [exact E |]. split; [reflexivity |]. eapply once_begins; eassumption.
  - destruct (h_once _ Hh u todo Eo) as (next' & E'). exists u. destruct todo as [| i todo].
    + do 2 eexists. split; [exact E' |]. split; [reflexivity |]. eapply once_ends; eassumption.
    + do 2 eexists. split; [exact E' |]. split; [reflexivity |]. eapply (shutdown_hook _ _ _ _ _ _ None); eassumption.
  - exists t. do 2 eexists. split; [exact E |]. split; [reflexivity |]. eapply hooks_done; eassumption.
Qed.

Lemma startup_goes listen t p r : held r -> calls r !! t = Some p -> holds_lock p = true -> can_go listen r.
Proof.
  intros Hh E Hp. destruct p as [| | todo | err | | | | next |]; try discriminate; [| | eauto using hooks_go].
  - destruct todo as [| i todo]; exists t; do 2 eexists; (split; [exact E |]); (split; [reflexivity |]).
    + eapply startup_done; eassumption.
    + eapply startup_hook_ok; eassumption.
  - exists t. do 2 eexists. split; [exact E |]. split; [reflexivity |]. eapply startup_rolls_back; eassumption.
Qed.

(** A call that waits for the lock goes on, or the holder does. *)
Lemma lock_goes listen r : held r -> (lifecycleMu r = None -> can_go listen r) -> can_go listen r.
Proof.
  intros Hh Hfree. destruct (lifecycleMu r) as [u |] eqn:El; [| auto].
  destruct (h_lock _ Hh u El) as (p & E & Hp). eauto using startup_goes.
Qed.

Lemma call_goes listen t p r : held r -> calls r !! t = Some p -> at_rest p = false -> can_go listen r.
Proof.
  intros Hh E Hp. destruct (holds_lock p) eqn:Hl; [eauto using startup_goes |].
  destruct p as [| | todo | err | | next | by_ | next |]; try discriminate; [| | | | eauto using hooks_go].
  - destruct (prepareListener listen r) as [[err |] r'] eqn:Ep; exists t; do 2 eexists;
      (split; [exact E |]); (split; [reflexivity |]); [eapply start_refused; eassumption | eapply start_prepared; eassumption].
  - apply lock_goes; [exact Hh |]. intros El. exists t.
    destruct (shuttingDown r) eqn:Ed; do 2 eexists; (split; [exact E |]); (split; [reflexivity |]).
    + eapply startup_refused; eassumption.
    + eapply startup_begins; eassumption.
  - apply lock_goes; [exact Hh |]. intros El. exists t. do 2 eexists. split; [exact E |]. split; [reflexivity |].
    eapply fails_health; eassumption.
  - exists t. do 2 eexists. split; [exact E |]. split; [reflexivity |]. eapply stops_server; eassumption.
Qed.

(** ** Work *)

(** The steps a call has before it, with [n] startup hooks. *)
Definition weight (n : nat) (p : point) : nat :=
  match p with
  | StartPrepare => n + 8
  | StartLocking => n + 7
  | StartHooks todo => length todo + 6
  | Serving => 5
  | FailHealth _ => 4
  | ServerStop (ByGraceful None) => 3
  | ServerStop _ | StartFailed _ => 2
  | InHooks _ => 1
  | Returned _ => 0
  end.

Definition once_work (m : nat) (o : once_state) : nat :=
  match o with Fresh => m + 2 | Running _ todo => length todo + 1 | Done => 0 end.

Definition work r : nat :=
  sum_list (weight (length (startupHooks r)) <$> calls r) + once_work (length (shutdownHooks r)) (shutdownHooksOnce r).

(** Call [t] goes on to a point with less before it. *)
Lemma work_move r r' t p q : calls r !! t = Some p -> calls r' = <[t := q]> (calls r) ->
  startupHooks r' = startupHooks r -> shutdownHooks r' = shutdownHooks r -> shutdownHooksOnce r' = shutdownHooksOnce r ->
  (weight (length (startupHooks r)) q < weight (length (startupHooks r)) p)%nat -> (work r' < work r)%nat.
Proof.
  intros E Ec E1 E2 E3 Hw. unfold work. rewrite Ec, E1, E2, E3.
  pose proof (sum_moved (weight (length (startupHooks r))) (calls r) t p q E). lia.
Qed.

Lemma call_step_work listen t r r' : call_step listen t r r' -> (work r' < work r)%nat.
Proof.
  intros Hstep.
  destruct Hstep as [r err r' E Ep | r r' E Ep | r E El Ed | r E El Ed | r i todo E | r i todo err E
    | r err E | r E | r err E Es | r err E Es | r next E El | r next E | r err E | r next E Eo | r next i todo err E Eo
    | r next E Eo | r next E Eo].
  1, 2: destruct (prepare_ok _ _ _ _ Ep) as (l & a & b & -> & _).
  14-16: unfold work; fields; rewrite Eo; cbn; lia.
  1-13: eapply (work_move r); [exact E | reflexivity..|]; cbn; try lia.
  - destruct next; cbn; lia.
  - destruct next as [| [|]]; cbn; lia.
  - eapply (work_move r); [exact E | destruct next; reflexivity..|]. cbn. lia.
Qed.

Lemma steps_work listen n r r' : nsteps (fun a b => exists t, call_step listen t a b) n r r' -> (n + work r' <= work r)%nat.
Proof.
  induction 1 as [r | n r r1 r2 [t Ht] _ IH]; [lia |]. apply call_step_work in Ht. lia.
Qed.

(** C22. No interleaving of calls deadlocks or goes on for ever: without new
    calls at most [work r] steps follow a reachable state, and where nothing
    but [Serve] can return, every call is over or serving, and the shutdown
    hooks of a server that was stopped have all run. *)
Theorem calls_finish `{!HealthServerLaws H} listen cfg r : reachable listen cfg r ->
  (forall n r', nsteps (fun a b => exists t, call_step listen t a b) n r r' -> (n <= work r)%nat) /\
  ((forall t r', call_step listen t r r' -> calls r !! t = Some Serving) ->
    (forall t p, calls r !! t = Some p -> p = Serving \/ exists err, p = Returned err) /\
    (ServerStopped ∈ events r -> shutdown_ran (events r) = hook_positions 0 (grpc_ShutdownHooks cfg))).
Proof.
  intros Hr. pose proof (reachable_held _ _ _ Hr) as Hh. split; [intros n r' Hn; apply steps_work in Hn; lia |].
  intros Hstuck.
  assert (forall t p, calls r !! t = Some p -> at_rest p = true) as Hrest.
  { intros t p E. destruct (at_rest p) eqn:Ep; [reflexivity | exfalso].
    destruct (call_goes listen t p r Hh E Ep) as (u & r' & q & Eu & Hq & Hs). apply Hstuck in Hs. simplify_eq/=. }
  split.
  - intros t p E. apply Hrest in E. destruct p; try discriminate; eauto.
  - intros Hs. destruct (h_owed _ Hh Hs) as [Hd | (t & next & E)]; [| now apply Hrest in E].
    destruct (reachable_hooks _ _ _ Hr) as [_ <-]. pose proof (g_once _ (grpc_reachable_inv _ _ _ Hr)) as Ho.
    rewrite Hd in Ho. exact Ho.
Qed.
End Progress.

(** ** Witness *)

Lemma calls_finish_witness :
  (work demo_serving_state <= 8)%nat /\
  (forall t p, calls demo_final_state !! t = Some p -> p = Serving \/ exists err, p = Returned err) /\
  shutdown_ran (events demo_final_state) = hook_positions 0 (grpc_ShutdownHooks demo_grpc).
Proof.
  split; [vm_compute; lia |].
  assert (reachable demo_listen demo_grpc demo_final_state) as Hr.
  { unfold reachable. etransitivity; [exact demo_reaches_stop |]. apply rtc_once.
    eapply (step_call _ _ _ 1), (hooks_done _ _ demo_stopped_state (AfterStopped ByStop)); reflexivity. }
  destruct (calls_finish demo_listen demo_grpc demo_final_state Hr) as [_ H].
  destruct H as [H1 H2].
  - intros [| [| t]] r' Hs; [reflexivity | inversion Hs; subst; discriminate | inversion Hs; subst; discriminate].
  - split; [exact H1 |]. apply H2. vm_compute. right. right. right. left.
Defined.
