(* ===== verification/Tracing.v ===== *)
(** * Tracing of HTTP requests

    [go/middleware/tracing.go]: the middleware that starts a span for each
    request and puts its identifiers in the response's headers, and the
    readers of the identifiers.  [go/middleware/otelhttp.go]: the middleware
    made of otelhttp's handler, which is a parameter.

    The theorem ([http_tracing_correlates]): the span covers the handler,
    whether it returns or panics, and the IDs in the headers are those the
    handler reads from its context. *)

From S2P Require Import Prelude GoStrings GoErrors Spans GoHTTP Writers HTTPMiddleware.

(** The IDs of the span of a context. *)
Definition trace_id {St} `{Tracer St} (requestID : string) (ctx : otel_context) : string :=
  match TraceID (SpanFromContext ctx) with Some id => id | None => requestID end.

Section Tracing.
Context {E : Type} `{Tracer E}.

Definition GetTraceID (r : request) : string := trace_id (GetRequestID r) (ctx_otel r).
Definition GetSpanID (r : request) : string := default "" (SpanID (SpanFromContext (ctx_otel r))).

(** [propagation.HeaderCarrier]. *)
Definition header_carrier (h : header) : TextMapCarrier := mkCarrier (header_Get h) ((map_to_list h).*1).
Definition inject (ctx : otel_context) (h : header) : header :=
  foldl (fun h kv => header_Set kv.1 kv.2 h) h (Inject ctx).

Definition Tracing (tracerName : string) : Middleware E := fun next w r =>
  let ctx := Extracted (header_carrier (Header r)) (ctx_otel r) in
  span ← on_env (Start tracerName (Method r +:+ " " +:+ URLPath r) ctx);
  let ctx := WithSpan span ctx in
  deferring (
    edit_header (inject ctx);;
    (match TraceID (SpanContext span) with
     | Some id => edit_header (header_Set "X-Trace-ID" id)
     | None => mret tt
     end);;
    (match SpanID (SpanContext span) with
     | Some id => edit_header (header_Set "X-Span-ID" id)
     | None => mret tt
     end);;
    next w (with_otel ctx r)) (fun _ => on_env (End_ span)).

Definition set_id_header (key : string) (id : option string) (h : header) : header :=
  match id with Some id => header_Set key id h | None => h end.

Lemma set_id_header_run {A} key id (k : M (world E) A) (c : Clocked (world E)) :
  ((match id with Some id => edit_header (header_Set key id) | None => mret tt end);; k) c =
  (edit_header (set_id_header key id);; k) c.
Proof. destruct id; [reflexivity |]. rewrite !bind_run, edit_header_run. cbn. now destruct c as [? ? ? [[] ? ?]]. Qed.

(** The headers of a response whose request has the span [s]. *)
Definition traced_headers (s : span) (ctx : otel_context) (h : header) : header :=
  set_id_header "X-Span-ID" (SpanID (SpanContext s)) (set_id_header "X-Trace-ID" (TraceID (SpanContext s))
    (inject (WithSpan s ctx) h)).

Definition with_headers (f : header -> header) (e : E) (w : world E) : world E :=
  mkWorld (mkResponse (f (hdr (resp w))) (sent (resp w)) (interim (resp w)) (content (resp w))) (wraps w) e.

(** The middleware step by step. *)
Lemma Tracing_run `{!TracerLaws E} name (next : Handler E) w r (c : Clocked (world E)) :
  let ctx := Extracted (header_carrier (Header r)) (ctx_otel r) in
  exists s c', Start name (Method r +:+ " " +:+ URLPath r) ctx (with_st c (env (st c))) = (Ret s, c') /\
  forall o c2, next w (with_otel (WithSpan s ctx) r) (with_st c' (with_headers (traced_headers s ctx) (st c') (st c))) = (o, c2) ->
  exists c3, End_ s (with_st c2 (env (st c2))) = (Ret tt, c3) /\
    Tracing name next w r c = (o, with_st c3 (mkWorld (resp (st c2)) (wraps (st c2)) (st c3))).
Proof.
  intros ctx. destruct (start_returns name (Method r +:+ " " +:+ URLPath r) ctx (with_st c (env (st c)))) as (s & c' & Es).
  exists s, c'. split; [exact Es |]. intros o c2 En. destruct (end_returns s (with_st c2 (env (st c2)))) as (c3 & E3).
  exists c3. split; [exact E3 |].
  unfold Tracing. cbv zeta. fold ctx. rewrite bind_run. unfold on_env at 1, zoom at 1. rewrite Es. unfold deferring.
  rewrite bind_run, edit_header_run, set_id_header_run, bind_run, edit_header_run, set_id_header_run, bind_run, edit_header_run.
  match goal with |- context [next w ?a ?b] => change (next w a b) with (next w (with_otel (WithSpan s ctx) r)
    (with_st c' (with_headers (traced_headers s ctx) (st c') (st c)))) end.
  rewrite En. unfold on_env, zoom. now rewrite E3.
Qed.

(** Around any handler the tracing middleware starts a span, with a
    parent read from the request, and ends it whether the handler returns or
    panics; inside, the IDs of the context are those of the span, and the
    response's headers carry them. *)
Theorem http_tracing_correlates `{!TracerLaws E} name (next : Handler E) w r (c : Clocked (world E)) :
  exists s c1, let r' := with_otel (WithSpan s (Extracted (header_carrier (Header r)) (ctx_otel r))) r in
  (forall id, TraceID (SpanContext s) = Some id ->
    GetTraceID r' = id /\ header_Get (hdr (resp (st c1))) "X-Trace-ID" = id) /\
  (forall id, SpanID (SpanContext s) = Some id ->
    GetSpanID r' = id /\ header_Get (hdr (resp (st c1))) "X-Span-ID" = id) /\
  sent (resp (st c1)) = sent (resp (st c)) /\
  forall o c2, next w r' c1 = (o, c2) -> exists c3, Tracing name next w r c = (o, c3) /\
    resp (st c3) = resp (st c2) /\ End_ s (with_st c2 (env (st c2))) = (Ret tt, with_st c3 (env (st c3))).
Proof.
  destruct (Tracing_run name next w r c) as (s & c' & _ & Hrun). cbv zeta in Hrun.
  set (ctx := Extracted (header_carrier (Header r)) (ctx_otel r)) in *.
  exists s, (with_st c' (with_headers (traced_headers s ctx) (st c') (st c))). cbv zeta. split; [| split; [| split; [reflexivity |]]].
  - intros id Ht. unfold GetTraceID, trace_id. cbn [ctx_otel with_otel]. rewrite span_of_started, Ht. split; [reflexivity |].
    cbn [st with_st resp hdr with_headers]. unfold traced_headers. rewrite Ht. cbn [set_id_header]. unfold header_Get, set_id_header.
    destruct (SpanID (SpanContext s)); [rewrite header_Values_Set_ne by discriminate |]; now rewrite header_Values_Set.
  - intros id Hs. unfold GetSpanID. cbn [ctx_otel with_otel]. rewrite span_of_started, Hs. split; [reflexivity |].
    cbn [st with_st resp hdr with_headers]. unfold traced_headers. rewrite Hs. apply header_Get_Set.
  - intros o c2 En. destruct (Hrun o c2 En) as (c3 & E3 & Er). eexists. split; [exact Er |]. split; [reflexivity |].
    rewrite E3. now destruct c3.
Qed.
End Tracing.

(** ** otelhttp *)

Section OTelHTTP.
Context {E : Type}.

(** [otelhttp.NewHandler] with its name, the formatter of span names, and the
    filter of the requests to trace. *)
Context (otelhttp_NewHandler : Handler E -> string -> (string -> request -> string) -> (request -> bool) -> Handler E).

Definition otel_span_name (operation : string) (r : request) : string := Method r +:+ " " +:+ URLPath r.

Definition otel_filter (r : request) : bool :=
  negb (bool_decide (URLPath r ∈ ["/health"; "/health/live"; "/health/ready"; "/health/startup"])).

Definition OTelHTTPMiddleware (serviceName : string) : Middleware E := fun next =>
  otelhttp_NewHandler next serviceName otel_span_name otel_filter.
End OTelHTTP.

(** A tracer that numbers its spans, and a handler that panics. *)
#[local] Instance counting_tracer : Tracer nat := {
  Start := fun _ _ _ c => (Ret (mkSpan (st c) (mkSpanContext (Some ("trace-" +:+ format_int (Z.of_nat (st c)))) None)),
    with_st c (S (st c)));
  End_ := fun _ => mret tt;
  SpanFromContext := fun ctx => match ctx with WithSpan s _ => SpanContext s | _ => mkSpanContext None None end;
  Inject := fun _ => []
}.
#[local] Instance counting_tracer_laws : TracerLaws nat.
Proof. split; [reflexivity | |]; intros; [do 2 eexists | eexists]; reflexivity. Qed.

Lemma http_tracing_correlates_witness : exists c3,
  Tracing "demo" (fun _ _ => panic "boom") WBase demo_request (demo_clocked (mkWorld new_response [] 0%nat)) =
    (Panic "boom", c3).
Proof.
  destruct (http_tracing_correlates "demo" (fun _ _ => panic "boom") WBase demo_request
    (demo_clocked (mkWorld new_response [] 0%nat))) as (s & c1 & _ & _ & _ & H).
  destruct (H _ _ eq_refl) as (c3 & E & _). exists c3. exact E.
Defined.
