(* ===== verification/HTTPPreset.v ===== *)
(** * A request through the HTTP preset

    The composition of the middleware that [DefaultHTTPMiddleware] of
    [go/server/http_preset.go] puts around every request: request ID,
    recovery, timeout, tracing and access log.  The tracer's state is a part
    of the state of the handlers.

    The theorem ([http_preset_end_to_end]): around any handler, what it is
    given, what is logged, and what becomes of its panic. *)

From S2P Require Import Prelude Float64 GoStrings GoErrors Spans GoHTTP Writers HTTPMiddleware Metrics MetricsHTTP Mux HTTPRuntime Serving Tracing.
From Stdlib Require Import Ascii.

#[local] Open Scope Z_scope.

(** A tracer whose state is that of the handlers beside the access log. *)
Definition on_state {L A} (m : M L A) : M (menv L) A := zoom limiter_state (fun l e => mkMEnv (access_log e) l) m.

#[export] Instance menv_tracer {L} `{Tracer L} : Tracer (menv L) := {
  Start := fun tracerName name ctx => on_state (Start tracerName name ctx);
  End_ := fun s => on_state (End_ s);
  SpanFromContext := SpanFromContext;
  Inject := Inject
}.

#[export] Instance menv_tracer_laws {L} `{TracerLaws L} : TracerLaws (menv L).
Proof.
  split; [exact (@span_of_started L _ _) | |].
  - intros tracerName name ctx c. destruct (start_returns tracerName name ctx (with_st c (limiter_state (st c)))) as (s & c' & E).
    do 2 eexists. cbn. unfold on_state, zoom. rewrite E. reflexivity.
  - intros s c. destruct (end_returns s (with_st c (limiter_state (st c)))) as (c' & E).
    eexists. cbn. unfold on_state, zoom. rewrite E. reflexivity.
Qed.

Lemma on_state_log {L A} (m : M L A) (c : Clocked (menv L)) : access_log (st (on_state m c).2) = access_log (st c).
Proof. unfold on_state, zoom. now destruct (m _). Qed.

Section Preset.
Context {L : Type} `{TracerLaws L} (rand_Read : M (world (menv L)) (option (list ascii))).
Abbreviation World := (world (menv L)).

Definition client_id (r : request) : string := header_Get (Header r) "X-Request-ID".

(** The middleware of the request ID, around any handler. *)
Lemma request_id_run (next : Handler (menv L)) w r (c : Clocked World) : reads_random rand_Read ->
  exists id c', st c' = st c /\ (client_id r <> "" -> id = client_id r) /\
  RequestID rand_Read next w r c = next w (with_request_id id r)
    (with_st c' (with_headers (header_Set "X-Request-ID" id) (env (st c)) (st c))).
Proof.
  intros Hr. unfold RequestID, client_id. cbv zeta. destruct (decide _) as [Hn | Hn].
  - destruct (newRequestID_run rand_Read c Hr) as (id & c' & E & Es). exists id, c'. split; [exact Es |].
    split; [contradiction |]. rewrite (bind_run (newRequestID rand_Read)), E, bind_run, edit_header_run.
    unfold with_headers. now rewrite Es.
  - eexists _, c. split; [reflexivity |]. split; [reflexivity |]. rewrite bind_run. cbn [mret M_ret].
    rewrite bind_run, edit_header_run. reflexivity.
Qed.

(** The timeout of the preset. *)
Definition timed (t : Z) (r : request) : request := if 0 <? t then with_timeout t r else r.

(** The request the handler is given. *)
Definition inner_request (cfg : HTTPMiddlewarePresetConfig) (id : string) (s : span) (r : request) : request :=
  with_otel (WithSpan s (Extracted (header_carrier (Header r)) (ctx_otel r))) (timed (PresetTimeout cfg) (with_request_id id r)).

Definition preset_handler (cfg : HTTPMiddlewarePresetConfig) (next : Handler (menv L)) : Handler (menv L) :=
  Chain (DefaultHTTPMiddleware rand_Read Tracing cfg) next.

(** The chain is the nesting the preset means. *)
Lemma preset_nesting cfg next w r c : preset_handler cfg next w r c =
  RequestID rand_Read (Recovery (fun w r => Tracing (if decide (TracerName cfg = "") then "dense-service" else TracerName cfg)
    (Logging next) w (timed (PresetTimeout cfg) r))) w r c.
Proof.
  unfold preset_handler, DefaultHTTPMiddleware, timed. cbv zeta. destruct (0 <? PresetTimeout cfg) eqn:Et; [| reflexivity].
  cbn. unfold RequestTimeout. assert ((PresetTimeout cfg <=? 0) = false) as -> by lia. reflexivity.
Qed.

(** The response's headers when the handler starts. *)
Definition preset_headers (id : string) (s : span) (r : request) (h : header) : header :=
  traced_headers s (Extracted (header_carrier (Header r)) (ctx_otel r)) (header_Set "X-Request-ID" id h).

(** What [Recovery] answers a panic. *)
Definition panic_body : string := error_body [("code", "internal_server_error"); ("message", "internal server error")].

(** What is left of a request that its handler ended with [o] in [w2]. *)
Definition completed (w : writer) (r : request) (o : outcome unit) (i : nat) (w2 w3 : World) : Prop :=
  match o with
  | Ret _ => resp w3 = resp w2 /\ wraps w3 = wraps w2 /\ exists x latency, wraps w2 !! i = Some x /\
      access_log (env w3) = access_log (env w2) ++ [access_line r x latency]
  | Panic _ => exists status, answer_status w w2 500 status /\ sent_through w status w3 /\
      access_log (env w3) = access_log (env w2) /\
      content (resp w3) = content (resp w2) +:+ allowed_body status panic_body
  end.

(** The span was started or ended, and nothing else was done to the state. *)
Definition span_started (s : span) (e e' : L) : Prop :=
  exists tracerName name ctx (k : Clocked L), st k = e /\ (Start tracerName name ctx k).1 = Ret s /\
    st (Start tracerName name ctx k).2 = e'.
Definition span_ended (s : span) (e e' : L) : Prop :=
  exists k : Clocked L, st k = e /\ st (End_ s k).2 = e'.

(** The handler leaves its wrapper, and a handler that panics has sent
    nothing, or has sent its status. *)
Definition leaves (w : writer) (o : outcome unit) (i : nat) (w2 : World) : Prop :=
  match o with Ret _ => is_Some (wraps w2 !! i) | Panic _ => exists status, answer_status w w2 500 status end.

Lemma start_log tracerName name ctx (c : Clocked (menv L)) s c' : Start tracerName name ctx c = (Ret s, c') ->
  access_log (st c') = access_log (st c) /\ span_started s (limiter_state (st c)) (limiter_state (st c')).
Proof.
  intros E. split.
  - rewrite <- (on_state_log (Start tracerName name ctx) c). exact (f_equal (fun x => access_log (st x.2)) (eq_sym E)).
  - exists tracerName, name, ctx, (with_st c (limiter_state (st c))). split; [reflexivity |].
    change (Start tracerName name ctx c) with (on_state (Start tracerName name ctx) c) in E. unfold on_state, zoom in E.
    destruct (Start tracerName name ctx (with_st c (limiter_state (st c)))) as [o' c1]. injection E as -> <-.
    split; reflexivity.
Qed.

Lemma end_log s (c : Clocked (menv L)) o c' : End_ s c = (o, c') ->
  access_log (st c') = access_log (st c) /\ span_ended s (limiter_state (st c)) (limiter_state (st c')).
Proof.
  intros E. split.
  - rewrite <- (on_state_log (End_ s) c). exact (f_equal (fun x => access_log (st x.2)) (eq_sym E)).
  - exists (with_st c (limiter_state (st c))). split; [reflexivity |].
    change (End_ s c) with (on_state (End_ s) c) in E. unfold on_state, zoom in E.
    destruct (End_ s (with_st c (limiter_state (st c)))) as [o' c1]. injection E as _ <-. reflexivity.
Qed.

(** The two inner layers, recovery around them. *)
Lemma inner_run name (next : Handler (menv L)) w r (c : Clocked World) :
  let ctx := Extracted (header_carrier (Header r)) (ctx_otel r) in
  let i := length (wraps (st c)) in
  exists s c1, resp (st c1) = resp (with_headers (traced_headers s ctx) (env (st c)) (st c)) /\
  wraps (st c1) = wraps (st c) ++ [mkWrap 200 0 false] /\
  access_log (env (st c1)) = access_log (env (st c)) /\
  span_started s (limiter_state (env (st c))) (limiter_state (env (st c1))) /\
  forall o c2, next (WWrap i w) (with_otel (WithSpan s ctx) r) c1 = (o, c2) -> leaves w o i (st c2) ->
  exists c3, Recovery (Tracing name (Logging next)) w r c = (Ret tt, c3) /\
    completed w (with_otel (WithSpan s ctx) r) o i (st c2) (st c3) /\
    span_ended s (limiter_state (env (st c2))) (limiter_state (env (st c3))).
Proof.
  intros ctx i. destruct (Tracing_run name (Logging next) w r c) as (s & c' & Es & Htr). fold ctx in Es, Htr.
  set (ct := with_st c' (with_headers (traced_headers s ctx) (st c') (st c))) in Htr.
  set (r' := with_otel (WithSpan s ctx) r) in *.
  pose proof (http_logging_run next w r' ct) as Hlog. cbv zeta in Hlog. change (wraps (st ct)) with (wraps (st c)) in Hlog.
  fold i in Hlog. apply start_log in Es as [Ha Hs].
  exists s, (with_st (next_tick ct) (mkWorld (resp (st ct)) (wraps (st c) ++ [mkWrap 200 0 false]) (env (st ct)))).
  split; [reflexivity |]. split; [reflexivity |]. split; [exact Ha |]. split; [exact Hs |].
  intros o c2 En Hl; specialize (Hlog o c2 En).
  unfold Recovery, recovering. destruct o as [[] | v].
  - destruct Hl as [x Ex]. destruct (Hlog x Ex) as (latency & cl & El & Ecl). destruct (Htr _ _ El) as (c3 & E3 & ->).
    apply end_log in E3 as [E3 Hend]. rewrite Ecl in E3, Hend. eexists. split; [reflexivity |].
    split; [| exact Hend]. cbn. rewrite E3, Ecl. cbn. eauto 10.
  - destruct (Htr _ _ Hlog) as (c3 & E3 & ->). apply end_log in E3 as [E3 Hend].
    destruct Hl as [status Hl].
    destruct (answer_json_any w 500 status (header_Set "Content-Type" "application/json") panic_body
      (with_st c3 (mkWorld (resp (st c2)) (wraps (st c2)) (st c3)))) as (s3 & El & Hs3 & Hc3 & He3);
      [left; lia | reflexivity | discriminate | exact Hl |].
    eexists. split; [exact El |]. split; [| cbn [st with_st]; rewrite He3; exact Hend].
    exists status. cbn [st with_st] in *. rewrite He3. auto.
Qed.

(** The preset around any handler. *)
Lemma preset_run cfg (next : Handler (menv L)) w r (c : Clocked World) : reads_random rand_Read ->
  let i := length (wraps (st c)) in
  exists id s c1, (client_id r <> "" -> id = client_id r) /\
  GetRequestID (inner_request cfg id s r) = id /\
  GetTraceID (inner_request cfg id s r) = default id (TraceID (SpanContext s)) /\
  resp (st c1) = resp (with_headers (preset_headers id s r) (env (st c)) (st c)) /\
  wraps (st c1) = wraps (st c) ++ [mkWrap 200 0 false] /\
  access_log (env (st c1)) = access_log (env (st c)) /\
  span_started s (limiter_state (env (st c))) (limiter_state (env (st c1))) /\
  forall o c2, next (WWrap i w) (inner_request cfg id s r) c1 = (o, c2) -> leaves w o i (st c2) ->
  exists c3, preset_handler cfg next w r c = (Ret tt, c3) /\ completed w (inner_request cfg id s r) o i (st c2) (st c3) /\
    span_ended s (limiter_state (env (st c2))) (limiter_state (env (st c3))).
Proof.
  intros Hr i. destruct (request_id_run (Recovery (fun w r => Tracing (if decide (TracerName cfg = "") then "dense-service"
    else TracerName cfg) (Logging next) w (timed (PresetTimeout cfg) r))) w r c Hr) as (id & c' & Es & Hid & Erun).
  set (ci := with_st c' (with_headers (header_Set "X-Request-ID" id) (env (st c)) (st c))) in Erun.
  destruct (inner_run (if decide (TracerName cfg = "") then "dense-service" else TracerName cfg) next w
    (timed (PresetTimeout cfg) (with_request_id id r)) ci) as (s & c1 & Hresp & Hwraps & Hlog & Hstart & Hrun).
  assert (forall A (f : request -> A), (forall t r, f (with_timeout t r) = f r) -> f (timed (PresetTimeout cfg) (with_request_id id r)) =
    f (with_request_id id r)) as Htimed by (intros A f Hf; unfold timed; destruct (0 <? _); auto).
  rewrite (Htimed _ Header), (Htimed _ ctx_otel) in Hresp, Hrun by reflexivity.
  exists id, s, c1. split; [exact Hid |].
  assert (GetRequestID (inner_request cfg id s r) = id) as Eid
    by (unfold inner_request, timed; destruct (0 <? _); reflexivity).
  split; [exact Eid |]. split.
  { unfold GetTraceID, trace_id. rewrite Eid. unfold inner_request. cbn [ctx_otel with_otel]. rewrite span_of_started.
    now destruct (TraceID (SpanContext s)). }
  split; [exact Hresp |]. split; [exact Hwraps |]. split; [exact Hlog |]. split; [exact Hstart |].
  intros o c2 En Hl. rewrite preset_nesting, Erun.
  exact (Hrun o c2 En Hl).
Qed.
End Preset.

(** ** The preset inside the metrics of a runtime *)

Section Served.
Context {C L W : Type} `{PrometheusCollector C} `{MetricsState C L} `{!MetricsStateLaws C L} `{TracerLaws L}.
Context (rand_Read : M (world (menv L)) (option (list ascii))).

(** The metrics are a part of the state, beside the access log. *)
#[local] Instance state_metrics : MetricsState C (menv L) := {|
  env_metrics := fun e => env_metrics (limiter_state e);
  set_env_metrics := fun m e => mkMEnv (access_log e) (set_env_metrics m (limiter_state e))
|}.
#[local] Instance state_metrics_laws : MetricsStateLaws C (menv L).
Proof. split. intros m e. exact (env_metrics_set (E := L) m (limiter_state e)). Qed.

(** The tracer does not touch the metrics. *)
Hypothesis start_apart : forall tracerName name ctx (k : Clocked L),
  env_metrics (st (Start tracerName name ctx k).2) = env_metrics (st k).
Hypothesis end_apart : forall s (k : Clocked L), env_metrics (st (End_ s k).2) = env_metrics (st k).

(** The writer of the metrics around the server's. *)
Abbreviation metrics_writer i := (WWrapOf MetricsResponseWriter i WBase).

(** What a request left whose handler ended with [o] in [w2]; [i] is the
    wrapper of the metrics, and [status] what they count. *)
Definition served (r : request) (o : outcome unit) (i : nat) (w2 w3 : world (menv L)) (status : Z) : Prop :=
  match o with
  | Ret _ => resp w3 = resp w2 /\ exists x y latency, wraps w2 !! i = Some x /\ wraps w2 !! S i = Some y /\
      status = StatusCode x /\ access_log (env w3) = access_log (env w2) ++ [access_line r y latency]
  | Panic _ => answer_status (metrics_writer i) w2 500 status /\ sent_code (resp w3) = status /\
      access_log (env w3) = access_log (env w2) /\
      content (resp w3) = content (resp w2) +:+ allowed_body status panic_body
  end.

Definition keeps_wrappers (o : outcome unit) (i : nat) (w2 : world (menv L)) : Prop :=
  match o with
  | Ret _ => is_Some (wraps w2 !! i) /\ is_Some (wraps w2 !! S i)
  | Panic _ => exists status, answer_status (metrics_writer i) w2 500 status
  end.

Lemma completed_status r o i (w2 w3 : world (menv L)) : keeps_wrappers o i w2 ->
  completed (WWrapOf MetricsResponseWriter i WBase) r o (S i) w2 w3 ->
  exists x, wraps w3 !! i = Some x /\ forall w4, resp w4 = resp w3 -> access_log (env w4) = access_log (env w3) ->
    served r o i w2 w4 (StatusCode x).
Proof.
  destruct o as [u | v]; intros Hk Hc.
  - destruct Hk as [[x Ex] [y Ey]]. destruct Hc as (Hr & Hw & y' & latency & Ey' & Ha). exists x.
    split; [now rewrite Hw |]. intros w4 Hr4 Ha4. split; [congruence |]. exists x, y', latency. rewrite Ha4. auto.
  - destruct Hc as (status & Hst & [[h Hs] Hw] & Ha & Hb). inversion Hw as [| ? ? (x & Ex & Hx & Hsx) _]; subst.
    exists x. split; [exact Ex |]. intros w4 Hr4 Ha4. unfold served. rewrite Hr4, Ha4. unfold StatusCode. rewrite Hx.
    split; [exact Hst |]. split; [unfold sent_code, status_or; now rewrite Hs | auto].
Qed.

(** A request through the preset and the metrics, around any handler. *)
Lemma preset_request (cfg : @HTTPRuntimeConfig W L C) preset (next : Handler (menv L)) r (c : Clocked (world (menv L))) :
  MiddlewarePreset cfg = Some preset -> cfg_Metrics cfg = None -> DisableMetricsRoute cfg = false -> reads_random rand_Read ->
  let m := env_metrics (env (st c)) in
  let path := pathLabeler m (Some r) in
  let i := length (wraps (st c)) in
  path ∉ ignored m ->
  exists id s c1, let r' := inner_request preset id s r in
  (client_id r <> "" -> id = client_id r) /\ GetRequestID r' = id /\ GetTraceID r' = default id (TraceID (SpanContext s)) /\
  resp (st c1) = resp (with_headers (preset_headers id s r) (env (st c)) (st c)) /\
  wraps (st c1) = wraps (st c) ++ [mkWrap 0 0 false; mkWrap 200 0 false] /\
  access_log (env (st c1)) = access_log (env (st c)) /\ env_metrics (env (st c1)) = add_in_flight 1 m /\
  forall o c2, next (WWrap (S i) (WWrapOf MetricsResponseWriter i WBase)) r' c1 = (o, c2) -> keeps_wrappers o i (st c2) ->
  exists c3 status seconds, outer rand_Read Tracing serving_metrics cfg next WBase r c = (Ret tt, c3) /\
    served r' o i (st c2) (st c3) status /\
    env_metrics (env (st c3)) = add_in_flight (-1) (observe (Method r) path status seconds (env_metrics (env (st c2)))).
Proof.
  intros Hpre Hm Hdr Hr m path i Hp.
  set (c0 := with_st (next_tick c) (entered (st c))). set (w := WWrapOf MetricsResponseWriter i WBase).
  destruct (preset_run rand_Read preset next w r c0 Hr) as (id & s & c1 & Hid & Hreq & Htrace & Hresp & Hwraps & Hlog & Hstart & Hrun).
  assert (length (wraps (st c0)) = S i) as Hi by (cbn; rewrite length_app; cbn; unfold i; lia). rewrite Hi in Hrun.
  exists id, s, c1. cbv zeta. split; [exact Hid |]. split; [exact Hreq |]. split; [exact Htrace |].
  split; [exact Hresp |]. split; [rewrite Hwraps; cbn; now rewrite <- app_assoc |]. split; [exact Hlog |]. split.
  { destruct Hstart as (n1 & n2 & ctx & k & Hk1 & _ & Hk2).
    change (env_metrics (limiter_state (env (st c1))) = add_in_flight 1 m). rewrite <- Hk2, start_apart, Hk1.
    exact (env_metrics_set (E := L) _ _). }
  intros o c2 En Hk.
  destruct (Hrun o c2 En) as (c3 & E3 & Hc & k & Hk1 & Hk2).
  { destruct o; [apply Hk | exact Hk]. }
  destruct (completed_status _ _ _ _ _ Hk Hc) as (x & Ex & Hserved).
  destruct (metrics_run (preset_handler rand_Read preset next) WBase r c Hp (Ret tt) c3 x E3 Ex) as (c4 & E4 & Hr4 & Hm4 & Hb4).
  exists c4, (StatusCode x). eexists. split; [| split].
  - unfold outer, runtime_metrics. rewrite Hm, Hdr, Hpre. exact E4.
  - apply Hserved; [exact Hr4 |]. apply Hb4. reflexivity.
  - rewrite Hm4. f_equal. f_equal. change (env_metrics (env (st c3))) with (env_metrics (limiter_state (env (st c3)))).
    rewrite <- Hk2, end_apart, Hk1. reflexivity.
Qed.

(** What the preset and the metrics of a runtime have around them: the system
    routes beside the root middleware and the muxes, as they are then. *)
Definition inside summary phase_handler (cfg : @HTTPRuntimeConfig W L C) (rt : @HTTPRuntime W L) : Handler (menv L) :=
  systemRouteHandler (system_handler serving_metrics summary phase_handler cfg) (system_routes serving_metrics summary phase_handler cfg).2
    (root_handler cfg (at_request (rootMux rt) (apiMux rt))).

(** C8. A request to a runtime assembled with the preset and its own metrics,
    whatever extensions it has and routes were added since, and whatever the
    handler inside does: it is given the client's
    request ID, or a new one, and the context of a span, and the response's
    headers carry both; if it returns, its response stands, one line with
    that ID is logged and the request is counted with its status; if it
    panics before anything is sent, the request is answered 500 with the
    error's body and counted as such; if it panics after its status went out
    (through its writer, so not by [Flush] or after a 1xx status alone), that
    status stands and is counted, and the error's body follows what was sent
    where the status allows a body.  A panic leaves no line in the access
    log. *)
Theorem http_preset_end_to_end summary phase_handler exts (cfg : @HTTPRuntimeConfig W L C) preset rt0 rt r (c : Clocked (world (menv L))) :
  NewHTTPRuntime rand_Read Tracing serving_metrics summary phase_handler exts cfg = Ret (inl rt0) -> rt_handler rt = rt_handler rt0 ->
  MiddlewarePreset cfg = Some preset -> cfg_Metrics cfg = None -> DisableMetricsRoute cfg = false -> reads_random rand_Read ->
  let m := env_metrics (env (st c)) in
  let path := pathLabeler m (Some r) in
  let i := length (wraps (st c)) in
  path ∉ ignored m ->
  exists id s c1, let r' := inner_request preset id s r in
  (client_id r <> "" -> id = client_id r) /\ GetRequestID r' = id /\ GetTraceID r' = default id (TraceID (SpanContext s)) /\
  resp (st c1) = resp (with_headers (preset_headers id s r) (env (st c)) (st c)) /\
  wraps (st c1) = wraps (st c) ++ [mkWrap 0 0 false; mkWrap 200 0 false] /\
  access_log (env (st c1)) = access_log (env (st c)) /\ env_metrics (env (st c1)) = add_in_flight 1 m /\
  forall o c2, inside summary phase_handler cfg rt (WWrap (S i) (WWrapOf MetricsResponseWriter i WBase)) r' c1 = (o, c2) ->
    keeps_wrappers o i (st c2) ->
  exists c3 status seconds, handler rt WBase r c = (Ret tt, c3) /\
    served r' o i (st c2) (st c3) status /\
    env_metrics (env (st c3)) = add_in_flight (-1) (observe (Method r) path status seconds (env_metrics (env (st c2)))).
Proof.
  intros E0 Eh Hpre Hm Hdr Hr m path i Hp.
  destruct (NewHTTPRuntime_inv _ _ _ _ _ exts cfg rt0 E0) as (_ & _ & root & api & am & su & sd & _ & _ & Ert).
  assert (handler rt = outer rand_Read Tracing serving_metrics cfg (inside summary phase_handler cfg rt)) as Hh
    by (unfold handler; rewrite Eh, Ert; reflexivity).
  destruct (preset_request cfg preset (inside summary phase_handler cfg rt) r c Hpre Hm Hdr Hr Hp)
    as (id & s & c1 & Hid & Hreq & Htrace & Hresp & Hwraps & Hlog & Hin & Hrun).
  exists id, s, c1. rewrite Hh. auto 12.
Qed.
End Served.

(** *** A handler that panics *)

(** Metrics, and a tracer that numbers its spans. *)
Definition demo_state : Type := @Metrics.HTTPMetrics (option GRPCMetrics) * nat.

#[local] Instance demo_metrics : MetricsState (option GRPCMetrics) demo_state :=
  {| env_metrics := fst; set_env_metrics := fun m e => (m, e.2) |}.
#[local] Instance demo_metrics_laws : MetricsStateLaws (option GRPCMetrics) demo_state.
Proof. split. reflexivity. Qed.

#[local] Instance demo_tracer : Tracer demo_state := {
  Start := fun _ _ _ c => (Ret (mkSpan (st c).2 (mkSpanContext (Some ("trace-" +:+ format_int (Z.of_nat (st c).2))) None)),
    with_st c ((st c).1, S (st c).2));
  End_ := fun _ => mret tt;
  SpanFromContext := fun ctx => match ctx with WithSpan s _ => SpanContext s | _ => mkSpanContext None None end;
  Inject := fun _ => []
}.
#[local] Instance demo_tracer_laws : TracerLaws demo_state.
Proof. split; [reflexivity | |]; intros; [do 2 eexists | eexists]; reflexivity. Qed.

Definition preset_config : @HTTPRuntimeConfig unit demo_state (option GRPCMetrics) :=
  mkRuntimeConfig "demo" (Some [("/", fun _ _ _ => panic "boom")]) None "/api/" (Some (mkPreset "" 0)) [] [] [] None 0 None [] "" None false false true [] [].

Definition preset_world : Clocked (world (menv demo_state)) :=
  demo_clocked (demo_world (initial_metrics (metrics_config preset_config), 0%nat)).

#[local] Existing Instance state_metrics.

Abbreviation preset_new := (NewHTTPRuntime (mret None) Tracing (serving_metrics (C := option GRPCMetrics)) NotFound (fun _ => NotFound) []
  preset_config).

Lemma inside_panics rt w r c : preset_new = Ret (inl rt) -> URLPath r = "/v1/items" ->
  inside NotFound (fun _ => NotFound) preset_config rt w r c = (Panic "boom", c).
Proof.
  intros E Hr. injection E as <-. unfold inside, systemRouteHandler.
  change (system_routes _ _ _ _).2 with (health_paths ++ ["/metrics"]). cbn [health_paths app]. rewrite decide_False.
  - unfold root_handler, ContentTypeForPrefix, mux_ServeHTTP. cbv zeta.
    change (Chain (RootMiddleware preset_config) ?h w r c) with (h w r c). cbv beta. rewrite Hr. reflexivity.
  - rewrite Hr. apply (bool_decide_unpack _). vm_compute. exact I.
Qed.

Lemma http_preset_end_to_end_witness : exists rt c3 seconds,
  preset_new = Ret (inl rt) /\
  handler rt WBase demo_request preset_world = (Ret tt, c3) /\
  sent_code (resp (st c3)) = 500 /\ access_log (env (st c3)) = [] /\
  (limiter_state (env (st c3))).1 = observe "GET" "/v1/items" 500 seconds (initial_metrics (metrics_config preset_config)).
Proof.
  assert (forall tracerName name ctx (k : Clocked demo_state), env_metrics (st (Start tracerName name ctx k).2) = env_metrics (st k))
    as Hstart by reflexivity.
  assert (forall s (k : Clocked demo_state), env_metrics (st (End_ s k).2) = env_metrics (st k)) as Hend by reflexivity.
  destruct preset_new as [[rt | e] | v] eqn:E0; [| discriminate E0..]. exists rt.
  destruct (http_preset_end_to_end (W := unit) (C := option GRPCMetrics) (L := demo_state) (mret None)
    Hstart Hend NotFound (fun _ => NotFound) [] preset_config (mkPreset "" 0) rt rt demo_request preset_world E0 eq_refl)
    as (id & s & c1 & _ & _ & _ & H1 & H2 & H3 & H4 & H5).
  - reflexivity.
  - reflexivity.
  - reflexivity.
  - intros c. exists None, c. split; reflexivity.
  - vm_compute. intros H. inversion H.
  - destruct (H5 (Panic "boom") c1) as (c3 & status & seconds & E & Hs & Hm); [apply (inside_panics rt _ _ _ E0); reflexivity | |].
    + exists 500. left. split; [| reflexivity]. split; [now rewrite H1 |]. split; [repeat constructor; apply not_elem_of_nil |].
      rewrite H2. repeat constructor. eexists. split; reflexivity.
    + destruct Hs as ([[_ ->] | [[h Hsent] _]] & Hs & Ha & _); [| rewrite H1 in Hsent; discriminate Hsent]. exists c3, seconds. split; [reflexivity |]. split; [exact E |]. split; [exact Hs |].
      split; [rewrite Ha, H3; reflexivity |]. change (fst (limiter_state (env (st c3)))) with (env_metrics (env (st c3))).
      rewrite Hm, H4. reflexivity.
Defined.
