(* ===== verification/SystemRoutes.v ===== *)
(** * The system routes of a runtime

    A scrape ([telemetry.HTTPMetrics.Handler]) and a probe ([health.go]) as
    they reach their handlers in the runtime that [NewHTTPRuntime] assembles:
    past the metrics, through the preset if there is one and the system
    middleware, to the system mux.

    [system_route] is the way there and back, for any handler; the theorems
    are what the two handlers then answer ([scrape_answered],
    [probe_answered]). *)

From S2P Require Import Prelude Float64 GoStrings GoErrors Spans GoHTTP Writers HTTPMiddleware Health JSONText Metrics MetricsHTTP Patterns Mux HTTPRuntime Serving Probes Tracing HTTPPreset.
From Stdlib Require Import Ascii.

#[local] Open Scope Z_scope.

Section SystemRoutes.
Context {C L W : Type} `{PrometheusCollector C} `{MetricsState C L} `{!MetricsStateLaws C L} `{TracerLaws L}.
Context (rand_Read : M (world (menv L)) (option (list ascii))) (summary : Handler (menv L))
  (phase_handler : string -> Handler (menv L)).
#[local] Existing Instance state_metrics.

(** A part of the handlers' state that the tracer does not touch. *)
Definition untraced {T} (f : L -> T) : Prop :=
  (forall tracerName name ctx (k : Clocked L), f (st (Start tracerName name ctx k).2) = f (st k)) /\
  (forall s (k : Clocked L), f (st (End_ s k).2) = f (st k)).

Abbreviation NewRuntime := (NewHTTPRuntime rand_Read Tracing.Tracing serving_metrics summary phase_handler).
Abbreviation routes_of cfg := (@system_routes W L C serving_metrics summary phase_handler cfg).

(** The access log after a request whose handler left it as [before]: with a
    preset there is one more line, with the request's ID, path and status. *)
Definition logged (cfg : @HTTPRuntimeConfig W L C) (r : request) (status : Z) (before after : list access) : Prop :=
  match MiddlewarePreset cfg with
  | None => after = before
  | Some _ => exists line, after = before ++ [line] /\ (client_id r <> "" -> log_request_id line = client_id r) /\
      log_path line = URLPath r /\ log_status line = status
  end.

(** The state a handler of the system mux starts in. *)
Definition reached (cfg : @HTTPRuntimeConfig W L C) (w : writer) (r r' : request) (c c1 : Clocked (world (menv L))) : Prop :=
  unwritten w (st c1) /\ URLPath r' = URLPath r /\ content (resp (st c1)) = content (resp (st c)) /\
  access_log (env (st c1)) = access_log (env (st c)) /\
  (forall T (f : L -> T), untraced f -> f (limiter_state (env (st c1))) = f (limiter_state (env (st c)))) /\
  (MiddlewarePreset cfg = None -> c1 = c).

(** What is left when it has returned in [c2]. *)
Definition returned (cfg : @HTTPRuntimeConfig W L C) (r : request) (status : Z) (c2 c3 : Clocked (world (menv L))) : Prop :=
  resp (st c3) = resp (st c2) /\
  logged cfg r status (access_log (env (st c2))) (access_log (env (st c3))) /\
  (forall T (f : L -> T), untraced f -> f (limiter_state (env (st c3))) = f (limiter_state (env (st c2)))).

(** The handler inside the metrics and the preset, at a system route. *)
Lemma system_inner (cfg : @HTTPRuntimeConfig W L C) rt exts h : NewRuntime exts cfg = Ret (inl rt) ->
  exists inner, handler rt = outer rand_Read Tracing.Tracing serving_metrics cfg inner /\
  forall r w r' c, URLPath r ∈ (routes_of cfg).2 -> mux_lookup (URLPath r) (routes_of cfg).1 = Some h ->
    cleanPath (URLPath r) = URLPath r -> lets_through cfg r -> URLPath r' = URLPath r -> Header r' = Header r ->
    inner w r' c = h w r' c.
Proof.
  intros Hnew. destruct (NewHTTPRuntime_inv rand_Read Tracing.Tracing serving_metrics summary phase_handler exts cfg rt Hnew)
    as (_ & _ & root & api & am & su & sd & _ & _ & ->).
  eexists. split; [reflexivity |]. intros r w r' c Hin Hl Hclean Hthrough Hp Hh. unfold systemRouteHandler.
  destruct (routes_of cfg).2 eqn:El; [now apply not_elem_of_nil in Hin |].
  rewrite decide_True by now rewrite Hp. unfold system_handler. rewrite Hthrough by assumption.
  rewrite (mux_serves _ h) by (now rewrite Hp). reflexivity.
Qed.

Lemma inner_request_keeps preset id s r :
  URLPath (inner_request preset id s r) = URLPath r /\ Header (inner_request preset id s r) = Header r.
Proof. unfold inner_request, timed. destruct (0 <? PresetTimeout preset); split; reflexivity. Qed.

(** The way to a system route that the metrics ignore, and back. *)
Lemma system_route (cfg : @HTTPRuntimeConfig W L C) rt exts h r (c : Clocked (world (menv L))) : own_metrics cfg -> NewRuntime exts cfg = Ret (inl rt) ->
  URLPath r ∈ (routes_of cfg).2 -> mux_lookup (URLPath r) (routes_of cfg).1 = Some h -> cleanPath (URLPath r) = URLPath r ->
  lets_through cfg r -> pathLabeler (env_metrics (env (st c))) (Some r) ∈ ignored (env_metrics (env (st c))) ->
  reads_random rand_Read -> sent (resp (st c)) = None ->
  exists w r' c1, reached cfg w r r' c c1 /\
  forall status c2, h w r' c1 = (Ret tt, c2) -> sent_through w status (st c2) ->
  exists c3, handler rt WBase r c = (Ret tt, c3) /\ returned cfg r status c2 c3.
Proof.
  intros (Hm & Hdr & _) Hnew Hin Hl Hclean Hthrough Hi Hrand Hsent.
  destruct (system_inner cfg rt exts h Hnew) as (inner & -> & Hinner).
  assert (outer rand_Read Tracing.Tracing serving_metrics cfg inner WBase r c =
    match MiddlewarePreset cfg with Some preset => preset_handler rand_Read preset inner WBase r c | None => inner WBase r c end) as Houter.
  { unfold outer, runtime_metrics. rewrite Hm, Hdr. cbn [metrics_Middleware serving_metrics].
    unfold MetricsHTTP.metrics_Middleware. rewrite bind_run. unfold get_metrics, gets. rewrite decide_True by exact Hi.
    now destruct (MiddlewarePreset cfg). }
  rewrite Houter. unfold reached, returned, logged. destruct (MiddlewarePreset cfg) as [preset |].
  - set (i := length (wraps (st c))).
    destruct (preset_run rand_Read preset inner WBase r c Hrand)
      as (id & s & c1 & Hid & Hreq & _ & Hresp & Hwraps & Hlog & (n1 & n2 & ctx & k & Hk1 & _ & Hk2) & Hrun).
    fold i in Hrun. set (r' := inner_request preset id s r) in *.
    assert (URLPath r' = URLPath r /\ Header r' = Header r) as [Hr' Hhd] by exact (inner_request_keeps preset id s r).
    exists (WWrap i WBase), r', c1. split; [split; [| split; [exact Hr' | split; [now rewrite Hresp | split; [exact Hlog | split; [| discriminate]]]]] |].
    + split; [rewrite Hresp; exact Hsent |]. split; [repeat constructor; apply not_elem_of_nil |].
      rewrite Hwraps. repeat constructor. eexists. rewrite lookup_app_r by (unfold i; lia). unfold i. rewrite Nat.sub_diag.
      split; reflexivity.
    + intros T f [Hf _]. rewrite <- Hk2, Hf, Hk1. reflexivity.
    + intros status c2 E2 [_ [(x & Ex & _ & Hsx) _]%Forall_cons_1].
      destruct (Hrun (Ret tt) c2) as (c3 & E3 & (Hresp3 & _ & x' & latency & Ex' & Hlog3) & k' & Hk1' & Hk2');
        [rewrite (Hinner r) by assumption; exact E2 | exists x; exact Ex |].
      replace x' with x in Hlog3 by congruence.
      exists c3. split; [exact E3 |]. split; [exact Hresp3 |]. split.
      * exists (access_line r' x latency). split; [exact Hlog3 |]. split; [| split; [exact Hr' | exact Hsx]].
        intros Hne. change (GetRequestID r' = client_id r). rewrite Hreq. auto.
      * intros T f [_ Hf]. rewrite <- Hk2', Hf, Hk1'. reflexivity.
  - exists WBase, r, c. split.
    + split; [split; [exact Hsent | split; constructor] |]. repeat split; auto.
    + intros status c2 E2 _. exists c2. split; [rewrite (Hinner r) by auto; exact E2 | auto].
Qed.

End SystemRoutes.

(** ** Probes *)

Section Probed.
Context {C L W : Type} `{PrometheusCollector C} `{MetricsState C L} `{!MetricsStateLaws C L} `{TracerLaws L}.
Context (rand_Read : M (world (menv L)) (option (list ascii))).
Context (registry : L -> HealthRegistry)
  (runCheck : healthCheckEntry -> Clocked (menv L) -> option error * Clocked (menv L)).
#[local] Existing Instance state_metrics.

Abbreviation registry_in := (fun e : menv L => registry (limiter_state e)).
Abbreviation summary := (serve_summary registry_in runCheck).
Abbreviation phase_handler := (serve_phase registry_in runCheck).
Abbreviation NewRuntime := (NewHTTPRuntime rand_Read Tracing.Tracing serving_metrics summary phase_handler).

(** The phases with a probe route. *)
Definition probe_phases : list string := ["live"; "ready"; "startup"].

Lemma probe_route_served (cfg : @HTTPRuntimeConfig W L C) phase : own_metrics cfg -> DisableHealthRoutes cfg = false ->
  phase ∈ probe_phases -> let routes := system_routes serving_metrics summary phase_handler cfg in
  "/health/" +:+ phase ∈ routes.2 /\ mux_lookup ("/health/" +:+ phase) routes.1 = Some (phase_handler phase) /\
  cleanPath ("/health/" +:+ phase) = "/health/" +:+ phase /\ "/health/" +:+ phase ∈ health_paths.
Proof.
  intros Hd Hh Hp. destruct (system_paths_served summary phase_handler cfg Hd) as [E1 E2]. cbv zeta. rewrite E1, E2.
  unfold base_system_mux, base_system_paths. rewrite Hh. unfold probe_phases in Hp.
  repeat (apply elem_of_cons in Hp as [-> | Hp];
    [split; [apply elem_of_app; left; apply (bool_decide_unpack _); exact I |];
     split; [reflexivity |]; split; [reflexivity | apply (bool_decide_unpack _); exact I] |]).
  now apply not_elem_of_nil in Hp.
Qed.

(** C18. In a runtime that makes its metrics and serves its health routes,
    the metrics at the default path with the default labels, whatever the
    extensions, the preset, the root routes and the root middleware, a probe
    of a phase that the system middleware lets through runs the checks of the
    registry in order, from the state [c1] the tracer left, and is answered
    200 if the registry serves the phase and no check failed, else 503; the
    body is a line of JSON that reads back as the report; it is not counted,
    and with a preset it is logged in one line.  The tracer touches neither
    the metrics nor the registry, and the source of random bytes returns. *)
Theorem probe_answered exts (cfg : @HTTPRuntimeConfig W L C) rt phase r (c : Clocked (world (menv L))) :
  own_metrics cfg -> DisableHealthRoutes cfg = false -> lets_through cfg r -> NewRuntime exts cfg = Ret (inl rt) ->
  untraced env_metrics -> untraced registry -> reads_random rand_Read -> configured cfg (env_metrics (env (st c))) ->
  phase ∈ probe_phases -> URLPath r = "/health/" +:+ phase -> sent (resp (st c)) = None ->
  let rg := registry_in (env (st c)) in
  exists c1 : Clocked (world (menv L)), registry_in (env (st c1)) = rg /\ env_metrics (env (st c1)) = env_metrics (env (st c)) /\
  (MiddlewarePreset cfg = None -> c1 = c) /\
  let x := phase_errors registry_in runCheck phase (env_of c1) in
  let status := if serves rg phase && forallb is_nil x.1 then 200 else 503 in
  exists c3 line, handler rt WBase r c = (Ret tt, c3) /\ sent_code (resp (st c3)) = status /\
  content (resp (st c3)) = content (resp (st c)) +:+ line /\
  read_line line = Some (sanitize_json (report_json (evaluate rg phase x.1).1)) /\
  env_metrics (env (st c3)) = env_metrics (st x.2) /\
  logged cfg r status (access_log (st x.2)) (access_log (env (st c3))).
Proof.
  intros Hd Hh Hthrough Hnew Hun Hreg Hrand Hc Hp Hr Hs rg.
  destruct (probe_route_served cfg phase Hd Hh Hp) as (Hin & Hl & Hclean & Hhp).
  destruct (system_route rand_Read summary phase_handler cfg rt exts (phase_handler phase) r c) as (w & r' & c1 & Hreach & Hrun);
    rewrite ?Hr; try assumption.
  { apply (system_path_ignored cfg _ _ Hd Hc). rewrite Hr. apply elem_of_app. now left. }
  destruct Hreach as (Hu & _ & Hcont & _ & Hkeep & Hself). exists c1.
  assert (registry_in (env (st c1)) = rg) as Hrg by exact (Hkeep _ registry Hreg).
  split; [exact Hrg |]. split; [exact (Hkeep _ env_metrics Hun) |]. split; [exact Hself |].
  destruct (phase_answers registry_in runCheck phase w r' c1 Hu) as (s & E & He & (Hcode & _ & line & Hline & Hread) & Hsent).
  rewrite Hrg in Hcode, Hread, Hsent. cbv zeta. set (x := phase_errors registry_in runCheck phase (env_of c1)) in *.
  assert (response_code (phaseHandler rg phase x.1) = (if serves rg phase && forallb is_nil x.1 then 200 else 503) /\
    response_body (phaseHandler rg phase x.1) = report_json (evaluate rg phase x.1).1) as [Est Ebody].
  { pose proof (evaluate_status rg phase x.1) as Hst. unfold phaseHandler. destruct (evaluate rg phase x.1) as [report ok].
    destruct Hst as [<- _]. now destruct ok. }
  rewrite Est in Hcode, Hsent. rewrite Ebody in Hread.
  destruct (Hrun _ _ E Hsent) as (c3 & E3 & Hresp & Hlogged & Hkeep3). cbn [st with_st] in *. rewrite He in Hlogged.
  exists c3, line. split; [exact E3 |]. rewrite Hresp. split; [exact Hcode |]. split; [now rewrite Hline, Hcont |].
  split; [exact Hread |]. split; [| exact Hlogged].
  etransitivity; [exact (Hkeep3 _ env_metrics Hun) |]. cbn. now rewrite He.
Qed.
End Probed.

(** *** A runtime scraped and probed *)

#[local] Existing Instance demo_metrics.
#[local] Existing Instance demo_metrics_laws.
#[local] Existing Instance HTTPPreset.demo_tracer.
#[local] Existing Instance HTTPPreset.demo_tracer_laws.
#[local] Existing Instance state_metrics.

Definition served_config {L} : @HTTPRuntimeConfig unit L (option GRPCMetrics) :=
  mkRuntimeConfig "demo" None None "/api/" (Some (mkPreset "demo" 0)) [] [] [] None 0 None [] "" None false false true [] [].

Definition served_metrics {L} : @Metrics.HTTPMetrics (option GRPCMetrics) := initial_metrics (metrics_config (served_config (L := L))).

Definition served_world : Clocked (world (menv demo_state)) := demo_clocked (demo_world (served_metrics (L := demo_state), 0%nat)).

Abbreviation served_new := (NewHTTPRuntime (mret None) Tracing.Tracing (serving_metrics (C := option GRPCMetrics)) silent (fun _ => silent) []
  (served_config (L := demo_state))).

Lemma random_none {E} : reads_random (S := E) (mret None).
Proof. intros c. exists None, c. split; reflexivity. Qed.


(** Handlers with metrics and a registry, and a tracer that does nothing. *)
Definition probed : Type := @Metrics.HTTPMetrics (option GRPCMetrics) * HealthRegistry.

#[local] Instance probed_metrics : MetricsState (option GRPCMetrics) probed :=
  {| env_metrics := fst; set_env_metrics := fun m e => (m, e.2) |}.
#[local] Instance probed_metrics_laws : MetricsStateLaws (option GRPCMetrics) probed.
Proof. split. reflexivity. Qed.
#[local] Instance probed_tracer : Tracer probed := {
  Start := fun _ _ _ => mret (mkSpan 0 (mkSpanContext None None));
  End_ := fun _ => mret tt;
  SpanFromContext := fun ctx => match ctx with WithSpan s _ => SpanContext s | _ => mkSpanContext None None end;
  Inject := fun _ => []
}.
#[local] Instance probed_tracer_laws : TracerLaws probed.
Proof. split; [reflexivity | |]; intros; [do 2 eexists | eexists]; reflexivity. Qed.

(** A started registry with two checks, of which the second fails. *)
Definition probed_registry : HealthRegistry :=
  MarkStarted (RegisterReadiness "db" (Some 1%nat) (RegisterReadiness "cache" (Some 0%nat) (NewHealthRegistry []))).

Definition probed_check (check : healthCheckEntry) (c : Clocked (menv probed)) : option error * Clocked (menv probed) :=
  (if decide (name check = "db") then Some (EText "dial <db>: refused") else None, c).

Definition probed_world : Clocked (world (menv probed)) :=
  demo_clocked (demo_world (served_metrics (L := probed), probed_registry)).

Abbreviation probed_new := (NewHTTPRuntime (mret None) Tracing.Tracing (serving_metrics (C := option GRPCMetrics))
  (serve_summary (fun e => (limiter_state e).2) probed_check) (serve_phase (fun e => (limiter_state e).2) probed_check) []
  (served_config (L := probed))).

Lemma probed_errors (c : Clocked (world (menv probed))) : (limiter_state (env (st c))).2 = probed_registry ->
  phase_errors (fun e => (limiter_state e).2) probed_check "ready" (env_of c) =
    ([None; Some (EText "dial <db>: refused")], env_of c).
Proof.
  intros H. unfold phase_errors. change (limiter_state (st (env_of c))) with (limiter_state (env (st c))).
  rewrite H. reflexivity.
Qed.

Lemma probe_answered_witness : exists rt c3 line, probed_new = Ret (inl rt) /\
  handler rt WBase (with_path "/health/ready" demo_request) probed_world = (Ret tt, c3) /\
  sent_code (resp (st c3)) = 503 /\ content (resp (st c3)) = "" +:+ line /\
  read_line line = Some (JObject [("status", JString "unavailable"); ("phase", JString "ready"); ("checks", JArray
    [JObject [("name", JString "cache"); ("status", JString "ok")];
     JObject [("name", JString "db"); ("status", JString "unavailable"); ("error", JString "dial <db>: refused")]])]).
Proof.
  assert (exists rt, probed_new = Ret (inl rt)) as [rt E] by (eexists; reflexivity).
  destruct (probe_answered (W := unit) (C := option GRPCMetrics) (L := probed) (mret None) snd probed_check [] served_config rt "ready"
    (with_path "/health/ready" demo_request) probed_world) as (c1 & Hrg & _ & _ & c3 & line & H1 & H2 & H3 & H4 & _).
  - repeat split.
  - reflexivity.
  - now apply no_system_middleware.
  - exact E.
  - split; reflexivity.
  - split; reflexivity.
  - exact random_none.
  - split; reflexivity.
  - right. left.
  - reflexivity.
  - reflexivity.
  - pose proof (probed_errors c1 Hrg) as Hx. unfold probed in *. rewrite Hx in H2, H4.
    exists rt, c3, line. split; [exact E |]. split; [exact H1 |]. split; [exact H2 |]. split; [exact H3 |]. exact H4.
Defined.
