(* ===== verification/GRPCMiddleware.v ===== *)
(** * gRPC interceptors

    [go/middleware/grpc.go] and [grpc_preset.go]: the unary and stream
    interceptors for request IDs, recovery, logging, metrics, tracing, rate
    limits and the circuit breaker, their chaining, and the preset that
    orders them.

    A call runs in a state [rpc]: the pairs given to [SetHeader] so far, the
    log lines, and what the interceptors share: the metrics, a limiter, the
    state of the two breakers, the tracer, and the state [U] of the handlers.
    The metadata methods of grpc ([Metadata]) and the breaker of gobreaker
    ([Breaker], in Gobreaker) are parameters.

    The theorems: a chain is the nesting of its interceptors
    ([chain_is_nesting]); what the breaker answers and reports
    ([grpc_breaker_outcomes]); a call through the whole preset, from its IDs
    to its log line, with panics contained ([preset_end_to_end]); a denial of
    the preset's limiter reaches its breaker as a failure
    ([preset_masks_denial]); and the default keys are those of HTTP
    ([grpc_key_matches_http]). *)

From S2P Require Import Prelude Float64 GoStrings GoErrors Gobreaker Spans GoHTTP RateLimit Metrics HTTPMiddleware CircuitBreaker Tracing.
From Stdlib Require Import Ascii.

#[local] Open Scope Z_scope.

(** ** What the source uses of grpc *)

(** [metadata.MD] is a map of lists; its methods choose how keys are
    spelled.  The argument of [Copy] is [None] for a nil map. *)
Definition MD : Type := gmap string (list string).

Class Metadata := {
  md_Get : MD -> string -> list string;
  md_Set : string -> string -> MD -> MD;
  md_Copy : option MD -> MD
}.

Class MetadataLaws `{Metadata} := {
  md_Get_Set : forall key value md, md_Get (md_Set key value md) key = [value];
  md_Copy_Get : forall md key, md_Get (md_Copy (Some md)) key = md_Get md key
}.

(** [context.Context]: the value of [requestIDKey], what
    [metadata.FromIncomingContext] and [peer.FromContext] find (a peer's
    address may be nil), and the OpenTelemetry values. *)
Record context : Type := mkContext {
  rpc_request_id : option string;
  incoming : option MD;
  peer : option (option string);
  rpc_otel : otel_context
}.

Definition with_rpc_request_id (id : string) (ctx : context) : context :=
  mkContext (Some id) (incoming ctx) (peer ctx) (rpc_otel ctx).
Definition with_rpc_otel (o : otel_context) (ctx : context) : context :=
  mkContext (rpc_request_id ctx) (incoming ctx) (peer ctx) o.

(** [grpc.ServerStream]: the server's, or one that overrides its context. *)
Inductive ServerStream : Type :=
| serverStream (ctx : context)
| wrappedServerStream (inner : ServerStream) (ctx : context).

Definition Context_of (ss : ServerStream) : context :=
  match ss with serverStream ctx => ctx | wrappedServerStream _ ctx => ctx end.

(** ** Carriers, request IDs and keys *)

Section Carrier.
Context `{Metadata}.

Definition metadataCarrier_Get (c : MD) (key : string) : string :=
  match md_Get c key with [] => "" | value :: _ => value end.
Definition metadataCarrier_Set (key value : string) (c : MD) : MD := md_Set key value c.
Definition metadataCarrier_Keys (c : MD) : list string := map_keys c.

Definition metadataCarrierFromIncomingContext (ctx : context) : MD := md_Copy (incoming ctx).

Definition as_carrier (c : MD) : TextMapCarrier := mkCarrier (metadataCarrier_Get c) (metadataCarrier_Keys c).

Definition grpcRequestID {S} (rand_Read : M S (option (list ascii))) (ctx : context) : M S string :=
  match incoming ctx with
  | Some md =>
      match md_Get md "x-request-id" with
      | value :: _ => if decide (value <> "") then mret value else newRequestID rand_Read
      | [] => newRequestID rand_Read
      end
  | None => newRequestID rand_Read
  end.
End Carrier.

Definition grpcPeerKey (ctx : context) : string :=
  match peer ctx with
  | None | Some None => ""
  | Some (Some addr) =>
      let addr := trim_space addr in
      if decide (addr = "") then ""
      else
        match split_host_port addr with
        | Some (host, _) => if decide (host <> "") then host else addr
        | None => addr
        end
  end.

Definition defaultGRPCKey (ctx : context) (fullMethod : string) : string :=
  let peerAddr := grpcPeerKey ctx in
  if decide (peerAddr <> "") then peerAddr else "grpc-global".

Definition rpc_GetRequestID (ctx : context) : string := default "" (rpc_request_id ctx).

Definition isGRPCServerFailure (code : Code) : bool :=
  match code with
  | Internal | Unavailable | Unknown | DataLoss | DeadlineExceeded => true
  | _ => false
  end.

(** ** Breakers *)

Definition newGRPCCircuitBreaker (cfg : CircuitBreakerConfig) : Settings :=
  let cfg := normalizeCircuitBreakerConfig cfg "grpc" in
  mkSettings ("grpc:" +:+ cb_Name cfg) (MaxRequests cfg) (Interval cfg) (Timeout cfg)
    (fun ConsecutiveFailures => ReadyToTrip cfg <=? ConsecutiveFailures).

(** ** The state of a call *)

(** The lines of the log the interceptors write. *)
Inductive log_line : Type :=
| PanicRecovered (request_id method : string) (rec : panic_value)
| Completed (level message request_id trace_id method grpc_code : string) (latency_ms : float64)
| BreakerOpen (method : string).

Record rpc (L B S U : Type) : Type := mkRPC {
  set_headers : list (string * string);
  rpc_log : list log_line;
  metrics : option GRPCMetrics;
  limiter : L;
  unary_breaker : B;
  stream_breaker : B;
  tracer : S;
  app_state : U
}.
Arguments mkRPC {L B S U}. Arguments set_headers {L B S U}. Arguments rpc_log {L B S U}. Arguments metrics {L B S U}.
Arguments limiter {L B S U}. Arguments unary_breaker {L B S U}. Arguments stream_breaker {L B S U}.
Arguments tracer {L B S U}. Arguments app_state {L B S U}.

Definition server_info : Type := string. (** [FullMethod] of [UnaryServerInfo] and [StreamServerInfo]. *)

Section Interceptors.
Context {L B S U : Type} `{Metadata} `{Tracer S}.
Context {Any : Type}.
Abbreviation Rpc := (rpc L B S U).

(** [(any, error)]: [None] is nil. *)
Definition UnaryHandler : Type := context -> Any -> M Rpc (option Any * option error).
Definition UnaryServerInterceptor : Type := context -> Any -> server_info -> UnaryHandler -> M Rpc (option Any * option error).
Definition StreamHandler : Type := Any -> ServerStream -> M Rpc (option error).
Definition StreamServerInterceptor : Type := Any -> ServerStream -> server_info -> StreamHandler -> M Rpc (option error).

(** *** The parts of the state *)

Definition add_header (key value : string) (w : Rpc) : Rpc :=
  mkRPC (set_headers w ++ [(key, value)]) (rpc_log w) (metrics w) (limiter w) (unary_breaker w) (stream_breaker w)
    (tracer w) (app_state w).
Definition add_line (l : log_line) (w : Rpc) : Rpc :=
  mkRPC (set_headers w) (rpc_log w ++ [l]) (metrics w) (limiter w) (unary_breaker w) (stream_breaker w) (tracer w) (app_state w).
Definition with_rpc_metrics (m : option GRPCMetrics) (w : Rpc) : Rpc :=
  mkRPC (set_headers w) (rpc_log w) m (limiter w) (unary_breaker w) (stream_breaker w) (tracer w) (app_state w).
Definition with_limiter (l : L) (w : Rpc) : Rpc :=
  mkRPC (set_headers w) (rpc_log w) (metrics w) l (unary_breaker w) (stream_breaker w) (tracer w) (app_state w).
Definition with_unary_breaker (b : B) (w : Rpc) : Rpc :=
  mkRPC (set_headers w) (rpc_log w) (metrics w) (limiter w) b (stream_breaker w) (tracer w) (app_state w).
Definition with_stream_breaker (b : B) (w : Rpc) : Rpc :=
  mkRPC (set_headers w) (rpc_log w) (metrics w) (limiter w) (unary_breaker w) b (tracer w) (app_state w).
Definition with_tracer (t : S) (w : Rpc) : Rpc :=
  mkRPC (set_headers w) (rpc_log w) (metrics w) (limiter w) (unary_breaker w) (stream_breaker w) t (app_state w).

(** [SetHeader] of [metadata.Pairs(key, value)]; the source ignores its
    error. *)
Definition SetHeader (key value : string) : M Rpc unit := modify (add_header key value).
Definition log_rpc (l : log_line) : M Rpc unit := modify (add_line l).
Definition on_metrics (f : option GRPCMetrics -> option GRPCMetrics) : M Rpc unit :=
  modify (fun w => with_rpc_metrics (f (metrics w)) w).
Definition on_rpc_limiter {A} : M L A -> M Rpc A := zoom limiter with_limiter.
Definition on_unary_breaker {A} : M B A -> M Rpc A := on_breaker unary_breaker with_unary_breaker.
Definition on_stream_breaker {A} : M B A -> M Rpc A := on_breaker stream_breaker with_stream_breaker.
Definition on_tracer {A} : M S A -> M Rpc A := zoom tracer with_tracer.

(** *** Chaining: the loops from the last interceptor to the first *)

Definition ChainUnaryInterceptors (interceptors : list (option UnaryServerInterceptor)) : UnaryServerInterceptor :=
  fun ctx req info handler =>
    foldl (fun chained interceptor =>
      match interceptor with
      | None => chained
      | Some interceptor => fun currentCtx currentReq => interceptor currentCtx currentReq info chained
      end) handler (rev interceptors) ctx req.

Definition ChainStreamInterceptors (interceptors : list (option StreamServerInterceptor)) : StreamServerInterceptor :=
  fun srv ss info handler =>
    foldl (fun chained interceptor =>
      match interceptor with
      | None => chained
      | Some interceptor => fun currentSrv currentStream => interceptor currentSrv currentStream info chained
      end) handler (rev interceptors) srv ss.

(** *** Request IDs *)

Definition GRPCRequestIDUnary (rand_Read : M Rpc (option (list ascii))) : UnaryServerInterceptor :=
  fun ctx req _ handler =>
    requestID ← grpcRequestID rand_Read ctx;
    let ctx := with_rpc_request_id requestID ctx in
    SetHeader "x-request-id" requestID;;
    handler ctx req.

Definition GRPCRequestIDStream (rand_Read : M Rpc (option (list ascii))) : StreamServerInterceptor :=
  fun srv ss _ handler =>
    requestID ← grpcRequestID rand_Read (Context_of ss);
    let ctx := with_rpc_request_id requestID (Context_of ss) in
    let wrapped := wrappedServerStream ss ctx in
    SetHeader "x-request-id" requestID;;
    handler srv wrapped.

(** *** Recovery *)

Definition internal_error : error := EStatus Internal "internal server error".

Definition GRPCRecoveryUnary : UnaryServerInterceptor := fun ctx req info handler =>
  recovering (handler ctx req) (fun rec =>
    log_rpc (PanicRecovered (rpc_GetRequestID ctx) info rec);;
    mret (None, Some internal_error)).

Definition GRPCRecoveryStream : StreamServerInterceptor := fun srv ss info handler =>
  recovering (handler srv ss) (fun rec =>
    log_rpc (PanicRecovered (rpc_GetRequestID (Context_of ss)) info rec);;
    mret (Some internal_error)).

(** *** Logging *)

Definition rpc_GetTraceID (ctx : context) : string := trace_id (rpc_GetRequestID ctx) (rpc_otel ctx).

Definition completion_level (code : Code) : string :=
  if isGRPCServerFailure code then "ERROR" else if decide (code <> OK) then "WARN" else "INFO".

Definition logGRPCCompletion (message : string) (ctx : context) (fullMethod : string) (latency : Z) (err : option error) :
    M Rpc unit :=
  let code := status_code err in
  log_rpc (Completed (completion_level code) message (rpc_GetRequestID ctx) (rpc_GetTraceID ctx) fullMethod
    (code_string code) (f64_div (f64_of_Z (Z.quot latency 1000)) (f64_of_Z 1000))).

Definition GRPCLoggingUnary : UnaryServerInterceptor := fun ctx req info handler =>
  start ← now;
  res ← handler ctx req;
  t ← now;
  logGRPCCompletion "grpc request completed" ctx info (time_sub t start) res.2;;
  mret res.

Definition GRPCLoggingStream : StreamServerInterceptor := fun srv ss info handler =>
  start ← now;
  err ← handler srv ss;
  t ← now;
  logGRPCCompletion "grpc stream completed" (Context_of ss) info (time_sub t start) err;;
  mret err.

(** *** Metrics *)

(** The deferred function: [o] is the error the call returns with, or its
    panic. *)
Definition observe_rpc (method rpcType : string) (start : Z) (o : outcome (option error)) : M Rpc unit :=
  let code := match o with Ret err => status_code err | Panic _ => Internal end in
  t ← now;
  on_metrics (ObserveRPC method rpcType (code_string code) (duration_seconds (time_sub t start))).

Definition GRPCMetricsUnary : UnaryServerInterceptor := fun ctx req info handler =>
  m ← gets metrics;
  match m with
  | None => handler ctx req
  | Some _ =>
      start ← now;
      on_metrics BeginRPC;;
      deferring (handler ctx req) (fun o => observe_rpc info "unary" start (outcome_map snd o))
  end.

Definition GRPCMetricsStream : StreamServerInterceptor := fun srv ss info handler =>
  m ← gets metrics;
  match m with
  | None => handler srv ss
  | Some _ =>
      start ← now;
      on_metrics BeginRPC;;
      deferring (handler srv ss) (observe_rpc info "stream" start)
  end.

(** *** Tracing *)

Definition set_id (key : string) (id : option string) : M Rpc unit :=
  match id with Some id => SetHeader key id | None => mret tt end.

Definition GRPCTracingUnary (tracerName : string) : UnaryServerInterceptor := fun ctx req info handler =>
  let ctx := with_rpc_otel (Extracted (as_carrier (metadataCarrierFromIncomingContext ctx)) (rpc_otel ctx)) ctx in
  span ← on_tracer (Start tracerName info (rpc_otel ctx));
  let ctx := with_rpc_otel (WithSpan span (rpc_otel ctx)) ctx in
  deferring (
    set_id "x-trace-id" (TraceID (SpanContext span));;
    set_id "x-span-id" (SpanID (SpanContext span));;
    handler ctx req) (fun _ => on_tracer (End_ span)).

Definition GRPCTracingStream (tracerName : string) : StreamServerInterceptor := fun srv ss info handler =>
  let ctx := Context_of ss in
  let ctx := with_rpc_otel (Extracted (as_carrier (metadataCarrierFromIncomingContext ctx)) (rpc_otel ctx)) ctx in
  span ← on_tracer (Start tracerName info (rpc_otel ctx));
  let ctx := with_rpc_otel (WithSpan span (rpc_otel ctx)) ctx in
  let wrapped := wrappedServerStream ss ctx in
  deferring (
    set_id "x-trace-id" (TraceID (SpanContext span));;
    set_id "x-span-id" (SpanID (SpanContext span));;
    handler srv wrapped) (fun _ => on_tracer (End_ span)).

(** *** Rate limits *)

Definition limit_error : error := EStatus ResourceExhausted "rate limit exceeded".

Definition GRPCRateLimitUnary `{RateLimiterInterface L} (limiter : iface unit) : UnaryServerInterceptor :=
  let limiterNil := isNilRateLimiter limiter in
  fun ctx req _ handler =>
    if limiterNil then handler ctx req
    else
      allowed ← on_rpc_limiter LAllow;
      if (allowed : bool) then handler ctx req else mret (None, Some limit_error).

Definition GRPCRateLimitStream `{RateLimiterInterface L} (limiter : iface unit) : StreamServerInterceptor :=
  let limiterNil := isNilRateLimiter limiter in
  fun srv ss _ handler =>
    if limiterNil then handler srv ss
    else
      allowed ← on_rpc_limiter LAllow;
      if (allowed : bool) then handler srv ss else mret (Some limit_error).

Definition UnaryRateLimitKeyExtractor : Type := context -> Any -> server_info -> string.
Definition StreamRateLimitKeyExtractor : Type := Any -> ServerStream -> server_info -> string.

Definition GRPCRateLimitUnaryWithKey `{KeyedRateLimiter L} (limiter : iface unit)
    (extractor : option UnaryRateLimitKeyExtractor) : UnaryServerInterceptor :=
  let limiterNil := isNilRateLimiter limiter in
  let extractor := default (fun ctx _ info => defaultGRPCKey ctx info) extractor in
  fun ctx req info handler =>
    if limiterNil then handler ctx req
    else
      let key := extractor ctx req info in
      let key := if decide (key = "") then defaultGRPCKey ctx info else key in
      allowed ← on_rpc_limiter (LAllowKey key);
      if (allowed : bool) then handler ctx req else mret (None, Some limit_error).

Definition GRPCRateLimitStreamWithKey `{KeyedRateLimiter L} (limiter : iface unit)
    (extractor : option StreamRateLimitKeyExtractor) : StreamServerInterceptor :=
  let limiterNil := isNilRateLimiter limiter in
  let extractor := default (fun _ ss info => defaultGRPCKey (Context_of ss) info) extractor in
  fun srv ss info handler =>
    if limiterNil then handler srv ss
    else
      let key := extractor srv ss info in
      let key := if decide (key = "") then defaultGRPCKey (Context_of ss) info else key in
      allowed ← on_rpc_limiter (LAllowKey key);
      if (allowed : bool) then handler srv ss else mret (Some limit_error).

(** *** Circuit breaker *)

(** The value and error the call hands to the breaker. *)
Definition breaker_result (handlerErr : option error) : Code * option error :=
  if decide (handlerErr <> None /\ isGRPCServerFailure (status_code handlerErr) = true)
  then (status_code handlerErr, handlerErr) else (OK, handlerErr).

Definition unavailable_error : error := EStatus Unavailable "service temporarily unavailable".

(** The error the interceptors return for the breaker's. *)
Definition breaker_error (info : server_info) (err : error) : M Rpc error :=
  let st := status_from_error err in
  if st.2 && isGRPCServerFailure st.1 then mret err
  else log_rpc (BreakerOpen info);; mret unavailable_error.

(** [resp] is assigned by the call. *)
Definition GRPCCircuitBreakerUnary `{Breaker B} (cfg : CircuitBreakerConfig) : UnaryServerInterceptor :=
  let cb := newGRPCCircuitBreaker cfg in
  fun ctx req info handler =>
    x ← Execute id unary_breaker with_unary_breaker cb (
      res ← handler ctx req;
      let '(code, handlerErr) := breaker_result res.2 in
      mret ((res.1, code), handlerErr));
    match x.2 with
    | Some err => err ← breaker_error info err; mret (None, Some err)
    | None => mret (x.1 ≫= fst, None)
    end.

Definition GRPCCircuitBreakerStream `{Breaker B} (cfg : CircuitBreakerConfig) : StreamServerInterceptor :=
  let cb := newGRPCCircuitBreaker cfg in
  fun srv ss info handler =>
    x ← Execute id stream_breaker with_stream_breaker cb (
      err ← handler srv ss;
      mret (breaker_result err));
    match x.2 with
    | Some err => err ← breaker_error info err; mret (Some err)
    | None => mret None
    end.

(** *** The preset *)

Record GRPCServerPresetConfig : Type := mkPresetConfig {
  TracerName : string;
  ExtraUnaryInterceptors : list (option UnaryServerInterceptor);
  ExtraStreamInterceptors : list (option StreamServerInterceptor);
  preset_CircuitBreaker : option CircuitBreakerConfig;
  preset_RateLimiter : iface unit;
  preset_UnaryExtractor : option UnaryRateLimitKeyExtractor;
  preset_StreamExtractor : option StreamRateLimitKeyExtractor
}.

(** [cfg.Metrics] is the [metrics] of the state. *)
Definition GRPCServerPreset `{KeyedRateLimiter L} `{Breaker B} (rand_Read : M Rpc (option (list ascii)))
    (cfg : GRPCServerPresetConfig) : list (option UnaryServerInterceptor) * list (option StreamServerInterceptor) :=
  let tracerName := if decide (TracerName cfg = "") then "dense-grpc" else TracerName cfg in
  let unary := [Some (GRPCRequestIDUnary rand_Read); Some GRPCRecoveryUnary; Some (GRPCTracingUnary tracerName);
    Some GRPCLoggingUnary] in
  let stream := [Some (GRPCRequestIDStream rand_Read); Some GRPCRecoveryStream; Some (GRPCTracingStream tracerName);
    Some GRPCLoggingStream] in
  let unary := unary ++ [Some GRPCMetricsUnary] in
  let stream := stream ++ [Some GRPCMetricsStream] in
  let unary := unary ++ ExtraUnaryInterceptors cfg in
  let stream := stream ++ ExtraStreamInterceptors cfg in
  let '(unary, stream) :=
    match preset_CircuitBreaker cfg with
    | Some cb => (unary ++ [Some (GRPCCircuitBreakerUnary cb)], stream ++ [Some (GRPCCircuitBreakerStream cb)])
    | None => (unary, stream)
    end in
  if negb (isNilRateLimiter (preset_RateLimiter cfg)) then
    (unary ++ [Some (GRPCRateLimitUnaryWithKey (preset_RateLimiter cfg) (preset_UnaryExtractor cfg))],
     stream ++ [Some (GRPCRateLimitStreamWithKey (preset_RateLimiter cfg) (preset_StreamExtractor cfg))])
  else (unary, stream).
End Interceptors.

(** ** Chains *)

Section Chains.
Context {L B S U : Type} `{Metadata} `{Tracer S} {Any : Type}.
Abbreviation unary := (@UnaryServerInterceptor L B S U Any).
Abbreviation stream := (@StreamServerInterceptor L B S U Any).
Abbreviation unary_handler := (@UnaryHandler L B S U Any).
Abbreviation stream_handler := (@StreamHandler L B S U Any).

(** The handler as seen through the interceptors, the first outermost. *)
Fixpoint onion_unary (l : list (option unary)) (info : server_info) (h : UnaryHandler) : UnaryHandler :=
  match l with
  | [] => h
  | None :: l' => onion_unary l' info h
  | Some i :: l' => fun ctx req => i ctx req info (onion_unary l' info h)
  end.

Fixpoint onion_stream (l : list (option stream)) (info : server_info) (h : StreamHandler) : StreamHandler :=
  match l with
  | [] => h
  | None :: l' => onion_stream l' info h
  | Some i :: l' => fun srv ss => i srv ss info (onion_stream l' info h)
  end.

Lemma chain_unary_onion l info h : (fun ctx req => ChainUnaryInterceptors l ctx req info h) = onion_unary l info h.
Proof.
  unfold ChainUnaryInterceptors. induction l as [| [i |] l IH]; cbn [rev onion_unary]; [reflexivity | |];
    rewrite foldl_app; cbn [foldl]; [now rewrite <- IH | exact IH].
Qed.

Lemma chain_stream_onion l info h : (fun srv ss => ChainStreamInterceptors l srv ss info h) = onion_stream l info h.
Proof.
  unfold ChainStreamInterceptors. induction l as [| [i |] l IH]; cbn [rev onion_stream]; [reflexivity | |];
    rewrite foldl_app; cbn [foldl]; [now rewrite <- IH | exact IH].
Qed.

Lemma onion_unary_app l k info h : onion_unary (l ++ k) info h = onion_unary l info (onion_unary k info h).
Proof. induction l as [| [i |] l IH]; cbn; [reflexivity | now rewrite IH | exact IH]. Qed.

Lemma onion_stream_app l k info h : onion_stream (l ++ k) info h = onion_stream l info (onion_stream k info h).
Proof. induction l as [| [i |] l IH]; cbn; [reflexivity | now rewrite IH | exact IH]. Qed.

(** A call through a chain, from its first interceptor. *)
Lemma chain_unary_call l ctx req info h : ChainUnaryInterceptors l ctx req info h = onion_unary l info h ctx req.
Proof. now rewrite <- chain_unary_onion. Qed.

Lemma chain_stream_call l srv ss info h : ChainStreamInterceptors l srv ss info h = onion_stream l info h srv ss.
Proof. now rewrite <- chain_stream_onion. Qed.

(** C38. Chaining interceptors is nesting them in declaration order, nil ones
    left out: a chain is its first interceptor around the chain of the rest,
    and the chain of two lists is the chain of the first around the chain of
    the second; for unary and stream calls alike. *)
Theorem chain_is_nesting :
  (forall l ctx req info (h : unary_handler), ChainUnaryInterceptors l ctx req info h = onion_unary l info h ctx req) /\
  (forall l k ctx req info (h : unary_handler), ChainUnaryInterceptors (l ++ k) ctx req info h =
    ChainUnaryInterceptors l ctx req info (fun ctx req => ChainUnaryInterceptors k ctx req info h)) /\
  (forall l ctx req info (h : unary_handler), ChainUnaryInterceptors l ctx req info h =
    ChainUnaryInterceptors (Some <$> omap id l) ctx req info h) /\
  (forall l srv ss info (h : stream_handler), ChainStreamInterceptors l srv ss info h = onion_stream l info h srv ss) /\
  (forall l k srv ss info (h : stream_handler), ChainStreamInterceptors (l ++ k) srv ss info h =
    ChainStreamInterceptors l srv ss info (fun srv ss => ChainStreamInterceptors k srv ss info h)) /\
  (forall l srv ss info (h : stream_handler), ChainStreamInterceptors l srv ss info h =
    ChainStreamInterceptors (Some <$> omap id l) srv ss info h).
Proof.
  split; [exact chain_unary_call |]. split; [| split; [| split; [exact chain_stream_call | split]]].
  - intros l k ctx req info h. rewrite chain_unary_onion, !chain_unary_call. now rewrite onion_unary_app.
  - intros l ctx req info h. rewrite !chain_unary_call. revert ctx req.
    assert (onion_unary l info h = onion_unary (Some <$> omap id l) info h) as ->; [| reflexivity].
    induction l as [| [i |] l IH]; cbn; [reflexivity | now rewrite IH | exact IH].
  - intros l k srv ss info h. rewrite chain_stream_onion, !chain_stream_call. now rewrite onion_stream_app.
  - intros l srv ss info h. rewrite !chain_stream_call.
    assert (onion_stream l info h = onion_stream (Some <$> omap id l) info h) as ->; [| reflexivity].
    induction l as [| [i |] l IH]; cbn; [reflexivity | now rewrite IH | exact IH].
Qed.
End Chains.

(** ** Breakers *)

Section Breakers.
Context {L B S U : Type} `{Metadata} `{Tracer S} {Any : Type} `{BreakerLaws B}.
Abbreviation Rpc := (rpc L B S U).
Abbreviation unary_handler := (@UnaryHandler L B S U Any).
Abbreviation stream_handler := (@StreamHandler L B S U Any).

(** The error of a call that ended. *)
Definition ended_with {R} (err : R -> option error) (o : outcome R) : option error :=
  match o with Ret res => err res | Panic _ => None end.

(** An error the breaker passes on: a status of a server's failure. *)
Definition relayed (e : error) : bool := (status_from_error e).2 && isGRPCServerFailure (status_from_error e).1.

(** What the interceptors answer a call that ended with [o], and what they
    log. *)
Definition relay (e : error) : error := if relayed e then e else unavailable_error.
Definition unary_answer (o : outcome (option Any * option error)) : outcome (option Any * option error) :=
  match o with
  | Ret (resp, None) => Ret (resp, None)
  | Ret (_, Some e) => Ret (None, Some (relay e))
  | Panic v => Panic v
  end.
Definition stream_answer (o : outcome (option error)) : outcome (option error) := outcome_map (fmap relay) o.
Definition breaker_logs (info : server_info) (e : option error) (w : Rpc) : Rpc :=
  match e with Some e => if relayed e then w else add_line (BreakerOpen info) w | None => w end.

Lemma breaker_error_run info e (c : Clocked Rpc) :
  breaker_error info e c = (Ret (relay e), with_st c (breaker_logs info (Some e) (st c))).
Proof. unfold breaker_error, relay, breaker_logs. fold (relayed e). destruct (relayed e); [| reflexivity]. now destruct c. Qed.

Lemma refusal_relay {W} (view : W -> B) upd cb (c c1 : Clocked W) e :
  on_breaker view upd (accept cb) c = (Ret (inr e), c1) -> relayed e = false.
Proof. intros E. unfold relayed, status_from_error. now rewrite (refused_plain view upd cb c c1 e E). Qed.

Lemma breaker_result_error e : (breaker_result e).2 = e.
Proof. unfold breaker_result. now case_decide. Qed.

Lemma unary_breaker_run cfg ctx req info (h : unary_handler) c c1 tok :
  on_unary_breaker (accept (newGRPCCircuitBreaker cfg)) c = (Ret (inl tok), c1) ->
  forall o c2, h ctx req c1 = (o, c2) ->
  exists c3, on_unary_breaker (report (newGRPCCircuitBreaker cfg) tok (succeeded snd o)) c2 = (Ret tt, c3) /\
    GRPCCircuitBreakerUnary cfg ctx req info h c =
      (unary_answer o, with_st c3 (breaker_logs info (ended_with snd o) (st c3))).
Proof.
  intros Ea o c2 Eh. unfold GRPCCircuitBreakerUnary. cbv zeta.
  set (cb := newGRPCCircuitBreaker cfg) in *.
  set (call := res ← h ctx req; let '(code, handlerErr) := breaker_result res.2 in mret ((res.1, code), handlerErr)).
  assert (call c1 = (outcome_map (fun res => ((res.1, (breaker_result res.2).1), res.2)) o, c2)) as Ecall.
  { unfold call. rewrite bind_run, Eh. destruct o as [[x e] | v]; [| reflexivity]. cbn [snd fst outcome_map].
    pose proof (breaker_result_error e) as Hb. destruct (breaker_result e) as [code e']. cbn in Hb. now subst e'. }
  destruct (Execute_run id unary_breaker with_unary_breaker cb call c c1 tok Ea _ _ Ecall) as (c3 & E3 & Ex).
  exists c3. split; [destruct o as [[x e] | v]; exact E3 |].
  rewrite bind_run. unfold on_unary_breaker. rewrite Ex.
  destruct o as [[x [e |]] | v]; cbn [outcome_map snd fst unary_answer ended_with].
  - rewrite bind_run, breaker_error_run. reflexivity.
  - cbn. now destruct c3.
  - cbn. now destruct c3.
Qed.

Lemma stream_breaker_run cfg srv ss info (h : stream_handler) c c1 tok :
  on_stream_breaker (accept (newGRPCCircuitBreaker cfg)) c = (Ret (inl tok), c1) ->
  forall o c2, h srv ss c1 = (o, c2) ->
  exists c3, on_stream_breaker (report (newGRPCCircuitBreaker cfg) tok (succeeded id o)) c2 = (Ret tt, c3) /\
    GRPCCircuitBreakerStream cfg srv ss info h c =
      (stream_answer o, with_st c3 (breaker_logs info (ended_with id o) (st c3))).
Proof.
  intros Ea o c2 Eh. unfold GRPCCircuitBreakerStream. cbv zeta.
  set (cb := newGRPCCircuitBreaker cfg) in *.
  set (call := err ← h srv ss; mret (breaker_result err)).
  assert (call c1 = (outcome_map breaker_result o, c2)) as Ecall.
  { unfold call. rewrite bind_run, Eh. now destruct o. }
  destruct (Execute_run id stream_breaker with_stream_breaker cb call c c1 tok Ea _ _ Ecall) as (c3 & E3 & Ex).
  exists c3. split.
  { rewrite <- E3. f_equal. f_equal. destruct o as [e | v]; [| reflexivity]. cbn. now rewrite breaker_result_error. }
  rewrite bind_run. unfold on_stream_breaker. rewrite Ex.
  destruct o as [e | v]; cbn [outcome_map snd fst stream_answer ended_with].
  - rewrite breaker_result_error. destruct e as [e |].
    + rewrite bind_run, breaker_error_run. reflexivity.
    + cbn. now destruct c3.
  - cbn. now destruct c3.
Qed.

(** C28. The circuit breaker of a unary or stream call: a refused call is
    not run and is answered Unavailable; an admitted one runs once, its
    success or failure (an error of any code, or a panic) is reported to the
    breaker, and its response, its panic, and an error whose status is a
    server's failure are passed on, while any other error is answered
    Unavailable. *)
Theorem grpc_breaker_outcomes cfg info :
  let cb := newGRPCCircuitBreaker cfg in
  (forall ctx req (h : unary_handler) c a c1, on_unary_breaker (accept cb) c = (Ret a, c1) ->
    match a with
    | inr _ => GRPCCircuitBreakerUnary cfg ctx req info h c =
        (Ret (None, Some unavailable_error), with_st c1 (add_line (BreakerOpen info) (st c1)))
    | inl tok => forall o c2, h ctx req c1 = (o, c2) -> exists c3,
        on_unary_breaker (report cb tok (succeeded snd o)) c2 = (Ret tt, c3) /\
        GRPCCircuitBreakerUnary cfg ctx req info h c =
          (unary_answer o, with_st c3 (breaker_logs info (ended_with snd o) (st c3)))
    end) /\
  (forall srv ss (h : stream_handler) c a c1, on_stream_breaker (accept cb) c = (Ret a, c1) ->
    match a with
    | inr _ => GRPCCircuitBreakerStream cfg srv ss info h c =
        (Ret (Some unavailable_error), with_st c1 (add_line (BreakerOpen info) (st c1)))
    | inl tok => forall o c2, h srv ss c1 = (o, c2) -> exists c3,
        on_stream_breaker (report cb tok (succeeded id o)) c2 = (Ret tt, c3) /\
        GRPCCircuitBreakerStream cfg srv ss info h c =
          (stream_answer o, with_st c3 (breaker_logs info (ended_with id o) (st c3)))
    end).
Proof.
  cbv zeta. split.
  - intros ctx req h c [tok | e] c1 Ea; [exact (unary_breaker_run cfg ctx req info h c c1 tok Ea) |].
    unfold GRPCCircuitBreakerUnary. cbv zeta. rewrite bind_run. unfold on_unary_breaker in *.
    rewrite (Execute_refused id _ _ _ _ _ _ _ Ea). cbn [snd id]. rewrite bind_run, breaker_error_run.
    unfold relay, breaker_logs. now rewrite (refusal_relay _ _ _ _ _ _ Ea).
  - intros srv ss h c [tok | e] c1 Ea; [exact (stream_breaker_run cfg srv ss info h c c1 tok Ea) |].
    unfold GRPCCircuitBreakerStream. cbv zeta. rewrite bind_run. unfold on_stream_breaker in *.
    rewrite (Execute_refused id _ _ _ _ _ _ _ Ea). cbn [snd id]. rewrite bind_run, breaker_error_run.
    unfold relay, breaker_logs. now rewrite (refusal_relay _ _ _ _ _ _ Ea).
Qed.
End Breakers.

(** ** The preset *)

Section Preset.
Context {L B S U : Type} `{Metadata} `{TracerLaws S} {Any : Type} `{BreakerLaws B} `{KeyedRateLimiter L}.
Abbreviation Rpc := (rpc L B S U).
Abbreviation unary_handler := (@UnaryHandler L B S U Any).
Abbreviation stream_handler := (@StreamHandler L B S U Any).
Abbreviation preset_config := (@GRPCServerPresetConfig L B S U Any).

(** The IDs a span puts in the headers. *)
Definition id_header (key : string) (id : option string) : list (string * string) :=
  match id with Some id => [(key, id)] | None => [] end.
Definition span_headers (s : span) : list (string * string) :=
  id_header "x-trace-id" (TraceID (SpanContext s)) ++ id_header "x-span-id" (SpanID (SpanContext s)).
Definition add_headers (kvs : list (string * string)) (w : Rpc) : Rpc :=
  mkRPC (set_headers w ++ kvs) (rpc_log w) (metrics w) (limiter w) (unary_breaker w) (stream_breaker w) (tracer w) (app_state w).

(** The code of an ended call, and the line logged for it. *)
Definition rpc_code (o : outcome (option Any * option error)) : Code :=
  match o with Ret res => status_code res.2 | Panic _ => Internal end.

(** The context in which the inner interceptors run. *)
Definition inner_context (id : string) (s : span) (ctx : context) : context :=
  with_rpc_otel (WithSpan s (Extracted (as_carrier (metadataCarrierFromIncomingContext ctx)) (rpc_otel ctx)))
    (with_rpc_request_id id ctx).

(** The request's own ID, or a new one. *)
Definition carried_id (ctx : context) : string :=
  match incoming ctx with Some md => default "" (head (md_Get md "x-request-id")) | None => "" end.

Lemma grpcRequestID_run rand_Read ctx (c : Clocked Rpc) : reads_random rand_Read ->
  exists id c', grpcRequestID rand_Read ctx c = (Ret id, c') /\ st c' = st c /\
  (carried_id ctx <> "" -> id = carried_id ctx).
Proof.
  intros Hr. unfold grpcRequestID, carried_id. destruct (newRequestID_run rand_Read c Hr) as (id & c' & E & Es).
  destruct (incoming ctx) as [md |]; [destruct (md_Get md "x-request-id") as [| v vs]; [| case_decide] |];
    try (exists id, c'; split; [exact E |]; split; [exact Es |]; cbn; congruence).
  exists v, c. cbn. auto.
Qed.

(** *** Each layer around any handler *)

Lemma set_id_run key id (c : Clocked Rpc) : set_id key id c = (Ret tt, with_st c (add_headers (id_header key id) (st c))).
Proof.
  destruct id as [id |]; [reflexivity |]. cbn. unfold add_headers. rewrite app_nil_r. now destruct c as [? ? ? []].
Qed.

Lemma span_headers_run {A} s (k : M Rpc A) (c : Clocked Rpc) :
  (set_id "x-trace-id" (TraceID (SpanContext s));; set_id "x-span-id" (SpanID (SpanContext s));; k) c =
  k (with_st c (add_headers (span_headers s) (st c))).
Proof.
  rewrite bind_run, set_id_run, bind_run, set_id_run. unfold add_headers, span_headers. cbn. now rewrite <- app_assoc.
Qed.

(** Tracing: a span is started before the handler and ended after it. *)
Lemma tracing_run name ctx req info (h : unary_handler) (c : Clocked Rpc) : exists s c1,
  st c1 = add_headers (span_headers s) (with_tracer (tracer (st c1)) (st c)) /\
  forall o c2, h (with_rpc_otel (WithSpan s (Extracted (as_carrier (metadataCarrierFromIncomingContext ctx)) (rpc_otel ctx)))
    ctx) req c1 = (o, c2) -> exists c3, GRPCTracingUnary name ctx req info h c = (o, c3) /\
    st c3 = with_tracer (tracer (st c3)) (st c2).
Proof.
  unfold GRPCTracingUnary. cbv zeta. cbn [rpc_otel with_rpc_otel].
  set (ot := Extracted _ _).
  destruct (start_returns name info ot (with_st c (tracer (st c)))) as (s & c' & Es).
  exists s. eexists (with_st c' (add_headers (span_headers s) (with_tracer (st c') (st c)))).
  split; [reflexivity |]. intros o c2 Eh. destruct (end_returns s (with_st c2 (tracer (st c2)))) as [c3 E3].
  exists (with_st c3 (with_tracer (st c3) (st c2))). split; [| reflexivity].
  rewrite bind_run. unfold on_tracer at 1, zoom at 1. rewrite Es. unfold deferring. rewrite span_headers_run.
  cbn [st with_st] in *. unfold with_st at 1. cbn [clk wall tick].
  match goal with |- context [h ?a req ?b] => change (h a req b) with
    (h (with_rpc_otel (WithSpan s ot) ctx) req (with_st c' (add_headers (span_headers s) (with_tracer (st c') (st c))))) end.
  rewrite Eh. unfold on_tracer, zoom. now rewrite E3.
Qed.

(** The line of a call that ended. *)
Definition completed (ctx : context) (info : server_info) (err : option error) (latency : Z) : log_line :=
  Completed (completion_level (status_code err)) "grpc request completed" (rpc_GetRequestID ctx) (rpc_GetTraceID ctx) info
    (code_string (status_code err)) (f64_div (f64_of_Z (Z.quot latency 1000)) (f64_of_Z 1000)).

Lemma logging_run ctx req info (h : unary_handler) (c : Clocked Rpc) o c2 : h ctx req (next_tick c) = (o, c2) ->
  GRPCLoggingUnary ctx req info h c = (o, match o with
    | Ret res => with_st (next_tick c2)
        (add_line (completed ctx info res.2 (time_sub (clk c2 (tick c2)) (clk c (tick c)))) (st c2))
    | Panic _ => c2 end).
Proof. intros Eh. unfold GRPCLoggingUnary. rewrite bind_run. unfold now at 1. rewrite bind_run, Eh. now destruct o. Qed.

Lemma metrics_rpc_run ctx req info (h : unary_handler) (c : Clocked Rpc) m o c2 : metrics (st c) = Some m ->
  h ctx req (with_st (next_tick c) (with_rpc_metrics (BeginRPC (Some m)) (st c))) = (o, c2) ->
  GRPCMetricsUnary ctx req info h c = (o, with_st (next_tick c2) (with_rpc_metrics
    (ObserveRPC info "unary" (code_string (rpc_code o)) (duration_seconds (time_sub (clk c2 (tick c2)) (clk c (tick c))))
      (metrics (st c2))) (st c2))).
Proof.
  intros Em Eh. unfold GRPCMetricsUnary. rewrite bind_run. unfold gets. rewrite Em, bind_run. unfold now at 1.
  rewrite bind_run. unfold on_metrics at 1, modify. unfold deferring. cbn [st next_tick with_st]. rewrite Em.
  match goal with |- context [h ctx req ?b] =>
    change (h ctx req b) with (h ctx req (with_st (next_tick c) (with_rpc_metrics (BeginRPC (Some m)) (st c)))) end.
  rewrite Eh. now destruct o.
Qed.

Lemma rate_limit_run limiter extractor ctx req info (h : unary_handler) (c c1 : Clocked Rpc) (b : bool) :
  isNilRateLimiter limiter = false ->
  let key := default (fun ctx _ info => defaultGRPCKey ctx info) extractor ctx req info in
  let key := if decide (key = "") then defaultGRPCKey ctx info else key in
  on_rpc_limiter (LAllowKey key) c = (Ret b, c1) ->
  GRPCRateLimitUnaryWithKey limiter extractor ctx req info h c =
    if b then h ctx req c1 else (Ret (None, Some limit_error), c1).
Proof.
  intros Hn key key' Ea. unfold GRPCRateLimitUnaryWithKey. rewrite Hn. cbv zeta. fold key. fold key'.
  rewrite bind_run, Ea. now destruct b.
Qed.
(** *** The layers together *)

(** The interceptors inside the metrics. *)
Definition inner_layers (rand_Read : M Rpc (option (list ascii))) (cfg : preset_config) :=
  drop 5 (GRPCServerPreset rand_Read cfg).1.

Lemma preset_layers rand_Read cfg : let name := if decide (TracerName cfg = "") then "dense-grpc" else TracerName cfg in
  (GRPCServerPreset rand_Read cfg).1 =
    [Some (GRPCRequestIDUnary rand_Read); Some GRPCRecoveryUnary; Some (GRPCTracingUnary name); Some GRPCLoggingUnary;
     Some GRPCMetricsUnary] ++ inner_layers rand_Read cfg /\
  inner_layers rand_Read cfg = ExtraUnaryInterceptors cfg ++
    match preset_CircuitBreaker cfg with Some cb => [Some (GRPCCircuitBreakerUnary cb)] | None => [] end ++
    (if negb (isNilRateLimiter (preset_RateLimiter cfg))
     then [Some (GRPCRateLimitUnaryWithKey (preset_RateLimiter cfg) (preset_UnaryExtractor cfg))] else []).
Proof.
  unfold inner_layers, GRPCServerPreset. cbv zeta.
  destruct (preset_CircuitBreaker cfg), (negb (isNilRateLimiter (preset_RateLimiter cfg))); cbn [fst];
    rewrite <- ?app_assoc; split; cbn [app drop]; rewrite <- ?app_assoc, ?app_nil_r; reflexivity.
Qed.

(** The answer of the preset for what the inner layers gave, and its line in
    the log. *)
Definition preset_answer (o : outcome (option Any * option error)) : option Any * option error :=
  match o with Ret res => res | Panic _ => (None, Some internal_error) end.
Definition preset_line (id : string) (s : span) (info : server_info) (o : outcome (option Any * option error))
    (latency : Z) : log_line :=
  match o with
  | Ret res => Completed (completion_level (status_code res.2)) "grpc request completed" id
      (default id (TraceID (SpanContext s))) info (code_string (status_code res.2))
      (f64_div (f64_of_Z (Z.quot latency 1000)) (f64_of_Z 1000))
  | Panic v => PanicRecovered id info v
  end.

Lemma completed_inner id s ctx info res latency :
  completed (inner_context id s ctx) info res.2 latency = preset_line id s info (Ret res) latency.
Proof.
  unfold completed, preset_line, rpc_GetTraceID, trace_id, rpc_GetRequestID. cbn [rpc_otel rpc_request_id inner_context
    with_rpc_otel with_rpc_request_id default from_option]. rewrite span_of_started.
  now destruct (TraceID (SpanContext s)).
Qed.

(** A unary call through the preset, whatever the extra interceptors
    and the handler do: the inner layers see a context with the request's own
    ID (a new one if it has none) and a started span, whose IDs are in the
    headers; a panic of theirs is answered Internal and their result is
    passed on otherwise; the call is observed once by the metrics, with its
    code (Internal for a panic); and one line is logged, with the same
    request and trace IDs. *)
Theorem preset_end_to_end rand_Read cfg ctx req info (h : unary_handler) (c : Clocked Rpc) m :
  reads_random rand_Read -> metrics (st c) = Some m ->
  exists id s c1, (carried_id ctx <> "" -> id = carried_id ctx) /\
  st c1 = with_rpc_metrics (BeginRPC (Some m)) (add_headers (("x-request-id", id) :: span_headers s)
    (with_tracer (tracer (st c1)) (st c))) /\
  forall o c2, ChainUnaryInterceptors (inner_layers rand_Read cfg) (inner_context id s ctx) req info h c1 = (o, c2) ->
  exists c3 seconds latency,
    ChainUnaryInterceptors (GRPCServerPreset rand_Read cfg).1 ctx req info h c = (Ret (preset_answer o), c3) /\
    st c3 = add_line (preset_line id s info o latency) (with_rpc_metrics
      (ObserveRPC info "unary" (code_string (rpc_code o)) seconds (metrics (st c2)))
      (with_tracer (tracer (st c3)) (st c2))).
Proof.
  intros Hr Hm. destruct (preset_layers rand_Read cfg) as [Hl _]. cbv zeta in Hl.
  set (name := if decide (TracerName cfg = "") then _ else _) in Hl.
  destruct (grpcRequestID_run rand_Read ctx c Hr) as (id & c' & Eid & Es & Hid).
  set (ctx1 := with_rpc_request_id id ctx). set (c0 := with_st c' (add_header "x-request-id" id (st c'))).
  destruct (tracing_run name ctx1 req info (onion_unary
    (Some GRPCLoggingUnary :: Some GRPCMetricsUnary :: inner_layers rand_Read cfg) info h) c0) as (s & c1 & Es1 & Htr).
  assert (metrics (st (next_tick c1)) = Some m) as Hm1 by (cbn [st next_tick]; rewrite Es1; cbn; now rewrite Es).
  exists id, s, (with_st (next_tick (next_tick c1)) (with_rpc_metrics (BeginRPC (Some m)) (st c1))).
  split; [exact Hid |]. split.
  { cbn [st with_st next_tick tracer with_rpc_metrics]. rewrite Es1. unfold c0. cbn [st with_st].
    rewrite Es. unfold add_headers, add_header, with_tracer, with_rpc_metrics. cbn. now rewrite <- app_assoc. }
  intros o c2 Einner. rewrite chain_unary_call in Einner.
  pose proof (metrics_rpc_run (inner_context id s ctx) req info (onion_unary (inner_layers rand_Read cfg) info h)
    (next_tick c1) m o c2 Hm1 Einner) as Emet.
  pose proof (logging_run (inner_context id s ctx) req info (onion_unary (Some GRPCMetricsUnary ::
    inner_layers rand_Read cfg) info h) c1 _ _ Emet) as Elog.
  destruct (Htr _ _ Elog) as (c3 & Etr & Es3). clear Htr Elog Emet.
  rewrite chain_unary_call, Hl. cbn [app onion_unary]. unfold GRPCRequestIDUnary.
  rewrite bind_run, Eid, bind_run. unfold SetHeader, modify. fold c0 ctx1.
  unfold GRPCRecoveryUnary, recovering. change (GRPCTracingUnary name ctx1 req info _ c0) with
    (GRPCTracingUnary name ctx1 req info (onion_unary (Some GRPCLoggingUnary :: Some GRPCMetricsUnary ::
      inner_layers rand_Read cfg) info h) c0).
  rewrite Etr. destruct o as [res | v].
  - do 3 eexists. split; [reflexivity |]. rewrite Es3. cbn [st with_st next_tick]. rewrite completed_inner. reflexivity.
  - eexists _, _, 0. split; [reflexivity |]. cbn [st with_st]. rewrite Es3. cbn [st with_st next_tick preset_line].
    reflexivity.
Qed.
(** C39. In a preset with a circuit breaker and a rate limiter, a call the
    limiter denies is reported to the breaker as a failure and answered
    Unavailable, not ResourceExhausted. *)
Theorem preset_masks_denial rand_Read cfg cb ctx req info (h : unary_handler) (c c1 c2 : Clocked Rpc) tok :
  preset_CircuitBreaker cfg = Some cb -> isNilRateLimiter (preset_RateLimiter cfg) = false ->
  on_unary_breaker (accept (newGRPCCircuitBreaker cb)) c = (Ret (inl tok), c1) ->
  let key := default (fun ctx _ info => defaultGRPCKey ctx info) (preset_UnaryExtractor cfg) ctx req info in
  on_rpc_limiter (LAllowKey (if decide (key = "") then defaultGRPCKey ctx info else key)) c1 = (Ret false, c2) ->
  exists c3, on_unary_breaker (report (newGRPCCircuitBreaker cb) tok false) c2 = (Ret tt, c3) /\
  ChainUnaryInterceptors (drop (length (ExtraUnaryInterceptors cfg)) (inner_layers rand_Read cfg)) ctx req info h c =
    (Ret (None, Some unavailable_error), with_st c3 (add_line (BreakerOpen info) (st c3))).
Proof.
  intros Hcb Hn Ea key Ed. destruct (preset_layers rand_Read cfg) as [_ Hl]. cbv zeta in Hl.
  rewrite Hl, drop_app_length, Hcb, Hn, chain_unary_call. cbn [negb app onion_unary].
  pose proof (rate_limit_run (preset_RateLimiter cfg) (preset_UnaryExtractor cfg) ctx req info h c1 c2 false Hn Ed) as El.
  exact (unary_breaker_run cb ctx req info _ c c1 tok Ea _ c2 El).
Qed.
End Preset.

(** A gRPC client and an HTTP client at the same address have the same
    rate-limit key, and only a client without an address has the global one:
    the metadata of the call plays no part. *)
Theorem grpc_key_matches_http ctx method :
  grpcPeerKey ctx = match peer ctx with Some (Some addr) => remoteAddrKey addr | _ => "" end /\
  defaultGRPCKey ctx method = match peer ctx with
    | Some (Some addr) => if decide (remoteAddrKey addr = "") then "grpc-global" else remoteAddrKey addr
    | _ => "grpc-global" end.
Proof.
  assert (grpcPeerKey ctx = match peer ctx with Some (Some addr) => remoteAddrKey addr | _ => "" end) as E.
  { unfold grpcPeerKey, remoteAddrKey. destruct (peer ctx) as [[addr |] |]; try reflexivity.
    destruct (decide (addr = "")) as [-> | Ha]; [reflexivity |]. cbv zeta.
    destruct (decide (trim_space addr = "")) as [Et | Et].
    - rewrite Et. reflexivity.
    - destruct (split_host_port (trim_space addr)) as [[host port] |]; [| reflexivity].
      destruct (decide (host = "")) as [-> | Hh]; [now rewrite decide_False by auto | now rewrite decide_True by auto]. }
  split; [exact E |]. unfold defaultGRPCKey. rewrite E. destruct (peer ctx) as [[addr |] |]; try reflexivity.
  cbv zeta. destruct (decide (remoteAddrKey addr = "")) as [-> | Hr]; [reflexivity | now rewrite decide_True by auto].
Qed.

(** ** A concrete preset *)

#[export] Instance demo_metadata : Metadata := {
  md_Get := fun md key => default [] (md !! to_lower key);
  md_Set := fun key value md => <[to_lower key := [value]]> md;
  md_Copy := default ∅
}.

(** Spans numbered from the state, and ended spans listed. *)
#[export] Instance demo_tracer : Tracer (nat * list nat) := {
  Start := fun _ _ _ c => let n := (st c).1 in
    (Ret (mkSpan n (mkSpanContext (Some ("trace-" +:+ format_int (Z.of_nat n))) (Some ("span-" +:+ format_int (Z.of_nat n))))),
     with_st c (S n, (st c).2));
  End_ := fun s => modify (fun t => (t.1, t.2 ++ [span_number s]));
  SpanFromContext := fun ctx => match ctx with WithSpan s _ => SpanContext s | _ => mkSpanContext None None end;
  Inject := fun _ => []
}.

#[export] Instance demo_tracer_laws : TracerLaws (nat * list nat).
Proof. split; [reflexivity | |]; intros; do 2 eexists + eexists; reflexivity. Qed.

(** A limiter that denies everything. *)
#[export] Instance demo_denies : KeyedRateLimiter unit := fun _ => mret false.

Abbreviation demo_rpc := (rpc unit Z (nat * list nat) unit).
Abbreviation demo_unary := (@UnaryHandler unit Z (nat * list nat) unit string).

Definition demo_preset (limited : bool) : @GRPCServerPresetConfig unit Z (nat * list nat) unit string :=
  mkPresetConfig "" [] [] (Some DefaultCircuitBreakerConfig) (if limited then Value tt else NilPointer) None None.
Definition demo_rpc_state : Clocked demo_rpc := mkClocked (fun _ => 0) (fun _ => 0) 0
  (mkRPC [] [] (Some (NewGRPCMetrics (mkGRPCMetricsConfig "svc" []))) tt 0 0 (0%nat, []) tt).
Definition demo_ctx : context :=
  mkContext None (Some {[ "x-request-id" := ["req-7"] ]}) (Some (Some "10.1.2.3:55000")) Background.
Definition demo_random : M demo_rpc (option (list ascii)) := mret None.
Definition demo_panics : demo_unary := fun _ _ => panic "boom".

Lemma grpc_breaker_outcomes_witness : exists c3 : Clocked demo_rpc, unary_breaker (st c3) = 1 /\
  GRPCCircuitBreakerUnary DefaultCircuitBreakerConfig demo_ctx "req" "/svc/Get"
    (fun _ _ => mret (None, Some (EStatus NotFound "no such item"))) demo_rpc_state = (Ret (None, Some unavailable_error), c3).
Proof.
  destruct (proj1 (grpc_breaker_outcomes DefaultCircuitBreakerConfig "/svc/Get") demo_ctx "req"
    (fun _ _ => mret (None, Some (EStatus NotFound "no such item"))) demo_rpc_state (inl (tt : @token Z demo_breaker)) demo_rpc_state eq_refl
    _ _ eq_refl) as (c3 & E3 & E).
  injection E3 as <-. eexists. split; [| exact E]. reflexivity.
Defined.

Lemma preset_end_to_end_witness : exists c3,
  ChainUnaryInterceptors (GRPCServerPreset demo_random (demo_preset false)).1 demo_ctx "req" "/svc/Get" demo_panics
    demo_rpc_state = (Ret (None, Some internal_error), c3).
Proof.
  assert (reads_random demo_random) as Hr by (intros c; exists None, c; split; reflexivity).
  destruct (preset_end_to_end demo_random (demo_preset false) demo_ctx "req" "/svc/Get" demo_panics demo_rpc_state _
    Hr eq_refl) as (id & s & c1 & _ & Ec1 & H).
  assert (unary_breaker (st c1) = 0) as Eb by (rewrite Ec1; reflexivity).
  assert (exists c2, ChainUnaryInterceptors (inner_layers demo_random (demo_preset false)) (inner_context id s demo_ctx) "req"
    "/svc/Get" demo_panics c1 = (Panic "boom", c2)) as (c2 & E2).
  { destruct c1 as [k w t [h l m li ub sb tr a]]. cbn in Eb. subst ub. eexists. reflexivity. }
  destruct (H _ _ E2) as (c3 & _ & _ & E & _). exists c3. exact E.
Defined.

Lemma preset_masks_denial_witness : exists c3 : Clocked demo_rpc, unary_breaker (st c3) = 1 /\
  ChainUnaryInterceptors (inner_layers demo_random (demo_preset true)) demo_ctx "req" "/svc/Get" demo_panics demo_rpc_state =
    (Ret (None, Some unavailable_error), c3).
Proof.
  destruct (preset_masks_denial demo_random (demo_preset true) DefaultCircuitBreakerConfig demo_ctx "req" "/svc/Get"
    demo_panics demo_rpc_state demo_rpc_state demo_rpc_state (tt : @token Z demo_breaker)) as (c3 & E3 & E);
    [reflexivity | reflexivity | reflexivity | vm_compute; reflexivity |].
  injection E3 as <-. eexists. split; [| exact E]. reflexivity.
Defined.
