(* ===== verification/GRPCServing.v ===== *)
(** * The server of a gRPC runtime

    The rest of [NewGRPCRuntime] of [go/server/grpc_runtime.go]: the metrics
    and the preset it gives to [grpc.NewServer], before the options of the
    configuration.  The server belongs to grpc and is used through what its
    documentation says of [ChainUnaryInterceptor] and
    [ChainStreamInterceptor] ([ServerLaws]).

    The theorems: a streaming call through the preset, as GRPCMiddleware.v
    has it for unary calls ([stream_end_to_end]), and calls to the server of
    a runtime ([server_calls]). *)

From S2P Require Import Prelude Float64 GoStrings GoErrors Gobreaker Spans RateLimit GoHTTP HTTPMiddleware CircuitBreaker Tracing Metrics GRPCMiddleware.
From S2P Require GRPCRuntime.
From Stdlib Require Import Ascii.

#[local] Open Scope Z_scope.

(** ** Streaming calls through the preset *)

Section Streams.
Context {L B S U : Type} `{Metadata} `{TracerLaws S} {Any : Type} `{BreakerLaws B} `{KeyedRateLimiter L}.
Abbreviation Rpc := (rpc L B S U).
Abbreviation stream_handler := (@StreamHandler L B S U Any).
Abbreviation preset_config := (@GRPCServerPresetConfig L B S U Any).

Lemma tracing_stream_run name srv ss info (h : stream_handler) (c : Clocked Rpc) : let ctx := Context_of ss in exists s c1,
  st c1 = add_headers (span_headers s) (with_tracer (tracer (st c1)) (st c)) /\
  forall o c2, h srv (wrappedServerStream ss
      (with_rpc_otel (WithSpan s (Extracted (as_carrier (metadataCarrierFromIncomingContext ctx)) (rpc_otel ctx))) ctx)) c1 = (o, c2) ->
  exists c3, GRPCTracingStream name srv ss info h c = (o, c3) /\ st c3 = with_tracer (tracer (st c3)) (st c2).
Proof.
  unfold GRPCTracingStream. cbv zeta. cbn [rpc_otel with_rpc_otel]. set (ot := Extracted _ _).
  destruct (start_returns name info ot (with_st c (tracer (st c)))) as (s & c' & Es).
  exists s. eexists (with_st c' (add_headers (span_headers s) (with_tracer (st c') (st c)))).
  split; [reflexivity |]. intros o c2 Eh. destruct (end_returns s (with_st c2 (tracer (st c2)))) as [c3 E3].
  exists (with_st c3 (with_tracer (st c3) (st c2))). split; [| reflexivity].
  rewrite bind_run. unfold on_tracer at 1, zoom at 1. rewrite Es. unfold deferring. rewrite span_headers_run.
  cbn [st with_st] in *. unfold with_st at 1. cbn [clk wall tick].
  match goal with |- context [h srv ?a ?b] => change (h srv a b) with (h srv (wrappedServerStream ss
    (with_rpc_otel (WithSpan s ot) (Context_of ss))) (with_st c' (add_headers (span_headers s) (with_tracer (st c') (st c))))) end.
  rewrite Eh. unfold on_tracer, zoom. now rewrite E3.
Qed.

(** The line of a stream that ended. *)
Definition stream_completed (ctx : context) (info : server_info) (err : option error) (latency : Z) : log_line :=
  Completed (completion_level (status_code err)) "grpc stream completed" (rpc_GetRequestID ctx) (rpc_GetTraceID ctx) info
    (code_string (status_code err)) (f64_div (f64_of_Z (Z.quot latency 1000)) (f64_of_Z 1000)).

Lemma logging_stream_run srv ss info (h : stream_handler) (c : Clocked Rpc) o c2 : h srv ss (next_tick c) = (o, c2) ->
  GRPCLoggingStream srv ss info h c = (o, match o with
    | Ret err => with_st (next_tick c2)
        (add_line (stream_completed (Context_of ss) info err (time_sub (clk c2 (tick c2)) (clk c (tick c)))) (st c2))
    | Panic _ => c2 end).
Proof. intros Eh. unfold GRPCLoggingStream. rewrite bind_run. unfold now at 1. rewrite bind_run, Eh. now destruct o. Qed.

Definition stream_code (o : outcome (option error)) : Code := match o with Ret err => status_code err | Panic _ => Internal end.

Lemma metrics_stream_run srv ss info (h : stream_handler) (c : Clocked Rpc) m o c2 : metrics (st c) = Some m ->
  h srv ss (with_st (next_tick c) (with_rpc_metrics (BeginRPC (Some m)) (st c))) = (o, c2) ->
  GRPCMetricsStream srv ss info h c = (o, with_st (next_tick c2) (with_rpc_metrics
    (ObserveRPC info "stream" (code_string (stream_code o)) (duration_seconds (time_sub (clk c2 (tick c2)) (clk c (tick c))))
      (metrics (st c2))) (st c2))).
Proof.
  intros Em Eh. unfold GRPCMetricsStream. rewrite bind_run. unfold gets. rewrite Em, bind_run. unfold now at 1.
  rewrite bind_run. unfold on_metrics at 1, modify. unfold deferring. cbn [st next_tick with_st]. rewrite Em.
  match goal with |- context [h srv ss ?b] =>
    change (h srv ss b) with (h srv ss (with_st (next_tick c) (with_rpc_metrics (BeginRPC (Some m)) (st c)))) end.
  rewrite Eh. now destruct o.
Qed.

Definition inner_stream_layers (rand_Read : M Rpc (option (list ascii))) (cfg : preset_config) :=
  drop 5 (GRPCServerPreset rand_Read cfg).2.

Lemma preset_stream_layers rand_Read cfg : let name := if decide (TracerName cfg = "") then "dense-grpc" else TracerName cfg in
  (GRPCServerPreset rand_Read cfg).2 =
    [Some (GRPCRequestIDStream rand_Read); Some GRPCRecoveryStream; Some (GRPCTracingStream name); Some GRPCLoggingStream;
     Some GRPCMetricsStream] ++ inner_stream_layers rand_Read cfg.
Proof.
  unfold inner_stream_layers, GRPCServerPreset. cbv zeta.
  destruct (preset_CircuitBreaker cfg), (negb (isNilRateLimiter (preset_RateLimiter cfg))); cbn [snd];
    rewrite <- ?app_assoc; reflexivity.
Qed.

Definition stream_preset_answer (o : outcome (option error)) : option error :=
  match o with Ret err => err | Panic _ => Some internal_error end.

Definition stream_line (id : string) (s : span) (info : server_info) (o : outcome (option error)) (latency : Z) : log_line :=
  match o with
  | Ret err => Completed (completion_level (status_code err)) "grpc stream completed" id (default id (TraceID (SpanContext s))) info
      (code_string (status_code err)) (f64_div (f64_of_Z (Z.quot latency 1000)) (f64_of_Z 1000))
  | Panic v => PanicRecovered id info v
  end.

Lemma stream_completed_inner id s ctx info err latency :
  stream_completed (inner_context id s ctx) info err latency = stream_line id s info (Ret err) latency.
Proof.
  unfold stream_completed, stream_line, rpc_GetTraceID, trace_id, rpc_GetRequestID. cbn [rpc_otel rpc_request_id inner_context
    with_rpc_otel with_rpc_request_id default from_option]. rewrite span_of_started.
  now destruct (TraceID (SpanContext s)).
Qed.

(** The stream the inner layers are given. *)
Definition inner_stream (id : string) (s : span) (ss : ServerStream) : ServerStream :=
  wrappedServerStream (wrappedServerStream ss (with_rpc_request_id id (Context_of ss))) (inner_context id s (Context_of ss)).

(** A streaming call through the preset, whatever the extra interceptors
    and the handler do: as for a unary call, with the IDs in a stream whose
    context carries them. *)
Theorem stream_end_to_end rand_Read cfg srv ss info (h : stream_handler) (c : Clocked Rpc) m :
  reads_random rand_Read -> metrics (st c) = Some m ->
  exists id s c1, (carried_id (Context_of ss) <> "" -> id = carried_id (Context_of ss)) /\
  st c1 = with_rpc_metrics (BeginRPC (Some m)) (add_headers (("x-request-id", id) :: span_headers s)
    (with_tracer (tracer (st c1)) (st c))) /\
  forall o c2, ChainStreamInterceptors (inner_stream_layers rand_Read cfg) srv (inner_stream id s ss) info h c1 = (o, c2) ->
  exists c3 seconds latency,
    ChainStreamInterceptors (GRPCServerPreset rand_Read cfg).2 srv ss info h c = (Ret (stream_preset_answer o), c3) /\
    st c3 = add_line (stream_line id s info o latency) (with_rpc_metrics
      (ObserveRPC info "stream" (code_string (stream_code o)) seconds (metrics (st c2)))
      (with_tracer (tracer (st c3)) (st c2))).
Proof.
  intros Hr Hm. pose proof (preset_stream_layers rand_Read cfg) as Hl. cbv zeta in Hl.
  set (name := if decide (TracerName cfg = "") then _ else _) in Hl.
  destruct (grpcRequestID_run rand_Read (Context_of ss) c Hr) as (id & c' & Eid & Es & Hid).
  set (ss1 := wrappedServerStream ss (with_rpc_request_id id (Context_of ss))).
  set (c0 := with_st c' (add_header "x-request-id" id (st c'))).
  destruct (tracing_stream_run name srv ss1 info (onion_stream
    (Some GRPCLoggingStream :: Some GRPCMetricsStream :: inner_stream_layers rand_Read cfg) info h) c0) as (s & c1 & Es1 & Htr).
  assert (metrics (st (next_tick c1)) = Some m) as Hm1 by (cbn [st next_tick]; rewrite Es1; cbn; now rewrite Es).
  exists id, s, (with_st (next_tick (next_tick c1)) (with_rpc_metrics (BeginRPC (Some m)) (st c1))).
  split; [exact Hid |]. split.
  { cbn [st with_st next_tick tracer with_rpc_metrics]. rewrite Es1. unfold c0. cbn [st with_st].
    rewrite Es. unfold add_headers, add_header, with_tracer, with_rpc_metrics. cbn. now rewrite <- app_assoc. }
  intros o c2 Einner. rewrite chain_stream_call in Einner.
  pose proof (metrics_stream_run srv (inner_stream id s ss) info (onion_stream (inner_stream_layers rand_Read cfg) info h)
    (next_tick c1) m o c2 Hm1 Einner) as Emet.
  pose proof (logging_stream_run srv (inner_stream id s ss) info (onion_stream (Some GRPCMetricsStream ::
    inner_stream_layers rand_Read cfg) info h) c1 _ _ Emet) as Elog.
  destruct (Htr _ _ Elog) as (c3 & Etr & Es3). clear Htr Elog Emet.
  rewrite chain_stream_call, Hl. cbn [app onion_stream]. unfold GRPCRequestIDStream.
  rewrite bind_run, Eid, bind_run. unfold SetHeader, modify. fold c0 ss1.
  unfold GRPCRecoveryStream, recovering. change (GRPCTracingStream name srv ss1 info _ c0) with
    (GRPCTracingStream name srv ss1 info (onion_stream (Some GRPCLoggingStream :: Some GRPCMetricsStream ::
      inner_stream_layers rand_Read cfg) info h) c0).
  rewrite Etr. destruct o as [err | v].
  - do 3 eexists. split; [reflexivity |]. rewrite Es3. cbn [st with_st next_tick]. 
    change (Context_of (inner_stream id s ss)) with (inner_context id s (Context_of ss)). rewrite stream_completed_inner. reflexivity.
  - eexists _, _, 0. split; [reflexivity |]. cbn [st with_st]. rewrite Es3. cbn [st with_st next_tick stream_line].
    reflexivity.
Qed.
End Streams.

(** ** The runtime's server *)

Section Server.
Context {L B S U : Type} `{Metadata} `{TracerLaws S} {Any : Type} `{BreakerLaws B} `{KeyedRateLimiter L}.
Abbreviation Rpc := (rpc L B S U).
Abbreviation unary := (@UnaryServerInterceptor L B S U Any).
Abbreviation stream := (@StreamServerInterceptor L B S U Any).
Abbreviation unary_handler := (@UnaryHandler L B S U Any).
Abbreviation stream_handler := (@StreamHandler L B S U Any).
Abbreviation preset_config := (@GRPCServerPresetConfig L B S U Any).

(** [grpc.ServerOption]: the interceptors it adds, if any. *)
Inductive ServerOption : Type :=
| ChainUnaryInterceptor (l : list (option unary))
| ChainStreamInterceptor (l : list (option stream))
| OtherOption (n : nat).

Definition unary_of (opts : list ServerOption) : list (option unary) :=
  opts ≫= fun o => match o with ChainUnaryInterceptor l => l | _ => [] end.
Definition stream_of (opts : list ServerOption) : list (option stream) :=
  opts ≫= fun o => match o with ChainStreamInterceptor l => l | _ => [] end.

(** [grpc.NewServer], and what a server does with a call of a method whose
    handler is given. *)
Class ServerLib (Srv : Type) := {
  NewServer : list ServerOption -> Srv;
  HandleUnary : Srv -> context -> Any -> server_info -> unary_handler -> M Rpc (option Any * option error);
  HandleStream : Srv -> Any -> ServerStream -> server_info -> stream_handler -> M Rpc (option error)
}.

(** The documentation of the options: the interceptors of all of them are
    chained, the first outermost.  A nil one would be called. *)
Class ServerLaws (Srv : Type) `{ServerLib Srv} := {
  unary_chained : forall opts ctx req info h c, Forall is_Some (unary_of opts) ->
    HandleUnary (NewServer opts) ctx req info h c = onion_unary (unary_of opts) info h ctx req c;
  stream_chained : forall opts srv ss info h c, Forall is_Some (stream_of opts) ->
    HandleStream (NewServer opts) srv ss info h c = onion_stream (stream_of opts) info h srv ss c
}.

(** The preset's configuration: what it makes the interceptors from, and the
    metrics they are to share. *)
Record GRPCServingPreset : Type := mkServingPreset { preset_of : preset_config; preset_Metrics : option GRPCMetrics }.

(** What [NewGRPCRuntime] reads for the server. *)
Record GRPCServingConfig : Type := mkServingConfig {
  sv_runtime : GRPCRuntime.GRPCRuntimeConfig;
  ServerOptions : list ServerOption;
  MiddlewarePreset : GRPCServingPreset;
  sv_Metrics : option GRPCMetrics
}.

(** [sv_shared] are the metrics the interceptors were made with: the pointer
    they share with the runtime, which is the [metrics] of the state of the
    calls ([rpc]). *)
Record GRPCServing (Srv : Type) : Type := mkServing {
  sv_server : Srv;
  sv_metrics : GRPCMetrics;
  sv_shared : option GRPCMetrics
}.
#[global] Arguments mkServing {Srv}.
#[global] Arguments sv_server {Srv}.
#[global] Arguments sv_metrics {Srv}.
#[global] Arguments sv_shared {Srv}.

Definition runtime_metrics (cfg : GRPCServingConfig) : GRPCMetrics :=
  match sv_Metrics cfg with
  | Some m => m
  | None => NewGRPCMetrics (mkGRPCMetricsConfig (GRPCRuntime.runtime_service_name (sv_runtime cfg)) [])
  end.

Definition NewGRPCServing {Srv} `{ServerLib Srv} (rand_Read : M Rpc (option (list ascii))) (cfg : GRPCServingConfig) : GRPCServing Srv :=
  let metrics := runtime_metrics cfg in
  let presetCfg := MiddlewarePreset cfg in
  let presetCfg := mkServingPreset (preset_of presetCfg) (Some metrics) in
  let '(unary, stream) := GRPCServerPreset rand_Read (preset_of presetCfg) in
  let serverOptions := [ChainUnaryInterceptor unary; ChainStreamInterceptor stream] in
  mkServing (NewServer (serverOptions ++ ServerOptions cfg)) metrics (preset_Metrics presetCfg).

(** The state calls of a new runtime start from, the rest of it being [w]. *)
Definition serving_state {Srv} (r : GRPCServing Srv) (w : Rpc) : Rpc := with_rpc_metrics (sv_shared r) w.

(** The accessors [Server] and [Metrics]. *)
Definition Server {Srv} (r : GRPCServing Srv) : Srv := sv_server r.
Definition Metrics {Srv} (r : GRPCServing Srv) : GRPCMetrics := sv_metrics r.

(** No interceptor is nil. *)
Definition all_there (cfg : GRPCServingConfig) : Prop :=
  Forall is_Some (ExtraUnaryInterceptors (preset_of (MiddlewarePreset cfg)) ++ unary_of (ServerOptions cfg)) /\
  Forall is_Some (ExtraStreamInterceptors (preset_of (MiddlewarePreset cfg)) ++ stream_of (ServerOptions cfg)).

Lemma preset_there rand_Read (cfg : preset_config) :
  (Forall is_Some (ExtraUnaryInterceptors cfg) -> Forall is_Some (GRPCServerPreset rand_Read cfg).1) /\
  (Forall is_Some (ExtraStreamInterceptors cfg) -> Forall is_Some (GRPCServerPreset rand_Read cfg).2).
Proof.
  unfold GRPCServerPreset. cbv zeta.
  destruct (preset_CircuitBreaker cfg), (negb (isNilRateLimiter (preset_RateLimiter cfg))); cbn [fst snd];
    (split; intros Hx; repeat apply Forall_app_2; try exact Hx; repeat (constructor; [eexists; reflexivity |]); constructor).
Qed.

(** Calls to the server are calls through the preset, the interceptors of the
    options inside it. *)
Lemma server_nests {Srv} `{ServerLaws Srv} rand_Read cfg : all_there cfg -> let r := NewGRPCServing (Srv := Srv) rand_Read cfg in
  (forall ctx req info h c, HandleUnary (Server r) ctx req info h c =
    ChainUnaryInterceptors (GRPCServerPreset rand_Read (preset_of (MiddlewarePreset cfg))).1 ctx req info
      (onion_unary (unary_of (ServerOptions cfg)) info h) c) /\
  (forall srv ss info h c, HandleStream (Server r) srv ss info h c =
    ChainStreamInterceptors (GRPCServerPreset rand_Read (preset_of (MiddlewarePreset cfg))).2 srv ss info
      (onion_stream (stream_of (ServerOptions cfg)) info h) c).
Proof.
  intros [Hu Hs]. cbv zeta. unfold NewGRPCServing, Server. cbn [preset_of]. apply Forall_app in Hu as [Hu1 Hu2]. apply Forall_app in Hs as [Hs1 Hs2].
  destruct (preset_there rand_Read (preset_of (MiddlewarePreset cfg))) as [Hpu Hps]. specialize (Hpu Hu1). specialize (Hps Hs1).
  destruct (GRPCServerPreset rand_Read (preset_of (MiddlewarePreset cfg))) as [unary stream]. cbn [fst snd sv_server] in *. split; intros.
  - rewrite unary_chained; unfold unary_of; cbn [app mbind list_bind]; [| now apply Forall_app_2].
    now rewrite onion_unary_app, chain_unary_call.
  - rewrite stream_chained; unfold stream_of; cbn [app mbind list_bind]; [| now apply Forall_app_2].
    now rewrite onion_stream_app, chain_stream_call.
Qed.

(** The inner layers of a call to the server: those of the preset, then the
    options' and the handler. *)
Definition served_unary rand_Read (cfg : GRPCServingConfig) info (h : unary_handler) : unary_handler := fun ctx req =>
  ChainUnaryInterceptors (inner_layers rand_Read (preset_of (MiddlewarePreset cfg))) ctx req info (onion_unary (unary_of (ServerOptions cfg)) info h).
Definition served_stream rand_Read (cfg : GRPCServingConfig) info (h : stream_handler) : stream_handler := fun srv ss =>
  ChainStreamInterceptors (inner_stream_layers rand_Read (preset_of (MiddlewarePreset cfg))) srv ss info
    (onion_stream (stream_of (ServerOptions cfg)) info h).

(** The state in which the inner layers of a call start: the IDs are in the
    headers and the call is begun in the metrics. *)
Definition call_begun (id : string) (s : span) (m : GRPCMetrics) (w w1 : Rpc) : Prop :=
  w1 = with_rpc_metrics (BeginRPC (Some m)) (add_headers (("x-request-id", id) :: span_headers s) (with_tracer (tracer w1) w)).

(** The state after a call: one observation and one line. *)
Definition call_ended (kind : string) (info : server_info) (code : Code) (line : Z -> log_line) (w2 w3 : Rpc) : Prop :=
  exists seconds latency, w3 = add_line (line latency) (with_rpc_metrics
    (ObserveRPC info kind (code_string code) seconds (metrics w2)) (with_tracer (tracer w3) w2)).

(** C7. The server of a gRPC runtime whose interceptors are all there,
    whatever its options, extra interceptors and handlers do.  A call, unary
    or streaming, reaches the inner layers with the request's own ID (a new
    one if it has none) and a started span in its context, and their IDs in
    the headers; a panic of theirs is answered Internal and their result is
    passed on otherwise; the call is observed once, with its code, by the
    metrics of the state, which are at first those the interceptors were made
    with, the ones the runtime gives out (its configuration's, or new ones,
    whatever metrics the preset's configuration had); and one line is logged
    with the same IDs. *)
Theorem server_calls {Srv} `{ServerLaws Srv} rand_Read cfg : all_there cfg -> reads_random rand_Read ->
  let r := NewGRPCServing (Srv := Srv) rand_Read cfg in
  (sv_shared r = Some (Metrics r) /\ (forall m, sv_Metrics cfg = Some m -> Metrics r = m) /\
    forall w, metrics (serving_state r w) = Some (Metrics r)) /\
  (forall ctx req info h (c : Clocked Rpc) m, metrics (st c) = Some m ->
    exists id s c1, (carried_id ctx <> "" -> id = carried_id ctx) /\ call_begun id s m (st c) (st c1) /\
    forall o c2, served_unary rand_Read cfg info h (inner_context id s ctx) req c1 = (o, c2) ->
    exists c3, HandleUnary (Server r) ctx req info h c = (Ret (preset_answer o), c3) /\
      call_ended "unary" info (rpc_code o) (preset_line id s info o) (st c2) (st c3)) /\
  (forall srv ss info h (c : Clocked Rpc) m, metrics (st c) = Some m ->
    exists id s c1, (carried_id (Context_of ss) <> "" -> id = carried_id (Context_of ss)) /\ call_begun id s m (st c) (st c1) /\
    forall o c2, served_stream rand_Read cfg info h srv (inner_stream id s ss) c1 = (o, c2) ->
    exists c3, HandleStream (Server r) srv ss info h c = (Ret (stream_preset_answer o), c3) /\
      call_ended "stream" info (stream_code o) (stream_line id s info o) (st c2) (st c3)).
Proof.
  intros Hall Hr r. destruct (server_nests (Srv := Srv) rand_Read cfg Hall) as [Hunary Hstream]. fold r in Hunary, Hstream.
  assert (Metrics r = runtime_metrics cfg /\ sv_shared r = Some (runtime_metrics cfg)) as [Hmet Hsh]
    by (unfold r, NewGRPCServing, Metrics; cbn [preset_of];
        now destruct (GRPCServerPreset rand_Read (preset_of (MiddlewarePreset cfg)))).
  split; [| split].
  - unfold serving_state. rewrite Hmet, Hsh. split; [reflexivity |].
    split; [intros m Em; unfold runtime_metrics; now rewrite Em | reflexivity].
  - intros ctx req info h c m Hm.
    destruct (preset_end_to_end rand_Read (preset_of (MiddlewarePreset cfg)) ctx req info (onion_unary (unary_of (ServerOptions cfg)) info h) c m Hr Hm)
      as (id & s & c1 & Hid & Ec1 & Hrun).
    exists id, s, c1. split; [exact Hid |]. split; [exact Ec1 |]. intros o c2 E2.
    destruct (Hrun o c2 E2) as (c3 & seconds & latency & E3 & Ec3). exists c3.
    split; [now rewrite Hunary | now exists seconds, latency].
  - intros srv ss info h c m Hm.
    destruct (stream_end_to_end rand_Read (preset_of (MiddlewarePreset cfg)) srv ss info (onion_stream (stream_of (ServerOptions cfg)) info h) c m Hr Hm)
      as (id & s & c1 & Hid & Ec1 & Hrun).
    exists id, s, c1. split; [exact Hid |]. split; [exact Ec1 |]. intros o c2 E2.
    destruct (Hrun o c2 E2) as (c3 & seconds & latency & E3 & Ec3). exists c3.
    split; [now rewrite Hstream | now exists seconds, latency].
Qed.
End Server.

(** [NewGRPCRuntime], whole: the server and the metrics, and the runtime whose
    calls GRPCRuntime.v has.  It never fails. *)
Definition NewGRPCRuntime {L B S U Any Srv H : Type} `{Metadata} `{Tracer S} `{Breaker B} `{KeyedRateLimiter L}
    `{@ServerLib L B S U Any Srv} `{GRPCRuntime.HealthServer H} (rand_Read : M (rpc L B S U) (option (list ascii)))
    (cfg : @GRPCServingConfig L B S U Any) : GRPCServing Srv * @GRPCRuntime.GRPCRuntime H + error :=
  inl (NewGRPCServing rand_Read cfg, GRPCRuntime.NewGRPCRuntime (sv_runtime cfg)).

(** ** The program of [examples/grpc_preset], and a server *)

(** The interceptors of the program; it gives [grpc.NewServer] these
    options. *)
Definition grpc_preset_config {L B S U Any : Type} : @GRPCServerPresetConfig L B S U Any :=
  mkPresetConfig "dense-consumer-grpc" [] [] None NilInterface None None.
Definition grpc_preset_metrics : GRPCMetrics := NewGRPCMetrics (mkGRPCMetricsConfig "dense-consumer-grpc" []).
Definition grpc_preset_options {L B S U Any : Type} `{Metadata} `{Tracer S} `{Breaker B} `{KeyedRateLimiter L}
    (rand_Read : M (rpc L B S U) (option (list ascii))) : list (@ServerOption L B S U Any) :=
  let '(unary, stream) := GRPCServerPreset rand_Read grpc_preset_config in
  [ChainUnaryInterceptor unary; ChainStreamInterceptor stream].

(** A server that chains what it is given. *)
Abbreviation demo_option := (@ServerOption unit Z (nat * list nat) unit string).
#[local] Instance demo_lib : @ServerLib unit Z (nat * list nat) unit string (list demo_option) := {
  NewServer := fun opts => opts;
  HandleUnary := fun opts ctx req info h => onion_unary (unary_of opts) info h ctx req;
  HandleStream := fun opts srv ss info h => onion_stream (stream_of opts) info h srv ss
}.
#[local] Instance demo_lib_laws : @ServerLaws unit Z (nat * list nat) unit string (list demo_option) _.
Proof. split; reflexivity. Qed.

Definition demo_serving : @GRPCServingConfig unit Z (nat * list nat) unit string :=
  mkServingConfig GRPCRuntime.demo_grpc [OtherOption 0] (mkServingPreset grpc_preset_config (Some grpc_preset_metrics)) None.

(** A stream whose handler panics. *)
Lemma server_calls_witness : exists c3,
  HandleStream (Server (NewGRPCServing (Srv := list demo_option) demo_random demo_serving)) "srv" (serverStream demo_ctx) "/svc/Watch"
    (fun _ _ => panic "boom") demo_rpc_state = (Ret (Some internal_error), c3).
Proof.
  assert (reads_random demo_random) as Hr by (intros c; exists None, c; split; reflexivity).
  destruct (server_calls (Srv := list demo_option) demo_random demo_serving (conj (Forall_nil_2 _) (Forall_nil_2 _)) Hr)
    as (_ & _ & Hs).
  destruct (Hs "srv" (serverStream demo_ctx) "/svc/Watch" (fun _ _ => panic "boom") demo_rpc_state _ eq_refl)
    as (id & s & c1 & _ & _ & Hrun).
  destruct (Hrun _ _ eq_refl) as (c3 & E & _). exists c3. exact E.
Defined.
