(* ===== verification/GoNet.v ===== *)
(** * Names and addresses

    What the telemetry uses of [strings] and [net]: comparison with a
    lower-case ASCII word that ignores case, and [net.ParseIP] with
    [IP.IsLoopback].

    A dotted quad parses back to its four bytes ([ParseIP_quad]). *)

From Stdlib Require Import Ascii.
From S2P Require Import Prelude GoStrings.

(** ** Case *)

(** The characters beyond ASCII that lower to an ASCII letter, and those
    that fold with one, in UTF-8. *)
Definition lower_special : list (list ascii * ascii) :=
  [([byte 196; byte 176], "i"%char); ([byte 226; byte 132; byte 170], "k"%char)].
Definition fold_special : list (list ascii * ascii) :=
  [([byte 197; byte 191], "s"%char); ([byte 226; byte 132; byte 170], "k"%char)].

Fixpoint strip_special (ps : list (list ascii * ascii)) (s : list ascii) : option (ascii * list ascii) :=
  match ps with
  | [] => None
  | (p, a) :: ps' => match strip_prefix p s with Some r => Some (a, r) | None => strip_special ps' s end
  end.

(** The letters in lower case; other characters beyond ASCII stay as they
    are, and stay beyond ASCII.  Each round consumes a byte. *)
Fixpoint lower_fuel (ps : list (list ascii * ascii)) (fuel : nat) (s : list ascii) : list ascii :=
  match fuel, s with
  | S fuel', a :: s' =>
      match strip_special ps s with
      | Some (b, r) => b :: lower_fuel ps fuel' r
      | None => lower_byte a :: lower_fuel ps fuel' s'
      end
  | _, _ => []
  end.

Definition lower_with (ps : list (list ascii * ascii)) (s : string) : string := str (lower_fuel ps (String.length s) (bytes s)).

(** [strings.ToLower(s) == word] and [strings.EqualFold(s, word)] for a word
    of lower-case ASCII letters. *)
Definition lowers_to (s word : string) : bool := Stdlib.Strings.String.eqb (lower_with lower_special s) word.
Definition folds_to (s word : string) : bool := Stdlib.Strings.String.eqb (lower_with fold_special s) word.

(** ** IP addresses *)

Definition digit_value (a : ascii) : option Z :=
  let n := nat_of_ascii a in
  if (48 <=? n)%nat && (n <=? 57)%nat then Some (Z.of_nat (n - 48)) else None.

Definition hex_value (a : ascii) : option Z :=
  let n := nat_of_ascii a in
  if (48 <=? n)%nat && (n <=? 57)%nat then Some (Z.of_nat (n - 48))
  else if (97 <=? n)%nat && (n <=? 102)%nat then Some (Z.of_nat (n - 87))
  else if (65 <=? n)%nat && (n <=? 70)%nat then Some (Z.of_nat (n - 55))
  else None.

Definition dot : ascii := "."%char.

(** One field of a dotted quad: [v] is its value so far and [len] its
    digits.  An empty field, a leading zero and a value above 255 are
    errors. *)
Fixpoint quad_fields (s : list ascii) (v : Z) (len : nat) (fields : list Z) : option (list Z) :=
  match s with
  | [] => if (len =? 0)%nat then None else Some (fields ++ [v])
  | a :: s' =>
      match digit_value a with
      | Some d =>
          if (len =? 1)%nat && (v =? 0) then None
          else if 255 <? v * 10 + d then None
          else quad_fields s' (v * 10 + d) (S len) fields
      | None =>
          if Ascii.eqb a dot then
            if (len =? 0)%nat then None else if (length fields =? 3)%nat then None
            else quad_fields s' 0 0 (fields ++ [v])
          else None
      end
  end.

Definition parse_ipv4 (s : list ascii) : option (list Z) :=
  match quad_fields s 0 0 [] with
  | Some fields => if (length fields =? 4)%nat then Some fields else None
  | None => None
  end.

(** The hexadecimal digits that begin [s]: their count, their value, and the
    rest. *)
Fixpoint hex_prefix (s : list ascii) (count : nat) (acc : Z) : nat * Z * list ascii :=
  match s with
  | a :: s' =>
      match hex_value a with
      | Some d => hex_prefix s' (S count) (acc * 16 + d)
      | None => (count, acc, s)
      end
  | [] => (count, acc, [])
  end.

(** The loop of [netip.parseIPv6]: [ip] holds the bytes so far and
    [ellipsis] where [::] was.  Each round adds two bytes, so eight are
    enough; what is left unread is an error. *)
Fixpoint ipv6_groups (rounds : nat) (s : list ascii) (ip : list Z) (ellipsis : option nat) :
    option (list Z * option nat * list ascii) :=
  match rounds with
  | O => Some (ip, ellipsis, s)
  | S rounds' =>
      let '(count, acc, rest) := hex_prefix s 0 0 in
      if (4 <? count)%nat || (count =? 0)%nat then None
      else
        match rest with
        | a :: _ =>
            if Ascii.eqb a dot then
              if (match ellipsis with None => negb (length ip =? 12)%nat | Some _ => false end) then None
              else if (16 <? length ip + 4)%nat then None
              else match parse_ipv4 s with Some quad => Some (ip ++ quad, ellipsis, []) | None => None end
            else
              let ip := ip ++ [acc / 256; acc mod 256] in
              if negb (Ascii.eqb a colon) then None
              else
                match drop 1 rest with
                | [] => None
                | b :: s' =>
                    if Ascii.eqb b colon then
                      match ellipsis with
                      | Some _ => None
                      | None =>
                          match s' with
                          | [] => Some (ip, Some (length ip), [])
                          | _ => ipv6_groups rounds' s' ip (Some (length ip))
                          end
                      end
                    else ipv6_groups rounds' (b :: s') ip ellipsis
                end
        | [] => Some (ip ++ [acc / 256; acc mod 256], ellipsis, [])
        end
  end.

(** Zeros for the ellipsis, which stands for at least one group. *)
Definition expand_ipv6 (ip : list Z) (ellipsis : option nat) : option (list Z) :=
  if (length ip <? 16)%nat then
    match ellipsis with
    | None => None
    | Some e => Some (take e ip ++ replicate (16 - length ip) 0 ++ drop e ip)
    end
  else match ellipsis with None => Some ip | Some _ => None end.

Definition parse_ipv6 (s : list ascii) : option (list Z) :=
  match s with
  | a :: b :: s' =>
      if Ascii.eqb a colon && Ascii.eqb b colon then
        match s' with
        | [] => Some (replicate 16 0)
        | _ => match ipv6_groups 8 s' [] (Some 0%nat) with Some (ip, e, []) => expand_ipv6 ip e | _ => None end
        end
      else match ipv6_groups 8 s [] None with Some (ip, e, []) => expand_ipv6 ip e | _ => None end
  | _ => None
  end.

(** [net.ParseIP]: sixteen bytes; a zone ([%]) is an error. *)
Fixpoint first_of (s : list ascii) : option ascii :=
  match s with
  | [] => None
  | a :: s' => if Ascii.eqb a dot || Ascii.eqb a colon || Ascii.eqb a "%"%char then Some a else first_of s'
  end.

Definition v4_in_v6 (quad : list Z) : list Z := replicate 10 0 ++ [255; 255] ++ quad.

Definition ParseIP (s : string) : option (list Z) :=
  match first_of (bytes s) with
  | Some a =>
      if Ascii.eqb a dot then v4_in_v6 <$> parse_ipv4 (bytes s)
      else if Ascii.eqb a colon then
        if has_byte (bytes s) "%"%char then None else parse_ipv6 (bytes s)
      else None
  | None => None
  end.

(** [IP.IsLoopback] of sixteen bytes. *)
Definition IsLoopback (ip : list Z) : bool :=
  if decide (take 12 ip = replicate 10 0 ++ [255; 255]) then
    match drop 12 ip with a :: _ => a =? 127 | [] => false end
  else bool_decide (ip = replicate 15 0 ++ [1]).

(** ** Dotted quads *)

Definition print_quad (a b c d : Z) : string :=
  format_int a +:+ "." +:+ format_int b +:+ "." +:+ format_int c +:+ "." +:+ format_int d.

Definition octet (z : Z) : Prop := 0 <= z <= 255.

(** The digits of an octet, read from the start of a field. *)
Definition octet_reads (z : Z) : bool :=
  forallb (fun a => match digit_value a with Some _ => true | None => false end) (bytes (format_int z)) &&
  match quad_fields (bytes (format_int z)) 0 0 [] with Some [v] => v =? z | _ => false end.

Lemma octets_read z : octet z -> octet_reads z = true.
Proof.
  intros Hz. assert (forallb octet_reads (Z.of_nat <$> seq 0 256) = true) as H by (vm_compute; reflexivity).
  rewrite forallb_forall in H. apply H. apply list_elem_of_In, list_elem_of_fmap. exists (Z.to_nat z).
  split; [unfold octet in Hz; lia |]. apply elem_of_seq. unfold octet in Hz. lia.
Qed.

(** Reading digits and then [.] or the end. *)
Lemma quad_fields_app s v len fields w :
  forallb (fun a => match digit_value a with Some _ => true | None => false end) s = true ->
  quad_fields s v len [] = Some [w] ->
  quad_fields s v len fields = Some (fields ++ [w]) /\
  forall rest, (length fields < 3)%nat -> quad_fields (s ++ dot :: rest) v len fields = quad_fields rest 0 0 (fields ++ [w]).
Proof.
  revert v len. induction s as [| a s IH]; intros v len Hd Hq; cbn [quad_fields app] in *.
  - destruct (len =? 0)%nat; [discriminate |]. injection Hq as ->. split; [reflexivity |]. intros rest Hl.
    change (digit_value dot) with (@None Z). cbn. rewrite (proj2 (Nat.eqb_neq _ 3)) by lia. reflexivity.
  - cbn [forallb] in Hd. apply andb_true_iff in Hd as [Ha Hd].
    destruct (digit_value a) as [d |]; [| discriminate].
    destruct ((len =? 1)%nat && (v =? 0)); [discriminate |].
    destruct (255 <? v * 10 + d); [discriminate |]. now apply IH.
Qed.

Lemma octet_field z fields : octet z ->
  quad_fields (bytes (format_int z)) 0 0 fields = Some (fields ++ [z]) /\
  forall rest, (length fields < 3)%nat ->
  quad_fields (bytes (format_int z) ++ dot :: rest) 0 0 fields = quad_fields rest 0 0 (fields ++ [z]).
Proof.
  intros Hz. pose proof (octets_read z Hz) as Hr. unfold octet_reads in Hr. apply andb_true_iff in Hr as [Hd Hq].
  destruct (quad_fields (bytes (format_int z)) 0 0 []) as [[| w []] |] eqn:E; try discriminate.
  apply Z.eqb_eq in Hq as ->. exact (quad_fields_app _ _ _ fields z Hd E).
Qed.

Lemma print_quad_bytes a b c d : bytes (print_quad a b c d) =
  bytes (format_int a) ++ dot :: bytes (format_int b) ++ dot :: bytes (format_int c) ++ dot :: bytes (format_int d).
Proof. unfold print_quad. now rewrite !bytes_app. Qed.

Lemma parse_quad a b c d : octet a -> octet b -> octet c -> octet d ->
  parse_ipv4 (bytes (print_quad a b c d)) = Some [a; b; c; d].
Proof.
  intros Ha Hb Hc Hd. rewrite print_quad_bytes. unfold parse_ipv4.
  rewrite (proj2 (octet_field a [] Ha)) by (cbn; lia). rewrite (proj2 (octet_field b _ Hb)) by (cbn; lia).
  rewrite (proj2 (octet_field c _ Hc)) by (cbn; lia). now rewrite (proj1 (octet_field d _ Hd)).
Qed.

Lemma first_of_digits s rest : forallb (fun a => match digit_value a with Some _ => true | None => false end) s = true ->
  first_of (s ++ dot :: rest) = Some dot.
Proof.
  induction s as [| a s IH]; [reflexivity |]. cbn [forallb app first_of]. intros H. apply andb_true_iff in H as [Ha H].
  destruct (Ascii.eqb a dot || Ascii.eqb a colon || Ascii.eqb a "%"%char) eqn:E; [| now apply IH].
  apply orb_true_iff in E as [E | E]; [apply orb_true_iff in E as [E | E] |]; apply Ascii.eqb_eq in E as ->; discriminate.
Qed.

Lemma ParseIP_quad a b c d : octet a -> octet b -> octet c -> octet d ->
  ParseIP (print_quad a b c d) = Some (v4_in_v6 [a; b; c; d]).
Proof.
  intros Ha Hb Hc Hd. unfold ParseIP. rewrite print_quad_bytes, first_of_digits.
  - cbn [Ascii.eqb]. rewrite <- print_quad_bytes, parse_quad by assumption. reflexivity.
  - pose proof (octets_read a Ha) as Hr. unfold octet_reads in Hr. now apply andb_true_iff in Hr as [Hr _].
Qed.

Lemma IsLoopback_quad a b c d : IsLoopback (v4_in_v6 [a; b; c; d]) = (a =? 127).
Proof. reflexivity. Qed.

Example loopback_v6 : IsLoopback <$> ParseIP "::1" = Some true /\ IsLoopback <$> ParseIP "::ffff:127.0.0.1" = Some true /\
  IsLoopback <$> ParseIP "2001:db8::1" = Some false /\ ParseIP "1::2::3" = None /\ ParseIP "127.0.0.01" = None /\
  ParseIP "fe80::1%lo" = None /\ ParseIP "0:0:0:0:0:0:0:1" = Some (replicate 15 0 ++ [1]).
Proof. vm_compute. repeat split. Qed.
