(* ===== verification/OTel.v ===== *)
(** * Tracing providers

    [go/telemetry/otel.go]: the configuration of tracing, the check that
    unencrypted transport stays on the host, the set-up that replaces the
    global provider and propagator, and the shutdown that puts them back.

    A provider is known by its identity [P]; the exporter, the resource and
    the provider of the SDK are parameters ([TracingSDK]).  The values of
    [OTelProvider] live in a store, since [Shutdown] changes them and callers
    hold pointers to them; a process may set up several.

    The theorems: unencrypted transport is refused for any dotted quad that
    is not 127.x.x.x, before anything is created
    ([insecure_stays_local]); what a set-up changes on each of its outcomes
    ([init_run]); set-ups shut down in reverse order put the first globals
    back ([nested_shutdown_restores]), those that overlap do not
    ([overlapped_shutdown_leaves]), and each provider is shut down at most
    once ([otel_shutdown_once]). *)

From Stdlib Require Import Ascii.
From S2P Require Import Prelude Float64 GoStrings GoErrors GoNet.

#[local] Open Scope Z_scope.

Record OTelConfig : Type := mkOTelConfig {
  ServiceName : string;
  ServiceVersion : string;
  DeploymentEnvironment : string;
  Endpoint : string;
  Enabled : bool;
  Insecure : bool;
  SamplingRate : float64;
  BatchTimeout : Z
}.

Definition DefaultOTelConfig : OTelConfig :=
  mkOTelConfig "dense-service" "0.0.0" "" "localhost:4317" false false f64_one (5 * Second).

Definition isLoopbackOTLPEndpoint (endpoint : string) : bool :=
  let host :=
    match split_host_port (trim_space endpoint) with
    | Some (host, _) => host
    | None => trim_space endpoint
    end in
  let host := trim_brackets host in
  if folds_to host "localhost" then true
  else match ParseIP host with Some ip => IsLoopback ip | None => false end.

Definition resourceAttributes (cfg : OTelConfig) : list (string * string) :=
  let attrs := [("service.name", ServiceName cfg); ("service.version", ServiceVersion cfg)] in
  let env := trim_space (DeploymentEnvironment cfg) in
  if decide (env <> "") then attrs ++ [("deployment.environment", env)] else attrs.

Inductive Sampler : Type := AlwaysSample | NeverSample | TraceIDRatioBased (rate : float64).

Definition sampler_of (cfg : OTelConfig) : Sampler :=
  if f64_leb f64_one (SamplingRate cfg) then AlwaysSample
  else if f64_leb (SamplingRate cfg) f64_zero then NeverSample
  else TraceIDRatioBased (SamplingRate cfg).

(** The propagators the source installs, and any other. *)
#[warnings="-register-all"]
Inductive propagator : Type :=
| TraceContext
| Baggage
| Composite (ps : list propagator)
| OtherPropagator (n : nat).

(** The SDK, with its state [X].  [New_exporter] takes the endpoint and
    whether the transport is unencrypted, and [provider_Shutdown] the
    timeouts its context was given.  Its calls do not panic. *)
Class TracingSDK (X P : Type) := {
  exporter : Type;
  resource : Type;
  New_exporter : string -> bool -> M X (exporter + error);
  resource_Merge : list (string * string) -> M X (resource + error);
  NewTracerProvider : exporter -> Z -> resource -> Sampler -> M X P;
  provider_Shutdown : list Z -> P -> M X (option error)
}.

Class TracingSDKLaws (X P : Type) `{TracingSDK X P} := {
  exporter_returns : forall endpoint insecure (c : Clocked X), exists r c', New_exporter endpoint insecure c = (Ret r, c');
  merge_returns : forall attrs (c : Clocked X), exists r c', resource_Merge attrs c = (Ret r, c');
  provider_returns : forall e t r s (c : Clocked X), exists p c', NewTracerProvider e t r s c = (Ret p, c');
  shutdown_returns : forall ctx p (c : Clocked X), exists e c', provider_Shutdown ctx p c = (Ret e, c')
}.

(** [provider] is not nil in any value [InitOTelTracer] makes; [shutdownOnce]
    is whether the function given to the [sync.Once] has run. *)
Record OTelProvider (P : Type) : Type := mkOTelProvider {
  provider : option P;
  config : OTelConfig;
  previousProvider : P;
  previousPropagator : propagator;
  shutdownOnce : bool;
  shutdownErr : option error
}.
Arguments mkOTelProvider {P}. Arguments provider {P}. Arguments config {P}. Arguments previousProvider {P}.
Arguments previousPropagator {P}. Arguments shutdownOnce {P}. Arguments shutdownErr {P}.

(** The global provider and propagator, the [OTelProvider]s made, and the
    SDK. *)
Record otel_state (X P : Type) : Type := mkOTelState {
  global_provider : P;
  global_propagator : propagator;
  handles : list (OTelProvider P);
  sdk : X
}.
Arguments mkOTelState {X P}. Arguments global_provider {X P}. Arguments global_propagator {X P}.
Arguments handles {X P}. Arguments sdk {X P}.

Section OTel.
Context {X P : Type} `{EqDecision P} `{TracingSDK X P}.
Abbreviation State := (otel_state X P).

Definition on_sdk {A} : M X A -> M State A :=
  zoom sdk (fun x s => mkOTelState (global_provider s) (global_propagator s) (handles s) x).

Definition set_globals (p : P) (q : propagator) (s : State) : State := mkOTelState p q (handles s) (sdk s).
Definition set_handle (i : nat) (h : OTelProvider P) (s : State) : State :=
  mkOTelState (global_provider s) (global_propagator s) (<[i := h]> (handles s)) (sdk s).

Definition installed_propagator : propagator := Composite [TraceContext; Baggage].

(** [middleware.InitOTelPropagator], in [go/middleware/tracing.go]. *)
Definition InitOTelPropagator : M State unit := modify (fun s => set_globals (global_provider s) TraceContext s).

(** A pointer to an [OTelProvider], [None] for nil, and an error. *)
Definition InitOTelTracer (cfg : OTelConfig) : M State (option nat * option error) :=
  if negb (Enabled cfg) then mret (None, None)
  else if Insecure cfg && negb (isLoopbackOTLPEndpoint (Endpoint cfg)) then
    mret (None, Some (EText "insecure OTLP transport is only allowed for loopback endpoints"))
  else
    x ← on_sdk (New_exporter (Endpoint cfg) (Insecure cfg));
    match x with
    | inr err => mret (None, Some (EWrap ("failed to create OTLP exporter: " +:+ error_text err) err))
    | inl exporter =>
        r ← on_sdk (resource_Merge (resourceAttributes cfg));
        match r with
        | inr err => mret (None, Some (EWrap ("failed to create resource: " +:+ error_text err) err))
        | inl res =>
            tp ← on_sdk (NewTracerProvider exporter (BatchTimeout cfg) res (sampler_of cfg));
            s ← get;
            let previousProvider := global_provider s in
            let previousPropagator := global_propagator s in
            modify (set_globals tp installed_propagator);;
            modify (fun s => mkOTelState (global_provider s) (global_propagator s)
              (handles s ++ [mkOTelProvider (Some tp) cfg previousProvider previousPropagator false None]) (sdk s));;
            mret (Some (length (handles s)), None)
        end
    end.

(** The function given to the [sync.Once], which counts as run from here on,
    even if it panics. *)
Definition shut (h : OTelProvider P) (err : option error) : OTelProvider P :=
  mkOTelProvider (provider h) (config h) (previousProvider h) (previousPropagator h) true err.

Definition shutdown_body (ctx : list Z) (i : nat) (h : OTelProvider P) (p : P) : M State unit :=
  modify (set_handle i (shut h (shutdownErr h)));;
  err ← on_sdk (provider_Shutdown ctx p);
  modify (set_handle i (shut h err));;
  s ← get;
  if decide (global_provider s = p) then modify (set_globals (previousProvider h) (previousPropagator h)) else mret tt.

(** [p] is [None] for a nil pointer. *)
Definition Shutdown (p : option nat) (ctx : list Z) : M State (option error) :=
  match p with
  | None => mret None
  | Some i =>
      s ← get;
      match handles s !! i with
      | None => mret None
      | Some h =>
          match provider h with
          | None => mret None
          | Some tp =>
              (if shutdownOnce h then mret tt else shutdown_body ctx i h tp);;
              s ← get;
              mret (handles s !! i ≫= shutdownErr)
          end
      end
  end.

Definition ShutdownWithTimeout (p : option nat) (timeout : Z) : M State (option error) := Shutdown p [timeout].

(** ** Outcomes *)

Context `{!TracingSDKLaws X P}.

Lemma on_sdk_run {A} (m : M X A) (c : Clocked State) r c' : m (with_st c (sdk (st c))) = (Ret r, c') ->
  on_sdk m c = (Ret r, with_st c' (mkOTelState (global_provider (st c)) (global_propagator (st c)) (handles (st c)) (st c'))).
Proof. intros E. unfold on_sdk, zoom. now rewrite E. Qed.

(** What a set-up leaves as it was. *)
Definition same_globals (s s' : State) : Prop :=
  global_provider s' = global_provider s /\ global_propagator s' = global_propagator s.

(** A set-up without a provider changes nothing but the SDK; one with a
    provider appends it, with the globals it replaced. *)
Lemma init_run cfg (c : Clocked State) : exists r c', InitOTelTracer cfg c = (Ret r, c') /\
  match r.1 with
  | None => same_globals (st c) (st c') /\ handles (st c') = handles (st c)
  | Some i => r.2 = None /\ i = length (handles (st c)) /\ exists p,
      global_provider (st c') = p /\ global_propagator (st c') = installed_propagator /\
      handles (st c') = handles (st c) ++
        [mkOTelProvider (Some p) cfg (global_provider (st c)) (global_propagator (st c)) false None]
  end.
Proof.
  unfold InitOTelTracer. destruct (negb (Enabled cfg)); [do 2 eexists; split; [reflexivity |]; now repeat split |].
  destruct (Insecure cfg && negb (isLoopbackOTLPEndpoint (Endpoint cfg)));
    [do 2 eexists; split; [reflexivity |]; now repeat split |].
  destruct (exporter_returns (Endpoint cfg) (Insecure cfg) (with_st c (sdk (st c)))) as (x & c1 & E1).
  rewrite bind_run, (on_sdk_run _ _ _ _ E1). destruct x as [e | err];
    [| do 2 eexists; split; [reflexivity |]; now repeat split].
  set (s1 := mkOTelState _ _ _ _). destruct (merge_returns (resourceAttributes cfg)
    (with_st (with_st c1 s1) (sdk (st (with_st c1 s1))))) as (x & c2 & E2).
  rewrite bind_run, (on_sdk_run _ _ _ _ E2). destruct x as [res | err];
    [| do 2 eexists; split; [reflexivity |]; now repeat split].
  set (s2 := mkOTelState _ _ _ _). destruct (provider_returns e (BatchTimeout cfg) res (sampler_of cfg)
    (with_st (with_st c2 s2) (sdk (st (with_st c2 s2))))) as (p & c3 & E3).
  rewrite bind_run, (on_sdk_run _ _ _ _ E3). do 2 eexists. split; [reflexivity |].
  cbn. split; [reflexivity |]. split; [reflexivity |]. exists p. auto.
Qed.

(** The first shutdown of a provider: its error is kept, and the globals it
    replaced are back if its own are still in place. *)
Lemma shutdown_run i h p ctx (c : Clocked State) : handles (st c) !! i = Some h -> provider h = Some p ->
  shutdownOnce h = false ->
  exists err c', Shutdown (Some i) ctx c = (Ret err, c') /\ handles (st c') = <[i := shut h err]> (handles (st c)) /\
  (if decide (global_provider (st c) = p)
   then global_provider (st c') = previousProvider h /\ global_propagator (st c') = previousPropagator h
   else same_globals (st c) (st c')).
Proof.
  intros Eh Ep Eo. unfold Shutdown. rewrite bind_run. unfold get at 1. rewrite Eh, Ep, Eo, bind_run.
  unfold shutdown_body. rewrite bind_run. unfold modify at 1. set (s0 := set_handle i _ (st c)).
  destruct (shutdown_returns ctx p (with_st (with_st c s0) (sdk (st (with_st c s0))))) as (err & c1 & E1).
  rewrite bind_run, (on_sdk_run _ _ _ _ E1), bind_run. unfold modify at 1. rewrite bind_run. unfold get at 1.
  cbn [st with_st set_handle global_provider].
  set (c2 := with_st _ (set_handle i (shut h err) _)).
  assert (handles (st c2) = <[i := shut h err]> (handles (st c))) as Hh.
  { cbn. apply list_insert_insert_eq. }
  assert (i < length (handles (st c)))%nat as Hi by (now apply lookup_lt_Some in Eh).
  cbn [s0 set_handle global_provider]. destruct (decide (global_provider (st c) = p)) as [Hp | Hp].
  - exists err, (with_st c2 (set_globals (previousProvider h) (previousPropagator h) (st c2))).
    unfold modify, get. rewrite bind_run. cbn [mret M_ret]. change (handles (st (with_st c2 _))) with (handles (st c2)).
    rewrite Hh, list_lookup_insert_eq by exact Hi. split; [reflexivity |]. split; [reflexivity || exact Hh | now split].
  - exists err, c2. unfold get. cbn [mret M_ret]. rewrite bind_run. cbn [mret M_ret].
    rewrite Hh, list_lookup_insert_eq by exact Hi. split; [reflexivity |]. split; [reflexivity || exact Hh | now split].
Qed.

(** ** Nested set-ups *)

(** Set-ups one inside the other around [body], shut down in reverse. *)
Fixpoint nest (cfgs : list OTelConfig) (body : M State unit) : M State unit :=
  match cfgs with
  | [] => body
  | cfg :: cfgs' =>
      x ← InitOTelTracer cfg;
      nest cfgs' body;;
      Shutdown x.1 [];;
      mret tt
  end.

(** What the globals' users may do: they leave the globals and the providers
    there are as they find them. *)
Definition keeps (m : M State unit) : Prop := forall c, exists c', m c = (Ret tt, c') /\
  same_globals (st c) (st c') /\ handles (st c) `prefix_of` handles (st c').

Lemma nest_keeps cfgs body : keeps body -> keeps (nest cfgs body).
Proof.
  intros Hb. induction cfgs as [| cfg cfgs IH]; [exact Hb |]. intros c. cbn [nest].
  destruct (init_run cfg c) as ([[i |] e] & c1 & E1 & H1); rewrite bind_run, E1, bind_run;
    destruct (IH c1) as (c2 & E2 & [Hp Hq] & Hpre); rewrite E2, bind_run; cbn [fst snd] in *.
  - destruct H1 as (_ & -> & p & Hp1 & _ & Hh1). rewrite Hh1 in Hpre.
    assert (handles (st c2) !! length (handles (st c)) =
      Some (mkOTelProvider (Some p) cfg (global_provider (st c)) (global_propagator (st c)) false None)) as Ei.
    { destruct Hpre as [k ->]. rewrite <- app_assoc, lookup_app_r by lia. now rewrite Nat.sub_diag. }
    destruct (shutdown_run _ _ p [] c2 Ei eq_refl eq_refl) as (err & c3 & -> & Hh & Hg). exists c3. split; [reflexivity |].
    rewrite decide_True in Hg by congruence. split; [exact Hg |]. rewrite Hh.
    destruct Hpre as [k ->]. rewrite <- app_assoc, insert_app_r_alt, Nat.sub_diag by lia. now eexists.
  - destruct H1 as [[Hp1 Hq1] Hh1]. exists c2. split; [reflexivity |]. split; [split; congruence |]. now rewrite <- Hh1.
Qed.

(** C32. Set-ups nested in one another and shut down in reverse order, some
    of which may fail or be disabled, leave the global provider and
    propagator as they were, whatever ran inside. *)
Theorem nested_shutdown_restores cfgs body (c : Clocked State) : keeps body -> exists c', nest cfgs body c = (Ret tt, c') /\
  global_provider (st c') = global_provider (st c) /\ global_propagator (st c') = global_propagator (st c).
Proof. intros Hb. destruct (nest_keeps cfgs body Hb c) as (c' & E & Hg & _). exists c'. split; [exact E | exact Hg]. Qed.

(** A provider is shut down once: whatever the first call returned,
    every later one returns the same and changes nothing. *)
Theorem otel_shutdown_once i h p ctx (c : Clocked State) : handles (st c) !! i = Some h -> provider h = Some p ->
  exists err c', Shutdown (Some i) ctx c = (Ret err, c') /\
  forall ctx' d, st d = st c' -> Shutdown (Some i) ctx' d = (Ret err, d).
Proof.
  intros Eh Ep. destruct (shutdownOnce h) eqn:Eo.
  - exists (shutdownErr h), c. assert (forall ctx' d, st d = st c -> Shutdown (Some i) ctx' d = (Ret (shutdownErr h), d)) as Hd.
    { intros ctx' d Ed. unfold Shutdown. rewrite bind_run. unfold get. rewrite Ed, Eh, Ep, Eo, bind_run. cbn [mret M_ret].
      rewrite bind_run, Ed, Eh. reflexivity. }
    split; [now apply Hd | exact Hd].
  - destruct (shutdown_run i h p ctx c Eh Ep Eo) as (err & c' & E & Hh & _). exists err, c'. split; [exact E |].
    intros ctx' d Ed. unfold Shutdown. rewrite bind_run. unfold get. rewrite Ed, Hh, list_lookup_insert_eq by
      (now apply lookup_lt_Some in Eh). cbn [shut provider shutdownOnce]. rewrite Ep, bind_run. cbn [mret M_ret].
    rewrite bind_run, Ed, Hh, list_lookup_insert_eq by (now apply lookup_lt_Some in Eh). reflexivity.
Qed.

(** Two set-ups shut down in the order they were made. *)
Definition overlapped (cfg cfg' : OTelConfig) : M State unit :=
  x ← InitOTelTracer cfg;
  y ← InitOTelTracer cfg';
  Shutdown x.1 [];;
  Shutdown y.1 [];;
  mret tt.

(** Set-ups that overlap do not put the globals back: when the first
    made is shut down first, the second puts the provider of the first back
    in place, which is shut down. *)
Theorem overlapped_shutdown_leaves cfg cfg' (c c1 c2 : Clocked State) i j h h' p p' :
  InitOTelTracer cfg c = (Ret (Some i, None), c1) -> InitOTelTracer cfg' c1 = (Ret (Some j, None), c2) ->
  handles (st c2) !! i = Some h -> provider h = Some p -> handles (st c2) !! j = Some h' -> provider h' = Some p' ->
  p <> p' ->
  exists c', overlapped cfg cfg' c = (Ret tt, c') /\ global_provider (st c') = p /\
    exists err, handles (st c') !! i = Some (shut h err).
Proof.
  intros E1 E2 Eh Ep Eh' Ep' Hne. unfold overlapped. rewrite bind_run, E1, bind_run, E2, bind_run. cbn [fst].
  destruct (init_run cfg c) as (r & c0 & E0 & H1). rewrite E1 in E0. injection E0 as <- <-.
  destruct H1 as (_ & -> & q & Hq & _ & Hh1).
  destruct (init_run cfg' c1) as (r' & c0' & E0 & H2). rewrite E2 in E0. injection E0 as <- <-.
  destruct H2 as (_ & -> & q' & Hq' & _ & Hh2).
  rewrite Hh2, Hh1 in Eh. rewrite <- app_assoc, lookup_app_r, Nat.sub_diag in Eh by lia. injection Eh as <-.
  cbn in Ep. injection Ep as ->.
  rewrite Hh2, lookup_app_r, Nat.sub_diag in Eh' by lia. injection Eh' as <-. cbn in Ep'. injection Ep' as ->.
  set (i := length (handles (st c))) in *. set (j := length (handles (st c1))) in *.
  assert (j = S i) as Hj by (unfold j; rewrite Hh1, length_app; cbn; unfold i; lia).
  assert (handles (st c2) !! i = Some (mkOTelProvider (Some p) cfg (global_provider (st c)) (global_propagator (st c)) false None))
    as Ei by (rewrite Hh2, Hh1, <- app_assoc, lookup_app_r, Nat.sub_diag by lia; reflexivity).
  destruct (shutdown_run i _ p [] c2 Ei eq_refl eq_refl) as (err & c3 & E3 & Hh3 & Hg3).
  rewrite decide_False in Hg3 by congruence. destruct Hg3 as [Hg3 _]. rewrite E3, bind_run.
  assert (handles (st c3) !! j = Some (mkOTelProvider (Some p') cfg' (global_provider (st c1)) (global_propagator (st c1)) false None))
    as Ej by (rewrite Hh3, list_lookup_insert_ne, Hh2, lookup_app_r, Nat.sub_diag by lia; reflexivity).
  destruct (shutdown_run j _ p' [] c3 Ej eq_refl eq_refl) as (err' & c4 & E4 & Hh4 & Hg4).
  rewrite decide_True in Hg4 by congruence. destruct Hg4 as [Hg4 _]. rewrite E4. exists c4. split; [reflexivity |].
  split; [rewrite Hg4; cbn; congruence |]. exists err. rewrite Hh4, list_lookup_insert_ne, Hh3 by lia.
  apply list_lookup_insert_eq. apply lookup_lt_Some in Ei. exact Ei.
Qed.
End OTel.

(** ** Loopback endpoints *)

(** What is read off the digits of an octet, by their enumeration. *)
Definition octet_shape (z : Z) : bool :=
  graphic (bytes (format_int z)) && plain (bytes (format_int z)) &&
  match bytes (format_int z) with a :: _ => match digit_value a with Some _ => true | None => false end | [] => false end.

Lemma octets_shape z : octet z -> octet_shape z = true.
Proof.
  intros Hz. assert (forallb octet_shape (Z.of_nat <$> seq 0 256) = true) as H by (vm_compute; reflexivity).
  rewrite forallb_forall in H. apply H. apply list_elem_of_In, list_elem_of_fmap. exists (Z.to_nat z).
  split; [unfold octet in Hz; lia |]. apply elem_of_seq. unfold octet in Hz. lia.
Qed.

Lemma plain_app s t : plain (s ++ t) = plain s && plain t.
Proof.
  unfold plain. rewrite !has_byte_app. destruct (has_byte s colon), (has_byte s lbracket), (has_byte s rbracket),
    (has_byte t colon), (has_byte t lbracket), (has_byte t rbracket); reflexivity.
Qed.

Lemma has_byte_rev s c : has_byte (rev s) c = has_byte s c.
Proof.
  induction s as [| a s IH]; [reflexivity |]. cbn [rev]. rewrite has_byte_app, IH, !has_byte_cons, orb_comm.
  now rewrite orb_false_r.
Qed.

Lemma plain_rev s : plain (rev s) = plain s.
Proof. unfold plain. now rewrite !has_byte_rev. Qed.

Lemma trim_brackets_plain s : plain (bytes s) = true -> trim_brackets s = s.
Proof.
  assert (forall l, plain l = true -> trim_left [bytes "["; bytes "]"] l = l) as Ht.
  { intros l (_ & Hl & Hr)%plain_spec. unfold trim_left. destruct l as [| a l]; [reflexivity |].
    rewrite !has_byte_cons in *. apply orb_false_iff in Hl as [Hl _], Hr as [Hr _]. cbn [length trim_left_fuel strip_any
      strip_prefix]. rewrite (Ascii.eqb_sym a) in Hl, Hr. cbn -[Ascii.eqb]. unfold lbracket, rbracket in *. now rewrite Hl, Hr. }
  intros Hs. unfold trim_brackets. rewrite (Ht (bytes s) Hs), (Ht (rev (bytes s))) by (now rewrite plain_rev).
  now rewrite rev_involutive, str_bytes.
Qed.

Lemma quad_shape a b c d : octet a -> octet b -> octet c -> octet d ->
  graphic (bytes (print_quad a b c d)) = true /\ plain (bytes (print_quad a b c d)) = true /\
  exists x s, bytes (print_quad a b c d) = x :: s /\ is_Some (digit_value x).
Proof.
  intros Ha Hb Hc Hd. apply octets_shape in Ha, Hb, Hc, Hd. unfold octet_shape in *.
  repeat match goal with H : _ && _ = true |- _ => apply andb_true_iff in H as [H ?] end.
  unfold print_quad. rewrite !bytes_app, !graphic_app, !plain_app.
  repeat match goal with H : graphic _ = true |- _ => rewrite H; clear H | H : plain _ = true |- _ => rewrite H; clear H end.
  split; [reflexivity |]. split; [reflexivity |].
  destruct (bytes (format_int a)) as [| x s]; [discriminate |]. exists x. eexists. split; [reflexivity |].
  destruct (digit_value x); [eauto | discriminate].
Qed.

(** A name that begins with a digit is not a word of letters. *)
Lemma folds_digit s x l word : bytes s = x :: l -> is_Some (digit_value x) ->
  match word with String a _ => digit_value a = None | "" => False end -> folds_to s word = false.
Proof.
  intros Es [d Hd] Hw. assert (s = str (x :: l)) as -> by (now rewrite <- Es, str_bytes).
  unfold folds_to, lower_with. rewrite bytes_str. cbn [Stdlib.Strings.String.string_of_list_ascii Stdlib.Strings.String.length lower_fuel].
  assert (x <> byte 197 /\ x <> byte 226) as [H1 H2] by (split; intros ->; discriminate).
  assert (strip_special fold_special (x :: l) = None) as ->.
  { unfold fold_special. cbn [strip_special strip_prefix].
    rewrite (proj2 (Ascii.eqb_neq (byte 197) x)), (proj2 (Ascii.eqb_neq (byte 226) x)) by congruence. reflexivity. }
  destruct word as [| a word]; [contradiction |]. apply Stdlib.Strings.String.eqb_neq. cbn [Stdlib.Strings.String.string_of_list_ascii]. intros [= E _].
  assert (digit_value (lower_byte x) = Some d) as Hx; [| congruence].
  unfold lower_byte. unfold digit_value in Hd. destruct ((48 <=? nat_of_ascii x)%nat && (nat_of_ascii x <=? 57)%nat) eqn:Er;
    [| discriminate]. apply andb_true_iff in Er as [Hlo Hhi]. apply Nat.leb_le in Hlo, Hhi.
  rewrite (proj2 (Nat.leb_gt 65 _)) by lia. cbn [andb]. unfold digit_value.
  now rewrite (proj2 (Nat.leb_le 48 _)), (proj2 (Nat.leb_le _ 57)) by lia.
Qed.

Lemma quad_endpoint a b c d port : octet a -> octet b -> octet c -> octet d ->
  graphic (bytes port) = true -> plain (bytes port) = true ->
  isLoopbackOTLPEndpoint (print_quad a b c d +:+ ":" +:+ port) = (a =? 127).
Proof.
  intros Ha Hb Hc Hd Hg Hp. destruct (quad_shape a b c d Ha Hb Hc Hd) as (Hgq & Hpq & x & l & Ex & Hx).
  unfold isLoopbackOTLPEndpoint.
  rewrite trim_space_graphic by (rewrite !bytes_app, !graphic_app, Hgq, Hg; reflexivity).
  rewrite split_host_port_plain; [| intros E; rewrite E in Ex; discriminate | assumption | assumption].
  cbv zeta. rewrite trim_brackets_plain by exact Hpq. rewrite (folds_digit _ x l "localhost" Ex Hx eq_refl).
  rewrite ParseIP_quad by assumption. apply IsLoopback_quad.
Qed.

(** For an endpoint that is a dotted quad and a port, unencrypted
    transport is refused exactly when the address is outside 127.0.0.0/8,
    and then nothing has been created or changed. *)
Theorem insecure_stays_local {X P} `{EqDecision P} `{TracingSDK X P} cfg a b c d port (s : Clocked (otel_state X P)) :
  octet a -> octet b -> octet c -> octet d -> graphic (bytes port) = true -> plain (bytes port) = true ->
  Endpoint cfg = print_quad a b c d +:+ ":" +:+ port -> Enabled cfg = true -> Insecure cfg = true ->
  isLoopbackOTLPEndpoint (Endpoint cfg) = (a =? 127) /\
  (a <> 127 -> exists err, InitOTelTracer cfg s = (Ret (None, Some err), s)).
Proof.
  intros Ha Hb Hc Hd Hg Hp He Hen Hin. rewrite He. pose proof (quad_endpoint a b c d port Ha Hb Hc Hd Hg Hp) as Hl.
  split; [exact Hl |]. intros Hne. unfold InitOTelTracer. rewrite Hen, Hin, He, Hl, (proj2 (Z.eqb_neq a 127) Hne).
  cbn [negb andb]. eexists. reflexivity.
Qed.

(** ** A concrete SDK

    Providers are numbered, the collector at [down:4317] cannot be reached,
    and shutdowns are counted. *)

#[local] Instance demo_sdk : TracingSDK (nat * nat) nat := {
  exporter := unit;
  resource := unit;
  New_exporter := fun endpoint _ =>
    mret (if Stdlib.Strings.String.eqb endpoint "down:4317" then inr EDeadlineExceeded else inl tt);
  resource_Merge := fun _ => mret (inl tt);
  NewTracerProvider := fun _ _ _ _ => state (fun x => (S x.1, (S x.1, x.2)));
  provider_Shutdown := fun _ _ => modify (fun x => (x.1, S x.2));; mret None
}.
#[local] Instance demo_sdk_laws : TracingSDKLaws (nat * nat) nat.
Proof. split; intros; do 2 eexists; reflexivity. Qed.

Definition demo_otel : Clocked (otel_state (nat * nat) nat) :=
  mkClocked (fun _ => 0) (fun _ => 0) 0 (mkOTelState 0%nat (OtherPropagator 0) [] (0%nat, 0%nat)).
Definition demo_otel_config (endpoint : string) : OTelConfig :=
  mkOTelConfig "svc" "1.0.0" "" endpoint true true f64_one (5 * Second).

Lemma nested_shutdown_restores_witness : exists c',
  nest [demo_otel_config "127.0.0.1:4317"; demo_otel_config "localhost"; demo_otel_config "192.0.2.1:4317"] (mret tt)
    demo_otel = (Ret tt, c') /\
  global_provider (st c') = 0%nat /\ global_propagator (st c') = OtherPropagator 0.
Proof.
  apply (nested_shutdown_restores
    [demo_otel_config "127.0.0.1:4317"; demo_otel_config "localhost"; demo_otel_config "192.0.2.1:4317"] (mret tt) demo_otel).
  intros c. exists c. repeat split. reflexivity.
Defined.

Definition demo_handle : OTelProvider nat := mkOTelProvider (Some 1%nat) DefaultOTelConfig 0%nat (OtherPropagator 0) false None.

Lemma otel_shutdown_once_witness : exists err c',
  Shutdown (Some 0%nat) [] (with_st demo_otel (mkOTelState 1%nat installed_propagator [demo_handle] (1%nat, 0%nat))) = (Ret err, c') /\
  Shutdown (Some 0%nat) [] c' = (Ret err, c').
Proof.
  destruct (otel_shutdown_once 0%nat demo_handle 1%nat []
    (with_st demo_otel (mkOTelState 1%nat installed_propagator [demo_handle] (1%nat, 0%nat))) eq_refl eq_refl) as (err & c' & E & H).
  exists err, c'. split; [exact E |]. now apply H.
Defined.

Lemma overlapped_shutdown_leaves_witness : exists c',
  overlapped (demo_otel_config "localhost:4317") (demo_otel_config "[::1]:4317") demo_otel = (Ret tt, c') /\
  global_provider (st c') = 1%nat.
Proof.
  destruct (overlapped_shutdown_leaves (demo_otel_config "localhost:4317") (demo_otel_config "[::1]:4317") demo_otel
    (InitOTelTracer (demo_otel_config "localhost:4317") demo_otel).2
    (InitOTelTracer (demo_otel_config "[::1]:4317") (InitOTelTracer (demo_otel_config "localhost:4317") demo_otel).2).2
    0%nat 1%nat (mkOTelProvider (Some 1%nat) (demo_otel_config "localhost:4317") 0%nat (OtherPropagator 0) false None)
    (mkOTelProvider (Some 2%nat) (demo_otel_config "[::1]:4317") 1%nat installed_propagator false None) 1%nat 2%nat) as (c' & E & Hg & _);
    [vm_compute; reflexivity | vm_compute; reflexivity | reflexivity | reflexivity | reflexivity | reflexivity | discriminate |].
  exists c'. split; [exact E | exact Hg].
Defined.

Lemma insecure_stays_local_witness : exists err,
  InitOTelTracer (demo_otel_config "192.0.2.1:4317") demo_otel = (Ret (None, Some err), demo_otel).
Proof.
  destruct (insecure_stays_local (demo_otel_config "192.0.2.1:4317") 192 0 2 1 "4317" demo_otel) as [_ H];
    try reflexivity; try (unfold octet; lia). apply H. discriminate.
Defined.
