(* ===== verification/Logger.v ===== *)
(** * The default logger

    [go/telemetry/logger.go]: the level read from the configuration and the
    logger that becomes the default of [log/slog].

    The theorem ([logger_init]): the logger returned is the one installed; it
    carries the service's name and version exactly when a name is given, and
    passes the records at or above the configured level, which is info for
    any word it does not know. *)

From S2P Require Import Prelude GoStrings GoNet.

#[local] Open Scope Z_scope.

(** [slog.Level]. *)
Definition LevelDebug : Z := -4.
Definition LevelInfo : Z := 0.
Definition LevelWarn : Z := 4.
Definition LevelError : Z := 8.

(** Where records go: the process's standard output, or the writer of the
    configuration. *)
Inductive output : Type := Stdout | Writer (n : nat).

Record Config : Type := mkConfig {
  ServiceName : string;
  Version : string;
  Level : string;
  Output : option output
}.

(** A [slog.Logger] with a JSON handler: its output, the least level it
    passes, and the attributes of every record. *)
Record Logger : Type := mkLogger { out : output; min_level : Z; attrs : list (string * string) }.

Definition parseLevel (level : string) : Z :=
  let level := trim_space level in
  if lowers_to level "debug" then LevelDebug
  else if lowers_to level "warn" || lowers_to level "warning" then LevelWarn
  else if lowers_to level "error" then LevelError
  else LevelInfo.

(** The state is the default logger. *)
Definition Init (cfg : Config) : M Logger Logger :=
  let out := default Stdout (Output cfg) in
  let level := parseLevel (Level cfg) in
  let logger := mkLogger out level [] in
  let logger :=
    if decide (ServiceName cfg <> "")
    then mkLogger out level [("service", ServiceName cfg); ("version", Version cfg)] else logger in
  put logger;;
  mret logger.

(** [Logger.Enabled]. *)
Definition enabled (l : Logger) (level : Z) : bool := min_level l <=? level.

Lemma parseLevel_range level : parseLevel level ∈ [LevelDebug; LevelInfo; LevelWarn; LevelError].
Proof.
  unfold parseLevel. cbv zeta. destruct (lowers_to _ "debug"); [set_solver |].
  destruct (lowers_to _ "warn" || lowers_to _ "warning"); [set_solver |]. destruct (lowers_to _ "error"); set_solver.
Qed.

(** Setting up the logger installs the logger it returns, which passes
    errors whatever the configuration, passes information exactly when the
    level is debug, info or unknown, and has the service's attributes exactly
    when the service has a name. *)
Theorem logger_init cfg (c : Clocked Logger) : exists l, Init cfg c = (Ret l, with_st c l) /\
  enabled l LevelError = true /\
  enabled l LevelInfo = negb (existsb (lowers_to (trim_space (Level cfg))) ["warn"; "warning"; "error"]
    && negb (lowers_to (trim_space (Level cfg)) "debug")) /\
  (ServiceName cfg = "" <-> attrs l = []) /\ out l = default Stdout (Output cfg).
Proof.
  set (l := if decide (ServiceName cfg <> "")
    then mkLogger (default Stdout (Output cfg)) (parseLevel (Level cfg)) [("service", ServiceName cfg); ("version", Version cfg)]
    else mkLogger (default Stdout (Output cfg)) (parseLevel (Level cfg)) []).
  exists l. split; [reflexivity |].
  assert (min_level l = parseLevel (Level cfg)) as Hm by (unfold l; now case_decide).
  unfold enabled. rewrite Hm. split; [| split; [| split]].
  - pose proof (parseLevel_range (Level cfg)) as H. apply Z.leb_le. unfold LevelError in *.
    repeat (apply elem_of_cons in H as [-> | H]; [vm_compute; discriminate |]). now apply not_elem_of_nil in H.
  - unfold parseLevel. cbv zeta. cbn [existsb]. destruct (lowers_to _ "debug"); [now rewrite andb_false_r |].
    destruct (lowers_to _ "warn"), (lowers_to _ "warning"), (lowers_to _ "error"); reflexivity.
  - unfold l. case_decide as Hn; cbn; split; congruence || (intros _; destruct (decide (ServiceName cfg = "")); tauto).
  - unfold l. now case_decide.
Qed.

Example levels_read : parseLevel " WARNING
" = LevelWarn /\ parseLevel "Debug" = LevelDebug /\ parseLevel "verbose" = LevelInfo /\ parseLevel "" = LevelInfo.
Proof. vm_compute. repeat split. Qed.
