(* ===== verification/Examples.v ===== *)
(** * The example programs

    The programs of [go/examples]: their configurations, handlers and routes,
    and their [main] up to the calls of net/http, log/slog and the process,
    which are parameters.

    The theorems: the program of [go/examples/http_runtime] answers its
    route, through the preset, the metrics, the muxes and the stripped
    prefix, with everything the library promises for it
    ([example_status_answered]); a scrape of the program of
    [go/examples/grpc_runtime] has the gRPC metrics after its own
    ([grpc_metrics_scraped]).  The gRPC runtime of that program is the one of
    GRPCServing.v; Go's conversions of it and of its metrics to interfaces are
    parameters. *)

From S2P Require Import Prelude Float64 GoStrings GoErrors Spans GoHTTP Writers HTTPMiddleware Health JSONText Metrics MetricsHTTP Patterns Mux HTTPRuntime Serving Tracing HTTPPreset SystemRoutes Chassis.
From S2P Require Runner Logger Gobreaker RateLimit GRPCMiddleware GRPCRuntime GRPCServing CircuitBreaker.
From Stdlib Require Import Ascii.

#[local] Open Scope Z_scope.

(** [{"status":"ok"}]. *)
Definition ok_body : string := "{" +:+ quoted "status" +:+ ":" +:+ quoted "ok" +:+ "}".

Section Programs.
Context {W L C : Type}.
Abbreviation Rt := (@HTTPRuntime W L).
Abbreviation State := (Rt * W)%type.
Abbreviation E := (menv L).
Context (rand_Read : M (world E) (option (list ascii))) (Tracing : string -> Middleware E)
  (NewHTTPMetrics : @HTTPRuntime.HTTPMetricsConfig C -> @HTTPRuntime.HTTPMetrics L) (summary : Handler E)
  (phase_handler : string -> Handler E).

(** [http.Server] at an address, what ends the run, and the error log. *)
Context (http_Server : string -> Handler E -> Runner.HTTPServer State) (wait : M State Runner.run_event)
  (slog_Error : string -> error -> M State unit).

(** The configuration of a named service; the other fields are zero. *)
Definition service_config (name : string) (timeout : Z) (collectors : list (option C)) : @HTTPRuntimeConfig W L C :=
  mkRuntimeConfig name None None "" (Some (mkPreset name timeout)) [] [] [] None 0 None collectors "" None
    false false false [] [].

(** [runtime.APIMux().HandleFunc]. *)
Definition api_HandleFunc (pattern : string) (h : Handler E) (rt : Rt) : outcome Rt :=
  bindo (mux_Handle pattern h (APIMux_of rt)) (fun api => Ret (set_muxes (rootMux rt) api rt)).

(** The end of every [main]: the runner around the runtime, and a line for
    its error. *)
Definition run_chassis (setup_failed stopped : string) (grpc : option (Runner.GRPCServer State)) (rt : Rt) : M State unit :=
  match Runner.NewRunner (chassis_options (http_Server ":8080" (handler rt)) grpc 0) with
  | inr err => slog_Error setup_failed err
  | inl runner =>
      e ← Runner.RunBlocking wait runner (Some Runner.Background);
      match e with Some err => slog_Error stopped err | None => mret tt end
  end.

(** *** [examples/http_runtime] *)

Definition http_runtime_config : @HTTPRuntimeConfig W L C := service_config "dense-consumer" (30 * Second) [].

Definition status_handler : Handler E := fun w _ => Write w ok_body;; mret tt.

Definition http_runtime_setup : outcome Rt :=
  bindo (MustNewHTTPRuntime rand_Read Tracing NewHTTPMetrics summary phase_handler [] http_runtime_config)
    (api_HandleFunc "/status" status_handler).

(** The runtime in the state, and what is then run. *)
Definition http_runtime_main : outcome (Rt * M State unit) :=
  bindo http_runtime_setup (fun rt => Ret (rt, run_chassis "runner setup failed" "runner stopped" None rt)).

(** *** [examples/minimal] *)

Definition minimal_logger : Logger.Config := Logger.mkConfig "dense-example" "v1.0.0" "info" None.

Definition minimal_config : @HTTPRuntimeConfig W L C := service_config "dense-example" (15 * Second) [].

Definition hello_handler : Handler E := fun w _ =>
  edit_header (header_Set "Content-Type" "application/json");; Write w ok_body;; mret tt.

(** The program, or the line it logs instead. *)
Definition minimal_main : outcome (Rt * M State unit + string * error) :=
  bindo (NewHTTPRuntime rand_Read Tracing NewHTTPMetrics summary phase_handler [] minimal_config) (fun x =>
  match x with
  | inr err => Ret (inr ("failed to create runtime", err))
  | inl rt =>
      bindo (api_HandleFunc "/hello" hello_handler rt) (fun rt =>
      Ret (inl (rt, run_chassis "failed to create runner" "server exited with error" None rt)))
  end).

(** *** [examples/grpc_runtime] *)

Definition grpc_runtime_config (grpc_metrics : C) : @HTTPRuntimeConfig W L C :=
  service_config "dense-consumer" (30 * Second) [Some grpc_metrics].

(** What the gRPC runtime is made with: the state of its interceptors, the
    grpc library and its randomness, as in GRPCServing.v. *)
Context {Lim B S U Any Srv H : Type} `{GRPCMiddleware.Metadata} `{Tracer S} `{Gobreaker.Breaker B}
  `{RateLimit.KeyedRateLimiter Lim} `{@GRPCServing.ServerLib Lim B S U Any Srv} `{GRPCRuntime.HealthServer H}.
Context (rpc_rand_Read : M (GRPCMiddleware.rpc Lim B S U) (option (list ascii))).
Abbreviation GRPC := (GRPCServing.GRPCServing Srv * @GRPCRuntime.GRPCRuntime H)%type.

(** Its metrics as a collector, and the runtime as the server of the runner:
    Go's conversions to the interfaces. *)
Context (as_collector : GRPCMetrics -> C) (as_server : GRPC -> Runner.GRPCServer State).

Definition grpc_example_config : @GRPCServing.GRPCServingConfig Lim B S U Any :=
  GRPCServing.mkServingConfig (GRPCRuntime.mkGRPCConfig "dense-consumer" ":9090" None false [] []) []
    (GRPCServing.mkServingPreset (GRPCMiddleware.mkPresetConfig "dense-consumer" [] [] None NilInterface None None) None) None.

Definition example_grpc_runtime : GRPC + error := GRPCServing.NewGRPCRuntime rpc_rand_Read grpc_example_config.

(** The program, or the line it logs instead. *)
Definition grpc_runtime_main : outcome (Rt * M State unit + string * error) :=
  match example_grpc_runtime with
  | inr err => Ret (inr ("gRPC runtime setup failed", err))
  | inl grpcRuntime =>
      bindo (MustNewHTTPRuntime rand_Read Tracing NewHTTPMetrics summary phase_handler []
        (grpc_runtime_config (as_collector (GRPCServing.Metrics grpcRuntime.1)))) (fun rt =>
      Ret (inl (rt, run_chassis "runner setup failed" "runner stopped" (Some (as_server grpcRuntime)) rt)))
  end.
End Programs.

(** *** [examples/health_dependency] *)

(** The registry of the program; [check] is the dependency's function. *)
Definition health_dependency_registry (check : check_id) : HealthRegistry :=
  MarkStarted (RegisterDependency "redis" (Value check) check ["ready"; "startup"] (NewHealthRegistry [])).

(** *** [examples/metrics] *)

Definition example_grpc_metrics : GRPCMetrics := NewGRPCMetrics (mkGRPCMetricsConfig "dense-consumer" []).
Definition example_http_metrics : @Metrics.HTTPMetrics (option GRPCMetrics) :=
  Metrics.NewHTTPMetrics (mkMetricsConfig "dense-consumer" [] [] None [Some (Some example_grpc_metrics)]).

Definition no_content_handler {E} : Handler E := fun w _ => WriteHeader w 204.

Definition metrics_mux {E} `{MetricsState (option GRPCMetrics) E} : outcome (mux E) :=
  bindo (mux_Handle "/metrics" (MetricsHTTP.metrics_Handler (Some tt)) []) (fun m =>
  mux_Handle "/v1/status" (MetricsHTTP.metrics_Middleware (Some tt) no_content_handler) m).

(** ** The services are assembled *)

Section Assembled.
Context {W L C : Type}.
Abbreviation E := (menv L).
Context (rand_Read : M (world E) (option (list ascii))) (Tracing : string -> Middleware E)
  (NewHTTPMetrics : @HTTPRuntime.HTTPMetricsConfig C -> @HTTPRuntime.HTTPMetrics L) (summary : Handler E)
  (phase_handler : string -> Handler E).
Abbreviation New := (@NewHTTPRuntime W L C rand_Read Tracing NewHTTPMetrics summary phase_handler []).

Lemma service_assembled name timeout collectors :
  exists rt, New (service_config name timeout collectors) = Ret (inl rt) /\ apiMux rt = [].
Proof. eexists. split; reflexivity. Qed.

Lemma service_route_free name timeout collectors r rest : URLPath r = "/v1" +:+ "/" +:+ rest ->
  URLPath r ∉ (system_routes NewHTTPMetrics summary phase_handler (@service_config W L C name timeout collectors)).2.
Proof.
  intros ->. change (system_routes _ _ _ _).2 with (health_paths ++ ["/metrics"]).
  cbn [health_paths app]. rewrite !not_elem_of_cons. repeat (split; [discriminate |]). apply not_elem_of_nil.
Qed.
End Assembled.

(** ** A request to an example *)

(** A handler that answers 200 with a body, the content type left or set to
    JSON. *)
Definition answers_json {L} (h : Handler (menv L)) (body : string) : Prop :=
  forall w r (c : Clocked (world (menv L))), unwritten w (st c) ->
  header_Get (hdr (resp (st c))) "Content-Type" = "application/json" ->
  exists hd l, h w r c = (Ret tt, with_st c (mkWorld (mkResponse hd (Some (200, hd)) (interim (resp (st c)))
      (content (resp (st c)) +:+ body)) l (env (st c)))) /\
    header_Get hd "Content-Type" = "application/json" /\
    header_Get hd "X-Request-ID" = header_Get (hdr (resp (st c))) "X-Request-ID" /\
    forall id, id ∈ writer_ids w -> exists x, l !! id = Some x /\ wrote x = true /\ statusCode x = 200.

Lemma status_handler_answers {L} : answers_json (L := L) status_handler ok_body.
Proof.
  intros w r c Hu Ht. destruct (Write_first w ok_body c Hu) as (l & El & Hl); [discriminate |].
  exists (hdr (resp (st c))), l. unfold status_handler. rewrite bind_run, El. auto.
Qed.

Lemma hello_handler_answers {L} : answers_json (L := L) hello_handler ok_body.
Proof.
  intros w r c Hu Ht. unfold hello_handler. rewrite bind_run, edit_header_run. set (c1 := with_st c _).
  destruct (Write_first w ok_body c1) as (l & El & Hl); [exact Hu | discriminate |].
  exists (hdr (resp (st c1))), l. rewrite bind_run, El. split; [reflexivity |]. split; [apply header_Get_Set |].
  split; [| exact Hl]. unfold header_Get, c1. cbn [st with_st resp hdr]. now rewrite header_Values_Set_ne by discriminate.
Qed.

Section Answers.
Context {C L W : Type} `{PrometheusCollector C} `{MetricsState C L} `{!MetricsStateLaws C L} `{TracerLaws L}.
Context (rand_Read : M (world (menv L)) (option (list ascii))) (summary : Handler (menv L))
  (phase_handler : string -> Handler (menv L)).
#[local] Existing Instance state_metrics.

Hypothesis start_apart : forall tracerName name ctx (k : Clocked L),
  env_metrics (st (Start tracerName name ctx k).2) = env_metrics (st k).
Hypothesis end_apart : forall s (k : Clocked L), env_metrics (st (End_ s k).2) = env_metrics (st k).

(** The headers of the W3C propagators. *)
Definition propagated_fields : list string := ["Traceparent"; "Tracestate"; "Baggage"].
Hypothesis propagates : forall ctx kv, kv ∈ Inject ctx -> canonical kv.1 ∈ propagated_fields.

Lemma inject_keeps (kvs : list (string * string)) h key : (forall kv, kv ∈ kvs -> canonical kv.1 ∈ propagated_fields) ->
  canonical key ∉ propagated_fields ->
  header_Get (foldl (fun h kv => header_Set kv.1 kv.2 h) h kvs) key = header_Get h key.
Proof.
  intros Hk Hn. revert h Hk. induction kvs as [| kv kvs IH]; intros h Hk; [reflexivity |]. cbn [foldl].
  rewrite IH by (intros kv' Hin; apply Hk; now right). unfold header_Get. rewrite header_Values_Set_ne; [reflexivity |].
  intros Hc. apply Hn. rewrite <- Hc. apply Hk. left.
Qed.

(** The preset's headers leave the content type, and have the request ID. *)
Lemma preset_headers_keep id s r h : header_Get (preset_headers id s r h) "X-Request-ID" = id /\
  header_Get (preset_headers id s r h) "Content-Type" = header_Get h "Content-Type".
Proof.
  assert (forall key, key ∈ ["X-Request-ID"; "Content-Type"] -> header_Get (preset_headers id s r h) key =
    header_Get (header_Set "X-Request-ID" id h) key) as Hkeep.
  { intros key Hkey. assert ((canonical key ∉ propagated_fields) /\ canonical "X-Trace-ID" <> canonical key /\
      canonical "X-Span-ID" <> canonical key) as (Hf & Ht & Hs).
    { repeat (apply elem_of_cons in Hkey as [-> | Hkey]; [split; [apply (bool_decide_unpack _); vm_compute; exact I | split; discriminate] |]).
      now apply not_elem_of_nil in Hkey. }
    unfold preset_headers, traced_headers, set_id_header, inject.
    destruct (SpanID (SpanContext s)), (TraceID (SpanContext s)); unfold header_Get;
      rewrite ?header_Values_Set_ne by assumption;
      exact (inject_keeps (Inject _) _ key (propagates _) Hf). }
  split; rewrite Hkeep by set_solver; [apply header_Get_Set |].
  unfold header_Get. now rewrite header_Values_Set_ne by discriminate.
Qed.

(** The default content type is set below [/v1] if there is none. *)
Lemma content_type_set (next : Handler (menv L)) w r (c : Clocked (world (menv L))) : pathHasPrefix (URLPath r) "/v1" = true ->
  header_Get (hdr (resp (st c))) "Content-Type" = "" ->
  ContentTypeForPrefix "/v1" "application/json" next w r c =
    next w r (with_st c (with_headers (header_Set "Content-Type" "application/json") (env (st c)) (st c))).
Proof.
  intros Hp Hh. unfold ContentTypeForPrefix. change (normalizeContentTypePrefix "/v1") with "/v1". cbv zeta.
  rewrite bind_run. unfold get_header, gets. rewrite decide_True by auto. rewrite bind_run, edit_header_run. reflexivity.
Qed.

Abbreviation config name timeout collectors := (@service_config W L C name timeout collectors).

(** What the response to a request of an example is, and what is left of it:
    the body, the headers, one observation and one line. *)
Definition service_answer (body : string) (r : request) (c c3 : Clocked (world (menv L))) : Prop :=
  exists id seconds line, (client_id r <> "" -> id = client_id r) /\
  sent_code (resp (st c3)) = 200 /\ content (resp (st c3)) = content (resp (st c)) +:+ body /\
  header_Get (hdr (resp (st c3))) "Content-Type" = "application/json" /\
  header_Get (hdr (resp (st c3))) "X-Request-ID" = id /\
  env_metrics (env (st c3)) =
    add_in_flight (-1) (observe (Method r) "/v1/*" 200 seconds (add_in_flight 1 (env_metrics (env (st c))))) /\
  access_log (env (st c3)) = access_log (env (st c)) ++ [line] /\
  log_request_id line = id /\ log_path line = URLPath r /\ log_status line = 200.

(** The label of a route of an example. *)
Lemma service_label name timeout collectors (m : @Metrics.HTTPMetrics C) r rest : configured (config name timeout collectors) m ->
  URLPath r = "/v1" +:+ "/" +:+ rest -> pathLabeler m (Some r) = "/v1/*" /\ "/v1/*" ∉ ignored m.
Proof.
  intros [Hl Hi] Hr. rewrite Hl, Hi. split.
  - cbn -[metricsPathLabelerOrDefault]. unfold metricsPathLabelerOrDefault. cbv zeta.
    change (normalizeLabelPrefix (api_path (config name timeout collectors))) with "/v1".
    change (normalizeLabelPrefix (metrics_path (config name timeout collectors))) with "/metrics". rewrite Hr.
    rewrite decide_False by discriminate. rewrite !bool_decide_eq_false_2 by discriminate.
    change (has_prefix ("/v1" +:+ "/" +:+ rest) "/health/") with false. cbn [orb].
    unfold routePathHasPrefix. rewrite decide_False by (intros [? | ?]; discriminate).
    rewrite bool_decide_eq_false_2 by discriminate.
    assert (has_prefix ("/v1" +:+ "/" +:+ rest) ("/v1" +:+ "/") = true) as -> by exact (has_prefix_app "/v1/" rest).
    cbn [orb]. rewrite decide_False by discriminate. now rewrite decide_False by discriminate.
  - cbn -[elem_of list_to_set filter health_paths]. change (metrics_path (config name timeout collectors)) with "/metrics".
    apply (bool_decide_unpack _). vm_compute. exact I.
Qed.

(** The two wrappers of a request when its handler starts. *)
Lemma unwritten_pair (e : header -> header) (c c1 : Clocked (world (menv L))) : let i := length (wraps (st c)) in
  resp (st c1) = resp (with_headers e (env (st c)) (st c)) -> sent (resp (st c)) = None ->
  wraps (st c1) = wraps (st c) ++ [mkWrap 0 0 false; mkWrap 200 0 false] ->
  unwritten (WWrap (S i) (WWrapOf MetricsResponseWriter i WBase)) (st c1).
Proof.
  intros i Hresp Hsent Hwraps. split; [rewrite Hresp; exact Hsent |]. split.
  { repeat constructor; rewrite ?elem_of_cons, ?elem_of_nil; lia. }
  rewrite Hwraps. repeat constructor; eexists.
  - rewrite lookup_app_r by (unfold i; lia). replace (S i - length (wraps (st c)))%nat with 1%nat by (unfold i; lia).
    split; reflexivity.
  - rewrite lookup_app_r by (unfold i; lia). replace (i - length (wraps (st c)))%nat with 0%nat by (unfold i; lia).
    split; reflexivity.
Qed.

(** A route of an example, registered below [/v1]. *)
Lemma service_answers name timeout collectors rest h body rt rt' r (c : Clocked (world (menv L))) :
  let cfg := config name timeout collectors in let pattern := "/" +:+ rest in
  NewHTTPRuntime rand_Read Tracing.Tracing serving_metrics summary phase_handler [] cfg = Ret (inl rt) ->
  api_HandleFunc pattern h rt = Ret rt' -> Forall (fun q => literal_path q = true) (pattern :: (apiMux rt).*1) ->
  answers_json h body -> cleanPath pattern = pattern ->
  URLPath r = "/v1" +:+ pattern -> cleanPath (URLPath r) = URLPath r -> reads_random rand_Read ->
  configured cfg (env_metrics (env (st c))) -> sent (resp (st c)) = None ->
  header_Get (hdr (resp (st c))) "Content-Type" = "" ->
  exists c3, handler rt' WBase r c = (Ret tt, c3) /\ service_answer body r c c3.
Proof.
  intros cfg pattern Hnew Hreg Hlit Hh Hclean Hr Hcr Hrand [Hlab Hign] Hsent Hct.
  unfold api_HandleFunc in Hreg. unfold APIMux_of in Hreg. destruct (mux_Handle pattern h (apiMux rt)) as [api | v] eqn:Em; [| discriminate].
  cbn [bindo] in Hreg. injection Hreg as <-.
  destruct (late_route_served rand_Read Tracing.Tracing serving_metrics summary phase_handler [] cfg rt rest h api Hnew eq_refl
    (or_introl eq_refl) eq_refl eq_refl) as (inner & Hhandler & Hinner); [discriminate | reflexivity | exact Hlit | exact Em | exact Hclean |].
  rewrite Hhandler. destruct (service_label name timeout collectors _ r rest (conj Hlab Hign) Hr) as [Hpath Hnot].
  destruct (preset_request rand_Read start_apart end_apart cfg (mkPreset name timeout) inner r c eq_refl eq_refl eq_refl Hrand)
    as (id & s & c1 & Hid & Hreq & _ & Hresp & Hwraps & Hlog & Hmet & Hrun); [now rewrite Hpath |].
  set (i := length (wraps (st c))) in *. set (w := WWrap (S i) (WWrapOf MetricsResponseWriter i WBase)) in *.
  set (r' := inner_request (mkPreset name timeout) id s r) in *.
  assert (URLPath r' = URLPath r) as Hr' by (unfold r', inner_request, timed; cbn; now destruct (0 <? timeout)).
  destruct (preset_headers_keep id s r (hdr (resp (st c)))) as [Hxid Hxct].
  set (c2 := with_st c1 (with_headers (header_Set "Content-Type" "application/json") (env (st c1)) (st c1))).
  destruct (Hh w (with_path pattern r') c2) as (hd & l & El & Hhct & Hhid & Hl).
  { exact (unwritten_pair _ c c1 Hresp Hsent Hwraps). }
  { apply header_Get_Set. }
  assert (forall j, j ∈ [S i; i] -> exists x, l !! j = Some x /\ wrote x = true /\ statusCode x = 200) as Hl' by exact Hl.
  destruct (Hl' i) as (x & Ex & Hwx & Hsx); [right; left |].
  destruct (Hl' (S i)) as (y & Ey & Hwy & Hsy); [left |].
  destruct (Hrun (Ret tt) (with_st c2 (mkWorld (mkResponse hd (Some (200, hd)) (interim (resp (st c2)))
    (content (resp (st c2)) +:+ body)) l (env (st c2))))) as (c3 & status & seconds & Ec3 & Hserved & Hm3).
  { rewrite Hinner by (rewrite Hr'; (exact Hr || exact Hcr || exact (service_route_free serving_metrics summary phase_handler name timeout collectors r rest Hr))).
    rewrite content_type_set; [exact El | |].
    - rewrite Hr', Hr. unfold pathHasPrefix. rewrite decide_False by (intros [? | ?]; discriminate). apply orb_true_iff. right.
      exact (has_prefix_app "/v1/" rest).
    - rewrite Hresp. cbn [with_headers resp hdr]. now rewrite Hxct. }
  { split; [exists x; exact Ex | exists y; exact Ey]. }
  destruct Hserved as (Hresp3 & x' & y' & latency & Ex' & Ey' & Hst & Hlog3).
  assert (l !! i = Some x') as Ex2 by exact Ex'. assert (l !! S i = Some y') as Ey2 by exact Ey'.
  replace x' with x in Hst by congruence. replace y' with y in Hlog3 by congruence. clear Ex' Ey' Ex2 Ey2 x' y'.
  assert (status = 200) as -> by (rewrite Hst; unfold StatusCode; now rewrite Hwx).
  exists c3. split; [exact Ec3 |]. exists id, seconds, (access_line r' y latency).
  split; [exact Hid |]. rewrite Hresp3. split; [reflexivity |]. split; [cbn; now rewrite Hresp |].
  split; [exact Hhct |]. split.
  { cbn [st with_st resp hdr]. rewrite Hhid. cbn [c2 st with_st with_headers resp hdr]. unfold header_Get in *.
    rewrite header_Values_Set_ne by discriminate. now rewrite Hresp. }
  split; [rewrite Hm3, Hpath; do 2 f_equal; exact Hmet |]. split; [rewrite Hlog3; cbn; now rewrite Hlog |].
  split; [exact Hreq |]. split; [exact Hr' | exact Hsy].
Qed.

(** The route of the program is answered. *)
Lemma http_runtime_setup_runs : exists rt,
  http_runtime_setup (W := W) (C := C) rand_Read Tracing.Tracing serving_metrics summary phase_handler = Ret rt.
Proof. eexists. reflexivity. Qed.

(** C19. The program of [examples/http_runtime] answers every request for
    [/v1/status], whatever its method: 200 with the body of its handler, the
    JSON content type and the request's ID; it is counted once, under the
    label of the API and the status sent, and logged in one line with its
    path and ID. *)
Theorem example_status_answered rt r (c : Clocked (world (menv L))) :
  http_runtime_setup (W := W) (C := C) rand_Read Tracing.Tracing serving_metrics summary phase_handler = Ret rt ->
  URLPath r = "/v1/status" -> reads_random rand_Read ->
  configured (http_runtime_config (W := W) (L := L) (C := C)) (env_metrics (env (st c))) -> sent (resp (st c)) = None ->
  header_Get (hdr (resp (st c))) "Content-Type" = "" ->
  exists c3, handler rt WBase r c = (Ret tt, c3) /\ service_answer ok_body r c c3.
Proof.
  intros Hs Hr Hrand Hc Hsent Hct. unfold http_runtime_setup, MustNewHTTPRuntime in Hs.
  destruct (service_assembled (W := W) rand_Read Tracing.Tracing serving_metrics summary phase_handler "dense-consumer" (30 * Second) [])
    as (rt0 & E0 & Eapi). unfold http_runtime_config in Hs. rewrite E0 in Hs. cbn [bindo] in Hs.
  apply (service_answers "dense-consumer" (30 * Second) [] "status" status_handler ok_body rt0); try assumption.
  - rewrite Eapi. repeat constructor.
  - exact status_handler_answers.
  - reflexivity.
  - now rewrite Hr.
Qed.

(** *** A scrape through the preset *)

(** A path the metrics ignore goes to the preset at once. *)
Lemma ignored_path_run name timeout collectors (inner : Handler (menv L)) r (c : Clocked (world (menv L))) :
  pathLabeler (env_metrics (env (st c))) (Some r) ∈ ignored (env_metrics (env (st c))) ->
  outer rand_Read Tracing.Tracing serving_metrics (config name timeout collectors) inner WBase r c =
    preset_handler rand_Read (mkPreset name timeout) inner WBase r c.
Proof.
  intros Hi. change (outer rand_Read Tracing.Tracing serving_metrics (config name timeout collectors) inner) with
    (MetricsHTTP.metrics_Middleware (Some tt) (preset_handler rand_Read (mkPreset name timeout) inner)).
  unfold MetricsHTTP.metrics_Middleware. rewrite bind_run. unfold get_metrics, gets. now rewrite decide_True by exact Hi.
Qed.

(** The text ends with that of the last collector. *)
Lemma render_collector (m : @Metrics.HTTPMetrics C) g : collectors m = [Some g] ->
  exists own, renderPrometheus m = own +:+ AppendPrometheus g.
Proof. intros Hm. unfold renderPrometheus, append_collectors. rewrite Hm. cbn [foldl]. eexists. reflexivity. Qed.

(** The gRPC runtime of the program; its interceptors share its metrics. *)
Lemma example_grpc_made {Lim B S U Any Srv Hs : Type} `{GRPCMiddleware.Metadata} `{Tracer S} `{Gobreaker.Breaker B}
    `{RateLimit.KeyedRateLimiter Lim} `{@GRPCServing.ServerLib Lim B S U Any Srv} `{GRPCRuntime.HealthServer Hs}
    (rpc_rand_Read : M (GRPCMiddleware.rpc Lim B S U) (option (list ascii))) :
  exists gr : GRPCServing.GRPCServing Srv * @GRPCRuntime.GRPCRuntime Hs, example_grpc_runtime (Srv := Srv) (H := Hs) (Any := Any) rpc_rand_Read = inl gr /\
    GRPCServing.sv_shared gr.1 = Some (GRPCServing.Metrics gr.1).
Proof.
  eexists. split; [reflexivity |]. cbn [fst]. unfold GRPCServing.NewGRPCServing, GRPCServing.Metrics.
  now destruct (GRPCMiddleware.GRPCServerPreset rpc_rand_Read _).
Qed.

(** The route of the metrics in the program's runtime. *)
Lemma service_scrape_route name timeout collectors rt :
  NewHTTPRuntime rand_Read Tracing.Tracing serving_metrics summary phase_handler [] (config name timeout collectors) = Ret (inl rt) ->
  exists inner, handler rt = outer rand_Read Tracing.Tracing serving_metrics (config name timeout collectors) inner /\
    forall w r c, URLPath r = "/metrics" -> inner w r c = MetricsHTTP.metrics_Handler (Some tt) w r c.
Proof.
  intros Hnew. destruct (system_inner rand_Read summary phase_handler _ rt [] (MetricsHTTP.metrics_Handler (Some tt)) Hnew)
    as (inner & Hh & Hinner). exists inner. split; [exact Hh |]. intros w r c Hr.
  assert (own_metrics (config name timeout collectors)) as Hd by (repeat split).
  destruct (metrics_route_served summary phase_handler _ Hd) as [Hin Hl].
  apply (Hinner r w r c); rewrite ?Hr; try assumption; try reflexivity. now apply no_system_middleware.
Qed.

Lemma service_scrape_ignored name timeout collectors (m : @Metrics.HTTPMetrics C) r : configured (config name timeout collectors) m ->
  URLPath r = "/metrics" -> pathLabeler m (Some r) ∈ ignored m.
Proof.
  intros [-> ->] Hr. cbn -[elem_of list_to_set filter health_paths metricsPathLabelerOrDefault].
  unfold metricsPathLabelerOrDefault. cbv zeta. rewrite Hr.
  change (normalizeLabelPrefix (metrics_path (config name timeout collectors))) with "/metrics".
  change (metrics_path (config name timeout collectors)) with "/metrics". cbn [orb decide].
  apply (bool_decide_unpack _). vm_compute. exact I.
Qed.

(** A scrape through the preset. *)
Lemma preset_scrape preset (inner : Handler (menv L)) r (c : Clocked (world (menv L))) :
  (forall w r c, URLPath r = "/metrics" -> inner w r c = MetricsHTTP.metrics_Handler (Some tt) w r c) ->
  URLPath r = "/metrics" -> reads_random rand_Read -> sent (resp (st c)) = None -> let m := env_metrics (env (st c)) in
  exists c3 id line, preset_handler rand_Read preset inner WBase r c = (Ret tt, c3) /\ (client_id r <> "" -> id = client_id r) /\
  sent_code (resp (st c3)) = 200 /\ header_Get (hdr (resp (st c3))) "X-Request-ID" = id /\
  content (resp (st c3)) = content (resp (st c)) +:+ renderPrometheus m /\
  env_metrics (env (st c3)) = m /\ access_log (env (st c3)) = access_log (env (st c)) ++ [line] /\
  log_request_id line = id /\ log_path line = "/metrics" /\ log_status line = 200.
Proof.
  intros Hinner Hr Hrand Hsent m. set (i := length (wraps (st c))).
  destruct (preset_run rand_Read preset inner WBase r c Hrand)
    as (id & s & c1 & Hid & Hreq & _ & Hresp & Hwraps & Hlog & (n1 & n2 & ctx & k & Hk1 & _ & Hk2) & Hrun).
  fold i in Hrun. set (r' := inner_request preset id s r) in *.
  assert (URLPath r' = "/metrics") as Hr' by (rewrite <- Hr; unfold r', inner_request, timed; cbn; now destruct (0 <? PresetTimeout preset)).
  assert (env_metrics (env (st c1)) = m) as Hm1.
  { change (env_metrics (limiter_state (env (st c1))) = m). rewrite <- Hk2, start_apart, Hk1. reflexivity. }
  destruct (scrape_run (WWrap i WBase) r' c1) as (l & El & Hl).
  { split; [rewrite Hresp; exact Hsent |]. split; [repeat constructor; apply not_elem_of_nil |].
    rewrite Hwraps. repeat constructor. eexists. rewrite lookup_app_r by (unfold i; lia). unfold i. rewrite Nat.sub_diag.
    split; reflexivity. }
  destruct (Hl i) as (x & Ex & _ & Hsx); [left |]. rewrite Hm1 in El.
  edestruct (Hrun (Ret tt)) as (c3 & Ec3 & Hdone & k' & Hk1' & Hk2'); [rewrite Hinner by exact Hr'; exact El | exists x; exact Ex |].
  destruct Hdone as (Hresp3 & _ & x' & latency & Ex' & Hlog3). assert (l !! i = Some x') as Ex2 by exact Ex'.
  replace x' with x in Hlog3 by congruence. clear Ex' Ex2 x'.
  exists c3, id, (access_line r' x latency). split; [exact Ec3 |]. split; [exact Hid |].
  destruct (preset_headers_keep id s r (hdr (resp (st c)))) as [Hxid _].
  split; [now rewrite Hresp3 |]. split.
  { rewrite Hresp3. cbn [st with_st resp hdr]. unfold header_Get in *. rewrite header_Values_Set_ne by discriminate.
    now rewrite Hresp. }
  split; [rewrite Hresp3; cbn [st with_st resp content]; now rewrite Hresp |]. split.
  { change (env_metrics (limiter_state (env (st c3))) = m). rewrite <- Hk2', end_apart, Hk1'. exact Hm1. }
  split; [rewrite Hlog3; cbn; now rewrite Hlog |]. split; [exact Hreq |]. split; [exact Hr' | exact Hsx].
Qed.

End Answers.

(** The registry of [examples/health_dependency] serves every phase, and
    answers readiness and startup with what the dependency says; liveness
    asks nothing. *)
Lemma health_dependency_answers check err : let rg := health_dependency_registry check in
  checks_run rg "live" = [] /\ (evaluate rg "live" []).2 = true /\
  forall phase, phase ∈ ["ready"; "startup"] ->
    name <$> checks_run rg phase = ["redis"] /\ (evaluate rg phase [err]).2 = is_nil err.
Proof.
  cbv zeta. split; [reflexivity |]. split; [reflexivity |]. intros phase Hp.
  repeat (apply elem_of_cons in Hp as [-> | Hp]; [split; [reflexivity | now destruct err] |]).
  now apply not_elem_of_nil in Hp.
Qed.

(** The mux of [examples/metrics] answers its route 204 and counts it under
    its path, while the metrics ignore nothing. *)
Lemma metrics_example_counts {E} `{MetricsState (option GRPCMetrics) E} `{!MetricsStateLaws (option GRPCMetrics) E}
    m r (c : Clocked (world E)) : metrics_mux = Ret m -> URLPath r = "/v1/status" -> sent (resp (st c)) = None ->
  pathLabeler (env_metrics (env (st c))) = pathLabeler example_http_metrics -> ignored (env_metrics (env (st c))) = ∅ ->
  exists c3 seconds, mux_ServeHTTP m WBase r c = (Ret tt, c3) /\ sent_code (resp (st c3)) = 204 /\
  env_metrics (env (st c3)) =
    add_in_flight (-1) (observe (Method r) "/v1/status" 204 seconds (add_in_flight 1 (env_metrics (env (st c))))).
Proof.
  intros Hm Hr Hsent Hlab Hign. injection Hm as <-. unfold mux_ServeHTTP. rewrite Hr.
  change (cleanPath "/v1/status") with "/v1/status". change (mux_find "/v1/status" _) with
    (Some (MetricsHTTP.metrics_Middleware (Some tt) (@no_content_handler E))). cbv iota beta zeta.
  rewrite decide_True by reflexivity.
  set (i := length (wraps (st c))).
  assert (pathLabeler (env_metrics (env (st c))) (Some r) = "/v1/status") as Hp by (rewrite Hlab; cbn; rewrite Hr; reflexivity).
  destruct (WriteHeader_first (WWrapOf MetricsResponseWriter i WBase) 204 (with_st (next_tick c) (entered (st c))))
    as (l & El & Hl & _); [left; lia | |].
  { split; [exact Hsent |]. split; [repeat constructor; apply not_elem_of_nil |]. repeat constructor. eexists.
    cbn. rewrite lookup_app_r by (unfold i; lia). unfold i. rewrite Nat.sub_diag. split; reflexivity. }
  destruct (Hl i) as (x & Ex & Hx & Hs); [left |].
  destruct (metrics_run no_content_handler WBase r c) with (o := Ret tt) (x := x)
    (c2 := with_st (with_st (next_tick c) (entered (st c))) (headers_sent 204 l (st (with_st (next_tick c) (entered (st c))))))
    as (c3 & E3 & Hresp & Hm3 & _); [rewrite Hp, Hign; apply not_elem_of_empty | exact El | exact Ex |].
  exists c3. eexists. split; [exact E3 |]. split; [now rewrite Hresp |]. rewrite Hm3, Hp. unfold observed_status, StatusCode.
  rewrite Hx, Hs. do 2 f_equal. cbn. apply env_metrics_set.
Qed.

(** *** The programs, run *)

#[local] Existing Instance demo_metrics.
#[local] Existing Instance demo_metrics_laws.
#[local] Existing Instance HTTPPreset.demo_tracer.
#[local] Existing Instance HTTPPreset.demo_tracer_laws.
#[local] Existing Instance state_metrics.

Definition example_world (cfg : @HTTPRuntimeConfig unit demo_state (option GRPCMetrics)) : Clocked (world (menv demo_state)) :=
  demo_clocked (demo_world (initial_metrics (metrics_config cfg), 0%nat)).

Lemma demo_apart : (forall tracerName name ctx (k : Clocked demo_state), env_metrics (st (Start tracerName name ctx k).2) = env_metrics (st k)) /\
  (forall s (k : Clocked demo_state), env_metrics (st (End_ s k).2) = env_metrics (st k)) /\
  (forall ctx kv, kv ∈ Inject (S := demo_state) ctx -> canonical kv.1 ∈ propagated_fields).
Proof.
  split; [reflexivity |]. split; [reflexivity |]. intros ctx kv Hin. now apply not_elem_of_nil in Hin.
Qed.

Lemma example_status_answered_witness : exists rt c3,
  http_runtime_setup (W := unit) (C := option GRPCMetrics) (mret None) Tracing.Tracing serving_metrics silent (fun _ => silent) = Ret rt /\
  handler rt WBase (with_path "/v1/status" demo_request) (example_world http_runtime_config) = (Ret tt, c3) /\
  content (resp (st c3)) = "" +:+ ok_body.
Proof.
  destruct demo_apart as (Hstart & Hend & Hprop).
  destruct (http_runtime_setup_runs (W := unit) (C := option GRPCMetrics) (L := demo_state) (mret None) silent (fun _ => silent)) as [rt E].
  destruct (example_status_answered (W := unit) (C := option GRPCMetrics) (L := demo_state) (mret None) silent (fun _ => silent)
    Hstart Hend Hprop rt (with_path "/v1/status" demo_request) (example_world http_runtime_config) E) as (c3 & H1 & H2).
  - reflexivity.
  - intros c. exists None, c. split; reflexivity.
  - split; reflexivity.
  - reflexivity.
  - reflexivity.
  - destruct H2 as (id & seconds & line & _ & _ & Hbody & _). exists rt, c3. split; [exact E |]. split; [exact H1 | exact Hbody].
Defined.

Definition demo_grpc_metrics : option GRPCMetrics := Some (NewGRPCMetrics (mkGRPCMetricsConfig "dense-consumer" [])).

Definition idle_server (State : Type) : string -> Handler (menv demo_state) -> Runner.HTTPServer State :=
  fun _ _ => Runner.mkHTTPServer (mret tt) (fun _ => mret None).

#[local] Existing Instance GRPCMiddleware.demo_metadata.
#[local] Existing Instance GRPCMiddleware.demo_tracer.
#[local] Existing Instance GRPCMiddleware.demo_denies.
#[local] Existing Instance CircuitBreaker.demo_breaker.
#[local] Existing Instance GRPCRuntime.demo_health_server.
#[local] Existing Instance GRPCServing.demo_lib.

Abbreviation demo_grpc := (GRPCServing.GRPCServing (list GRPCServing.demo_option) * @GRPCRuntime.GRPCRuntime GRPCRuntime.demo_health)%type.

Definition idle_grpc {State} : demo_grpc -> Runner.GRPCServer State := fun _ => Runner.mkGRPCServer (mret tt) (mret tt) None.

